(* ===== verification/_CoqProject ===== *)
-Q . S2P
Prelude.v
Keys.v
Wire.v
HashFuncs.v
Ihash.v
LinearProbing.v
LinearProbingProps.v
CountingBloom.v
LockFreeStack.v
Config.v
PercpuPool.v
Crc.v
DriverUtil.v
WorkerThread.v
CpuStats.v
Reporting.v
Memory.v
Kv.v
KvProps.v
KvSpec.v
Server.v
ServerProps.v
ServerSpec.v
ClientFilter.v
ClientFilterSpec.v
Client.v
ClientSpec.v
ClientOrder.v
ClientMsgs.v
Backend.v
BackendSpec.v
Cleancache.v
RdmaTest.v
FilterWorker.v
System.v
Network.v
Connect.v
ConnectSpec.v
DaemonMain.v
ClientSetup.v
ClientSetupSpec.v
ClientModule.v
ClientModuleSpec.v
Pollers.v
CqPollers.v
