(* ===== verification/Prelude.v ===== *)
(** * cleancache-rdma: a verification library

    The program lets Linux clients keep clean pages of their page cache in the
    memory of a server. It has two halves under [src/]:

    - [driver/], a kernel module (C): the cleancache hooks ([main.c]), the put, get
      and invalidation handlers ([backend.c]), what the client remembers of its
      remote pages ([metadata.h], [filter/], [hashtable.c]), the RDMA data path
      ([rdma.c]), and the worker that refreshes the filter ([worker.c]);
    - [daemon/], the server (C++): request handlers and connections ([rdma.cpp]), the
      key-value store ([kv.cpp]) over a hash table with approximate LRU
      ([hash-table/]), a counting Bloom filter per client
      ([counting_bloom_filter.hpp]), and a page pool with one free list per queue
      ([percpu_pool.cpp]) on a lock-free stack ([util/lfstack.cpp]).

    A put carries a page and its key; a get reads the key from a registered region and
    answers with an RDMA write of the page; an invalidation forgets a key. The client
    consults its filter before a get or an invalidation; the daemon sends the filter
    derived from the client's counting filter on request.

    ** Files

    The shared ground: this file (machine words, outcomes, list lemmas, tactics and the
    hint databases), [Keys] (longkeys and reserved keys: [pair.h], [Ihash.hpp],
    [backend.h]), [Wire] (immediate words, byte order, metadata region: [rdma.hpp] and
    [rdma.h]), [HashFuncs] (the eight hash functions, bit for bit), [Crc], [Config].

    The daemon, from the bottom: [LockFreeStack] (threads step one memory access at a
    time), [PercpuPool], [CountingBloom], [Ihash] (the class [IHash]: what a table
    promises) with its instance [LinearProbing] and [LinearProbingProps]; [Kv] over any
    [IHash] table, with [KvProps] (the invariant [kv_inv]) and [KvSpec]; [Server] (the
    handlers, posted receives, dispatch) with [ServerProps] (the system of the daemon,
    the pages in flight and the last accepted data of each key; invariant [srv_inv])
    and [ServerSpec]; [Connect] and [ConnectSpec] (connection events, [run_rdma],
    [exit_rdma]); [Memory] (regions, protection domains and blocks over the daemon's life:
    [rdma_mem.cpp], [data_mem.hpp]); [DaemonMain] ([main] over all of them, with the threads
    it starts and their processors). Beside them: [CpuStats] (the usage the daemon reports),
    [WorkerThread] (the pool of [worker_thread.hpp]), [Reporting] (log lines, elapsed times).

    The driver: [ClientFilter] and [ClientFilterSpec]; [Client] and [ClientSpec] (put
    batches, work items, gets, invalidations); [Backend] and [BackendSpec] (handlers over
    the class [Transport] of a connection, theorems over any instance, whatever the server
    answers); [Cleancache] (the rest of [main.c]: mounting, the table of operations, loading;
    the debug files); [FilterWorker] (the rounds of [worker.c], statement by statement); [ClientSetup] and [ClientSetupSpec] (one server);
    [ClientModule] and [ClientModuleSpec] (loading and unloading the module); [DriverUtil] (the
    driver's own copies of the hash functions and checksums, with their pointers); [RdmaTest]
    (the test module, over [Backend]). About the data
    path: [ClientOrder] (work items in the order they were scheduled), [ClientMsgs] (what
    is on the wire).

    Both halves: [System] delivers a client's request to the daemon's handlers and the
    reply back; [Network] lets any number of clients, their work items, the network and the
    daemon move in any order; [ClientSetupSpec.setup_end_to_end] connects them. [CqPollers]
    holds the loops of either half that take completions off a queue and call the
    handlers of [Server] and [FilterWorker], over the class [CompletionQueue]; [Pollers]
    the adaptive interval (and the driver's bounded stack).

    Definitions keep the names of the functions they translate. State is a record
    passed explicitly; an exception or a failed [assert] is [Throw]; [None] is a loop that has
    not ended with the fuel given, or a wait for an event that has not arrived.

    ** What the theorems show

    - Storage: no page is lost or duplicated between free lists, tables, receive queues,
      pages being sent and their owners ([PercpuPool.pool_conservation],
      [KvSpec.kv_pages_conserved], [ServerSpec.server_pages_partitioned]); the table refines a
      map in which insertions may evict ([LinearProbingProps.table_refines_map]); which page
      an insertion evicts, and that pinned pages stay.
    - Answers: with the exclusive policy, the daemon's default, a get returns the data of the
      last accepted put of its key, although the card reads the page after the handler
      posted it and while the daemon goes on ([ServerSpec.get_returns_last_put], through the
      client [System.get_end_to_end]); with the inclusive policy the page can be freed and
      overwritten meanwhile ([ServerSpec.inclusive_sent_page_freed]). Puts complete. With several clients in any
      interleaving it is the client's newest page that was delivered and stored
      ([Network.get_returns_newest]), and with work items in order the last one it put
      ([Network.put_get_roundtrip], [ClientOrder.fifo_puts_in_order]).
    - Filters: while no counter overflows the daemon's filter counts exactly, and the client's
      filter reports every stored key after an update, and during it until the unblocking
      begins, when additions do not overlap (two that do can lose one:
      [ClientFilterSpec.concurrent_adds_lose_bit])
      ([CountingBloom.cbf_no_false_negative], [KvSpec.kv_no_false_negative],
      [ClientFilterSpec.filter_update_no_false_negative], [FilterWorker.one_server_rounds]).
    - Client: accepted puts are sent or waiting, one for one, and drain as long as the daemon
      replies ([ClientSpec.puts_conserved], [puts_drain]); what the driver remembers never
      keeps a get or an invalidation of an accepted page from the server
      ([BackendSpec.driver_asks_server]); every message is well formed and inside the
      daemon's region, before the counters wrap ([ClientMsgs.requests_well_formed]).
    - Concurrency: the lock-free stack is linearizable ([LockFreeStack.stack_linearizable])
      and its nodes have one owner each; the polling loops hand completions on in order, the
      driver's never sleeps over one, the daemon's may ([CqPollers.filter_handler_catches_up],
      [event_loops_sleep]); the destructor of the worker threads drains their queue.
    - Connections: [run_rdma] connects every queue for any interleaving of a client's events,
      [exit_rdma] releases every resource once, and client and daemon agree on the filter.
      From [main]'s flags to its return, the daemon is what the theorems on its handlers start
      from, every queue has its threads, and the blocks are released; the pollers are left behind
      with pointers to them ([DaemonMain.daemon_runs]).
    - The kernel's view: the hooks of a page concern its server, under the page's key, and an
      accepted page is asked for until it is invalidated ([Cleancache.hooks_ask_servers]), also by
      another filesystem and after its inode or filesystem was invalidated
      ([Cleancache.cleancache_gaps]). The test module gives back its memory, or crashes
      when an allocation fails ([RdmaTest.test_pages_life]); what its report means
      ([RdmaTest.test_module_sound]).
    - Resources: what the daemon's regions and blocks are at its end ([Memory.RdmaMem.memory_life]),
      what unloading the driver gives back and forgets ([ClientModuleSpec.load_then_unload]), and that
      it crashes for metadata of no size ([ClientModuleSpec.unsized_metadata_crashes]).
    - Encodings: immediate words, regions, longkeys, checksums, hash functions (the driver's
      copies read nothing outside the message and compute the daemon's values:
      [DriverUtil.driver_hashes_agree]), the counters of /proc/stat; the usage computed from them is a percentage ([CpuStats.usage_bounds]).
    - Where the code does not do what it means to, a theorem says what it does instead:
      counters that restart, stale pins, the request that arrives too early, the
      disconnection out of order, the cleanup that crashes, the failed server that leaves
      pointers to freed blocks, reordered puts and invalidations, rounds of several servers
      that race, event loops that block over a completion.

    ** Bounds and fuel

    [Kv.Insert] needs fuel 2 ([kv_Insert_spec]: one retry at most). [Kv.Evict] and
    [LinearProbing.Evict] retry at random positions; [Evict_returns] gives the fuel under which they
    return and [Evict_empty_spins] shows that on an empty table none is enough;
    [Evictor_round] bounds a round of the evictor. The other loops are structural or run
    on a bound of the source (probe length, number of queues, 4095 receives), or are step
    relations: a loop that polls for ever is a step that can always be taken, and
    [ClientSpec.puts_drain], [WorkerThread.destructor_drains] and
    [CqPollers.filter_handler_catches_up] show that their steps lead to an end.

    ** Modelling choices

    - Integers have the width of the source; wrap-around and [int] conversions are written out.
    - Clocks, random draws, the text of /proc, the outcome of try-locks on buckets, the CPU
      usage a handler reads and uninitialised memory are parameters.
    - Floating point is a fraction rounded to the format's precision, ties to even; exponents
      are not bounded.
    - The module's and the daemon's blocks are lists and sets of names: releasing what is not
      held throws. Nodes the client's hash table allocates per key are not counted.
    - Code under one lock is one step. The stack's accesses are sequentially consistent.
      A put, and an invalidation, is one step of the daemon; a get is two, and between them the
      card reads the page piece by piece ([Server.card_read]) while other steps happen. The
      client's ordinary filter has no lock: its additions are steps of one load or store
      ([ClientFilter.add_step]), as are the stores of the handler that ends a round
      ([FilterWorker.update_step]).
    - The card is modelled by what the code relies on: a SEND is written to the receive
      at the front of the queue, requests are read before they complete. The calls that set
      up a connection are recorded in order, and may fail. A completion queue is any instance of
      [CompletionQueue], whose laws are what the verbs document.
    - A failed [assert] throws, although a release build compiles asserts out.
    - The daemon's counters are those of a build with its counting enabled.

    ** Not modelled

Random draws; the timer macros of [util/timer.h] (no file uses them); [printf]'s formatting of
    the messages and log lines; the files behind the debug file system; a [kthread_create] that
    fails; [cpu-stats/main.cpp] (a demo). The daemon's detached threads after the clients have left:
    [daemon_runs] shows that each would read freed memory, and ends when [main] returns, provided none has. *)
From Stdlib Require Import ZArith Lia.
From coqutil Require Export Z.bitblast.
From stdpp Require Export prelude gmap list strings.
#[global] Open Scope Z_scope.

(** ** Machine words

    An unsigned [w]-bit integer of the source is a [Z] in [[0, 2^w)]; every
    operation that can leave the range is written with its wrap-around. *)

Definition wrap (w z : Z) : Z := z mod 2 ^ w.
Definition u_ok (w z : Z) : Prop := 0 <= z < 2 ^ w.

(** Conversion to a signed [int]. *)
Definition to_int (z : Z) : Z := let w := wrap 32 z in if w <? 2 ^ 31 then w else w - 2 ^ 32.

Definition add64 (a b : Z) : Z := wrap 64 (a + b).
Definition sub64 (a b : Z) : Z := wrap 64 (a - b).
Definition mul64 (a b : Z) : Z := wrap 64 (a * b).
Definition shl64 (a n : Z) : Z := wrap 64 (Z.shiftl a n).
Definition add32 (a b : Z) : Z := wrap 32 (a + b).
Definition mul32 (a b : Z) : Z := wrap 32 (a * b).
Definition shl32 (a n : Z) : Z := wrap 32 (Z.shiftl a n).

Declare Scope word_scope.
Delimit Scope word_scope with word.
Notation "a +₆₄ b" := (add64 a b) (at level 50, left associativity) : word_scope.
Notation "a -₆₄ b" := (sub64 a b) (at level 50, left associativity) : word_scope.
Notation "a *₆₄ b" := (mul64 a b) (at level 40, left associativity) : word_scope.
Notation "a <<₆₄ n" := (shl64 a n) (at level 45, left associativity) : word_scope.
Notation "a +₃₂ b" := (add32 a b) (at level 50, left associativity) : word_scope.
Notation "a *₃₂ b" := (mul32 a b) (at level 40, left associativity) : word_scope.
Notation "a <<₃₂ n" := (shl32 a n) (at level 45, left associativity) : word_scope.
Notation "a >> n" := (Z.shiftr a n) (at level 45, left associativity) : word_scope.
Notation "a ⊻ b" := (Z.lxor a b) (at level 52, left associativity) : word_scope.
Notation "a .& b" := (Z.land a b) (at level 51, left associativity) : word_scope.
Notation "a .| b" := (Z.lor a b) (at level 53, left associativity) : word_scope.
#[global] Open Scope word_scope.

Create HintDb word discriminated.

Lemma wrap_ok w z : 0 <= w -> u_ok w (wrap w z).
Proof. intros Hw. apply Z.mod_pos_bound, Z.pow_pos_nonneg; lia. Qed.

Lemma wrap_small w z : u_ok w z -> wrap w z = z.
Proof. apply Z.mod_small. Qed.

Lemma wrap_eq w x y : 0 <= w -> wrap w x = wrap w y <-> exists k, x = y + k * 2 ^ w.
Proof.
  intros Hw. unfold wrap. assert (0 < 2 ^ w) by (apply Z.pow_pos_nonneg; lia). split.
  - intros H1. exists (x / 2 ^ w - y / 2 ^ w).
    pose proof (Z.div_mod x (2 ^ w)). pose proof (Z.div_mod y (2 ^ w)). lia.
  - intros [k ->]. by rewrite Z.mod_add by lia.
Qed.

Lemma to_int_small z : - 2 ^ 31 <= z < 2 ^ 31 -> to_int z = z.
Proof.
  intros Hz. unfold to_int, wrap. destruct (decide (0 <= z)).
  - rewrite Z.mod_small by lia. by rewrite (proj2 (Z.ltb_lt _ _)) by lia.
  - rewrite <- (Z.mod_add z 1 (2 ^ 32)) by lia. rewrite Z.mod_small by lia.
    rewrite (proj2 (Z.ltb_ge _ _)) by lia. lia.
Qed.

(** An increment that may overflow, and the decrement that takes it back. *)
Lemma to_int_pred z : - 2 ^ 31 <= z < 2 ^ 31 -> to_int (to_int (z + 1) - 1) = z.
Proof.
  intros Hz. destruct (decide (z = 2 ^ 31 - 1)) as [->|]; [reflexivity|].
  rewrite (to_int_small (z + 1)) by lia. rewrite to_int_small; lia.
Qed.

(** Range of a word, read off its bits. *)
Lemma u_ok_bits w z :
  0 <= w -> u_ok w z <-> 0 <= z /\ forall i, w <= i -> Z.testbit z i = false.
Proof.
  intros Hw. split.
  - intros [H1 H2]. split; [done|]. intros i Hi.
    destruct (decide (z = 0)) as [->|]; [apply Z.bits_0|].
    apply Z.bits_above_log2; [done|]. apply Z.log2_lt_pow2 in H2; lia.
  - intros [H1 H2]. split; [done|].
    destruct (decide (z = 0)) as [->|]; [apply Z.pow_pos_nonneg; lia|].
    apply Z.log2_lt_pow2; [lia|].
    destruct (decide (Z.log2 z < w)) as [|Hge]; [done|].
    specialize (H2 (Z.log2 z)). rewrite Z.bit_log2 in H2 by lia. discriminate H2. lia.
Qed.

Section word_closure.
Context (w : Z) (Hw : 0 <= w).

Lemma lxor_ok a b : u_ok w a -> u_ok w b -> u_ok w (Z.lxor a b).
Proof.
  rewrite !u_ok_bits by done. intros [? Ha] [? Hb]. split.
  - apply Z.lxor_nonneg. lia.
  - intros i Hi. by rewrite Z.lxor_spec, Ha, Hb.
Qed.

Lemma lor_ok a b : u_ok w a -> u_ok w b -> u_ok w (Z.lor a b).
Proof.
  rewrite !u_ok_bits by done. intros [? Ha] [? Hb]. split.
  - apply Z.lor_nonneg. lia.
  - intros i Hi. by rewrite Z.lor_spec, Ha, Hb.
Qed.

Lemma land_ok a b : u_ok w a -> u_ok w b -> u_ok w (Z.land a b).
Proof.
  rewrite !u_ok_bits by done. intros [? Ha] [? Hb]. split.
  - apply Z.land_nonneg. lia.
  - intros i Hi. by rewrite Z.land_spec, Ha, Hb.
Qed.

Lemma shiftr_ok a n : 0 <= n -> u_ok w a -> u_ok w (Z.shiftr a n).
Proof.
  rewrite !u_ok_bits by done. intros Hn [? Ha]. split.
  - by apply Z.shiftr_nonneg.
  - intros i Hi. rewrite Z.shiftr_spec by lia. apply Ha. lia.
Qed.
End word_closure.

Lemma add64_ok a b : u_ok 64 (a +₆₄ b).
Proof. by apply wrap_ok. Qed.
Lemma sub64_ok a b : u_ok 64 (a -₆₄ b).
Proof. by apply wrap_ok. Qed.
Lemma mul64_ok a b : u_ok 64 (a *₆₄ b).
Proof. by apply wrap_ok. Qed.
Lemma shl64_ok a n : u_ok 64 (a <<₆₄ n).
Proof. by apply wrap_ok. Qed.
Lemma add32_ok a b : u_ok 32 (a +₃₂ b).
Proof. by apply wrap_ok. Qed.
Lemma mul32_ok a b : u_ok 32 (a *₃₂ b).
Proof. by apply wrap_ok. Qed.
Lemma shl32_ok a n : u_ok 32 (a <<₃₂ n).
Proof. by apply wrap_ok. Qed.

Lemma wrap64_ok z : u_ok 64 (wrap 64 z).
Proof. by apply wrap_ok. Qed.
Lemma wrap32_ok z : u_ok 32 (wrap 32 z).
Proof. by apply wrap_ok. Qed.
Lemma wrap8_ok z : u_ok 8 (wrap 8 z).
Proof. by apply wrap_ok. Qed.

Lemma add64_small a b : 0 <= a + b < 2 ^ 64 -> a +₆₄ b = a + b.
Proof. apply wrap_small. Qed.
Lemma sub64_small a b : 0 <= a - b < 2 ^ 64 -> a -₆₄ b = a - b.
Proof. apply wrap_small. Qed.
Lemma mul64_small a b : 0 <= a * b < 2 ^ 64 -> a *₆₄ b = a * b.
Proof. apply wrap_small. Qed.

Lemma add64_assoc a b c : a +₆₄ b +₆₄ c = a +₆₄ (b +₆₄ c).
Proof. unfold add64, wrap. rewrite Zplus_mod_idemp_l, Zplus_mod_idemp_r. f_equal. lia. Qed.

(** Closed bounds by evaluation. *)
Lemma u_ok_lt w z : (0 <=? z) && (z <? 2 ^ w) = true -> u_ok w z.
Proof. unfold u_ok. lia. Qed.

Lemma u_ok_weaken w w' z : 0 <= w <= w' -> u_ok w z -> u_ok w' z.
Proof.
  intros Hw [H1 H2]. split; [done|].
  eapply Z.lt_le_trans; [done|]. apply Z.pow_le_mono_r; lia.
Qed.

#[export] Hint Resolve lxor_ok lor_ok land_ok shiftr_ok : word.
#[export] Hint Resolve add64_ok sub64_ok mul64_ok shl64_ok add32_ok mul32_ok shl32_ok : word.
#[export] Hint Resolve wrap64_ok wrap32_ok wrap8_ok : word.
#[export] Hint Extern 2 (0 <= _)%Z => lia : word.
#[export] Hint Extern 5 (u_ok _ _) => (split; [by vm_compute | by vm_compute]) : word.

(** Closes the range side conditions of word expressions. *)
Ltac word_ok := auto 20 with word.

(** Powers of two as numerals, so that [lia] can divide by them. *)
Ltac pow_num :=
  unfold u_ok, wrap in *;
  change (2 ^ 64) with 18446744073709551616 in *; change (2 ^ 32) with 4294967296 in *;
  change (2 ^ 8) with 256 in *.

(** [lia] for goals with [/] and [mod] by constants. *)
Ltac dlia := pow_num; Z.to_euclidean_division_equations; lia.

(** ** Bit fields *)

Lemma testbit_high w z i : 0 <= w <= i -> u_ok w z -> Z.testbit z i = false.
Proof. intros Hi Hz. apply u_ok_bits in Hz as [_ Hz]; [apply Hz|]; lia. Qed.

Lemma shiftl_bit a n i : 0 <= n -> Z.testbit (Z.shiftl a n) i = (n <=? i) && Z.testbit a (i - n).
Proof.
  intros Hn. destruct (Z.leb_spec n i); simpl.
  - apply Z.shiftl_spec. lia.
  - destruct (decide (i < 0)); [by rewrite Z.testbit_neg_r by done|]. by rewrite Z.shiftl_spec_low.
Qed.

Lemma shiftr_bit a n i : Z.testbit (Z.shiftr a n) i = (0 <=? i) && Z.testbit a (i + n).
Proof.
  destruct (Z.leb_spec 0 i); simpl; [by apply Z.shiftr_spec|by apply Z.testbit_neg_r].
Qed.

(** Equality of words by bits: [bits] reduces the goal to one bit [i], pushes
    [Z.testbit] through the operations, and splits on the field [i] falls in,
    clearing bits above the width of every word in the context. *)
Ltac bits_push :=
  repeat first
  [ rewrite Z.lor_spec | rewrite Z.land_spec | rewrite Z.lxor_spec
  | rewrite shiftl_bit by lia | rewrite shiftr_bit
  | rewrite Z.testbit_mod_pow2 by lia | rewrite Z.testbit_ones by lia
  | rewrite Z.bits_0 ].
Ltac bits_simpl :=
  cbn [andb orb xorb negb];
  rewrite ?Bool.andb_false_r, ?Bool.andb_true_r, ?Bool.orb_false_r, ?Bool.orb_true_r, ?Bool.xorb_false_r.
Ltac bits_split :=
  bits_simpl;
  repeat match goal with
  | |- context [?a <? ?b] => destruct (Z.ltb_spec a b); try lia; bits_simpl
  | |- context [?a <=? ?b] => destruct (Z.leb_spec a b); try lia; bits_simpl
  | |- context [Z.testbit ?z (?i - ?n)] =>
      assert_fails (assert (0 <= i - n) by lia);
      destruct (decide (i < n)); [rewrite (Z.testbit_neg_r z (i - n)) by lia|]; bits_simpl
  | H : u_ok ?w ?z |- context [Z.testbit ?z ?i] =>
      assert_fails (assert (i < w) by lia);
      destruct (decide (i < w)); [|rewrite (testbit_high w z i) by (lia || done); bits_simpl]
  end.
Ltac bits_merge :=
  repeat match goal with
  | |- context [Z.testbit ?z ?a] =>
      match goal with
      | |- context [Z.testbit z ?b] =>
          assert_fails (constr_eq a b);
          let E := fresh in
          assert (Z.testbit z b = Z.testbit z a) as E by (f_equal; lia);
          rewrite E; clear E
      end
  end.
Ltac bits_decide :=
  repeat match goal with |- context [Z.testbit ?z ?a] => destruct (Z.testbit z a) end;
  reflexivity.
Ltac bits_close :=
  try reflexivity; try (exfalso; lia);
  bits_merge; try bits_decide.
Ltac bits :=
  unfold shl64, shl32, wrap; apply Z.bits_inj'; intros ?i ?Hi; bits_push; bits_split; bits_close.

(** Appending a field below another one: no carry, so [|] is [+]. *)
Lemma lor_shiftl_add a b n : 0 <= n -> u_ok n b -> Z.lor (Z.shiftl a n) b = a * 2 ^ n + b.
Proof.
  intros Hn Hb. rewrite <- Z.shiftl_mul_pow2 by done.
  assert (Z.land (Z.shiftl a n) b = 0) as E.
  { bits. }
  by rewrite Z.add_nocarry_lxor, Z.lxor_lor.
Qed.

(** ** Results of code that may throw

    [Throw] is a C++ exception (or a failed [assert]) with its message. *)
Inductive outcome (A : Type) : Type :=
| Ok (a : A)
| Throw (msg : string).
Arguments Ok {A} a.
Arguments Throw {A} msg.

#[global] Instance outcome_ret : MRet outcome := fun A a => Ok a.
#[global] Instance outcome_bind : MBind outcome := fun A B f o =>
  match o with Ok a => f a | Throw m => Throw m end.

(** Runs the monadic bind past an [Ok], without unfolding anything else. *)
Ltac obind := cbn [mbind outcome_bind].

Lemma outcome_bind_Ok {A B} (f : A -> outcome B) (o : outcome A) b :
  (o ≫= f) = Ok b <-> exists a, o = Ok a /\ f a = Ok b.
Proof. destruct o as [a|m]; simpl; split; [eauto|by intros (? & [= ->] & ?)|done|by intros (? & ? & _)]. Qed.

(** ** Lists *)

(** [sum_with f l]: the sum of [f] over [l]. *)
Definition sum_with {A} (f : A -> Z) (l : list A) : Z := foldr (fun x acc => f x + acc) 0 l.

Lemma sum_with_app {A} (f : A -> Z) l k : sum_with f (l ++ k) = sum_with f l + sum_with f k.
Proof. induction l as [|x l IH]; simpl; lia. Qed.

Lemma sum_with_insert {A} (f : A -> Z) (l : list A) i x y :
  l !! i = Some x -> sum_with f (<[i := y]> l) = sum_with f l - f x + f y.
Proof.
  revert i. induction l as [|z l IH]; intros [|i] Hi; simpl in *; try discriminate.
  - injection Hi as ->. lia.
  - rewrite (IH i Hi). lia.
Qed.

Lemma sum_with_perm {A} (f : A -> Z) (l k : list A) : l ≡ₚ k -> sum_with f l = sum_with f k.
Proof. induction 1; simpl; lia. Qed.

Lemma sum_with_nonneg {A} (f : A -> Z) (l : list A) : (forall x, x ∈ l -> 0 <= f x) -> 0 <= sum_with f l.
Proof.
  induction l as [|x l IH]; intros Hf; simpl; [lia|].
  pose proof (Hf x ltac:(left)). assert (0 <= sum_with f l) by (apply IH; intros; apply Hf; by right). lia.
Qed.

Lemma sum_with_elem_le {A} (f : A -> Z) (l : list A) x :
  (forall y, y ∈ l -> 0 <= f y) -> x ∈ l -> f x <= sum_with f l.
Proof.
  induction l as [|y l IH]; intros Hf Hx; [by apply not_elem_of_nil in Hx|]. simpl.
  assert (0 <= sum_with f l) by (apply sum_with_nonneg; intros; apply Hf; by right).
  apply elem_of_cons in Hx as [->|Hx]; [lia|].
  pose proof (Hf y ltac:(left)). assert (f x <= sum_with f l) by (apply IH; [intros; apply Hf; by right|done]). lia.
Qed.

(** The pages of a permuted list of lists are permuted. *)
#[export] Instance concat_perm A : Proper ((≡ₚ) ==> (≡ₚ)) (@concat A).
Proof.
  intros l1 l2. induction 1 as [|x l1 l2 _ IH|x y l|l1 l2 l3 _ IH1 _ IH2]; cbn [concat].
  - done.
  - by rewrite IH.
  - solve_Permutation.
  - by rewrite IH1.
Qed.

(** One element of a list replaced: what its image contributes is replaced. *)
Lemma concat_insert {A B} (f : A -> list B) (l : list A) i x y :
  l !! i = Some x -> f x ++ concat (f <$> <[i := y]> l) ≡ₚ f y ++ concat (f <$> l).
Proof.
  intros Hi. rewrite <- (take_drop_middle _ _ _ Hi) at 2.
  rewrite insert_take_drop by (by eapply lookup_lt_Some).
  rewrite !fmap_app, !concat_app. simpl. solve_Permutation.
Qed.

(** What every step keeps holds after any number of steps. *)
Lemma rtc_invariant {A} (R : relation A) (P : A -> Prop) x y :
  (forall a b, P a -> R a b -> P b) -> P x -> rtc R x y -> P y.
Proof. intros Hs Hx H. revert Hx. induction H; eauto. Qed.

(** ** What a program holds

    Blocks and objects by name, in a list: releasing what is not held is a double free or a
    stray pointer. *)

Section held.
Context {A : Type} `{EqDecision A}.
Implicit Types (r : A) (h l : list A).

Fixpoint remove1 r l : option (list A) :=
  match l with
  | [] => None
  | x :: l => if decide (x = r) then Some l else l ← remove1 r l; Some (x :: l)
  end.
Definition release r h : outcome (list A) := match remove1 r h with Some l => Ok l | None => Throw "released twice" end.
Fixpoint release_all (rs : list A) h : outcome (list A) :=
  match rs with [] => Ok h | r :: rs => h ← release r h; release_all rs h end.

Lemma remove1_elem r l : r ∈ l -> exists l', remove1 r l = Some l' /\ l ≡ₚ r :: l'.
Proof.
  induction l as [|x l IH]; [by intros ?%not_elem_of_nil|]. intros H. cbn [remove1]. destruct (decide (x = r)) as [->|Hne]; [by exists l|].
  apply elem_of_cons in H as [->|H]; [done|]. destruct (IH H) as (l' & -> & P). exists (x :: l'). split; [done|].
  rewrite P. apply Permutation_swap.
Qed.

Lemma release_ok r h rest : h ≡ₚ r :: rest -> exists h', release r h = Ok h' /\ h' ≡ₚ rest.
Proof.
  intros P. destruct (remove1_elem r h) as (h' & E & P'); [rewrite P; left|]. unfold release. rewrite E. exists h'. split; [done|].
  rewrite P in P'. by apply Permutation_cons_inv in P'.
Qed.

Lemma release_all_ok rs h rest : h ≡ₚ rs ++ rest -> exists h', release_all rs h = Ok h' /\ h' ≡ₚ rest.
Proof.
  revert h. induction rs as [|r rs IH]; intros h P; cbn [release_all]; [by exists h|].
  destruct (release_ok r h (rs ++ rest) P) as (h' & -> & P'). obind. by apply IH.
Qed.
End held.

(** Solves a rearrangement of concrete lists around opaque ones. *)
Ltac perm := cbn [app]; solve_Permutation.
