(* ===== verification/Keys.v ===== *)
(** * Keys: reserved keys and the 64-bit longkey

    [daemon/util/pair.h], the longkey functions of [daemon/Ihash.hpp] and of
    [driver/backend.h], and the choice of the backend for a page. *)
From S2P Require Import Prelude.

(** ** Reserved keys ([daemon/util/pair.h]) *)

Definition INVALID : Z := 0xffffffffffffffff.
Definition SENTINEL : Z := 0xfffffffffffffffe.
Definition TOMBSTONE : Z := 0xfffffffffffffffc.
Definition INVALID32 : Z := 0xffffffff.
Definition NONE : Z := 0x0.

(** ** Longkeys: 64 bits = 4 (client) + 32 (inode) + 28 (page index) *)

(** [daemon/Ihash.hpp]: [cli_id], [inode] are [uint64_t], [index] is [uint32_t]. *)
Definition make_longkey (cli_id inode index : Z) : Z :=
  let longkey := inode <<₆₄ (32 - 4) in
  let longkey := longkey .| index in
  longkey .| (cli_id <<₆₄ 60).

Definition longkey_to_cid (longkey : Z) : Z := wrap 32 (longkey >> 60).

Definition longkey_to_inode (longkey : Z) : Z :=
  wrap 32 ((longkey >> (32 - 4)) .& (Z.shiftl 1 32 - 1)).

Definition longkey_to_offset (longkey : Z) : Z :=
  wrap 32 (longkey .& (Z.shiftl 1 (28 + 1) - 1)).

(** ** The driver's copy ([driver/backend.h]): [index] is a [u64] *)
Module Driver.
Definition make_longkey (cli_id inode index : Z) : Z :=
  let longkey := inode <<₆₄ (32 - 4) in
  let longkey := longkey .| index in
  longkey .| (cli_id <<₆₄ 60).

Definition longkey_to_cid (longkey : Z) : Z := wrap 32 (longkey >> 60).

Definition longkey_to_inode (longkey : Z) : Z :=
  wrap 32 ((longkey >> (32 - 4)) .& (Z.shiftl 1 32 - 1)).

Definition longkey_to_offset (longkey : Z) : Z :=
  wrap 32 (longkey .& (Z.shiftl 1 (28 + 1) - 1)).

(** The server a page is cached on; [GOLDEN_RATIO_64] comes from the kernel's
    [linux/hash.h]. *)
Definition get_backend_id (GOLDEN_RATIO_64 num_svrs ino index : Z) : Z :=
  if num_svrs =? 1 then 0
  else
    let key := ino <<₆₄ 32 in
    let key := key .| index in
    (key *₆₄ GOLDEN_RATIO_64) mod num_svrs.
End Driver.

(** ** Lemmas *)

Lemma ones_mask n : 0 <= n -> Z.shiftl 1 n - 1 = Z.ones n.
Proof. intros Hn. by rewrite Z.shiftl_1_l, Z.ones_equiv, Z.sub_1_r. Qed.

Lemma make_longkey_ok cid ino idx : u_ok 64 idx -> u_ok 64 (make_longkey cid ino idx).
Proof. intros Hi. unfold make_longkey. word_ok. Qed.
#[export] Hint Resolve make_longkey_ok : word.

(** The longkey as a number, when every field fits its width. *)
Lemma make_longkey_add cid ino idx :
  u_ok 4 cid -> u_ok 32 ino -> u_ok 28 idx ->
  make_longkey cid ino idx = cid * 2 ^ 60 + ino * 2 ^ 28 + idx.
Proof.
  intros Hc Hi Hx. unfold make_longkey, shl64.
  rewrite !wrap_small by (unfold u_ok in *; rewrite Z.shiftl_mul_pow2 by done; lia).
  rewrite Z.lor_comm, lor_shiftl_add; [| done |].
  - rewrite lor_shiftl_add by done. lia.
  - apply lor_ok; [done| |by apply (u_ok_weaken 28)].
    unfold u_ok in *. rewrite Z.shiftl_mul_pow2 by done. lia.
Qed.

(** ** Properties *)

(** Whatever 64-bit client id and inode and whatever 32-bit index go
    into a longkey, the decoders return the fields as follows: the client id is
    or-ed with the inode's bits above 32, the inode with the index's bits above
    28, and the offset decoder, whose mask is 29 bits wide, also returns the
    lowest inode bit. *)
Theorem longkey_decode cid ino idx :
  u_ok 64 cid -> u_ok 64 ino -> u_ok 32 idx ->
  longkey_to_cid (make_longkey cid ino idx) = (cid mod 2 ^ 4) .| ((ino >> 32) mod 2 ^ 4) /\
  longkey_to_inode (make_longkey cid ino idx) = (ino mod 2 ^ 32) .| (idx >> 28) /\
  longkey_to_offset (make_longkey cid ino idx) = ((ino mod 2) * 2 ^ 28) .| (idx mod 2 ^ 29).
Proof.
  intros Hc Hi Hx.
  unfold longkey_to_cid, longkey_to_inode, longkey_to_offset, make_longkey.
  rewrite !ones_mask, <- Z.shiftl_mul_pow2 by done.
  replace (ino mod 2) with (ino mod 2 ^ 1) by done.
  split_and!; bits.
Qed.

Lemma longkey_decode_witness :
  longkey_to_cid (make_longkey 1 7 3) = (1 mod 2 ^ 4) .| ((7 >> 32) mod 2 ^ 4) /\
  longkey_to_inode (make_longkey 1 7 3) = (7 mod 2 ^ 32) .| (3 >> 28) /\
  longkey_to_offset (make_longkey 1 7 3) = ((7 mod 2) * 2 ^ 28) .| (3 mod 2 ^ 29).
Proof. apply (longkey_decode 1 7 3); by apply u_ok_lt. Defined.

(** The offset of an odd inode comes back with the inode's lowest bit. *)
Example longkey_offset_odd : longkey_to_offset (make_longkey 1 7 3) = 2 ^ 28 + 3.
Proof. reflexivity. Qed.

(** A client number below 16, a 32-bit inode and a 28-bit page index
    determine their longkey: different pages never share a key. *)
Theorem make_longkey_inj c1 i1 x1 c2 i2 x2 :
  u_ok 4 c1 -> u_ok 32 i1 -> u_ok 28 x1 ->
  u_ok 4 c2 -> u_ok 32 i2 -> u_ok 28 x2 ->
  make_longkey c1 i1 x1 = make_longkey c2 i2 x2 -> (c1, i1, x1) = (c2, i2, x2).
Proof.
  intros ??????. rewrite !make_longkey_add by done. unfold u_ok in *.
  intros E. assert (c1 = c2) as -> by lia. assert (i1 = i2) as -> by lia.
  repeat f_equal. lia.
Qed.

Lemma make_longkey_inj_witness : (1, 7, 3) = (1, 7, 3).
Proof. apply make_longkey_inj; try (by apply u_ok_lt). reflexivity. Defined.

(** A longkey is one of the table's reserved keys only for the last
    client number, the all-ones inode and a page index in the last four. *)
Theorem make_longkey_reserved c i x :
  u_ok 4 c -> u_ok 32 i -> u_ok 28 x ->
  (make_longkey c i x = INVALID <-> c = 15 /\ i = 2 ^ 32 - 1 /\ x = 2 ^ 28 - 1) /\
  (make_longkey c i x = TOMBSTONE <-> c = 15 /\ i = 2 ^ 32 - 1 /\ x = 2 ^ 28 - 4).
Proof.
  intros. rewrite make_longkey_add by done. unfold u_ok, INVALID, TOMBSTONE in *. lia.
Qed.

Lemma make_longkey_reserved_witness :
  (make_longkey 1 7 3 = INVALID <-> 1 = 15 /\ 7 = 2 ^ 32 - 1 /\ 3 = 2 ^ 28 - 1) /\
  (make_longkey 1 7 3 = TOMBSTONE <-> 1 = 15 /\ 7 = 2 ^ 32 - 1 /\ 3 = 2 ^ 28 - 4).
Proof. apply (make_longkey_reserved 1 7 3); by apply u_ok_lt. Defined.

(** The driver and the daemon build and read longkeys alike. *)
Theorem longkey_driver_daemon c i x k :
  Driver.make_longkey c i x = make_longkey c i x /\
  Driver.longkey_to_cid k = longkey_to_cid k /\
  Driver.longkey_to_inode k = longkey_to_inode k /\
  Driver.longkey_to_offset k = longkey_to_offset k.
Proof. done. Qed.

Lemma get_backend_id_bound g n ino idx :
  0 < n -> 0 <= Driver.get_backend_id g n ino idx < n.
Proof.
  intros Hn. unfold Driver.get_backend_id. case_match; [lia|].
  by apply Z.mod_pos_bound.
Qed.
