(* ===== verification/Wire.v ===== *)
(** * Wire: the messages between the driver and the daemon

    The immediate data word, the message and transaction numbers, the layout of
    the metadata region and the default RDMA configuration: [daemon/rdma.hpp],
    [daemon/rdma.cpp], [driver/rdma.h] and [driver/rdma.c]. *)
From S2P Require Import Prelude.

(** ** Enumerations *)

Definition MSG_WRITE_REQUEST : Z := 1.
Definition MSG_WRITE_REQUEST_REPLY : Z := 2.
Definition MSG_WRITE : Z := 3.
Definition MSG_WRITE_REPLY : Z := 4.
Definition MSG_READ_REQUEST : Z := 5.
Definition MSG_READ_REQUEST_REPLY : Z := 6.
Definition MSG_READ : Z := 7.
Definition MSG_READ_REPLY : Z := 8.
Definition MSG_INV_PAGE : Z := 9.
Definition MSG_INV_PAGE_REPLY : Z := 10.

Definition TX_WRITE_BEGIN : Z := 1.
Definition TX_WRITE_READY : Z := 2.
Definition TX_WRITE_COMMITTED : Z := 3.
Definition TX_WRITE_ABORTED : Z := 4.
Definition TX_READ_BEGIN : Z := 5.
Definition TX_READ_READY : Z := 6.
Definition TX_READ_COMMITTED : Z := 7.
Definition TX_READ_ABORTED : Z := 8.
Definition TX_INV_PAGE_BEGIN : Z := 9.
Definition TX_INV_PAGE_COMMITED : Z := 10.
Definition TX_INV_PAGE_ABORTED : Z := 11.

Definition FILTER_UPDATE_BEGIN : Z := 100.
Definition FILTER_UPDATE_END : Z := 101.

Definition QP_MAX_SEND_WR : Z := 4096.
Definition QP_MAX_RECV_WR : Z := QP_MAX_SEND_WR.
Definition MAX_QPS_RECVS : Z := QP_MAX_RECV_WR - 1.

(** ** The immediate data word *)

Definition IMM_MID_BIT : Z := 12.
Definition IMM_MSG_BIT : Z := 4.
Definition IMM_TX_BIT : Z := 4.
Definition IMM_ETC_BIT : Z := 4.
Definition IMM_CRC_BIT : Z := 8.
Definition IMM_MID_SHIFT : Z := 32 - IMM_MID_BIT.
Definition IMM_MSG_SHIFT : Z := IMM_MID_SHIFT - IMM_MSG_BIT.
Definition IMM_TX_SHIFT : Z := IMM_MSG_SHIFT - IMM_TX_BIT.
Definition IMM_ETC_SHIFT : Z := IMM_TX_SHIFT - IMM_ETC_BIT.
Definition IMM_MID_MASK : Z := Z.shiftl 1 IMM_MID_BIT - 1.
Definition IMM_MSG_MASK : Z := Z.shiftl 1 IMM_MSG_BIT - 1.
Definition IMM_TX_MASK : Z := Z.shiftl 1 IMM_TX_BIT - 1.
Definition IMM_ETC_MASK : Z := Z.shiftl 1 IMM_ETC_BIT - 1.
Definition IMM_CRC_MASK : Z := Z.shiftl 1 IMM_CRC_BIT - 1.

(** The decoded fields. *)
Record imm := Imm { i_mid : Z; i_msg : Z; i_tx : Z; i_etc : Z; i_crc : Z }.

(** [int] arguments, cast to [uint32_t]. *)
Definition bit_mask (mid msg tx etc crc : Z) : Z :=
  (wrap 32 mid <<₃₂ IMM_MID_SHIFT) .| (wrap 32 msg <<₃₂ IMM_MSG_SHIFT)
  .| (wrap 32 tx <<₃₂ IMM_TX_SHIFT) .| (wrap 32 etc <<₃₂ IMM_ETC_SHIFT)
  .| wrap 32 crc.

(** The out-parameters [etc] and [crc] may be null in the source; a caller that
    passes null does not use the field. *)
Definition bit_unmask (target : Z) : imm :=
  {| i_mid := (target >> IMM_MID_SHIFT) .& IMM_MID_MASK;
     i_msg := (target >> IMM_MSG_SHIFT) .& IMM_MSG_MASK;
     i_tx := (target >> IMM_TX_SHIFT) .& IMM_TX_MASK;
     i_etc := (target >> IMM_ETC_SHIFT) .& IMM_ETC_MASK;
     i_crc := target .& IMM_CRC_MASK |}.

(** Network byte order on a little-endian host: [htonl] and [ntohl] both swap
    the four bytes. *)
Definition htonl (x : Z) : Z :=
  ((x .& 0xff) <<₃₂ 24) .| ((x .& 0xff00) <<₃₂ 8)
  .| ((x .& 0xff0000) >> 8) .| ((x .& 0xff000000) >> 24).
Definition ntohl : Z -> Z := htonl.

(** ** Configuration and metadata region *)

Record rdma_config := RdmaConfig {
  num_get_qps : Z;
  num_data_qps : Z;
  num_filter_qps : Z;
  num_qps : Z;
  num_msgs : Z;
  get_metadata_size : Z;
  inv_metadata_size : Z;
  metadata_size : Z;
  metadata_mr_size : Z;
}.

Definition sizeof_u64 : Z := 8.
Definition PAGE_SIZE : Z := 4096.

Definition dcc_rdma_set_default_config : rdma_config :=
  let num_get_qps := 6 in
  let num_data_qps := 2 + num_get_qps in
  let num_filter_qps := 1 in
  let num_qps := num_data_qps + num_filter_qps in
  let num_msgs := 512 in
  let get_metadata_size := sizeof_u64 * 2 in
  let inv_metadata_size := sizeof_u64 * num_msgs in
  let metadata_size := get_metadata_size + inv_metadata_size in
  let metadata_mr_size := num_data_qps * metadata_size in
  RdmaConfig num_get_qps num_data_qps num_filter_qps num_qps num_msgs
    get_metadata_size inv_metadata_size metadata_size metadata_mr_size.

(** [daemon/rdma.hpp]: where the daemon reads the key of a request. *)
Definition KEY_META_REGION (c : rdma_config) (addr qid mid type : Z) : Z :=
  if type =? MSG_READ then addr +₆₄ (metadata_size c *₆₄ qid)
  else if type =? MSG_INV_PAGE then
    addr +₆₄ (metadata_size c *₆₄ qid) +₆₄ get_metadata_size c +₆₄ (mid *₆₄ sizeof_u64)
  else wrap 64 (-1).

Definition ADDR_META_REGION (c : rdma_config) (addr qid mid : Z) : Z :=
  KEY_META_REGION c addr qid mid MSG_READ +₆₄ sizeof_u64.

(** ** The driver's side ([driver/rdma.h], [driver/rdma.c]) *)
Module Driver.
Definition bit_mask (mid msg tx etc crc : Z) : Z :=
  (wrap 32 mid <<₃₂ IMM_MID_SHIFT) .| (wrap 32 msg <<₃₂ IMM_MSG_SHIFT)
  .| (wrap 32 tx <<₃₂ IMM_TX_SHIFT) .| (wrap 32 etc <<₃₂ IMM_ETC_SHIFT)
  .| wrap 32 crc.

Definition bit_unmask (target : Z) : imm :=
  {| i_mid := (target >> IMM_MID_SHIFT) .& IMM_MID_MASK;
     i_msg := (target >> IMM_MSG_SHIFT) .& IMM_MSG_MASK;
     i_tx := (target >> IMM_TX_SHIFT) .& IMM_TX_MASK;
     i_etc := (target >> IMM_ETC_SHIFT) .& IMM_ETC_MASK;
     i_crc := target .& IMM_CRC_MASK |}.

(** The driver's configuration has one more field, the put batch. *)
Record driver_config := DriverConfig { d_rdma : rdma_config; num_put_batch : Z }.

Definition dcc_rdma_set_default_config : driver_config :=
  let num_get_qps := 6 in
  let num_data_qps := 2 + num_get_qps in
  let num_filter_qps := 1 in
  let num_qps := num_data_qps + num_filter_qps in
  let num_msgs := 512 in
  let num_put_batch := 32 in
  let get_metadata_size := sizeof_u64 * 2 in
  let inv_metadata_size := sizeof_u64 * num_msgs in
  let metadata_size := get_metadata_size + inv_metadata_size in
  let metadata_mr_size := num_data_qps * metadata_size in
  DriverConfig
    (RdmaConfig num_get_qps num_data_qps num_filter_qps num_qps num_msgs
       get_metadata_size inv_metadata_size metadata_size metadata_mr_size)
    num_put_batch.

(** Where the driver writes the request, relative to the region's base. *)
Definition GET_METADATA_OFFSET (c : rdma_config) (queue_id msg_id msg_type : Z) : Z :=
  if msg_type =? MSG_READ then metadata_size c *₆₄ queue_id
  else if msg_type =? MSG_INV_PAGE then
    (metadata_size c *₆₄ queue_id) +₆₄ get_metadata_size c +₆₄ (msg_id *₆₄ sizeof_u64)
  else wrap 64 (-1).
End Driver.

(** The bytes a request occupies: 16 for a read (key and remote address), 8 for
    an invalidation (key only). *)
Definition request_size (type : Z) : Z :=
  if type =? MSG_READ then 2 * sizeof_u64 else sizeof_u64.

(** A request the driver can issue: a data queue, a message number, and one of
    the two message types that use the region. *)
Definition valid_request (c : rdma_config) (qid mid type : Z) : Prop :=
  0 <= qid < num_data_qps c /\ 0 <= mid < num_msgs c /\
  (type = MSG_READ \/ type = MSG_INV_PAGE).

(** ** Lemmas *)

(** Shifts as numerals and masks as runs of ones, the forms [bits] reads. *)
Ltac imm_unfold :=
  change IMM_MID_SHIFT with 20; change IMM_MSG_SHIFT with 16;
  change IMM_TX_SHIFT with 12; change IMM_ETC_SHIFT with 8;
  change IMM_MID_MASK with (Z.ones 12); change IMM_MSG_MASK with (Z.ones 4);
  change IMM_TX_MASK with (Z.ones 4); change IMM_ETC_MASK with (Z.ones 4);
  change IMM_CRC_MASK with (Z.ones 8).

Lemma bit_mask_ok mid msg tx etc crc : u_ok 32 (bit_mask mid msg tx etc crc).
Proof. unfold bit_mask. word_ok. Qed.
#[export] Hint Resolve bit_mask_ok : word.

Lemma htonl_ok x : u_ok 32 x -> u_ok 32 (htonl x).
Proof. intros Hx. unfold htonl. word_ok. Qed.

(** Byte masks as shifted ones, so that [bits] can read them. *)
Lemma byte_masks :
  0xff = Z.ones 8 /\ 0xff00 = Z.shiftl (Z.ones 8) 8 /\
  0xff0000 = Z.shiftl (Z.ones 8) 16 /\ 0xff000000 = Z.shiftl (Z.ones 8) 24.
Proof. done. Qed.

Lemma htonl_involutive x : u_ok 32 x -> htonl (htonl x) = x.
Proof.
  intros Hx. unfold htonl.
  destruct byte_masks as (-> & -> & -> & ->). bits.
Qed.

(** The fields of a word: the last four must fit, the message number is cut to
    its 12 bits. *)
Lemma bit_unmask_mask mid msg tx etc crc :
  u_ok 4 msg -> u_ok 4 tx -> u_ok 4 etc -> u_ok 8 crc ->
  bit_unmask (bit_mask mid msg tx etc crc) = Imm (mid mod 2 ^ 12) msg tx etc crc.
Proof.
  intros Hmsg Htx Hetc Hcrc. unfold bit_unmask, bit_mask. imm_unfold. f_equal; bits.
Qed.

(** A region offset of the default configuration needs no wrap-around. *)
Lemma region_offset qid mid type :
  valid_request dcc_rdma_set_default_config qid mid type ->
  Driver.GET_METADATA_OFFSET dcc_rdma_set_default_config qid mid type =
    4112 * qid + (if type =? MSG_READ then 0 else 16 + 8 * mid).
Proof.
  intros (Hq & Hm & Ht). cbn in Hq, Hm. unfold Driver.GET_METADATA_OFFSET.
  change (metadata_size _) with 4112. change (get_metadata_size _) with 16. unfold sizeof_u64.
  destruct Ht as [-> | ->]; rewrite (mul64_small 4112 qid) by lia.
  - simpl. lia.
  - change (MSG_INV_PAGE =? MSG_READ) with false. change (MSG_INV_PAGE =? MSG_INV_PAGE) with true.
    rewrite (mul64_small mid 8), (add64_small (4112 * qid)), add64_small by lia. lia.
Qed.

Lemma unmask_sent mid msg tx etc crc :
  u_ok 12 mid -> 1 <= msg <= MSG_INV_PAGE_REPLY -> 1 <= tx <= TX_INV_PAGE_ABORTED ->
  u_ok 4 etc -> u_ok 8 crc ->
  bit_unmask (ntohl (htonl (Driver.bit_mask mid msg tx etc crc))) = Imm mid msg tx etc crc /\
  Driver.bit_unmask (ntohl (htonl (bit_mask mid msg tx etc crc))) = Imm mid msg tx etc crc.
Proof.
  unfold MSG_INV_PAGE_REPLY, TX_INV_PAGE_ABORTED, ntohl. intros Hmid Hmsg Htx Hetc Hcrc.
  change Driver.bit_mask with bit_mask. change Driver.bit_unmask with bit_unmask.
  rewrite htonl_involutive by word_ok.
  rewrite bit_unmask_mask by (done || (unfold u_ok; lia)).
  by rewrite Z.mod_small by done.
Qed.

(** ** Properties *)

(** C37: The daemon reads from the network word the driver sends exactly the
    message number, the type and the state the driver put into it, for every
    message number below 4096 and every message type and state of the
    protocol; the same holds for the replies the daemon sends, etc and crc
    included. *)
Theorem imm_roundtrip mid msg tx etc crc :
  u_ok 12 mid -> 1 <= msg <= MSG_INV_PAGE_REPLY -> 1 <= tx <= TX_INV_PAGE_ABORTED ->
  u_ok 4 etc -> u_ok 8 crc ->
  bit_unmask (ntohl (htonl (Driver.bit_mask mid msg tx etc crc))) = Imm mid msg tx etc crc /\
  Driver.bit_unmask (ntohl (htonl (bit_mask mid msg tx etc crc))) = Imm mid msg tx etc crc.
Proof. apply unmask_sent. Qed.

Lemma imm_roundtrip_witness :
  u_ok 12 511 /\ bit_unmask (ntohl (htonl (Driver.bit_mask 511 MSG_INV_PAGE TX_INV_PAGE_BEGIN 0 0)))
    = Imm 511 9 9 0 0.
Proof.
  assert (forall w z, (0 <=? z) && (z <? 2 ^ w) = true -> u_ok w z) as Hu.
  { intros w z H. unfold u_ok. lia. }
  split; [by apply Hu|].
  apply (imm_roundtrip 511 MSG_INV_PAGE TX_INV_PAGE_BEGIN 0 0); (by apply Hu) || by (split; vm_compute).
Defined.

(** The daemon looks for a request at the very address the driver
    wrote it to: the region's base plus the driver's offset, and the remote
    address follows the key. *)
Theorem region_driver_daemon c base qid mid type :
  valid_request c qid mid type ->
  KEY_META_REGION c base qid mid type =
    base +₆₄ Driver.GET_METADATA_OFFSET c qid mid type /\
  ADDR_META_REGION c base qid mid =
    base +₆₄ Driver.GET_METADATA_OFFSET c qid mid MSG_READ +₆₄ sizeof_u64.
Proof.
  intros (_ & _ & Ht). unfold ADDR_META_REGION, KEY_META_REGION, Driver.GET_METADATA_OFFSET.
  split; [|done]. destruct Ht as [-> | ->]; [done|].
  by rewrite !add64_assoc.
Qed.

Lemma demo_request qid mid type :
  (0 <=? qid) && (qid <? 8) && (0 <=? mid) && (mid <? 512) && ((type =? MSG_READ) || (type =? MSG_INV_PAGE)) = true ->
  valid_request dcc_rdma_set_default_config qid mid type.
Proof.
  rewrite !andb_true_iff, orb_true_iff, !Z.leb_le, !Z.ltb_lt, !Z.eqb_eq. intros [[[[H1 H2] H3] H4] H5].
  unfold valid_request. cbn. lia.
Qed.

Lemma region_driver_daemon_witness :
  KEY_META_REGION dcc_rdma_set_default_config 4096 3 7 MSG_INV_PAGE =
    4096 +₆₄ Driver.GET_METADATA_OFFSET dcc_rdma_set_default_config 3 7 MSG_INV_PAGE /\
  ADDR_META_REGION dcc_rdma_set_default_config 4096 3 7 =
    4096 +₆₄ Driver.GET_METADATA_OFFSET dcc_rdma_set_default_config 3 7 MSG_READ +₆₄ sizeof_u64.
Proof. apply region_driver_daemon. by apply demo_request. Defined.

(** With the default configuration every request fits the registered
    region, and the bytes of two different requests are disjoint (a data
    queue has a single read slot, whatever the message number). *)
Theorem region_disjoint q1 m1 t1 q2 m2 t2 :
  valid_request dcc_rdma_set_default_config q1 m1 t1 ->
  valid_request dcc_rdma_set_default_config q2 m2 t2 ->
  let off q m t := Driver.GET_METADATA_OFFSET dcc_rdma_set_default_config q m t in
  0 <= off q1 m1 t1 /\
  off q1 m1 t1 + request_size t1 <= metadata_mr_size dcc_rdma_set_default_config /\
  ((q1, t1) = (q2, t2) /\ (t1 = MSG_READ \/ m1 = m2) \/
   off q1 m1 t1 + request_size t1 <= off q2 m2 t2 \/
   off q2 m2 t2 + request_size t2 <= off q1 m1 t1).
Proof.
  intros V1 V2 off. unfold off. rewrite !region_offset by done.
  destruct V1 as (Hq1 & Hm1 & Ht1), V2 as (Hq2 & Hm2 & Ht2). cbn in Hq1, Hm1, Hq2, Hm2.
  change (metadata_mr_size _) with 32896. unfold request_size, sizeof_u64, MSG_READ, MSG_INV_PAGE in *.
  destruct Ht1 as [-> | ->], Ht2 as [-> | ->]; cbn [Z.eqb Pos.eqb]; (split; [lia|split; [lia|]]).
  - destruct (decide (q1 = q2)) as [->|]; [left; auto|right; lia].
  - right. lia.
  - right. lia.
  - destruct (decide (q1 = q2)) as [->|]; [|right; lia].
    destruct (decide (m1 = m2)) as [->|]; [left; auto|right; lia].
Qed.

Lemma region_disjoint_witness :
  let off q m t := Driver.GET_METADATA_OFFSET dcc_rdma_set_default_config q m t in
  0 <= off 3 7 MSG_INV_PAGE /\
  off 3 7 MSG_INV_PAGE + request_size MSG_INV_PAGE <= metadata_mr_size dcc_rdma_set_default_config /\
  ((3, MSG_INV_PAGE) = (3, MSG_READ) /\ (MSG_INV_PAGE = MSG_READ \/ 7 = 0) \/
   off 3 7 MSG_INV_PAGE + request_size MSG_INV_PAGE <= off 3 0 MSG_READ \/
   off 3 0 MSG_READ + request_size MSG_READ <= off 3 7 MSG_INV_PAGE).
Proof. apply (region_disjoint 3 7 MSG_INV_PAGE 3 0 MSG_READ); by apply demo_request. Defined.
