(* ===== verification/HashFuncs.v ===== *)
(** * HashFuncs: the eight hash functions of [daemon/util/hash-funcs/]

    A buffer is a [list Z] of bytes; a pointer into it is the suffix it points
    to, so [p < end] is a test on the suffix' length. The functions are the
    general ones, for messages of any length; the table and the filters call
    them on the eight bytes of a key ([key_bytes]). A loop runs on fuel, and
    [length Msg] units are always enough: every iteration consumes bytes. *)
From S2P Require Import Prelude.

(** ** Loads *)

Definition byte_at (i : nat) (l : list Z) : Z := nth i l 0.

(** Little-endian load of [n] bytes. *)
Fixpoint le_load (n : nat) (l : list Z) : Z :=
  match n with
  | O => 0
  | S n => byte_at 0 l .| Z.shiftl (le_load n (tail l)) 8
  end.

(** A [char] of the source is signed: its conversion to [size_t]. *)
Definition sext8 (b : Z) : Z := if b <? 128 then b else wrap 64 (b - 256).

(** The object representation of a key, as [&key, sizeof(Key_t)] passes it. *)
Definition key_bytes (k : Z) : list Z :=
  map (fun i => (k >> (8 * Z.of_nat i)) mod 2 ^ 8) (seq 0 8).

Definition rotl64 (x r : Z) : Z := (x <<₆₄ r) .| (x >> (64 - r)).

(** ** komihash.h *)

Definition KOMIHASH_BYTESW32 (v : Z) : Z :=
  ((v .& 0xFF000000) >> 24) .| ((v .& 0x00FF0000) >> 8)
  .| ((v .& 0x0000FF00) <<₃₂ 8) .| ((v .& 0x000000FF) <<₃₂ 24).

Definition KOMIHASH_BYTESW64 (v : Z) : Z :=
  ((v .& 0xFF00000000000000) >> 56) .| ((v .& 0x00FF000000000000) >> 40)
  .| ((v .& 0x0000FF0000000000) >> 24) .| ((v .& 0x000000FF00000000) >> 8)
  .| ((v .& 0x00000000FF000000) <<₆₄ 8) .| ((v .& 0x0000000000FF0000) <<₆₄ 24)
  .| ((v .& 0x000000000000FF00) <<₆₄ 40) .| ((v .& 0x00000000000000FF) <<₆₄ 56).

(** On a little-endian host [KOMIHASH_EC32] and [KOMIHASH_EC64] are the identity. *)
Definition kh_lu32ec (p : list Z) : Z := le_load 4 p.
Definition kh_lu64ec (p : list Z) : Z := le_load 8 p.

(** [Msg] is what is left up to [MsgEnd]. *)
Definition kh_lpu64 (Msg : list Z) (fb : Z) : Z :=
  let l := length Msg in
  let r := fb <<₆₄ (8 * Z.of_nat l) in
  if (3 <? l)%nat then
    let r := r .| kh_lu32ec Msg in
    let Msg := drop 4 Msg in
    match Msg with
    | b0 :: b1 :: b2 :: _ => r .| (b0 <<₆₄ 32) .| (b1 <<₆₄ 40) .| (b2 <<₆₄ 48)
    | [b0; b1] => r .| (b0 <<₆₄ 32) .| (b1 <<₆₄ 40)
    | [b0] => r .| (b0 <<₆₄ 32)
    | [] => r
    end
  else
    match Msg with
    | b0 :: b1 :: b2 :: _ => r .| b0 .| (b1 <<₆₄ 8) .| (b2 <<₆₄ 16)
    | [b0; b1] => r .| b0 .| (b1 <<₆₄ 8)
    | [b0] => r .| b0
    | [] => r
    end.

(** The 128-bit product as (low, high), with [__uint128_t]. *)
Definition kh_m128 (m1 m2 : Z) : Z * Z :=
  let r := m1 * m2 in (wrap 64 r, wrap 64 (r >> 64)).

(** The same product on 32-bit systems. *)
Definition kh__emulu (x y : Z) : Z := x *₆₄ y.

Definition kh_m128_32 (ab cd : Z) : Z * Z :=
  let ad := kh__emulu (wrap 32 (ab >> 32)) (wrap 32 cd) in
  let bd := kh__emulu (wrap 32 ab) (wrap 32 cd) in
  let adbc := ad +₆₄ kh__emulu (wrap 32 ab) (wrap 32 (cd >> 32)) in
  let adbc_carry := if adbc <? ad then 1 else 0 in
  let lo := bd +₆₄ (adbc <<₆₄ 32) in
  let hi := kh__emulu (wrap 32 (ab >> 32)) (wrap 32 (cd >> 32)) +₆₄ (adbc >> 32)
            +₆₄ (adbc_carry <<₆₄ 32) +₆₄ (if lo <? bd then 1 else 0) in
  (lo, hi).

(** The eight seeds of the unrolled loop. *)
Record kh_seeds := KhSeeds {
  Seed1 : Z; Seed2 : Z; Seed3 : Z; Seed4 : Z; Seed5 : Z; Seed6 : Z; Seed7 : Z; Seed8 : Z }.

(** One iteration of the 64-byte loop. *)
Definition kh_round64 (s : kh_seeds) (Msg : list Z) : kh_seeds :=
  let '(KhSeeds s1 s2 s3 s4 s5 s6 s7 s8) := s in
  let s1 := s1 ⊻ kh_lu64ec Msg in
  let s2 := s2 ⊻ kh_lu64ec (drop 8 Msg) in
  let s3 := s3 ⊻ kh_lu64ec (drop 16 Msg) in
  let s4 := s4 ⊻ kh_lu64ec (drop 24 Msg) in
  let s5 := s5 ⊻ kh_lu64ec (drop 32 Msg) in
  let s6 := s6 ⊻ kh_lu64ec (drop 40 Msg) in
  let s7 := s7 ⊻ kh_lu64ec (drop 48 Msg) in
  let s8 := s8 ⊻ kh_lu64ec (drop 56 Msg) in
  let '(r1a, r1b) := kh_m128 s1 s5 in
  let '(r2a, r2b) := kh_m128 s2 s6 in
  let s5 := s5 +₆₄ r1b in
  let s6 := s6 +₆₄ r2b in
  let s2 := s5 ⊻ r2a in
  let '(r3a, r3b) := kh_m128 s3 s7 in
  let '(r4a, r4b) := kh_m128 s4 s8 in
  let s7 := s7 +₆₄ r3b in
  let s8 := s8 +₆₄ r4b in
  let s3 := s6 ⊻ r3a in
  let s4 := s7 ⊻ r4a in
  let s1 := s8 ⊻ r1a in
  KhSeeds s1 s2 s3 s4 s5 s6 s7 s8.

(** [do { ... Msg += 64 } while (Msg < MsgEnd - 63)]. *)
Fixpoint kh_loop64 (fuel : nat) (s : kh_seeds) (Msg : list Z) : kh_seeds * list Z :=
  match fuel with
  | O => (s, Msg)
  | S fuel =>
      let s := kh_round64 s Msg in
      let Msg := drop 64 Msg in
      if (63 <? length Msg)%nat then kh_loop64 fuel s Msg else (s, Msg)
  end.

(** [kh_m128( &Seed1, &Seed5, &r1a, &r1b ); Seed5 += r1b; Seed1 = Seed5 ^ r1a]. *)
Definition kh_mix (s1 s5 : Z) : Z * Z :=
  let '(r1a, r1b) := kh_m128 s1 s5 in
  let s5 := s5 +₆₄ r1b in
  (s5 ⊻ r1a, s5).

(** [while (Msg < MsgEnd - 15)]. *)
Fixpoint kh_loop16 (fuel : nat) (s1 s5 : Z) (Msg : list Z) : Z * Z * list Z :=
  match fuel with
  | O => (s1, s5, Msg)
  | S fuel =>
      if (15 <? length Msg)%nat then
        let s1 := s1 ⊻ kh_lu64ec Msg in
        let s5 := s5 ⊻ kh_lu64ec (drop 8 Msg) in
        let '(s1, s5) := kh_mix s1 s5 in
        kh_loop16 fuel s1 s5 (drop 16 Msg)
      else (s1, s5, Msg)
  end.

Definition komihash (Msg : list Z) (UseSeed : Z) : Z :=
  let s1 := 0x243F6A8885A308D3 in
  let s2 := 0x13198A2E03707344 in
  let s5 := 0x452821E638D01377 in
  let '(s1, s5) :=
    if UseSeed =? 0 then (s1, s5)
    else kh_mix (s1 ⊻ (UseSeed .& 0xFFFFFFFF00000000)) (s5 ⊻ (UseSeed <<₆₄ 32)) in
  let fb := if (length Msg =? 0)%nat then 1 else 1 <<₆₄ (default 0 (last Msg) >> 7) in
  let '(s1, s2, s5, Msg) :=
    if (63 <? length Msg)%nat then
      let '(KhSeeds s1 s2 s3 s4 s5 s6 s7 s8, Msg) :=
        kh_loop64 (length Msg)
          (KhSeeds s1 s2 0xA4093822299F31D0 0x082EFA98EC4E6C89 s5
             0xBE5466CF34E90C6C 0xC0AC29B7C97C50DD 0x3F84D5B5B5470917) Msg in
      let '(r2a, r2b) := kh_m128 s2 s6 in
      let '(r3a, r3b) := kh_m128 s3 s7 in
      let '(r4a, r4b) := kh_m128 s4 s8 in
      let s6 := s6 +₆₄ r2b in
      let s7 := s7 +₆₄ r3b in
      let s8 := s8 +₆₄ r4b in
      let s2 := s6 ⊻ r2a in
      let s3 := s7 ⊻ r3a in
      let s4 := s8 ⊻ r4a in
      (s1, s2 ⊻ (s3 ⊻ s4), s5, Msg)
    else (s1, s2, s5, Msg) in
  let '(s1, s5, Msg) := kh_loop16 (length Msg) s1 s5 Msg in
  let '(s1, s5) :=
    if (7 <? length Msg)%nat then
      (s1 ⊻ kh_lu64ec Msg, s5 ⊻ kh_lpu64 (drop 8 Msg) fb)
    else (s1 ⊻ kh_lpu64 Msg fb, s5) in
  let '(s1, s5) := kh_mix s1 s5 in
  let '(s1, s5) := kh_mix s1 s5 in
  s1 ⊻ s2.

(** ** fasthash.h *)

Definition mix (h : Z) : Z :=
  let h := h ⊻ (h >> 23) in
  let h := h *₆₄ 0x2127599bf4325c37 in
  h ⊻ (h >> 47).

(** [n] is [len / 8], the number of whole words. *)
Fixpoint fasthash_words (n : nat) (m h : Z) (pos : list Z) : Z * list Z :=
  match n with
  | O => (h, pos)
  | S n => fasthash_words n m ((h ⊻ mix (le_load 8 pos)) *₆₄ m) (drop 8 pos)
  end.

(** The fall-through [switch (len & 7)]: xor of the remaining bytes. *)
Definition tail_xor (pos2 : list Z) : Z :=
  foldr (fun i v => v ⊻ (byte_at i pos2 <<₆₄ (8 * Z.of_nat i))) 0 (seq 0 (length pos2)).

Definition fasthash64 (buf : list Z) (seed : Z) : Z :=
  let m := 0x880355f21e6d1965 in
  let len := Z.of_nat (length buf) in
  let h := seed ⊻ (len *₆₄ m) in
  let '(h, pos2) := fasthash_words (length buf / 8) m h buf in
  let h := if (length pos2 =? 0)%nat then h else (h ⊻ mix (tail_xor pos2)) *₆₄ m in
  mix h.

Definition fasthash32 (buf : list Z) (seed : Z) : Z :=
  let h := fasthash64 buf seed in
  wrap 32 (h -₆₄ (h >> 32)).

(** ** jenkins.h *)

Definition jenkins (key : list Z) (_seed : Z) : Z :=
  let hash := foldl (fun hash b =>
    let hash := hash +₆₄ sext8 b in
    let hash := hash +₆₄ (hash <<₆₄ 10) in
    hash ⊻ (hash >> 6)) 0 key in
  let hash := hash +₆₄ (hash <<₆₄ 3) in
  let hash := hash ⊻ (hash >> 11) in
  hash +₆₄ (hash <<₆₄ 15).

(** ** murmur2.h *)

Definition murmur_k (m k : Z) : Z :=
  let k := k *₆₄ m in
  let k := k ⊻ (k >> 47) in
  k *₆₄ m.

Fixpoint murmur_words (n : nat) (m h : Z) (data : list Z) : Z * list Z :=
  match n with
  | O => (h, data)
  | S n => murmur_words n m ((h ⊻ murmur_k m (le_load 8 data)) *₆₄ m) (drop 8 data)
  end.

Definition MurmurHash64A (key : list Z) (seed : Z) : Z :=
  let m := 0xc6a4a7935bd1e995 in
  let len := Z.of_nat (length key) in
  let h := seed ⊻ (len *₆₄ m) in
  let '(h, data2) := murmur_words (length key / 8) m h key in
  let h := if (length data2 =? 0)%nat then h else (h ⊻ tail_xor data2) *₆₄ m in
  let h := h ⊻ (h >> 47) in
  let h := h *₆₄ m in
  h ⊻ (h >> 47).

(** The 32-bit variant: [while (len >= 4)], then the last bytes. *)
Fixpoint murmur2_words (fuel : nat) (m h : Z) (data : list Z) : Z * list Z :=
  match fuel with
  | O => (h, data)
  | S fuel =>
      if (4 <=? length data)%nat then
        let k := le_load 4 data *₃₂ m in
        let k := k ⊻ (k >> 24) in
        let k := k *₃₂ m in
        murmur2_words fuel m ((h *₃₂ m) ⊻ k) (drop 4 data)
      else (h, data)
  end.

Definition murmur2 (key : list Z) (seed : Z) : Z :=
  let m := 0x5bd1e995 in
  let h := wrap 32 (seed ⊻ Z.of_nat (length key)) in
  let '(h, data) := murmur2_words (length key) m h key in
  let h := match data with
    | [] => h
    | _ => (h ⊻ foldr (fun i v => v ⊻ (byte_at i data <<₃₂ (8 * Z.of_nat i))) 0
                  (seq 0 (length data))) *₃₂ m
    end in
  let h := h ⊻ (h >> 13) in
  let h := h *₃₂ m in
  h ⊻ (h >> 15).

(** ** mx3.h *)

Definition mx3_C : Z := 0xbea225f9eb34556d.

Definition mx3_mix (x : Z) : Z :=
  let x := x *₆₄ mx3_C in
  let x := x ⊻ (x >> 33) in
  let x := x *₆₄ mx3_C in
  let x := x ⊻ (x >> 29) in
  let x := x *₆₄ mx3_C in
  x ⊻ (x >> 39).

Definition mix_stream (h x : Z) : Z :=
  let x := x *₆₄ mx3_C in
  let x := x ⊻ ((x >> 57) ⊻ (x >> 33)) in
  let x := x *₆₄ mx3_C in
  let h := h +₆₄ x in
  h *₆₄ mx3_C.

(** [while (len >= 32)]: four words at a time. *)
Fixpoint mx3_loop32 (fuel : nat) (h : Z) (buf64 : list Z) : Z * list Z :=
  match fuel with
  | O => (h, buf64)
  | S fuel =>
      if (32 <=? length buf64)%nat then
        let h := mix_stream h (le_load 8 buf64) in
        let h := mix_stream h (le_load 8 (drop 8 buf64)) in
        let h := mix_stream h (le_load 8 (drop 16 buf64)) in
        let h := mix_stream h (le_load 8 (drop 24 buf64)) in
        mx3_loop32 fuel h (drop 32 buf64)
      else (h, buf64)
  end.

(** [while (len >= 8)]. *)
Fixpoint mx3_loop8 (fuel : nat) (h : Z) (buf64 : list Z) : Z * list Z :=
  match fuel with
  | O => (h, buf64)
  | S fuel =>
      if (8 <=? length buf64)%nat then
        mx3_loop8 fuel (mix_stream h (le_load 8 buf64)) (drop 8 buf64)
      else (h, buf64)
  end.

(** The tail bytes are or-ed; [switch (len & 7)] skips it when there are none. *)
Definition tail_or (t : list Z) : Z :=
  foldr (fun i v => v .| (byte_at i t <<₆₄ (8 * Z.of_nat i))) 0 (seq 0 (length t)).

Definition mx3 (buf : list Z) (seed : Z) : Z :=
  let h := seed ⊻ Z.of_nat (length buf) in
  let '(h, buf64) := mx3_loop32 (length buf) h buf in
  let '(h, t) := mx3_loop8 (length buf) h buf64 in
  let h := if (length t =? 0)%nat then h else mix_stream h (tail_or t) in
  mx3_mix h.

(** ** pengyhash.h *)

Record pengy := Pengy { ps0 : Z; ps1 : Z; ps2 : Z; ps3 : Z }.
Record pengy_block := PengyBlock { pb0 : Z; pb1 : Z; pb2 : Z; pb3 : Z }.

(** The four assignments of a round; [seed] is only added in the last rounds. *)
Definition pengy_round (b : pengy_block) (seed : Z) (s : pengy) : pengy :=
  let '(Pengy s0 s1 s2 s3) := s in
  let s0 := s0 +₆₄ (s1 +₆₄ pb3 b) in
  let s1 := s0 +₆₄ rotl64 s1 14 +₆₄ seed in
  let s2 := s2 +₆₄ (s3 +₆₄ pb2 b) in
  let s3 := s2 +₆₄ rotl64 s3 23 in
  let s0 := s0 +₆₄ (s3 +₆₄ pb1 b) in
  let s3 := s0 ⊻ rotl64 s3 16 in
  let s2 := s2 +₆₄ (s1 +₆₄ pb0 b) in
  let s1 := s2 ⊻ rotl64 s1 40 in
  Pengy s0 s1 s2 s3.

(** [memcpy(b, p, n)]: the first [n] bytes of [b] are replaced. *)
Definition pengy_memcpy (b : pengy_block) (p : list Z) : pengy_block :=
  let old := concat (map key_bytes [pb0 b; pb1 b; pb2 b; pb3 b]) in
  let new := p ++ drop (length p) old in
  PengyBlock (le_load 8 new) (le_load 8 (drop 8 new)) (le_load 8 (drop 16 new))
    (le_load 8 (drop 24 new)).

Fixpoint pengy_loop (fuel : nat) (b : pengy_block) (s : pengy) (p : list Z)
  : pengy_block * pengy * list Z :=
  match fuel with
  | O => (b, s, p)
  | S fuel =>
      if (32 <=? length p)%nat then
        let b := pengy_memcpy b (take 32 p) in
        pengy_loop fuel b (pengy_round b 0 s) (drop 32 p)
      else (b, s, p)
  end.

Definition pengyhash (p : list Z) (seed : Z) : Z :=
  let b := PengyBlock 0 0 0 0 in
  let s := Pengy 0 0 0 (Z.of_nat (length p)) in
  let '(b, s, p) := pengy_loop (length p) b s p in
  let b := pengy_memcpy b p in
  let s := Nat.iter 6 (pengy_round b seed) s in
  ps0 s +₆₄ ps1 s +₆₄ ps2 s +₆₄ ps3 s.

(** ** standard.h *)

Definition standard (ptr : list Z) (_seed : Z) : Z :=
  foldl (fun seed b => (seed ⊻ sext8 b) *₆₄ 1099511628211) _seed ptr.

(** ** xxhash.h *)

Definition NUMBER64_1 : Z := 11400714785074694791.
Definition NUMBER64_2 : Z := 14029467366897019727.
Definition NUMBER64_3 : Z := 1609587929392839161.
Definition NUMBER64_4 : Z := 9650029242287828579.
Definition NUMBER64_5 : Z := 2870177450012600261.

(** One lane of the 32-byte loop. *)
Definition xx_lane (v w : Z) : Z :=
  rotl64 (v +₆₄ (w *₆₄ NUMBER64_2)) 31 *₆₄ NUMBER64_1.

(** [do { ... } while (p <= limitation)], [limitation] 32 bytes before the end. *)
Fixpoint xx_loop32 (fuel : nat) (v : Z * Z * Z * Z) (p : list Z) : Z * Z * Z * Z * list Z :=
  match fuel with
  | O => (v, p)
  | S fuel =>
      let '(v1, v2, v3, v4) := v in
      let v1 := xx_lane v1 (le_load 8 p) in
      let v2 := xx_lane v2 (le_load 8 (drop 8 p)) in
      let v3 := xx_lane v3 (le_load 8 (drop 16 p)) in
      let v4 := xx_lane v4 (le_load 8 (drop 24 p)) in
      let p := drop 32 p in
      if (32 <=? length p)%nat then xx_loop32 fuel (v1, v2, v3, v4) p
      else (v1, v2, v3, v4, p)
  end.

Definition xx_merge (hash v : Z) : Z :=
  let v := rotl64 (v *₆₄ NUMBER64_2) 31 *₆₄ NUMBER64_1 in
  ((hash ⊻ v) *₆₄ NUMBER64_1) +₆₄ NUMBER64_4.

Definition xx_word (hash k1 : Z) : Z :=
  let k1 := rotl64 (k1 *₆₄ NUMBER64_2) 31 *₆₄ NUMBER64_1 in
  (rotl64 (hash ⊻ k1) 27 *₆₄ NUMBER64_1) +₆₄ NUMBER64_4.

(** [while (p + 8 <= end)]. *)
Fixpoint xx_loop8 (fuel : nat) (hash : Z) (p : list Z) : Z * list Z :=
  match fuel with
  | O => (hash, p)
  | S fuel =>
      if (8 <=? length p)%nat then xx_loop8 fuel (xx_word hash (le_load 8 p)) (drop 8 p)
      else (hash, p)
  end.

Definition xx_byte (hash b : Z) : Z :=
  rotl64 (hash ⊻ (b *₆₄ NUMBER64_5)) 11 *₆₄ NUMBER64_1.

Definition xx_final (hash : Z) : Z :=
  let hash := hash ⊻ (hash >> 33) in
  let hash := hash *₆₄ NUMBER64_2 in
  let hash := hash ⊻ (hash >> 29) in
  let hash := hash *₆₄ NUMBER64_3 in
  hash ⊻ (hash >> 32).

(** [align] only chooses between two ways to load the same bytes. *)
Definition hash_compute (input : list Z) (seed : Z) : Z :=
  let len := length input in
  let '(hash, p) :=
    if (32 <=? len)%nat then
      let '(v1, v2, v3, v4, p) :=
        xx_loop32 len (seed +₆₄ NUMBER64_1 +₆₄ NUMBER64_2, seed +₆₄ NUMBER64_2, seed +₆₄ 0,
                       seed -₆₄ NUMBER64_1) input in
      let hash := rotl64 v1 1 +₆₄ rotl64 v2 7 +₆₄ rotl64 v3 12 +₆₄ rotl64 v4 18 in
      (xx_merge (xx_merge (xx_merge (xx_merge hash v1) v2) v3) v4, p)
    else (seed +₆₄ NUMBER64_5, input) in
  let hash := hash +₆₄ Z.of_nat len in
  let '(hash, p) := xx_loop8 len hash p in
  let '(hash, p) :=
    if (4 <=? length p)%nat then
      let hash := hash ⊻ (le_load 4 p *₆₄ NUMBER64_1) in
      ((rotl64 hash 23 *₆₄ NUMBER64_2) +₆₄ NUMBER64_3, drop 4 p)
    else (hash, p) in
  xx_final (foldl xx_byte hash p).

Definition xxhash (data : list Z) (seed : Z) : Z := hash_compute data seed.

(** ** hash.h: the table of functions, indexed by the salt *)

Definition f_seed : Z := 0x2B12647CD1C7F697.
Definition s_seed : Z := 0x9549A2C424952156.

Definition hash_funcs : list (list Z -> Z -> Z) :=
  [komihash; fasthash64; mx3; xxhash; jenkins; pengyhash; MurmurHash64A; standard].

(** [hash_funcs[salt](&key, sizeof(key), f_seed)]. *)
Definition hash_key (salt : nat) (key : Z) : Z :=
  match hash_funcs !! salt with
  | Some f => f (key_bytes key) f_seed
  | None => 0
  end.

Example xxhash_empty : xxhash [] 0 = 0xEF46DB3751D8E999.
Proof. reflexivity. Qed.

(** ** Lemmas: ranges *)

Lemma kh_mix_ok s1 s5 : u_ok 64 (kh_mix s1 s5).1 /\ u_ok 64 (kh_mix s1 s5).2.
Proof. unfold kh_mix. simpl. split; word_ok. Qed.

Lemma kh_m128_ok a b : u_ok 64 (kh_m128 a b).1 /\ u_ok 64 (kh_m128 a b).2.
Proof. unfold kh_m128. simpl. split; word_ok. Qed.

Lemma mix_ok h : u_ok 64 (mix h).
Proof. unfold mix. word_ok. Qed.

Lemma xx_final_ok h : u_ok 64 (xx_final h).
Proof. unfold xx_final. word_ok. Qed.

Lemma standard_ok l seed : u_ok 64 seed -> u_ok 64 (standard l seed).
Proof.
  unfold standard. revert seed. induction l as [|b l IH]; intros seed Hs; [done|].
  simpl. apply IH. word_ok.
Qed.

Lemma komihash_ok l seed : u_ok 64 (komihash l seed).
Proof.
  unfold komihash. repeat case_match; simplify_eq;
  repeat match goal with
  | H : kh_mix ?a ?b = (?x, _) |- _ =>
      let E := fresh in pose proof (kh_mix_ok a b) as E; rewrite H in E; destruct E; clear H
  | H : kh_m128 ?a ?b = (?x, _) |- _ =>
      let E := fresh in pose proof (kh_m128_ok a b) as E; rewrite H in E; destruct E; clear H
  end; simpl in *; apply lxor_ok; word_ok.
Qed.

(** ** Lemmas: invertible steps *)

Section word_inj.
Context (w : Z) (Hw : 0 <= w).

Lemma xor_r_inj c x y : x ⊻ c = y ⊻ c -> x = y.
Proof.
  intros E. apply (f_equal (fun z => Z.lxor z c)) in E.
  by rewrite !Z.lxor_assoc, Z.lxor_nilpotent, !Z.lxor_0_r in E.
Qed.

Lemma xor_l_inj c x y : c ⊻ x = c ⊻ y -> x = y.
Proof. rewrite !(Z.lxor_comm c). apply xor_r_inj. Qed.

(** [x ^= x >> n] loses nothing. *)
Lemma xorshift_inj n x y :
  0 < n -> u_ok w x -> u_ok w y -> x ⊻ (x >> n) = y ⊻ (y >> n) -> x = y.
Proof.
  intros Hn Hx Hy E. apply Z.lxor_eq.
  set (d := Z.lxor x y). assert (u_ok w d) as [Hd _] by (by apply lxor_ok).
  assert (d = Z.shiftr d n) as Hs.
  { unfold d. apply Z.lxor_eq. rewrite Z.shiftr_lxor.
    trans ((x ⊻ (x >> n)) ⊻ (y ⊻ (y >> n))); [|by rewrite E, Z.lxor_nilpotent].
    apply Z.bits_inj'. intros i _. rewrite !Z.lxor_spec. bits_decide. }
  rewrite Z.shiftr_div_pow2 in Hs by lia.
  destruct (decide (d = 0)) as [|Hne]; [done|].
  assert (1 < 2 ^ n) by (apply Z.pow_gt_1; lia).
  assert (d / 2 ^ n < d) by (apply Z.div_lt; lia). lia.
Qed.
End word_inj.

(** Multiplication by a constant with an inverse modulo 2^64. *)
Lemma mul64_inj c ci x y :
  mul64 c ci = 1 -> u_ok 64 x -> u_ok 64 y -> x *₆₄ c = y *₆₄ c -> x = y.
Proof.
  intros Hci Hx Hy E. apply (f_equal (fun z => mul64 z ci)) in E.
  unfold mul64, wrap in *. rewrite !Z.mul_mod_idemp_l, <- !Z.mul_assoc in E by done.
  rewrite <- (Z.mul_mod_idemp_r x), <- (Z.mul_mod_idemp_r y), Hci, !Z.mul_1_r in E by done.
  by rewrite !Z.mod_small in E.
Qed.

Lemma add64_inj_r c x y : u_ok 64 x -> u_ok 64 y -> x +₆₄ c = y +₆₄ c -> x = y.
Proof.
  intros [Hx1 Hx2] [Hy1 Hy2] E. apply wrap_eq in E as [k E]; [|done]. nia.
Qed.

Lemma add64_inj_l c x y : u_ok 64 x -> u_ok 64 y -> c +₆₄ x = c +₆₄ y -> x = y.
Proof. unfold add64. rewrite !(Z.add_comm c). apply add64_inj_r. Qed.

Lemma rotl64_ok x r : u_ok 64 x -> 0 <= r <= 64 -> u_ok 64 (rotl64 x r).
Proof. intros Hx Hr. unfold rotl64. word_ok. Qed.
#[export] Hint Extern 3 (u_ok 64 (rotl64 _ _)) => (apply rotl64_ok; [|lia]) : word.
#[export] Hint Resolve mix_ok xx_final_ok : word.

Lemma rotl64_rotr x r : u_ok 64 x -> 0 < r < 64 -> rotl64 (rotl64 x r) (64 - r) = x.
Proof.
  intros Hx Hr. unfold rotl64. bits.
Qed.

Lemma rotl64_inj r x y : 0 < r < 64 -> u_ok 64 x -> u_ok 64 y -> rotl64 x r = rotl64 y r -> x = y.
Proof.
  intros Hr Hx Hy E. by rewrite <- (rotl64_rotr x r), <- (rotl64_rotr y r), E.
Qed.

(** One step backwards through a chain of invertible word operations. *)
Ltac peel :=
  match goal with
  | H : Z.lxor ?x (Z.shiftr ?x _) = Z.lxor ?y (Z.shiftr ?y _) |- _ =>
      apply (xorshift_inj 64) in H; [|lia|lia|word_ok|word_ok]
  | H : Z.lxor ?c ?x = Z.lxor ?c ?y |- _ => apply xor_l_inj in H
  | H : Z.lxor ?x ?c = Z.lxor ?y ?c |- _ => apply xor_r_inj in H
  | H : add64 ?x ?c = add64 ?y ?c |- _ => apply add64_inj_r in H; [|word_ok|word_ok]
  | H : add64 ?c ?x = add64 ?c ?y |- _ => apply add64_inj_l in H; [|word_ok|word_ok]
  | H : rotl64 ?x _ = rotl64 ?y _ |- _ => apply rotl64_inj in H; [|lia|word_ok|word_ok]
  end.
Ltac peel_mul ci :=
  match goal with
  | H : mul64 ?x ?c = mul64 ?y ?c |- _ =>
      apply (mul64_inj c ci) in H; [|by vm_compute|word_ok|word_ok]
  end.

(** ** Lemmas: keys in memory *)

Lemma length_key_bytes k : length (key_bytes k) = 8%nat.
Proof. done. Qed.

Lemma le_load_bytes n j k :
  le_load n (map (fun i => (k >> (8 * Z.of_nat i)) mod 2 ^ 8) (seq j n)) =
  (k >> (8 * Z.of_nat j)) mod 2 ^ (8 * Z.of_nat n).
Proof.
  revert j. induction n as [|n IH]; intros j; [by rewrite Z.mod_1_r|].
  cbn [le_load seq map tail byte_at nth]. rewrite IH.
  apply Z.bits_inj'. intros i Hi. bits_push. bits_split; bits_close.
Qed.

Lemma drop_key_bytes k : drop 8 (key_bytes k) = [].
Proof. done. Qed.

(** Loading a key's eight bytes gives the key back. *)
Lemma le_load_key k : u_ok 64 k -> le_load 8 (key_bytes k) = k.
Proof.
  intros Hk. unfold key_bytes. rewrite (le_load_bytes 8 0). by apply wrap_small.
Qed.

(** The byte loop without a tail, on a key. *)
Lemma fasthash64_key k seed :
  u_ok 64 k ->
  fasthash64 (key_bytes k) seed =
    mix (((seed ⊻ (8 *₆₄ 0x880355f21e6d1965)) ⊻ mix k) *₆₄ 0x880355f21e6d1965).
Proof.
  intros Hk. unfold fasthash64. rewrite length_key_bytes.
  change (8 / 8)%nat with 1%nat. cbn [fasthash_words]. by rewrite le_load_key, drop_key_bytes.
Qed.

Lemma MurmurHash64A_key k seed :
  u_ok 64 k ->
  MurmurHash64A (key_bytes k) seed =
    let m := 0xc6a4a7935bd1e995 in
    let h := ((seed ⊻ (8 *₆₄ m)) ⊻ murmur_k m k) *₆₄ m in
    let h := (h ⊻ (h >> 47)) *₆₄ m in
    h ⊻ (h >> 47).
Proof.
  intros Hk. unfold MurmurHash64A. rewrite length_key_bytes.
  change (8 / 8)%nat with 1%nat. cbn [murmur_words]. by rewrite le_load_key, drop_key_bytes.
Qed.

Lemma mx3_key k seed :
  u_ok 64 k -> mx3 (key_bytes k) seed = mx3_mix (mix_stream (seed ⊻ 8) k).
Proof.
  intros Hk. unfold mx3. rewrite length_key_bytes. cbn [mx3_loop32 mx3_loop8].
  rewrite length_key_bytes. cbn [Nat.leb]. by rewrite le_load_key, drop_key_bytes.
Qed.

Lemma xxhash_key k seed :
  u_ok 64 k ->
  xxhash (key_bytes k) seed = xx_final (xx_word (seed +₆₄ NUMBER64_5 +₆₄ 8) k).
Proof.
  intros Hk. unfold xxhash, hash_compute. rewrite length_key_bytes. cbn [Nat.leb xx_loop8].
  rewrite length_key_bytes. cbn [Nat.leb]. by rewrite le_load_key, drop_key_bytes.
Qed.

Lemma mix_inj x y : u_ok 64 x -> u_ok 64 y -> mix x = mix y -> x = y.
Proof.
  unfold mix. intros Hx Hy E. peel. peel_mul 0xa1bcefb14d101987. by peel.
Qed.

Lemma mx3_mix_inj x y : u_ok 64 x -> u_ok 64 y -> mx3_mix x = mx3_mix y -> x = y.
Proof.
  unfold mx3_mix, mx3_C. intros Hx Hy E. 
  do 2 (peel; peel_mul 0xdd01f46a7e6ffc65). peel. by peel_mul 0xdd01f46a7e6ffc65.
Qed.

Lemma xx_final_inj x y : u_ok 64 x -> u_ok 64 y -> xx_final x = xx_final y -> x = y.
Proof.
  unfold xx_final, NUMBER64_2, NUMBER64_3. intros Hx Hy E.
  peel. peel_mul 0xe9e9f4c41d6df849. peel. peel_mul 0xba79078168d4baf. by peel.
Qed.

(** [x ^= (x >> 57) ^ (x >> 33)] also loses nothing. *)
Lemma xorshift2_inj x y :
  u_ok 64 x -> u_ok 64 y ->
  x ⊻ ((x >> 57) ⊻ (x >> 33)) = y ⊻ ((y >> 57) ⊻ (y >> 33)) -> x = y.
Proof.
  intros Hx Hy E.
  assert (forall z, u_ok 64 z ->
    let t := z ⊻ ((z >> 57) ⊻ (z >> 33)) in t ⊻ ((t >> 57) ⊻ (t >> 33)) = z) as Hinv.
  { intros z Hz t. unfold t. bits. }
  by rewrite <- (Hinv x Hx), <- (Hinv y Hy), E.
Qed.

Lemma mix_stream_inj h x y :
  u_ok 64 x -> u_ok 64 y -> mix_stream h x = mix_stream h y -> x = y.
Proof.
  unfold mix_stream, mx3_C. intros Hx Hy E.
  peel_mul 0xdd01f46a7e6ffc65. peel. peel_mul 0xdd01f46a7e6ffc65.
  apply xorshift2_inj in E; [|word_ok..]. by peel_mul 0xdd01f46a7e6ffc65.
Qed.

Lemma xx_word_inj h x y : u_ok 64 h -> u_ok 64 x -> u_ok 64 y -> xx_word h x = xx_word h y -> x = y.
Proof.
  unfold xx_word, NUMBER64_1, NUMBER64_2. intros Hh Hx Hy E.
  peel. peel_mul 0x887493432badb37. peel. peel. peel_mul 0x887493432badb37. peel.
  by peel_mul 0xba79078168d4baf.
Qed.

Lemma murmur_k_inj x y :
  u_ok 64 x -> u_ok 64 y ->
  murmur_k 0xc6a4a7935bd1e995 x = murmur_k 0xc6a4a7935bd1e995 y -> x = y.
Proof.
  unfold murmur_k. intros Hx Hy E.
  peel_mul 0x5f7a0ea7e59b19bd. peel. by peel_mul 0x5f7a0ea7e59b19bd.
Qed.

Lemma murmur_k_ok m x : u_ok 64 (murmur_k m x).
Proof. unfold murmur_k. word_ok. Qed.
Lemma mix_stream_ok h x : u_ok 64 (mix_stream h x).
Proof. unfold mix_stream. word_ok. Qed.
Lemma xx_word_ok h x : u_ok 64 (xx_word h x).
Proof. unfold xx_word. word_ok. Qed.
#[export] Hint Resolve murmur_k_ok mix_stream_ok xx_word_ok : word.

(** Each loop of the hash functions leaves by its own test: with fuel for the
    bytes there are, what remains is shorter than one iteration. *)
Lemma kh_loop16_exit fuel s1 s5 Msg :
  (length Msg <= fuel)%nat -> (length (kh_loop16 fuel s1 s5 Msg).2 <= 15)%nat.
Proof.
  revert s1 s5 Msg. induction fuel as [|fuel IH]; intros s1 s5 Msg Hf; [simpl; lia|].
  cbn [kh_loop16]. destruct (Nat.ltb_spec 15 (length Msg)); [|simpl; lia].
  destruct (kh_mix _ _). apply IH. rewrite length_drop. lia.
Qed.

Lemma kh_loop64_exit fuel s Msg :
  (0 < fuel)%nat -> (length Msg <= fuel)%nat -> (length (kh_loop64 fuel s Msg).2 <= 63)%nat.
Proof.
  revert s Msg. induction fuel as [|fuel IH]; intros s Msg Hpos Hf; [lia|].
  cbn [kh_loop64]. destruct (Nat.ltb_spec 63 (length (drop 64 Msg))) as [Hl|]; [|simpl; lia].
  rewrite length_drop in Hl. apply IH; rewrite ?length_drop; lia.
Qed.

Lemma xx_loop32_exit fuel v p :
  (0 < fuel)%nat -> (length p <= fuel)%nat -> (length (xx_loop32 fuel v p).2 <= 31)%nat.
Proof.
  revert v p. induction fuel as [|fuel IH]; intros [[[v1 v2] v3] v4] p Hpos Hf; [lia|].
  cbn [xx_loop32]. destruct (Nat.leb_spec 32 (length (drop 32 p))) as [Hl|]; [|simpl; lia].
  rewrite length_drop in Hl. apply IH; rewrite ?length_drop; lia.
Qed.

Lemma xx_loop8_exit fuel hash p :
  (length p <= fuel)%nat -> (length (xx_loop8 fuel hash p).2 <= 7)%nat.
Proof.
  revert hash p. induction fuel as [|fuel IH]; intros hash p Hf; [simpl; lia|].
  cbn [xx_loop8]. destruct (Nat.leb_spec 8 (length p)); [|simpl; lia].
  apply IH. rewrite length_drop. lia.
Qed.

Lemma mx3_loop32_exit fuel h p :
  (length p <= fuel)%nat -> (length (mx3_loop32 fuel h p).2 <= 31)%nat.
Proof.
  revert h p. induction fuel as [|fuel IH]; intros h p Hf; [simpl; lia|].
  cbn [mx3_loop32]. destruct (Nat.leb_spec 32 (length p)); [|simpl; lia].
  apply IH. rewrite length_drop. lia.
Qed.

Lemma mx3_loop8_exit fuel h p :
  (length p <= fuel)%nat -> (length (mx3_loop8 fuel h p).2 <= 7)%nat.
Proof.
  revert h p. induction fuel as [|fuel IH]; intros h p Hf; [simpl; lia|].
  cbn [mx3_loop8]. destruct (Nat.leb_spec 8 (length p)); [|simpl; lia].
  apply IH. rewrite length_drop. lia.
Qed.

Lemma murmur2_words_exit fuel m h p :
  (length p <= fuel)%nat -> (length (murmur2_words fuel m h p).2 <= 3)%nat.
Proof.
  revert h p. induction fuel as [|fuel IH]; intros h p Hf; [simpl; lia|].
  cbn [murmur2_words]. destruct (Nat.leb_spec 4 (length p)); [|simpl; lia].
  apply IH. rewrite length_drop. lia.
Qed.

Lemma pengy_loop_exit fuel b s p :
  (length p <= fuel)%nat -> (length (pengy_loop fuel b s p).2 <= 31)%nat.
Proof.
  revert b s p. induction fuel as [|fuel IH]; intros b s p Hf; [simpl; lia|].
  cbn [pengy_loop]. destruct (Nat.leb_spec 32 (length p)); [|simpl; lia].
  apply IH. rewrite length_drop. lia.
Qed.

(** A word and its 32-bit halves. *)
Lemma wrap32_shr a : u_ok 64 a -> wrap 32 (a >> 32) = a / 2 ^ 32.
Proof.
  intros Ha. rewrite Z.shiftr_div_pow2 by done. apply wrap_small. dlia.
Qed.

Lemma halves_bounds a :
  u_ok 64 a ->
  a = a / 2 ^ 32 * 2 ^ 32 + wrap 32 a /\ 0 <= a / 2 ^ 32 < 2 ^ 32 /\ 0 <= wrap 32 a < 2 ^ 32.
Proof. dlia. Qed.

(** The carries of the schoolbook product: [P], [Q], [R], [S] are the four
    partial products of 32-bit halves. *)
Lemma carries P Q R S :
  0 <= P <= (2 ^ 32 - 1) ^ 2 -> 0 <= Q <= (2 ^ 32 - 1) ^ 2 ->
  0 <= R <= (2 ^ 32 - 1) ^ 2 -> 0 <= S <= (2 ^ 32 - 1) ^ 2 ->
  let adbc := Q +₆₄ R in
  let lo := S +₆₄ (adbc <<₆₄ 32) in
  (lo, P +₆₄ (adbc >> 32) +₆₄ ((if adbc <? Q then 1 else 0) <<₆₄ 32)
         +₆₄ (if lo <? S then 1 else 0)) =
  (wrap 64 (P * 2 ^ 64 + (Q + R) * 2 ^ 32 + S),
   wrap 64 ((P * 2 ^ 64 + (Q + R) * 2 ^ 32 + S) >> 64)).
Proof.
  intros HP HQ HR HS adbc lo. unfold lo, adbc, shl64, add64, wrap.
  rewrite !Z.shiftr_div_pow2, !Z.shiftl_mul_pow2 by done.
  change ((2 ^ 32 - 1) ^ 2) with 18446744065119617025 in *.
  change (2 ^ 64) with 18446744073709551616. change (2 ^ 32) with 4294967296.
  set (M := 18446744073709551616) in *. set (B := 4294967296) in *.
  assert (exists k a, Q + R = k * M + a /\ (k = 0 \/ k = 1) /\ 0 <= a < M) as (k & a & Hs & Hk & Ha).
  { exists ((Q + R) / M), ((Q + R) mod M). subst M B. dlia. }
  assert (exists u v, a = u * B + v /\ 0 <= u < B /\ 0 <= v < B) as (u & v & Ha' & Hu & Hv).
  { exists (a / B), (a mod B). subst M B. dlia. }
  assert (exists c l, S + v * B = c * M + l /\ (c = 0 \/ c = 1) /\ 0 <= l < M) as (c & l & Hl & Hc & Hlb).
  { exists ((S + v * B) / M), ((S + v * B) mod M). subst M B. dlia. }
  replace ((Q + R) mod M) with a by (subst M B; dlia).
  replace ((a * B) mod M) with (v * B) by (subst M B; dlia).
  replace ((S + v * B) mod M) with l by (subst M B; dlia).
  replace (a / B) with u by (subst M B; dlia).
  replace (if a <? Q then 1 else 0) with k by (destruct (Z.ltb_spec a Q); lia).
  replace (if l <? S then 1 else 0) with c by (destruct (Z.ltb_spec l S); lia).
  replace ((P * M + (Q + R) * B + S) / M) with (P + u + k * B + c) by (subst M B; dlia).
  f_equal; subst M B; dlia.
Qed.

(** ** Properties *)

(** Every function of the table returns a 64-bit value on every message
    and every 64-bit seed, so the reduction modulo a table size is in range. *)
Theorem hash_funcs_range salt f msg seed :
  hash_funcs !! salt = Some f -> u_ok 64 seed -> u_ok 64 (f msg seed).
Proof.
  intros Hf Hs.
  destruct salt as [|[|[|[|[|[|[|[|salt]]]]]]]]; [..|discriminate Hf];
    injection Hf as <-.
  - apply komihash_ok.
  - unfold fasthash64. destruct (fasthash_words _ _ _ _). word_ok.
  - unfold mx3. destruct (mx3_loop32 _ _ _), (mx3_loop8 _ _ _). unfold mx3_mix. word_ok.
  - unfold xxhash, hash_compute. repeat case_match; word_ok.
  - unfold jenkins. word_ok.
  - unfold pengyhash. destruct (pengy_loop _ _ _ _) as [[??]?]. word_ok.
  - unfold MurmurHash64A. destruct (murmur_words _ _ _ _). word_ok.
  - by apply standard_ok.
Qed.

Lemma hash_funcs_range_witness : u_ok 64 (komihash [1; 2; 3] 5).
Proof.
  apply (hash_funcs_range 0 komihash [1; 2; 3] 5); [reflexivity|].
  split; [discriminate|reflexivity].
Defined.

(** The 32-bit fallback of the 128-bit product agrees with the 128-bit
    one on all 64-bit operands, so komihash gives one hash on both. *)
Theorem kh_m128_32_eq ab cd :
  u_ok 64 ab -> u_ok 64 cd -> kh_m128_32 ab cd = kh_m128 ab cd.
Proof.
  intros Hab Hcd. unfold kh_m128_32, kh_m128, kh__emulu.
  rewrite !wrap32_shr by done.
  destruct (halves_bounds ab Hab) as (Ha & Ha1 & Ha0), (halves_bounds cd Hcd) as (Hc & Hc1 & Hc0).
  rewrite !mul64_small by nia.
  pose proof (carries (ab / 2 ^ 32 * (cd / 2 ^ 32)) (ab / 2 ^ 32 * wrap 32 cd)
    (wrap 32 ab * (cd / 2 ^ 32)) (wrap 32 ab * wrap 32 cd)) as E.
  cbv zeta in E. rewrite E by nia.
  replace (ab * cd) with (ab / 2 ^ 32 * (cd / 2 ^ 32) * 2 ^ 64
    + (ab / 2 ^ 32 * wrap 32 cd + wrap 32 ab * (cd / 2 ^ 32)) * 2 ^ 32 + wrap 32 ab * wrap 32 cd); [done|].
  rewrite Ha at 5. rewrite Hc at 5. change (2 ^ 64) with (2 ^ 32 * 2 ^ 32). ring.
Qed.

Lemma kh_m128_32_eq_witness :
  kh_m128_32 0xffffffffffffffff 0xfffffffffffffffe = kh_m128 0xffffffffffffffff 0xfffffffffffffffe.
Proof. apply kh_m128_32_eq; (split; [discriminate|reflexivity]). Defined.

(** Fasthash64, mx3, xxhash and MurmurHash64A never map two different
    keys to the same 64-bit hash, whatever the seed: on an eight-byte key they
    are injective, so collisions only come from the reduction to a table index. *)
Theorem key_hash_injective salt f seed x y :
  salt ∈ [1; 2; 3; 6]%nat -> hash_funcs !! salt = Some f ->
  u_ok 64 seed -> u_ok 64 x -> u_ok 64 y ->
  f (key_bytes x) seed = f (key_bytes y) seed -> x = y.
Proof.
  intros Hsalt Hf Hs Hx Hy.
  rewrite !elem_of_cons, elem_of_nil in Hsalt.
  destruct Hsalt as [->|[->|[->|[->|[]]]]]; injection Hf as <-; intros E.
  - rewrite !fasthash64_key in E by done. apply mix_inj in E; [|word_ok..].
    peel_mul 0x28fc23783fb0706d. peel. by apply mix_inj.
  - rewrite !mx3_key in E by done. apply mx3_mix_inj in E; [|word_ok..].
    by apply mix_stream_inj in E.
  - rewrite !xxhash_key in E by done. apply xx_final_inj in E; [|word_ok..].
    apply xx_word_inj in E; [done|word_ok..].
  - rewrite !MurmurHash64A_key in E by done. cbv zeta in E.
    peel. peel_mul 0x5f7a0ea7e59b19bd. peel. peel_mul 0x5f7a0ea7e59b19bd. peel.
    by apply murmur_k_inj.
Qed.

Lemma key_hash_injective_witness :
  fasthash64 (key_bytes 7) f_seed = fasthash64 (key_bytes 7) f_seed /\ 7 = 7.
Proof.
  split; [reflexivity|].
  apply (key_hash_injective 1 fasthash64 f_seed 7 7);
    [vm_compute; left|reflexivity|split; [discriminate|reflexivity]..|reflexivity].
Defined.

(** The generic byte swaps, as masks the [bits] tactic reads. *)
Lemma swap_masks :
  0xFF000000 = Z.shiftl (Z.ones 8) 24 /\ 0x00FF0000 = Z.shiftl (Z.ones 8) 16 /\
  0x0000FF00 = Z.shiftl (Z.ones 8) 8 /\ 0x000000FF = Z.ones 8.
Proof. done. Qed.

(** The portable 32-bit byte swap is its own inverse and moves byte
    [i] to byte [3 - i]. *)
Theorem bytesw32_spec v :
  u_ok 32 v ->
  KOMIHASH_BYTESW32 (KOMIHASH_BYTESW32 v) = v /\
  forall i : nat, (i < 4)%nat ->
    (KOMIHASH_BYTESW32 v >> (8 * Z.of_nat i)) mod 2 ^ 8 =
    (v >> (8 * (3 - Z.of_nat i))) mod 2 ^ 8.
Proof.
  intros Hv. unfold KOMIHASH_BYTESW32.
  destruct swap_masks as (-> & -> & -> & ->). split; [bits|].
  intros i Hi. do 4 (destruct i as [|i]; [cbn [Z.of_nat Pos.of_succ_nat Pos.succ]; bits|]); lia.
Qed.
