(* ===== verification/Ihash.v ===== *)
(** * Ihash: what a hash table promises to the key-value store

    [daemon/Ihash.hpp] declares the abstract class the store programs against.
    Its counterpart is the class [IHash]: the operations, an abstraction of a
    table to a finite map from keys to page addresses, and the laws that relate
    them. [KV] is verified against [IHash] alone; [LinearProbing] provides the
    instance. *)
From S2P Require Import Prelude Keys.

(** What an operation takes from its surroundings: the coarse monotonic clock
    ([tv_sec]) and the outcome of [try_lock] on the other lock range. *)
Record env := Env { now : Z; try_lock : nat -> bool }.

(** A key the table can store: not one of its two markers. *)
Definition valid_key (k : Z) : Prop := u_ok 64 k /\ k <> INVALID /\ k <> TOMBSTONE.

(** What [Insert] returns: the table, [ret], and the out-parameters. *)
Record ins_res (T : Type) := InsRes {
  ir_table : T; ir_ret : Z; ir_ev_key : Z; ir_ev_value : Z }.
Arguments InsRes {T} _ _ _ _.
Arguments ir_table {T} _.
Arguments ir_ret {T} _.
Arguments ir_ev_key {T} _.
Arguments ir_ev_value {T} _.

(** The abstract effect of [Insert k v] on the map [m]: a present key is only
    removed and handed back (the caller retries); an absent key is stored, or
    stored at the expense of another key, or refused. *)
Inductive insert_spec (m : gmap Z Z) (k v ev0 : Z) : gmap Z Z -> Z -> Z -> Z -> Prop :=
| InsDup old : m !! k = Some old -> insert_spec m k v ev0 (delete k m) 0 ev0 old
| InsNew : m !! k = None -> insert_spec m k v ev0 (<[k := v]> m) 0 ev0 NONE
| InsEvict ek ev :
    m !! k = None -> m !! ek = Some ev ->
    insert_spec m k v ev0 (<[k := v]> (delete ek m)) 0 ek ev
| InsRefuse : m !! k = None -> insert_spec m k v ev0 m (-1) k v.

Class IHash (T : Type) := {
  ih_Insert : env -> T -> Z -> Z -> Z -> outcome (ins_res T);
  ih_Delete : T -> Z -> T * Z;
  ih_Get : env -> T -> Z -> T * Z;
  ih_GetWithFlag : env -> T -> Z -> bool -> T * Z;
  ih_Evict : (nat -> env) -> (nat -> Z) -> nat -> T -> Z -> option (outcome (T * Z * Z));

  ih_wf : T -> Prop;
  ih_map : T -> gmap Z Z;

  ih_map_ok t k v : ih_wf t -> ih_map t !! k = Some v -> valid_key k /\ v <> NONE;
  ih_Insert_ok e t k v ev0 :
    ih_wf t -> valid_key k -> v <> NONE ->
    exists r, ih_Insert e t k v ev0 = Ok r /\ ih_wf (ir_table r) /\
      insert_spec (ih_map t) k v ev0 (ih_map (ir_table r)) (ir_ret r) (ir_ev_key r) (ir_ev_value r);
  ih_Delete_ok t k :
    ih_wf t -> valid_key k ->
    ih_wf (ih_Delete t k).1 /\ ih_map (ih_Delete t k).1 = delete k (ih_map t) /\
    (ih_Delete t k).2 = default NONE (ih_map t !! k);
  ih_Get_ok e t k :
    ih_wf t -> valid_key k ->
    ih_wf (ih_Get e t k).1 /\ ih_map (ih_Get e t k).1 = ih_map t /\
    (ih_Get e t k).2 = default NONE (ih_map t !! k);
  ih_GetWithFlag_ok e t k busy :
    ih_wf t -> valid_key k ->
    ih_wf (ih_GetWithFlag e t k busy).1 /\ ih_map (ih_GetWithFlag e t k busy).1 = ih_map t /\
    (ih_GetWithFlag e t k busy).2 = if busy then default NONE (ih_map t !! k) else NONE;
  ih_Evict_ok es rs fuel t k0 r :
    ih_wf t -> ih_Evict es rs fuel t k0 = Some r ->
    exists t' k v, r = Ok (t', k, v) /\ ih_wf t' /\
      ih_map t !! k = Some v /\ ih_map t' = delete k (ih_map t);
}.

(** ** A table under a sequence of operations

    [ih_step] runs one operation of the source; [spec_step] is what a map with
    evictions may answer. *)
Inductive op : Type :=
| OpInsert (e : env) (k v : Z)
| OpDelete (k : Z)
| OpGet (e : env) (k : Z)
| OpGetWithFlag (e : env) (k : Z) (f : bool)
| OpEvict (es : nat -> env) (rs : nat -> Z) (fuel : nat).

Inductive answer : Type :=
| Inserted (ret ev_key ev_value : Z)
| Value (v : Z)
| Evicted (k v : Z)
| Retrying
| Raised (msg : string).

Definition op_valid (o : op) : Prop :=
  match o with
  | OpInsert _ k v => valid_key k /\ v <> NONE
  | OpDelete k | OpGet _ k | OpGetWithFlag _ k _ => valid_key k
  | OpEvict _ _ _ => True
  end.

Inductive spec_step (m : gmap Z Z) : op -> answer -> gmap Z Z -> Prop :=
| SpecInsert e k v m' ret ek ev :
    insert_spec m k v INVALID m' ret ek ev -> spec_step m (OpInsert e k v) (Inserted ret ek ev) m'
| SpecDelete k : spec_step m (OpDelete k) (Value (default NONE (m !! k))) (delete k m)
| SpecGet e k : spec_step m (OpGet e k) (Value (default NONE (m !! k))) m
| SpecPin e k : spec_step m (OpGetWithFlag e k true) (Value (default NONE (m !! k))) m
| SpecUnpin e k : spec_step m (OpGetWithFlag e k false) (Value NONE) m
| SpecEvict es rs fuel k v : m !! k = Some v -> spec_step m (OpEvict es rs fuel) (Evicted k v) (delete k m)
| SpecRetrying es rs fuel : spec_step m (OpEvict es rs fuel) Retrying m.

Inductive spec_run (m : gmap Z Z) : list op -> list answer -> gmap Z Z -> Prop :=
| SpecNil : spec_run m [] [] m
| SpecCons o a m1 os al m2 :
    spec_step m o a m1 -> spec_run m1 os al m2 -> spec_run m (o :: os) (a :: al) m2.

Section runs.
Context {T : Type} `{IT : IHash T}.

Definition ih_step (t : T) (o : op) : T * answer :=
  match o with
  | OpInsert e k v =>
      match ih_Insert e t k v INVALID with
      | Ok r => (ir_table r, Inserted (ir_ret r) (ir_ev_key r) (ir_ev_value r))
      | Throw msg => (t, Raised msg)
      end
  | OpDelete k => let '(t, v) := ih_Delete t k in (t, Value v)
  | OpGet e k => let '(t, v) := ih_Get e t k in (t, Value v)
  | OpGetWithFlag e k f => let '(t, v) := ih_GetWithFlag e t k f in (t, Value v)
  | OpEvict es rs fuel =>
      match ih_Evict es rs fuel t INVALID with
      | Some (Ok (t, k, v)) => (t, Evicted k v)
      | Some (Throw msg) => (t, Raised msg)
      | None => (t, Retrying)
      end
  end.

Fixpoint ih_run (t : T) (os : list op) : T * list answer :=
  match os with
  | [] => (t, [])
  | o :: os => let '(t, a) := ih_step t o in let '(t, al) := ih_run t os in (t, a :: al)
  end.

Lemma ih_step_refines t o :
  ih_wf t -> op_valid o ->
  ih_wf (ih_step t o).1 /\ spec_step (ih_map t) o (ih_step t o).2 (ih_map (ih_step t o).1).
Proof.
  intros Hwf. destruct o as [e k v|k|e k|e k f|es rs fuel]; simpl.
  - intros [Hk Hv]. destruct (ih_Insert_ok e t k v INVALID Hwf Hk Hv) as (r & -> & Hwf' & Hs).
    split; [done|]. by constructor.
  - intros Hk. destruct (ih_Delete_ok t k Hwf Hk) as (Hwf' & Hm & Hr).
    destruct (ih_Delete t k) as [t' r]. simpl in *. rewrite Hm, Hr. split; [done|constructor].
  - intros Hk. destruct (ih_Get_ok e t k Hwf Hk) as (Hwf' & Hm & Hr).
    destruct (ih_Get e t k) as [t' r]. simpl in *. rewrite Hm, Hr. split; [done|constructor].
  - intros Hk. destruct (ih_GetWithFlag_ok e t k f Hwf Hk) as (Hwf' & Hm & Hr).
    destruct (ih_GetWithFlag e t k f) as [t' r]. simpl in *. rewrite Hm, Hr.
    split; [done|]. destruct f; constructor.
  - intros _. destruct (ih_Evict es rs fuel t INVALID) as [r|] eqn:E; [|split; [done|constructor]].
    destruct (ih_Evict_ok es rs fuel t INVALID r Hwf E) as (t' & k & v & -> & Hwf' & Hk & Hm).
    split; [done|]. simpl. rewrite Hm. by constructor.
Qed.

Lemma ih_run_refines os t :
  ih_wf t -> Forall op_valid os ->
  ih_wf (ih_run t os).1 /\ spec_run (ih_map t) os (ih_run t os).2 (ih_map (ih_run t os).1).
Proof.
  intros Hwf Hos. revert t Hwf. induction Hos as [|o os Ho Hos IH]; intros t Hwf; simpl.
  { split; [done|constructor]. }
  destruct (ih_step_refines t o Hwf Ho) as [Hwf1 Hs].
  destruct (ih_step t o) as [t1 a]. destruct (IH t1 Hwf1) as [Hwf2 Hr].
  destruct (ih_run t1 os) as [t2 al]. simpl in *. split; [done|]. by econstructor.
Qed.
End runs.
