(* ===== verification/LinearProbing.v ===== *)
(** * LinearProbing: the daemon's hash table

    [daemon/hash-table/linear_probing_approx.hpp] and [.cpp]: open addressing
    with a probe window of 16 slots, tombstones, eviction on collision of the
    least recently used bucket of the window, and a background eviction that
    starts at a random slot. The file ends with the [IHash] instance.

    A table of [capacity] buckets is a list; a slot or a probe count is a [nat]
    (they stay below [capacity + 16]), [(size_t)-1] as "no slot" is [None]. An
    operation runs the critical sections of its lock ranges in the order of the
    code; [try_lock] on another range is answered by the environment. *)
From S2P Require Import Prelude Keys HashFuncs Ihash.

(** ** Data *)

Record LPA_Bkt_t := Bkt { key : Z; value : Z; timestamp : Z; busy : bool }.

Definition new_bkt : LPA_Bkt_t := Bkt INVALID NONE INVALID32 false.
#[export] Instance bkt_inhabited : Inhabited LPA_Bkt_t := populate new_bkt.

Record lpa := Lpa { capacity : nat; buckets : list LPA_Bkt_t }.

Definition MAX_PROBING_LEN : nat := 16 - 1.
Definition lock_size : nat := MAX_PROBING_LEN + 1.

(** The constructor; [num_locks] only sizes the array of mutexes. *)
Definition LinearProbingApprox (capacity : nat) : lpa :=
  Lpa capacity (replicate capacity new_bkt).
Definition num_locks (t : lpa) : nat := capacity t / lock_size + 1.

(** The hash the table uses on keys. *)
Class KeyHash := { hash_of : Z -> Z; hash_of_ok k : u_ok 64 (hash_of k) }.

(** ** Bucket helpers ([linear_probing_approx.hpp]) *)

Definition vacantb (b : LPA_Bkt_t) : bool := (key b =? INVALID) || (key b =? TOMBSTONE).

Definition IsVacantBucket (t : lpa) (slot : nat) : bool := vacantb (buckets t !!! slot).
Definition IsValidBucket (t : lpa) (slot : nat) : bool :=
  negb (key (buckets t !!! slot) =? INVALID) && negb (key (buckets t !!! slot) =? TOMBSTONE).

Definition set_bkt (t : lpa) (slot : nat) (b : LPA_Bkt_t) : lpa :=
  Lpa (capacity t) (<[slot := b]> (buckets t)).

(** [timestamp = ts.tv_sec], an [unsigned int]. *)
Definition SetTimestamp (e : env) : Z := wrap 32 (now e).

(** The busy flag of the slot is left as it is. *)
Definition SetBucket (e : env) (t : lpa) (slot : nat) (k v : Z) : lpa :=
  set_bkt t slot (Bkt k v (SetTimestamp e) (busy (buckets t !!! slot))).

Definition set_tombstone (t : lpa) (slot : nat) : lpa :=
  let b := buckets t !!! slot in
  set_bkt t slot (Bkt TOMBSTONE (value b) (timestamp b) (busy b)).

Definition set_busy (t : lpa) (slot : nat) (f : bool) : lpa :=
  let b := buckets t !!! slot in
  set_bkt t slot (Bkt (key b) (value b) (timestamp b) f).

Definition touch (e : env) (t : lpa) (slot : nat) : lpa :=
  let b := buckets t !!! slot in
  set_bkt t slot (Bkt (key b) (value b) (SetTimestamp e) (busy b)).

Definition CollEvict (e : env) (t : lpa) (k v : Z) (victim_slot : nat) : outcome (ins_res lpa) :=
  let ev_key := key (buckets t !!! victim_slot) in
  let ev_value := value (buckets t !!! victim_slot) in
  let t := SetBucket e t victim_slot k v in
  if ev_key =? INVALID then Throw "ev_key is INVALID wrong victim_slot"
  else Ok (InsRes t 0 ev_key ev_value).

Definition Capacity (t : lpa) : nat := capacity t.

(** [Utilization]: the count of valid buckets (the source returns it as a
    percentage of [capacity], in floating point). *)
Definition valid_count (t : lpa) : nat :=
  length (filter (fun s => IsValidBucket t s = true) (seq 0 (capacity t))).

Section lpa_ops.
Context `{KeyHash}.

Definition GetHashedKey (t : lpa) (k : Z) : nat := Z.to_nat (hash_of k mod Z.of_nat (capacity t)).

(** Slot [i] of the probe sequence that starts at [loc]. *)
Definition slot_at (t : lpa) (loc i : nat) : nat := (loc + i) mod capacity t.

(** ** Delete *)

(** [n] is [capacity - i], the iterations [while (i < capacity)] has left. *)
Fixpoint delete_probe (t : lpa) (k : Z) (loc n i : nat) : lpa * Z :=
  match n with
  | O => (t, NONE)
  | S n =>
      let slot := slot_at t loc i in
      if key (buckets t !!! slot) =? k then
        (set_tombstone t slot, value (buckets t !!! slot))
      else if key (buckets t !!! slot) =? INVALID then (t, NONE)
      else if (MAX_PROBING_LEN <=? i)%nat then (t, NONE)
      else delete_probe t k loc n (S i)
  end.

Definition Delete (t : lpa) (k : Z) : lpa * Z :=
  delete_probe t k (GetHashedKey t k) (capacity t) 0.

(** ** Get *)

Fixpoint get_probe (e : env) (t : lpa) (k : Z) (loc n i : nat) : lpa * Z :=
  match n with
  | O => (t, NONE)
  | S n =>
      let slot := slot_at t loc i in
      if key (buckets t !!! slot) =? k then (touch e t slot, value (buckets t !!! slot))
      else if key (buckets t !!! slot) =? INVALID then (t, NONE)
      else if (MAX_PROBING_LEN <=? i)%nat then (t, NONE)
      else get_probe e t k loc n (S i)
  end.

Definition Get (e : env) (t : lpa) (k : Z) : lpa * Z :=
  get_probe e t k (GetHashedKey t k) (capacity t) 0.

Fixpoint get_with_flag_probe (e : env) (t : lpa) (k : Z) (f : bool) (loc n i : nat) : lpa * Z :=
  match n with
  | O => (t, NONE)
  | S n =>
      let slot := slot_at t loc i in
      if key (buckets t !!! slot) =? k then
        let t := set_busy t slot f in
        if f then (touch e t slot, value (buckets t !!! slot)) else (t, NONE)
      else if key (buckets t !!! slot) =? INVALID then (t, NONE)
      else if (MAX_PROBING_LEN <=? i)%nat then (t, NONE)
      else get_with_flag_probe e t k f loc n (S i)
  end.

Definition GetWithFlag (e : env) (t : lpa) (k : Z) (f : bool) : lpa * Z :=
  get_with_flag_probe e t k f (GetHashedKey t k) (capacity t) 0.

(** ** Insert *)

(** The victim of a lock range: [min_timestamp] and [victim_slot]. *)
Record victim := Victim { min_timestamp : Z; victim_slot : option nat }.
Definition no_victim : victim := Victim (wrap 32 (-1)) None.

(** [if (buckets[slot].timestamp <= min_timestamp) ...] *)
Definition find_victim (t : lpa) (slot : nat) (v : victim) : victim :=
  if timestamp (buckets t !!! slot) <=? min_timestamp v
  then Victim (timestamp (buckets t !!! slot)) (Some slot) else v.

(** The end of the window: evict from the previous range when it holds the
    older victim and its lock is free, else from the current one. *)
Definition insert_full (e : env) (t : lpa) (k v ev_key : Z) (cur prev : victim) (prev_lock_idx : nat)
  : outcome (ins_res lpa) :=
  let refuse := Ok (InsRes t (-1) k v) in
  let cur_range :=
    match victim_slot cur with
    | None => refuse
    | Some s => if busy (buckets t !!! s) then refuse else CollEvict e t k v s
    end in
  match victim_slot prev with
  | Some p =>
      if (min_timestamp prev <? min_timestamp cur) && try_lock e prev_lock_idx then
        if IsVacantBucket t p then Ok (InsRes (SetBucket e t p k v) 0 ev_key NONE)
        else if busy (buckets t !!! p) then refuse
        else CollEvict e t k v p
      else cur_range
  | None => cur_range
  end.

(** The probe loop; [ev_key] is the out-parameter as the caller set it. *)
Fixpoint insert_probe (e : env) (t : lpa) (k v ev_key : Z) (loc n i : nat)
    (cur prev : victim) (prev_lock_idx : nat) : outcome (ins_res lpa) :=
  match n with
  | O => Ok (InsRes t 0 ev_key NONE)
  | S n =>
      let slot := slot_at t loc i in
      if IsVacantBucket t slot then
        if key (buckets t !!! slot) =? k then Throw "LPA::key is duplicated"
        else Ok (InsRes (SetBucket e t slot k v) 0 ev_key NONE)
      else
        let cur := find_victim t slot cur in
        if (MAX_PROBING_LEN <=? i)%nat then insert_full e t k v ev_key cur prev prev_lock_idx
        else if (slot_at t loc (S i) mod lock_size =? 0)%nat then
          insert_probe e t k v ev_key loc n (S i) no_victim cur (slot / lock_size)
        else insert_probe e t k v ev_key loc n (S i) cur prev prev_lock_idx
  end.

Definition Insert (e : env) (t : lpa) (k v ev_key : Z) : outcome (ins_res lpa) :=
  let '(t, ev_value) := Delete t k in
  if negb (ev_value =? NONE) then Ok (InsRes t 0 ev_key ev_value)
  else insert_probe e t k v ev_key (GetHashedKey t k) (capacity t) 0 no_victim no_victim 0.

(** ** Evict *)

Definition MAX_EVICT_RETRY : Z := 2.

(** How one attempt of [ApproxLRUEvict] ends: [goto RETRY], which keeps
    [victim_slot] and [min_timestamp]; a victim; or the end of the table. *)
Inductive attempt : Type :=
| Retry (cur : victim)
| Victim_at (slot : nat)
| Exhausted.

(** [out_direct]: choose between the victims of the two ranges. *)
Definition evict_choose (e : env) (t : lpa) (cur prev : victim) (prev_lock_idx : nat) : attempt :=
  match victim_slot cur with
  | None => Retry cur
  | Some s =>
      match victim_slot prev with
      | Some p =>
          if (min_timestamp prev <? min_timestamp cur) && try_lock e prev_lock_idx then
            if IsVacantBucket t p then Victim_at s else Victim_at p
          else Victim_at s
      | None => Victim_at s
      end
  end.

(** One pass over the ranges from [loc]; a range is entered with [try_lock]. *)
Fixpoint evict_probe (e : env) (t : lpa) (retry_cnt : Z) (loc n i : nat)
    (cur prev : victim) (prev_lock_idx : nat) : attempt :=
  match n with
  | O => Exhausted
  | S n =>
      let slot := slot_at t loc i in
      let lock_idx := (slot / lock_size)%nat in
      let enter := (i =? 0)%nat || (slot mod lock_size =? 0)%nat in
      if enter && negb (try_lock e lock_idx) then Retry cur
      else if IsValidBucket t slot && busy (buckets t !!! slot) then Retry cur
      else if IsValidBucket t slot && (MAX_EVICT_RETRY <? retry_cnt) then
        evict_choose e t (Victim (min_timestamp cur) (Some slot)) no_victim prev_lock_idx
      else
        let cur := if IsValidBucket t slot then find_victim t slot cur else cur in
        if (MAX_PROBING_LEN <=? i)%nat then evict_choose e t cur prev prev_lock_idx
        else if (slot_at t loc (S i) mod lock_size =? 0)%nat then
          evict_probe e t retry_cnt loc n (S i) no_victim cur lock_idx
        else evict_probe e t retry_cnt loc n (S i) cur prev prev_lock_idx
  end.

(** [out]: hand out the key and the value, or throw. *)
Definition evict_out (t : lpa) (k v : Z) : outcome (lpa * Z * Z) :=
  if (k =? INVALID) || (k =? TOMBSTONE) then Throw "Evict: key is INVALID or TOMBSTONE"
  else if v =? NONE then Throw "Evict: value is NONE"
  else Ok (t, k, v).

(** The retry loop: attempt [a] draws the random number [rs a] and sees the
    locks [es a]. [None]: still retrying when the fuel is used up. *)
Fixpoint evict_retry (es : nat -> env) (rs : nat -> Z) (fuel a : nat) (t : lpa) (k0 : Z)
    (cur : victim) : option (outcome (lpa * Z * Z)) :=
  match fuel with
  | O => None
  | S fuel =>
      let loc := Z.to_nat (rs a mod Z.of_nat (capacity t)) in
      match evict_probe (es a) t (Z.of_nat a) loc (capacity t) 0 cur no_victim 0 with
      | Retry cur => evict_retry es rs fuel (S a) t k0 cur
      | Victim_at s =>
          Some (evict_out (set_tombstone t s) (key (buckets t !!! s)) (value (buckets t !!! s)))
      | Exhausted => Some (evict_out t k0 NONE)
      end
  end.

Definition ApproxLRUEvict (es : nat -> env) (rs : nat -> Z) (fuel : nat) (t : lpa) (k0 : Z)
  : option (outcome (lpa * Z * Z)) :=
  evict_retry es rs fuel 0 t k0 no_victim.

Definition Evict := ApproxLRUEvict.

(** ** Well-formed tables *)

(** The probe sequence of a key. *)
Definition probe_slot (t : lpa) (k : Z) (i : nat) : nat := slot_at t (GetHashedKey t k) i.

Definition validk (k : Z) : Prop := k <> INVALID /\ k <> TOMBSTONE.

(** A key is stored within its window, with no never-used bucket before it. *)
Definition reachable (t : lpa) (k : Z) (s : nat) : Prop :=
  exists i, (i <= MAX_PROBING_LEN)%nat /\ probe_slot t k i = s /\
    forall j, (j < i)%nat -> key (buckets t !!! probe_slot t k j) <> INVALID.

Record wf (t : lpa) : Prop := {
  wf_cap : (lock_size <= capacity t)%nat;
  wf_len : length (buckets t) = capacity t;
  wf_uniq s1 s2 : (s1 < capacity t)%nat -> (s2 < capacity t)%nat ->
    validk (key (buckets t !!! s1)) -> key (buckets t !!! s1) = key (buckets t !!! s2) -> s1 = s2;
  wf_reach s : (s < capacity t)%nat -> validk (key (buckets t !!! s)) ->
    reachable t (key (buckets t !!! s)) s;
  wf_value s : (s < capacity t)%nat -> validk (key (buckets t !!! s)) ->
    value (buckets t !!! s) <> NONE /\ u_ok 64 (key (buckets t !!! s));
  wf_stamp s : (s < capacity t)%nat -> u_ok 32 (timestamp (buckets t !!! s));
}.

(** The map a table stands for. *)
Definition entry (b : LPA_Bkt_t) : option (Z * Z) :=
  if vacantb b then None else Some (key b, value b).
Definition contents (t : lpa) : gmap Z Z := list_to_map (omap entry (buckets t)).

(** ** Lemmas: slots and updates *)

Implicit Types (t : lpa) (k : Z) (s i : nat).

Lemma vacantb_spec b : vacantb b = false <-> validk (key b).
Proof. unfold vacantb, validk. rewrite orb_false_iff, !Z.eqb_neq. done. Qed.

Lemma IsValid_vacant t s : IsValidBucket t s = negb (IsVacantBucket t s).
Proof. unfold IsValidBucket, IsVacantBucket, vacantb. by rewrite negb_orb. Qed.

Lemma slot_at_lt t loc i : (lock_size <= capacity t)%nat -> (slot_at t loc i < capacity t)%nat.
Proof. intros Hc. apply Nat.mod_upper_bound. unfold lock_size in Hc. lia. Qed.

Lemma set_bkt_same t s b :
  (s < length (buckets t))%nat -> buckets (set_bkt t s b) !!! s = b.
Proof. intros Hs. simpl. by rewrite list_lookup_total_insert_eq. Qed.

Lemma set_bkt_other t s s' b : s <> s' -> buckets (set_bkt t s b) !!! s' = buckets t !!! s'.
Proof. intros Hs. simpl. by rewrite list_lookup_total_insert_ne. Qed.

Lemma set_bkt_lookup t s s' b :
  (s < length (buckets t))%nat ->
  buckets (set_bkt t s b) !!! s' = if decide (s = s') then b else buckets t !!! s'.
Proof.
  intros Hs. case_decide as E; [subst; by apply set_bkt_same|by apply set_bkt_other].
Qed.

(** What [contents] maps a key to, slot by slot. *)
Lemma contents_lookup t k v :
  wf t -> contents t !! k = Some v <->
  validk k /\ exists s, (s < capacity t)%nat /\ key (buckets t !!! s) = k /\ value (buckets t !!! s) = v.
Proof.
  intros Hwf. unfold contents. rewrite <- elem_of_list_to_map.
  - rewrite list_elem_of_omap. split.
    + intros (b & [s Hs]%list_elem_of_lookup & Hb). unfold entry in Hb.
      destruct (vacantb b) eqn:Ev; simplify_eq. apply vacantb_spec in Ev. split; [done|].
      exists s. rewrite <- (wf_len t Hwf), (list_lookup_total_correct _ _ _ Hs).
      split; [by eapply lookup_lt_Some|done].
    + intros (Hk & s & Hs & <- & <-). rewrite <- (wf_len t Hwf) in Hs.
      destruct (lookup_lt_is_Some_2 _ _ Hs) as [b Hb].
      rewrite (list_lookup_total_correct _ _ _ Hb) in *. exists b.
      split; [by eapply list_elem_of_lookup_2|]. unfold entry.
      by rewrite (proj2 (vacantb_spec b) Hk).
  - pose proof (wf_uniq t Hwf) as Hu. rewrite <- (wf_len t Hwf) in Hu.
    generalize dependent (buckets t). intros l Hu. clear Hwf.
    induction l as [|b l IH]; [constructor|].
    assert (forall s1 s2 : nat, (s1 < length l)%nat -> (s2 < length l)%nat ->
      validk (key (l !!! s1)) -> key (l !!! s1) = key (l !!! s2) -> s1 = s2) as Hu'.
    { intros s1 s2 H1 H2 Hv E. specialize (Hu (S s1) (S s2)). simpl in Hu.
      assert (S s1 = S s2) by (apply Hu; done || lia). lia. }
    simpl. destruct (entry b) as [[k' v']|] eqn:Eb; [|by apply IH]. simpl. constructor; [|by apply IH].
    unfold entry in Eb. destruct (vacantb b) eqn:Ev; simplify_eq. apply vacantb_spec in Ev.
    rewrite list_elem_of_fmap. intros ([k'' v''] & E & (b' & [s Hs]%list_elem_of_lookup & Hb')%list_elem_of_omap).
    simpl in E. unfold entry in Hb'. destruct (vacantb b'); simplify_eq.
    specialize (Hu 0%nat (S s)). simpl in Hu.
    assert (0%nat = S s); [|done]. apply Hu; [lia| | done|].
    + apply lookup_lt_Some in Hs. lia.
    + by rewrite (list_lookup_total_correct _ _ _ Hs).
Qed.

(** ** Lemmas: the probe *)

(** The search [Delete], [Get] and [GetWithFlag] share: the slot holding [k]. *)
Fixpoint probe (t : lpa) (k : Z) (loc n i : nat) : option nat :=
  match n with
  | O => None
  | S n =>
      let s := slot_at t loc i in
      if key (buckets t !!! s) =? k then Some s
      else if key (buckets t !!! s) =? INVALID then None
      else if (MAX_PROBING_LEN <=? i)%nat then None
      else probe t k loc n (S i)
  end.

Definition find (t : lpa) (k : Z) : option nat := probe t k (GetHashedKey t k) (capacity t) 0.

Lemma delete_probe_find t k loc n i :
  delete_probe t k loc n i =
    match probe t k loc n i with
    | Some s => (set_tombstone t s, value (buckets t !!! s))
    | None => (t, NONE)
    end.
Proof. revert i. induction n as [|n IH]; intros i; cbn [probe delete_probe get_probe get_with_flag_probe]; [done|]. do 3 (case_match; [done|]). apply IH. Qed.

Lemma get_probe_find e t k loc n i :
  get_probe e t k loc n i =
    match probe t k loc n i with
    | Some s => (touch e t s, value (buckets t !!! s))
    | None => (t, NONE)
    end.
Proof. revert i. induction n as [|n IH]; intros i; cbn [probe delete_probe get_probe get_with_flag_probe]; [done|]. do 3 (case_match; [done|]). apply IH. Qed.

Lemma get_with_flag_probe_find e t k f loc n i :
  get_with_flag_probe e t k f loc n i =
    match probe t k loc n i with
    | Some s =>
        if f then (touch e (set_busy t s f) s, value (buckets (set_busy t s f) !!! s))
        else (set_busy t s f, NONE)
    | None => (t, NONE)
    end.
Proof. revert i. induction n as [|n IH]; intros i; cbn [probe delete_probe get_probe get_with_flag_probe]; [done|].
  destruct (_ =? k); [done|].
  destruct (_ =? INVALID); [done|]. destruct (MAX_PROBING_LEN <=? i)%nat; [done|]. apply IH.
Qed.

Lemma probe_Some t k loc n i s : probe t k loc n i = Some s -> key (buckets t !!! s) = k.
Proof.
  revert i. induction n as [|n IH]; intros i; cbn [probe delete_probe get_probe get_with_flag_probe]; [done|].
  destruct (Z.eqb_spec (key (buckets t !!! slot_at t loc i)) k).
  - by intros [= <-].
  - case_match; [done|]. case_match; [done|]. apply IH.
Qed.

Lemma probe_Some_lt t k loc n i s :
  (lock_size <= capacity t)%nat -> probe t k loc n i = Some s -> (s < capacity t)%nat.
Proof.
  intros Hc. revert i. induction n as [|n IH]; intros i; cbn [probe delete_probe get_probe get_with_flag_probe]; [done|].
  destruct (_ =? k); [intros [= <-]; by apply slot_at_lt|]. case_match; [done|]. case_match; [done|apply IH].
Qed.

(** A stored key is found: the window reaches it. *)
Lemma find_stored t k s :
  wf t -> validk k -> (s < capacity t)%nat -> key (buckets t !!! s) = k -> find t k = Some s.
Proof.
  intros Hwf Hk Hs Hks.
  destruct (wf_reach t Hwf s Hs) as (i & Hi & His & Hpre); [by rewrite Hks|].
  rewrite Hks in His, Hpre. unfold probe_slot in His, Hpre.
  pose proof (wf_cap t Hwf) as Hc. unfold find.
  assert (MAX_PROBING_LEN = 15%nat /\ lock_size = 16%nat) as [HM HL] by done.
  assert (forall d j n, (j + d = i)%nat -> (d < n)%nat ->
    probe t k (GetHashedKey t k) n j = Some s) as Hp.
  { induction d as [|d IH]; intros j [|n] Hj Hn; [lia| |lia|]; cbn [probe].
    - assert (j = i) as -> by lia. by rewrite His, Hks, Z.eqb_refl.
    - destruct (Z.eqb_spec (key (buckets t !!! slot_at t (GetHashedKey t k) j)) k) as [E|].
      + f_equal. apply (wf_uniq t Hwf); [by apply slot_at_lt|done|by rewrite E|congruence].
      + rewrite (proj2 (Z.eqb_neq _ _)) by (apply Hpre; lia).
        rewrite (proj2 (Nat.leb_gt _ _)) by lia. apply IH; lia. }
  apply (Hp i); lia.
Qed.

Lemma find_spec t k s :
  wf t -> validk k -> find t k = Some s <-> (s < capacity t)%nat /\ key (buckets t !!! s) = k.
Proof.
  intros Hwf Hk. split; [|intros []; by apply find_stored].
  intros Hf. split; [eapply probe_Some_lt, Hf; apply Hwf|by eapply probe_Some].
Qed.

Lemma find_contents t k :
  wf t -> validk k -> contents t !! k = (fun s => value (buckets t !!! s)) <$> find t k.
Proof.
  intros Hwf Hk. apply option_eq. intros v. rewrite contents_lookup by done.
  destruct (find t k) as [s|] eqn:Ef; simpl.
  - apply find_spec in Ef as [Hs Hks]; [|done|done]. split.
    + intros (_ & s' & Hs' & Hks' & <-). f_equal.
      replace s' with s; [done|]. apply (wf_uniq t Hwf); [done|done|by rewrite Hks|congruence].
    + intros [= <-]. eauto 6.
  - split; [|done]. intros (_ & s & Hs & Hks & _).
    assert (find t k = Some s) by (apply find_spec; done). congruence.
Qed.

(** ** Lemmas: updates that keep a table well-formed *)

(** An update that never makes a slot unused again keeps keys reachable. *)
Lemma reachable_set t s b k s' :
  (s < length (buckets t))%nat -> (key b <> INVALID \/ key (buckets t !!! s) = INVALID) ->
  reachable t k s' -> reachable (set_bkt t s b) k s'.
Proof.
  intros Hs Hb (i & Hi & His & Hpre). exists i. split; [done|]. split; [done|].
  intros j Hj. rewrite set_bkt_lookup by done.
  change (probe_slot (set_bkt t s b) k j) with (probe_slot t k j).
  pose proof (Hpre j Hj) as Hne. case_decide as E; [|done]. destruct Hb as [|Hb]; [done|].
  congruence.
Qed.

(** Same key, same or another valid value: neither the keys nor the map change
    unless the value does. *)
Lemma wf_update_meta t s b :
  wf t -> (s < capacity t)%nat -> key b = key (buckets t !!! s) ->
  value b = value (buckets t !!! s) -> u_ok 32 (timestamp b) ->
  wf (set_bkt t s b) /\ contents (set_bkt t s b) = contents t.
Proof.
  intros Hwf Hs Hk Hv Ht.
  pose proof (wf_len t Hwf) as Hl. assert (s < length (buckets t))%nat as Hs' by lia.
  assert (forall s', key (buckets (set_bkt t s b) !!! s') = key (buckets t !!! s')) as Ekey.
  { intros s'. rewrite set_bkt_lookup by done. case_decide; congruence. }
  assert (forall s', value (buckets (set_bkt t s b) !!! s') = value (buckets t !!! s')) as Eval.
  { intros s'. rewrite set_bkt_lookup by done. case_decide; congruence. }
  assert (wf (set_bkt t s b)) as Hwf'.
  { split; simpl.
    - apply Hwf.
    - rewrite length_insert. apply Hwf.
    - intros s1 s2. rewrite !Ekey. apply Hwf.
    - intros s1 H1. rewrite Ekey. intros Hv1. apply reachable_set; [done| |by apply Hwf].
      rewrite Hk. destruct (decide (key (buckets t !!! s) = INVALID)); auto.
    - intros s1 H1. rewrite Ekey, Eval. by apply Hwf.
    - intros s1 H1. change (<[s:=b]> (buckets t)) with (buckets (set_bkt t s b)).
      rewrite set_bkt_lookup by done. case_decide; [done|by apply Hwf]. }
  split; [done|]. apply map_eq. intros k. apply option_eq. intros v.
  rewrite !contents_lookup by done. by setoid_rewrite Ekey; setoid_rewrite Eval.
Qed.

Lemma set_tombstone_key t s s' :
  (s < length (buckets t))%nat ->
  key (buckets (set_tombstone t s) !!! s') = if decide (s = s') then TOMBSTONE else key (buckets t !!! s').
Proof. intros Hs. unfold set_tombstone. rewrite set_bkt_lookup by done. by case_decide. Qed.

(** Deleting: the slot becomes a tombstone. *)
Lemma wf_tombstone t s :
  wf t -> (s < capacity t)%nat -> validk (key (buckets t !!! s)) ->
  wf (set_tombstone t s) /\ contents (set_tombstone t s) = delete (key (buckets t !!! s)) (contents t).
Proof.
  intros Hwf Hs Hv. pose proof (wf_len t Hwf) as Hl. assert (s < length (buckets t))%nat as Hs' by lia.
  assert (~ validk TOMBSTONE) as Htomb by (unfold validk; tauto).
  assert (wf (set_tombstone t s)) as Hwf'.
  { split.
    - apply Hwf.
    - simpl. rewrite length_insert. apply Hwf.
    - intros s1 s2 H1 H2. rewrite !set_tombstone_key by done.
      repeat case_decide; subst; try done; [|by apply Hwf].
      intros Hv1 E. by rewrite E in Hv1.
    - intros s1 H1. rewrite !set_tombstone_key by done. case_decide; [done|].
      intros Hv1. apply reachable_set; [done|by left|by apply Hwf].
    - intros s1 H1. rewrite !set_tombstone_key by done. case_decide; [done|].
      intros Hv1. unfold set_tombstone. rewrite set_bkt_other by done. by apply Hwf.
    - intros s1 H1. unfold set_tombstone. rewrite set_bkt_lookup by done.
      case_decide; subst; simpl; by apply Hwf. }
  split; [done|]. apply map_eq. intros k. apply option_eq. intros v.
  rewrite contents_lookup, lookup_delete_Some, contents_lookup by done. split.
  - intros (Hk & s1 & H1 & Hk1 & Hv1). rewrite set_tombstone_key in Hk1 by done.
    case_decide; [by subst|]. unfold set_tombstone in Hv1. rewrite set_bkt_other in Hv1 by done.
    split; [|eauto]. intros <-. by apply (wf_uniq t Hwf s s1) in Hs.
  - intros (Hne & Hk & s1 & H1 & Hk1 & Hv1). split; [done|]. exists s1.
    rewrite set_tombstone_key by done. unfold set_tombstone.
    assert (s <> s1) by congruence. rewrite set_bkt_other by done. by case_decide.
Qed.

Lemma contents_valid t k v : wf t -> contents t !! k = Some v -> valid_key k /\ v <> NONE.
Proof.
  intros Hwf Hk. apply contents_lookup in Hk as (Hv & s & Hs & Hks & <-); [|done].
  destruct (wf_value t Hwf s Hs) as [Hne Hok]; [by rewrite Hks|]. rewrite Hks in Hok.
  by destruct Hv.
Qed.

Lemma contents_vacant t k : wf t -> ~ validk k -> contents t !! k = None.
Proof.
  intros Hwf Hk. destruct (contents t !! k) eqn:E; [|done].
  apply contents_lookup in E as [? _]; done.
Qed.

Lemma SetBucket_lookup e t s k v s' :
  (s < length (buckets t))%nat ->
  buckets (SetBucket e t s k v) !!! s' =
    if decide (s = s') then Bkt k v (SetTimestamp e) (busy (buckets t !!! s)) else buckets t !!! s'.
Proof. apply set_bkt_lookup. Qed.

(** A fresh key written to slot [j] of its window, whatever was there. *)
Lemma wf_place e t k v j :
  wf t -> valid_key k -> v <> NONE -> contents t !! k = None -> (j <= MAX_PROBING_LEN)%nat ->
  (forall j', (j' < j)%nat -> validk (key (buckets t !!! probe_slot t k j'))) ->
  let s := probe_slot t k j in
  wf (SetBucket e t s k v) /\
  contents (SetBucket e t s k v) = <[k := v]> (delete (key (buckets t !!! s)) (contents t)).
Proof.
  intros Hwf (Hok & Hk) Hv Hnone Hj Hpre s.
  assert (s < capacity t)%nat as Hs by (apply slot_at_lt, Hwf).
  pose proof (wf_len t Hwf) as Hl. assert (s < length (buckets t))%nat as Hs' by lia.
  assert (forall s1, (s1 < capacity t)%nat -> key (buckets t !!! s1) <> k) as Hfresh.
  { intros s1 H1 E. assert (contents t !! k = Some (value (buckets t !!! s1))); [|congruence].
    apply contents_lookup; eauto. }
  assert (wf (SetBucket e t s k v)) as Hwf'.
  { split.
    - apply Hwf.
    - simpl. rewrite length_insert. apply Hwf.
    - intros s1 s2 H1 H2. rewrite !SetBucket_lookup by done.
      repeat case_decide; subst; simpl; [done| | |by apply Hwf]; intros _ E.
      + by destruct (Hfresh s2 H2).
      + by destruct (Hfresh s1 H1).
    - intros s1 H1. rewrite !SetBucket_lookup by done. case_decide as E; simpl; intros Hv1.
      + subst s1. apply reachable_set; [done|simpl; left; apply Hk|]. exists j. split; [done|].
        split; [done|]. intros j' Hj'. by apply Hpre.
      + apply reachable_set; [done|simpl; left; apply Hk|]. by apply Hwf.
    - intros s1 H1. rewrite !SetBucket_lookup by done. case_decide; simpl; [done|]. by apply Hwf.
    - intros s1 H1. rewrite SetBucket_lookup by done. case_decide; simpl; [apply wrap32_ok|by apply Hwf]. }
  split; [done|]. apply map_eq. intros k'. apply option_eq. intros v'.
  rewrite contents_lookup by done. setoid_rewrite SetBucket_lookup; [|done|done].
  rewrite lookup_insert_Some, lookup_delete_Some, contents_lookup by done. split.
  - intros (Hk' & s1 & H1 & Hs1). case_decide as E; simpl in Hs1; [left; naive_solver|].
    right. destruct Hs1 as [Hks1 Hvs1]. split; [|split]; [| |eauto].
    + intros <-. by apply (Hfresh s1).
    + rewrite <- Hks1. intros E'. apply E. apply (wf_uniq t Hwf); [done|done| |done]. by rewrite E', Hks1.
  - intros [[<- <-]|(Hne & Hne' & Hk' & s1 & H1 & Hks1 & Hvs1)].
    + split; [done|]. exists s. by case_decide.
    + split; [done|]. exists s1. split; [done|]. case_decide as E; [|done].
      subst s1. done.
Qed.

(** ** Lemmas: Insert *)

(** The scan so far: the slots before [i] hold valid keys, and a victim is one
    of them. *)
Definition scanned t k i (c : victim) : Prop :=
  forall s, victim_slot c = Some s -> exists j, (j < i)%nat /\ s = probe_slot t k j.

Inductive ins_post (e : env) (t : lpa) (k v ev0 : Z) : ins_res lpa -> Prop :=
| PostPlace j :
    (j <= MAX_PROBING_LEN)%nat ->
    (forall j', (j' < j)%nat -> validk (key (buckets t !!! probe_slot t k j'))) ->
    IsVacantBucket t (probe_slot t k j) = true ->
    ins_post e t k v ev0 (InsRes (SetBucket e t (probe_slot t k j) k v) 0 ev0 NONE)
| PostEvict j :
    (j <= MAX_PROBING_LEN)%nat ->
    (forall j', (j' <= MAX_PROBING_LEN)%nat -> validk (key (buckets t !!! probe_slot t k j'))) ->
    busy (buckets t !!! probe_slot t k j) = false ->
    ins_post e t k v ev0
      (InsRes (SetBucket e t (probe_slot t k j) k v) 0
         (key (buckets t !!! probe_slot t k j)) (value (buckets t !!! probe_slot t k j)))
| PostRefuse :
    (forall j', (j' <= MAX_PROBING_LEN)%nat -> validk (key (buckets t !!! probe_slot t k j'))) ->
    ins_post e t k v ev0 (InsRes t (-1) k v).

Lemma scanned_no_victim t k i : scanned t k i no_victim.
Proof. by intros s. Qed.

Lemma scanned_mono t k i c : scanned t k i c -> scanned t k (S i) c.
Proof. intros Hc s Hs. destruct (Hc s Hs) as (j & Hj & ->). exists j. split; [lia|done]. Qed.

Lemma scanned_find t k i c : scanned t k i c -> scanned t k (S i) (find_victim t (probe_slot t k i) c).
Proof.
  intros Hc s. unfold find_victim. case_match; simpl.
  - intros [= <-]. exists i. split; [lia|done].
  - apply scanned_mono, Hc.
Qed.
Create HintDb lpa discriminated.
#[local] Hint Resolve scanned_no_victim scanned_mono scanned_find : lpa.

Lemma CollEvict_post e t k v ev0 j :
  (j <= MAX_PROBING_LEN)%nat ->
  (forall j', (j' <= MAX_PROBING_LEN)%nat -> validk (key (buckets t !!! probe_slot t k j'))) ->
  busy (buckets t !!! probe_slot t k j) = false ->
  exists r, CollEvict e t k v (probe_slot t k j) = Ok r /\ ins_post e t k v ev0 r.
Proof.
  intros Hj Hall Hb. unfold CollEvict. rewrite (proj2 (Z.eqb_neq _ _)) by (by apply Hall).
  eexists. split; [done|]. by apply PostEvict.
Qed.

Lemma insert_full_post e t k v ev0 cur prev pl :
  (forall j', (j' <= MAX_PROBING_LEN)%nat -> validk (key (buckets t !!! probe_slot t k j'))) ->
  scanned t k (S MAX_PROBING_LEN) cur -> scanned t k (S MAX_PROBING_LEN) prev ->
  exists r, insert_full e t k v ev0 cur prev pl = Ok r /\ ins_post e t k v ev0 r.
Proof.
  intros Hall Hcur Hprev. unfold insert_full.
  assert (exists r, Ok (InsRes t (-1) k v) = Ok r /\ ins_post e t k v ev0 r) as Hrefuse.
  { eexists. split; [done|]. by apply PostRefuse. }
  assert (exists r, match victim_slot cur with
    | None => Ok (InsRes t (-1) k v)
    | Some s => if busy (buckets t !!! s) then Ok (InsRes t (-1) k v) else CollEvict e t k v s
    end = Ok r /\ ins_post e t k v ev0 r) as Hcr.
  { destruct (victim_slot cur) as [s|] eqn:Es; [|done].
    destruct (Hcur s Es) as (j & Hj & ->). destruct (busy _) eqn:Hb; [done|]. apply CollEvict_post; [lia|done|done]. }
  destruct (victim_slot prev) as [p|] eqn:Ep; [|done]. destruct (_ && _); [|done].
  destruct (Hprev p Ep) as (j & Hj & ->).
  unfold IsVacantBucket. rewrite (proj2 (vacantb_spec _)) by (apply Hall; lia).
  destruct (busy _) eqn:Hb; [done|]. apply CollEvict_post; [lia|done|done].
Qed.

Lemma insert_probe_post e t k v ev0 n i cur prev pl :
  wf t -> validk k -> contents t !! k = None -> (n + i = capacity t)%nat -> (i <= MAX_PROBING_LEN)%nat ->
  (forall j', (j' < i)%nat -> validk (key (buckets t !!! probe_slot t k j'))) ->
  scanned t k i cur -> scanned t k i prev ->
  exists r, insert_probe e t k v ev0 (GetHashedKey t k) n i cur prev pl = Ok r /\ ins_post e t k v ev0 r.
Proof.
  intros Hwf Hk Hnone. revert i cur prev pl.
  induction n as [|n IH]; intros i cur prev pl Hn Hi Hpre Hcur Hprev.
  { pose proof (wf_cap t Hwf). unfold lock_size in *. lia. }
  cbn [insert_probe]. change (slot_at t (GetHashedKey t k) i) with (probe_slot t k i).
  destruct (IsVacantBucket t (probe_slot t k i)) eqn:Ev.
  - rewrite (proj2 (Z.eqb_neq _ _)).
    + eexists. split; [done|]. by apply PostPlace.
    + intros E. assert (key (buckets t !!! probe_slot t k i) = k) by done.
      unfold IsVacantBucket in Ev. assert (vacantb (buckets t !!! probe_slot t k i) = false) by (apply vacantb_spec; congruence).
      congruence.
  - assert (forall j', (j' < S i)%nat -> validk (key (buckets t !!! probe_slot t k j'))) as Hpre'.
    { intros j' Hj'. destruct (decide (j' = i)) as [->|]; [by apply vacantb_spec|apply Hpre; lia]. }
    destruct (MAX_PROBING_LEN <=? i)%nat eqn:Hle.
    + apply Nat.leb_le in Hle. assert (i = MAX_PROBING_LEN) as -> by lia.
      apply insert_full_post; [|auto with lpa..]. intros j' Hj'. apply Hpre'. lia.
    + apply Nat.leb_gt in Hle. case_match; apply IH; auto with lpa; lia.
Qed.

Lemma Insert_post e t k v ev0 :
  wf t -> valid_key k -> contents t !! k = None ->
  exists r, Insert e t k v ev0 = Ok r /\ ins_post e t k v ev0 r.
Proof.
  intros Hwf (Hok & Hk) Hnone. unfold Insert, Delete. rewrite delete_probe_find.
  change (probe t k (GetHashedKey t k) (capacity t) 0) with (find t k).
  rewrite find_contents in Hnone by done. destruct (find t k) eqn:Ef; [done|].
  rewrite Z.eqb_refl. simpl. apply insert_probe_post; auto with lpa; try lia.
  rewrite find_contents by done. by rewrite Ef.
Qed.

(** ** Lemmas: Evict *)

(** What a victim of the background eviction is: a stored page not in use. *)
Definition evictable t s : Prop :=
  (s < capacity t)%nat /\ IsValidBucket t s = true /\ busy (buckets t !!! s) = false.
Definition evictable_victim t (c : victim) : Prop :=
  forall s, victim_slot c = Some s -> evictable t s.

Definition attempt_ok t (a : attempt) : Prop :=
  match a with
  | Retry c => evictable_victim t c
  | Victim_at s => evictable t s
  | Exhausted => False
  end.

Lemma evictable_none t : evictable_victim t no_victim.
Proof. by intros s. Qed.
#[local] Hint Resolve evictable_none : lpa.

Lemma evict_choose_ok e t cur prev pl :
  evictable_victim t cur -> evictable_victim t prev -> attempt_ok t (evict_choose e t cur prev pl).
Proof.
  intros Hc Hp. unfold evict_choose.
  destruct (victim_slot cur) as [s|] eqn:Es; [|done].
  destruct (victim_slot prev) as [p|] eqn:Ep; [|by apply Hc].
  destruct (_ && _); [destruct (IsVacantBucket t p)|]; simpl; auto.
Qed.

Lemma find_victim_evictable t s c :
  evictable t s -> evictable_victim t c -> evictable_victim t (find_victim t s c).
Proof. intros Hs Hc s'. unfold find_victim. case_match; simpl; [by intros [= <-]|by apply Hc]. Qed.

Lemma evict_probe_ok e t r loc n i cur prev pl :
  (lock_size <= capacity t)%nat -> (n + i = capacity t)%nat -> (i <= MAX_PROBING_LEN)%nat ->
  evictable_victim t cur -> evictable_victim t prev ->
  attempt_ok t (evict_probe e t r loc n i cur prev pl).
Proof.
  intros Hcap. revert i cur prev pl.
  induction n as [|n IH]; intros i cur prev pl Hn Hi Hc Hp.
  { unfold lock_size in *. lia. }
  cbn [evict_probe]. assert (slot_at t loc i < capacity t)%nat as Hs by (by apply slot_at_lt).
  destruct (_ && negb _); [done|].
  destruct (IsValidBucket t (slot_at t loc i)) eqn:Ev; simpl andb; cbv iota.
  - destruct (busy _) eqn:Eb; [done|].
    assert (evictable t (slot_at t loc i)) as He by done.
    destruct (MAX_EVICT_RETRY <? r).
    { apply evict_choose_ok; [|done]. by intros s [= <-]. }
    pose proof (find_victim_evictable t _ cur He Hc) as Hf.
    destruct (MAX_PROBING_LEN <=? i)%nat eqn:Hle; [by apply evict_choose_ok|].
    apply Nat.leb_gt in Hle. destruct (_ =? 0)%nat; apply IH; auto with lpa; lia.
  - destruct (MAX_PROBING_LEN <=? i)%nat eqn:Hle; [by apply evict_choose_ok|].
    apply Nat.leb_gt in Hle. destruct (_ =? 0)%nat; apply IH; auto with lpa; lia.
Qed.

Lemma evict_retry_ok es rs fuel a t k0 cur r :
  wf t -> evictable_victim t cur -> evict_retry es rs fuel a t k0 cur = Some r ->
  exists s, evictable t s /\
    r = Ok (set_tombstone t s, key (buckets t !!! s), value (buckets t !!! s)).
Proof.
  intros Hwf. revert a cur. induction fuel as [|fuel IH]; intros a cur Hc; cbn [evict_retry]; [done|].
  pose proof (evict_probe_ok (es a) t (Z.of_nat a) (Z.to_nat (rs a mod Z.of_nat (capacity t)))
    (capacity t) 0 cur no_victim 0) as Hok.
  destruct (evict_probe _ _ _ _ _ _ _ _ _) as [c|s|]; simpl in Hok.
  - apply IH, Hok; auto with lpa; [apply Hwf|lia].
  - intros [= <-]. exists s. assert (evictable t s) as He by (apply Hok; auto with lpa; [apply Hwf|lia]).
    split; [done|]. destruct He as (Hs & Hv & _). rewrite IsValid_vacant in Hv.
    apply negb_true_iff, vacantb_spec in Hv. unfold evict_out.
    destruct Hv as [H1 H2]. rewrite !(proj2 (Z.eqb_neq _ _)); [done|by apply (wf_value t Hwf)|done|done].
  - destruct Hok; auto with lpa; [apply Hwf|lia].
Qed.

(** An attempt that meets no busy bucket and no taken lock, and ends on a
    stored page, finds a victim: no retry. *)
Lemma evict_probe_progress e t r loc n i cur prev pl :
  (lock_size <= capacity t)%nat -> (n + i = capacity t)%nat -> (i <= MAX_PROBING_LEN)%nat ->
  (forall l, try_lock e l = true) ->
  (forall j, (i <= j <= MAX_PROBING_LEN)%nat -> IsValidBucket t (slot_at t loc j) = true ->
     busy (buckets t !!! slot_at t loc j) = false) ->
  IsValidBucket t (slot_at t loc MAX_PROBING_LEN) = true ->
  (forall s, u_ok 32 (timestamp (buckets t !!! s))) ->
  (0 <= min_timestamp cur) -> (victim_slot cur = None -> min_timestamp cur = wrap 32 (-1)) ->
  exists s, evict_probe e t r loc n i cur prev pl = Victim_at s.
Proof.
  intros Hcap. revert i cur prev pl.
  induction n as [|n IH]; intros i cur prev pl Hn Hi Hlock Hbusy Hlast Hst Hmin Hnone.
  { unfold lock_size in *. lia. }
  cbn [evict_probe]. rewrite Hlock, andb_false_r.
  assert (forall c p l, (exists s, victim_slot c = Some s) -> exists s, evict_choose e t c p l = Victim_at s) as Hch.
  { intros c p l [s Hs]. unfold evict_choose. rewrite Hs. repeat case_match; eauto. }
  assert (forall s c, (victim_slot c = None -> min_timestamp c = wrap 32 (-1)) ->
    exists s', victim_slot (find_victim t s c) = Some s') as Hfind.
  { intros s c Hcn. unfold find_victim. case_match eqn:Hle; [by eexists|].
    destruct (victim_slot c) eqn:Ec; [by eexists|]. rewrite Hcn in Hle by done.
    specialize (Hst s). apply Z.leb_gt in Hle. unfold u_ok in Hst. change (wrap 32 (-1)) with (2 ^ 32 - 1) in Hle. lia. }
  destruct (IsValidBucket t (slot_at t loc i)) eqn:Ev; simpl andb; cbv iota.
  - rewrite Hbusy by (done || lia). destruct (MAX_EVICT_RETRY <? r); [by apply Hch; eexists|].
    destruct (MAX_PROBING_LEN <=? i)%nat eqn:Hle; [by apply Hch, Hfind|]. apply Nat.leb_gt in Hle.
    destruct (_ =? 0)%nat; apply IH; auto; try lia.
    + intros j Hj. apply Hbusy. lia.
    + done.
    + intros j Hj. apply Hbusy. lia.
    + unfold find_victim. case_match; simpl; [apply Hst|done].
    + intros E. destruct (Hfind (slot_at t loc i) cur Hnone). congruence.
  - destruct (MAX_PROBING_LEN <=? i)%nat eqn:Hle.
    + apply Nat.leb_le in Hle. assert (i = MAX_PROBING_LEN) as -> by lia. congruence.
    + apply Nat.leb_gt in Hle.
      destruct (_ =? 0)%nat; apply IH; auto; try lia; try done; intros j Hj; apply Hbusy; lia.
Qed.

(** ** The operations against the map *)

Lemma Delete_find t k :
  Delete t k =
    match find t k with
    | Some s => (set_tombstone t s, value (buckets t !!! s))
    | None => (t, NONE)
    end.
Proof. apply delete_probe_find. Qed.

Lemma find_Some_valid t k s :
  wf t -> validk k -> find t k = Some s ->
  (s < capacity t)%nat /\ validk (key (buckets t !!! s)) /\ key (buckets t !!! s) = k.
Proof. intros Hwf Hk [Hs Hks]%find_spec; [|done|done]. by rewrite Hks. Qed.

Lemma set_busy_other t k s f :
  wf t -> validk k -> find t k = Some s ->
  wf (set_busy t s f) /\ contents (set_busy t s f) = contents t.
Proof.
  intros Hwf Hk Hf. destruct (find_Some_valid t k s Hwf Hk Hf) as (Hs & _ & _).
  apply wf_update_meta; try done. by apply Hwf.
Qed.

Lemma wf_touch e t s :
  wf t -> (s < capacity t)%nat -> wf (touch e t s) /\ contents (touch e t s) = contents t.
Proof. intros Hwf Hs. apply wf_update_meta; try done. apply wrap32_ok. Qed.

(** [Delete] removes exactly the key from the map, returns the page it held (or
    NONE), and keeps the table well-formed. *)
Lemma Delete_spec t k :
  wf t -> valid_key k ->
  wf (Delete t k).1 /\ contents (Delete t k).1 = delete k (contents t) /\
  (Delete t k).2 = default NONE (contents t !! k).
Proof.
  intros Hwf [_ Hk]. rewrite find_contents, Delete_find by done.
  destruct (find t k) as [s|] eqn:Ef; simpl.
  - destruct (find_Some_valid t k s Hwf Hk Ef) as (Hs & Hv & Hks).
    destruct (wf_tombstone t s Hwf Hs Hv) as [Hwf' Hc]. by rewrite Hc, Hks.
  - split; [done|]. split; [|done]. symmetry. apply delete_id.
    by rewrite find_contents, Ef by done.
Qed.

Lemma Get_spec e t k :
  wf t -> valid_key k ->
  wf (Get e t k).1 /\ contents (Get e t k).1 = contents t /\
  (Get e t k).2 = default NONE (contents t !! k).
Proof.
  intros Hwf [_ Hk]. rewrite find_contents by done. unfold Get. rewrite get_probe_find.
  fold (find t k). destruct (find t k) as [s|] eqn:Ef; simpl; [|done].
  destruct (find_Some_valid t k s Hwf Hk Ef) as (Hs & Hv & Hks).
  by destruct (wf_touch e t s Hwf Hs).
Qed.

Lemma GetWithFlag_spec e t k f :
  wf t -> valid_key k ->
  wf (GetWithFlag e t k f).1 /\ contents (GetWithFlag e t k f).1 = contents t /\
  (GetWithFlag e t k f).2 = if f then default NONE (contents t !! k) else NONE.
Proof.
  intros Hwf [_ Hk]. rewrite find_contents by done. unfold GetWithFlag.
  rewrite get_with_flag_probe_find. fold (find t k).
  destruct (find t k) as [s|] eqn:Ef; [|by destruct f].
  destruct (find_Some_valid t k s Hwf Hk Ef) as (Hs & Hv & Hks).
  destruct (set_busy_other t k s f Hwf Hk Ef) as [Hwf' Hc].
  pose proof (wf_len t Hwf) as Hl. destruct f; simpl; [|done].
  destruct (wf_touch e (set_busy t s true) s Hwf') as [Hwf'' Hc']; [done|].
  split; [done|]. split; [congruence|].
  fold (buckets (set_busy t s true)). unfold set_busy.
  change (<[s:=?b]> (buckets t)) with (buckets (set_bkt t s b)).
  rewrite set_bkt_lookup by lia. by case_decide.
Qed.

Lemma ins_post_spec e t k v ev0 r :
  wf t -> valid_key k -> v <> NONE -> contents t !! k = None -> ins_post e t k v ev0 r ->
  wf (ir_table r) /\
  insert_spec (contents t) k v ev0 (contents (ir_table r)) (ir_ret r) (ir_ev_key r) (ir_ev_value r).
Proof.
  intros Hwf Hk Hv Hnone [j Hj Hpre Hvac|j Hj Hall Hb|Hall]; simpl.
  - destruct (wf_place e t k v j Hwf Hk Hv Hnone Hj Hpre) as [Hwf' ->]. split; [done|].
    rewrite (delete_id (contents t)); [by constructor|]. apply contents_vacant; [done|].
    intros Hval%vacantb_spec. unfold IsVacantBucket in Hvac. congruence.
  - assert (forall j', (j' < j)%nat -> validk (key (buckets t !!! probe_slot t k j'))) as Hpre.
    { intros j' ?. apply Hall. lia. }
    destruct (wf_place e t k v j Hwf Hk Hv Hnone Hj Hpre) as [Hwf' ->]. split; [done|].
    apply InsEvict; [done|]. apply contents_lookup; [done|]. split; [by apply Hall|].
    eexists. split; [apply slot_at_lt, Hwf|done].
  - split; [done|]. by constructor.
Qed.

(** [Insert] refines the abstract insertion on a map. *)
Lemma Insert_spec e t k v ev0 :
  wf t -> valid_key k -> v <> NONE ->
  exists r, Insert e t k v ev0 = Ok r /\ wf (ir_table r) /\
    insert_spec (contents t) k v ev0 (contents (ir_table r)) (ir_ret r) (ir_ev_key r) (ir_ev_value r).
Proof.
  intros Hwf Hk Hv. destruct (contents t !! k) as [old|] eqn:Eo.
  - destruct (Delete_spec t k Hwf Hk) as (Hwf' & Hc & Hr). rewrite Eo in Hr. simpl in Hr.
    unfold Insert. destruct (Delete t k) as [t' r'] eqn:Ed. simpl in *. subst r'.
    destruct (contents_valid t k old Hwf Eo) as [_ Hne].
    rewrite (proj2 (Z.eqb_neq _ _) Hne). simpl. eexists. split; [done|]. simpl.
    split; [done|]. rewrite Hc. by constructor.
  - destruct (Insert_post e t k v ev0 Hwf Hk Eo) as (r & Hr & Hp). exists r. split; [done|].
    by eapply ins_post_spec.
Qed.

Lemma Evict_spec es rs fuel t k0 r :
  wf t -> Evict es rs fuel t k0 = Some r ->
  exists t' k v, r = Ok (t', k, v) /\ wf t' /\
    contents t !! k = Some v /\ contents t' = delete k (contents t).
Proof.
  intros Hwf Hr. destruct (evict_retry_ok es rs fuel 0 t k0 no_victim r Hwf) as (s & (Hs & Hv & Hb) & ->);
    [apply evictable_none|done|].
  rewrite IsValid_vacant in Hv. apply negb_true_iff, vacantb_spec in Hv.
  destruct (wf_tombstone t s Hwf Hs Hv) as [Hwf' Hc].
  do 3 eexists. split; [done|]. split; [done|]. split; [|done].
  apply contents_lookup; [done|]. eauto.
Qed.

(** The empty table. *)
Lemma new_lookup n s : buckets (LinearProbingApprox n) !!! s = new_bkt.
Proof.
  simpl. destruct (decide (s < n)%nat).
  - by rewrite list_lookup_total_alt, lookup_replicate_2.
  - rewrite list_lookup_total_alt, lookup_ge_None_2; [done|]. rewrite length_replicate. lia.
Qed.

Lemma new_wf n : (lock_size <= n)%nat -> wf (LinearProbingApprox n).
Proof.
  intros Hn. split; [done|apply length_replicate|..]; setoid_rewrite new_lookup; simpl;
    try (unfold validk; tauto). done.
Qed.

Lemma new_contents n : contents (LinearProbingApprox n) = ∅.
Proof. unfold contents. simpl. induction n; [done|]. simpl. done. Qed.

#[export] Instance lpa_IHash : IHash lpa := {|
  ih_Insert := Insert; ih_Delete := Delete; ih_Get := Get; ih_GetWithFlag := GetWithFlag;
  ih_Evict := Evict; ih_wf := wf; ih_map := contents;
  ih_map_ok := contents_valid; ih_Insert_ok := Insert_spec; ih_Delete_ok := Delete_spec;
  ih_Get_ok := Get_spec; ih_GetWithFlag_ok := GetWithFlag_spec; ih_Evict_ok := Evict_spec |}.
End lpa_ops.

(** The daemon's choice: [hash_funcs[0]], komihash. *)
Lemma hash_key0_ok k : u_ok 64 (hash_key 0 k).
Proof. apply komihash_ok. Qed.

#[export] Instance daemon_hash : KeyHash := {| hash_of := hash_key 0; hash_of_ok := hash_key0_ok |}.
