(* ===== verification/LinearProbingProps.v ===== *)
(** * LinearProbingProps: eviction policy and pinned pages of the hash table

    What [LinearProbing] does beyond the map it stands for: which page a full
    window gives up, which pages the busy flag protects, that the background
    eviction makes progress; and the places where the code departs from its
    intention. *)
From S2P Require Import Prelude Keys HashFuncs Ihash LinearProbing.

Section lpa_props.
Context `{KeyHash}.
Implicit Types (t : lpa) (k : Z) (s i : nat).

(** ** Insert on a full window: the least recently used page goes

    The reference is one scan of the whole window. The code scans range by
    range and keeps only the victims of the last two ranges; [merge] is the
    choice it makes between them. *)

Fixpoint window_scan (t : lpa) (k : Z) (n : nat) : victim :=
  match n with
  | O => no_victim
  | S n => find_victim t (probe_slot t k n) (window_scan t k n)
  end.

Definition merge (p c : victim) : victim :=
  match victim_slot c with
  | None => p
  | Some _ => if min_timestamp p <? min_timestamp c then p else c
  end.

Definition victim_ok (v : victim) : Prop :=
  min_timestamp v <= 2 ^ 32 - 1 /\ (victim_slot v = None -> v = no_victim).

Lemma no_victim_ok : victim_ok no_victim.
Proof. done. Qed.

Lemma find_victim_ok t s v : wf t -> (s < capacity t)%nat -> victim_ok v -> victim_ok (find_victim t s v).
Proof.
  intros Hwf Hs Hv. unfold find_victim. case_match; [|done]. split; simpl; [|done].
  pose proof (wf_stamp t Hwf s Hs) as [_ ?]. lia.
Qed.

Lemma find_victim_Some t s v :
  wf t -> (s < capacity t)%nat -> victim_ok v -> exists s', victim_slot (find_victim t s v) = Some s'.
Proof.
  intros Hwf Hs [_ Hv]. unfold find_victim. case_match eqn:E; [by eexists|].
  destruct (victim_slot v) eqn:Ev; [by eexists|]. rewrite Hv in E by done.
  pose proof (wf_stamp t Hwf s Hs) as [_ ?]. apply Z.leb_gt in E.
  change (min_timestamp no_victim) with (2 ^ 32 - 1) in E. lia.
Qed.

Lemma merge_find t s p c :
  victim_ok p -> victim_ok c -> wf t -> (s < capacity t)%nat ->
  merge p (find_victim t s c) = find_victim t s (merge p c).
Proof.
  intros [Hp Hpn] [Hc Hcn] Hwf Hs. pose proof (wf_stamp t Hwf s Hs) as [_ Ht].
  unfold merge, find_victim.
  destruct (victim_slot c) as [sc|] eqn:Ec.
  - destruct (Z.leb_spec (timestamp (buckets t !!! s)) (min_timestamp c)); simpl; rewrite ?Ec;
      destruct (Z.ltb_spec (min_timestamp p) (min_timestamp c)); simpl;
      repeat (case_match; simpl; try lia); done.
  - rewrite (Hcn eq_refl) in *. change (min_timestamp no_victim) with (2 ^ 32 - 1) in *.
    rewrite (proj2 (Z.leb_le _ _)) by lia. simpl. repeat (case_match; try lia); done.
Qed.

Lemma merge_no_victim c : victim_ok c -> merge no_victim c = c.
Proof.
  intros [Hc Hcn]. unfold merge. destruct (victim_slot c) eqn:Ec; [|by rewrite Hcn].
  change (min_timestamp no_victim) with (2 ^ 32 - 1).
  by rewrite (proj2 (Z.ltb_ge _ _)).
Qed.

Lemma window_scan_ok t k n : wf t -> victim_ok (window_scan t k n).
Proof.
  intros Hwf. induction n; [apply no_victim_ok|]. by apply find_victim_ok; [|apply slot_at_lt, Hwf|].
Qed.

(** The scan finds the last of the oldest pages of the window. *)
Lemma window_scan_min t k n :
  wf t -> (0 < n)%nat ->
  exists j, (j < n)%nat /\ victim_slot (window_scan t k n) = Some (probe_slot t k j) /\
    min_timestamp (window_scan t k n) = timestamp (buckets t !!! probe_slot t k j) /\
    (forall j', (j' < n)%nat -> timestamp (buckets t !!! probe_slot t k j) <= timestamp (buckets t !!! probe_slot t k j')) /\
    (forall j', (j < j' < n)%nat -> timestamp (buckets t !!! probe_slot t k j) < timestamp (buckets t !!! probe_slot t k j')).
Proof.
  intros Hwf. induction n as [|n IH]; [lia|]. intros _. cbn [window_scan].
  destruct n as [|n].
  { exists 0%nat. simpl. pose proof (wf_stamp t Hwf (probe_slot t k 0)) as Ht.
    unfold find_victim. rewrite (proj2 (Z.leb_le _ _)).
    - simpl. repeat split; [lia| |lia]. intros j' Hj'. by assert (j' = 0%nat) as -> by lia.
    - simpl. destruct Ht as [_ Ht]; [apply slot_at_lt, Hwf|]. change (wrap 32 (-1)) with (2 ^ 32 - 1). lia. }
  destruct IH as (j & Hj & Hs & Hm & Hle & Hlt); [lia|]. unfold find_victim. rewrite Hm.
  destruct (Z.leb_spec (timestamp (buckets t !!! probe_slot t k (S n))) (timestamp (buckets t !!! probe_slot t k j))).
  - exists (S n). simpl. repeat split; [lia| |lia]. intros j' Hj'.
    destruct (decide (j' = S n)) as [->|]; [lia|]. specialize (Hle j'). lia.
  - exists j. repeat split; [lia|done|done| |].
    + intros j' Hj'. destruct (decide (j' = S n)) as [->|]; [lia|]. apply Hle. lia.
    + intros j' Hj'. destruct (decide (j' = S n)) as [->|]; [lia|]. apply Hlt. lia.
Qed.

(** What [insert_full] does with the choice. *)
Definition evict_window (e : env) (t : lpa) (k v : Z) (w : victim) : outcome (ins_res lpa) :=
  match victim_slot w with
  | None => Ok (InsRes t (-1) k v)
  | Some s => if busy (buckets t !!! s) then Ok (InsRes t (-1) k v) else CollEvict e t k v s
  end.

Lemma insert_full_merge e t k v ev0 cur prev pl :
  (forall l, try_lock e l = true) ->
  (exists s, victim_slot cur = Some s) -> victim_ok prev -> victim_ok cur ->
  (forall p, victim_slot prev = Some p -> IsVacantBucket t p = false) ->
  insert_full e t k v ev0 cur prev pl = evict_window e t k v (merge prev cur).
Proof.
  intros Hl [s Hs] [_ Hp] [Hc _] Hv. unfold insert_full, evict_window, merge. rewrite Hs.
  destruct (victim_slot prev) as [p|] eqn:Ep.
  - rewrite Hl, andb_true_r, (Hv p) by done.
    destruct (_ <? _); [by rewrite Ep|by rewrite Hs].
  - rewrite (Hp eq_refl). change (min_timestamp no_victim) with (2 ^ 32 - 1).
    rewrite (proj2 (Z.ltb_ge _ _)) by lia. by rewrite Hs.
Qed.

(** The capacity is a multiple of the range size: ranges end where the window
    wraps around, so at most one boundary lies inside a window. *)
Definition aligned (t : lpa) : Prop := (capacity t mod lock_size = 0)%nat.

Lemma boundary_aligned t loc i :
  aligned t -> (lock_size <= capacity t)%nat ->
  (slot_at t loc i mod lock_size)%nat = ((loc + i) mod lock_size)%nat.
Proof.
  unfold aligned, slot_at. intros Ha Hc. change lock_size with 16%nat in *.
  assert (capacity t = 16 * (capacity t / 16))%nat as E by (pose proof (Nat.div_mod_eq (capacity t) 16); lia).
  rewrite E, Nat.Div0.mod_mul_r. rewrite (Nat.mul_comm 16 (_ mod _)), Nat.Div0.mod_add.
  apply Nat.Div0.mod_mod.
Qed.

Lemma insert_probe_full e t k v ev0 n i cur prev pl :
  wf t -> aligned t -> (forall l, try_lock e l = true) ->
  (forall j, (j <= MAX_PROBING_LEN)%nat -> IsVacantBucket t (probe_slot t k j) = false) ->
  (n + i = capacity t)%nat -> (i <= MAX_PROBING_LEN)%nat ->
  merge prev cur = window_scan t k i -> victim_ok prev -> victim_ok cur ->
  (forall p, victim_slot prev = Some p -> IsVacantBucket t p = false) ->
  (forall s, victim_slot cur = Some s -> IsVacantBucket t s = false) ->
  (prev = no_victim \/
     exists b, (b <= i)%nat /\ ((GetHashedKey t k + b) mod lock_size = 0)%nat) ->
  insert_probe e t k v ev0 (GetHashedKey t k) n i cur prev pl =
    evict_window e t k v (window_scan t k (S MAX_PROBING_LEN)).
Proof.
  intros Hwf Ha Hl Hfull. revert i cur prev pl.
  induction n as [|n IH]; intros i cur prev pl Hn Hi Hm Hp Hc Hvp Hvc Hb.
  { pose proof (wf_cap t Hwf). unfold lock_size in *. lia. }
  cbn [insert_probe]. change (slot_at t (GetHashedKey t k) i) with (probe_slot t k i).
  assert (probe_slot t k i < capacity t)%nat as Hs by (apply slot_at_lt, Hwf).
  rewrite Hfull by done.
  pose proof (find_victim_ok t _ cur Hwf Hs Hc) as Hc'.
  pose proof (find_victim_Some t _ cur Hwf Hs Hc) as Hsome.
  assert (merge prev (find_victim t (probe_slot t k i) cur) = window_scan t k (S i)) as Hm'.
  { cbn [window_scan]. by rewrite merge_find, Hm. }
  assert (forall s, victim_slot (find_victim t (probe_slot t k i) cur) = Some s -> IsVacantBucket t s = false) as Hvc'.
  { intros s. unfold find_victim. case_match; simpl; [intros [= <-]; by apply Hfull|apply Hvc]. }
  destruct (Nat.leb_spec MAX_PROBING_LEN i) as [Hge|Hlt].
  { assert (i = MAX_PROBING_LEN) as -> by lia. rewrite insert_full_merge by done. by rewrite Hm'. }
  rewrite boundary_aligned by (done || apply Hwf).
  destruct (Nat.eqb_spec ((GetHashedKey t k + S i) mod lock_size)%nat 0%nat) as [E|E].
  - destruct Hb as [->|(b & Hb & Eb)].
    + rewrite merge_no_victim in Hm' by done.
      apply IH; try done; [lia|]. right. by exists (S i).
    + exfalso. change lock_size with 16%nat in *. change MAX_PROBING_LEN with 15%nat in *.
      generalize dependent (GetHashedKey t k). intros. clear -E Eb Hb Hlt.
      apply Nat.Div0.mod_divides in E as [q1 E], Eb as [q2 Eb]. lia.
  - apply IH; try done; [lia|]. destruct Hb as [->|(b & Hb & Eb)]; [by left|].
    right. exists b. split; [lia|done].
Qed.

Lemma Insert_full_window e t k v ev0 :
  wf t -> aligned t -> (forall l, try_lock e l = true) -> valid_key k -> contents t !! k = None ->
  (forall j, (j <= MAX_PROBING_LEN)%nat -> IsVacantBucket t (probe_slot t k j) = false) ->
  Insert e t k v ev0 = evict_window e t k v (window_scan t k (S MAX_PROBING_LEN)).
Proof.
  intros Hwf Ha Hl [_ Hk] Hnone Hfull. unfold Insert. rewrite Delete_find.
  rewrite find_contents in Hnone by done. destruct (find t k) eqn:Ef; [done|]. simpl.
  apply insert_probe_full; auto using no_victim_ok; try done; lia.
Qed.

(** ** Pinned pages

    [GetWithFlag key true] marks a page as being read; until
    [GetWithFlag key false] no eviction may take it. *)

Definition pinned_at (t : lpa) (k pv : Z) (s : nat) : Prop :=
  (s < capacity t)%nat /\ key (buckets t !!! s) = k /\ busy (buckets t !!! s) = true /\
  value (buckets t !!! s) = pv.

Lemma pinned_set_other t k pv s s' b :
  wf t -> s <> s' -> pinned_at t k pv s -> pinned_at (set_bkt t s' b) k pv s.
Proof. intros Hwf Hne (Hs & Hk & Hb & Hv). unfold pinned_at. by rewrite set_bkt_other. Qed.

Lemma Delete_pinned t k k' pv s :
  wf t -> validk k -> validk k' -> k <> k' -> pinned_at t k pv s -> pinned_at (Delete t k').1 k pv s.
Proof.
  intros Hwf Hk Hk' Hne Hp. rewrite Delete_find. destruct (find t k') as [s'|] eqn:Ef; [|done].
  apply find_spec in Ef as [Hs' Hks']; [|done|done].
  apply pinned_set_other; [done| |done]. intros <-. destruct Hp as (_ & ? & _ & _). congruence.
Qed.

Lemma ins_post_pinned e t k k' v ev0 r pv s :
  wf t -> validk k -> ins_post e t k' v ev0 r -> pinned_at t k pv s -> pinned_at (ir_table r) k pv s.
Proof.
  intros Hwf Hk [j Hj Hpre Hvac|j Hj Hall Hb|Hall] Hp; simpl; [| |done];
    (apply pinned_set_other; [done| |done]); intros ->; destruct Hp as (_ & Hks & Hbs & _).
  - unfold IsVacantBucket in Hvac. apply not_false_iff_true in Hvac. apply Hvac.
    apply vacantb_spec. by rewrite Hks.
  - congruence.
Qed.

Lemma Insert_pinned e t k k' v ev0 r pv s :
  wf t -> valid_key k -> valid_key k' -> k <> k' -> Insert e t k' v ev0 = Ok r ->
  pinned_at t k pv s -> pinned_at (ir_table r) k pv s.
Proof.
  intros Hwf [_ Hk] Hk' Hne Hr Hp. destruct (contents t !! k') as [old|] eqn:Eo.
  - pose proof (Delete_pinned t k k' pv s Hwf Hk (proj2 Hk') Hne Hp) as Hd.
    destruct (Delete_spec t k' Hwf Hk') as (_ & _ & Hv). unfold Insert in Hr.
    destruct (Delete t k') as [t' v']. simpl in *. rewrite Eo in Hv. simpl in Hv. subst v'.
    destruct (contents_valid t k' old Hwf Eo) as [_ Hn].
    rewrite (proj2 (Z.eqb_neq _ _) Hn) in Hr. simpl in Hr. by simplify_eq.
  - destruct (Insert_post e t k' v ev0 Hwf Hk' Eo) as (r' & Hr' & Hpost).
    rewrite Hr in Hr'. simplify_eq. by eapply ins_post_pinned.
Qed.

Lemma Evict_pinned es rs fuel t k0 t' k' v' k pv s :
  wf t -> Evict es rs fuel t k0 = Some (Ok (t', k', v')) -> pinned_at t k pv s -> pinned_at t' k pv s.
Proof.
  intros Hwf Hr Hp. destruct (evict_retry_ok es rs fuel 0 t k0 no_victim (Ok (t', k', v')) Hwf) as (s' & (Hs' & _ & Hb') & E);
    [apply evictable_none|exact Hr|]. injection E as -> _ _.
  apply pinned_set_other; [done| |done]. intros <-. destruct Hp as (_ & _ & ? & _). congruence.
Qed.

Lemma GetWithFlag_pinned e t k k' f pv s :
  wf t -> valid_key k -> valid_key k' -> (k = k' -> f = true) -> pinned_at t k pv s ->
  pinned_at (GetWithFlag e t k' f).1 k pv s.
Proof.
  intros Hwf [_ Hk] [_ Hk'] Hne Hp. pose proof (wf_len t Hwf) as Hl.
  unfold GetWithFlag. rewrite get_with_flag_probe_find.
  fold (find t k'). destruct (find t k') as [s'|] eqn:Ef; [|by destruct f].
  apply find_spec in Ef as [Hs' Hks']; [|done|done].
  assert (pinned_at (set_busy t s' f) k pv s) as Hp1.
  { destruct (decide (s = s')) as [<-|]; [|by apply pinned_set_other].
    destruct Hp as (Hs & Hks & Hb & Hpv). unfold pinned_at, set_busy. rewrite set_bkt_same by lia. simpl.
    split; [done|]. split; [done|]. split; [|done]. apply Hne. congruence. }
  destruct f; [|done]. simpl.
  destruct (decide (s = s')) as [<-|].
  - destruct Hp1 as (Hs & Hks & Hb & Hpv). unfold pinned_at, touch.
    rewrite set_bkt_same by (simpl; rewrite length_insert; lia). done.
  - apply pinned_set_other; [|done|done]. by apply wf_update_meta; try (apply Hwf).
Qed.

Lemma Get_pinned e t k k' pv s :
  wf t -> valid_key k' -> pinned_at t k pv s -> pinned_at (Get e t k').1 k pv s.
Proof.
  intros Hwf [_ Hk'] Hp. pose proof (wf_len t Hwf) as Hl. unfold Get. rewrite get_probe_find.
  fold (find t k'). destruct (find t k') as [s'|] eqn:Ef; [|done]. simpl.
  destruct (decide (s = s')) as [<-|].
  - destruct Hp as (Hs & Hks & Hb & Hpv). unfold pinned_at, touch. by rewrite set_bkt_same by lia.
  - by apply pinned_set_other.
Qed.

(** Releasing or deleting [k], or storing it anew, ends its pin. *)
Definition unpins (k : Z) (o : op) : Prop :=
  match o with
  | OpInsert _ k' _ | OpDelete k' | OpGetWithFlag _ k' false => k = k'
  | _ => False
  end.

Lemma step_pinned t o k pv s :
  wf t -> op_valid o -> valid_key k -> ~ unpins k o -> pinned_at t k pv s ->
  pinned_at (ih_step t o).1 k pv s.
Proof.
  intros Hwf Hv Hk Hu Hp. destruct o as [e k' v|k'|e k'|e k' f|es rs fuel]; simpl in *.
  - destruct (Insert e t k' v INVALID) as [r|] eqn:Er; [|done].
    destruct Hv. by apply (Insert_pinned e t k k' v INVALID r pv s).
  - pose proof (Delete_pinned t k k' pv s Hwf (proj2 Hk) (proj2 Hv) Hu Hp) as Hd.
    by destruct (Delete t k').
  - pose proof (Get_pinned e t k k' pv s Hwf Hv Hp) as Hd. by destruct (Get e t k').
  - assert (k = k' -> f = true) as Hf by (destruct f; [done|]; intros; by destruct Hu).
    pose proof (GetWithFlag_pinned e t k k' f pv s Hwf Hk Hv Hf Hp) as Hd. by destruct (GetWithFlag e t k' f).
  - destruct (Evict es rs fuel t INVALID) as [[[[t' k'] v']|]|] eqn:Er; [|done..].
    by apply (Evict_pinned es rs fuel t INVALID t' k' v').
Qed.

(** ** Progress of the background eviction *)

(** What every victim record carried over a retry satisfies. *)
Definition victim_init_ok (c : victim) : Prop :=
  0 <= min_timestamp c /\ (victim_slot c = None -> min_timestamp c = wrap 32 (-1)).

Lemma find_victim_init_ok t s c :
  (forall s, u_ok 32 (timestamp (buckets t !!! s))) ->
  victim_init_ok c -> victim_init_ok (find_victim t s c).
Proof. intros Ht Hc. unfold find_victim. case_match; [split; [apply Ht|done]|done]. Qed.

Lemma evict_choose_retry e t cur prev pl c :
  victim_init_ok cur -> evict_choose e t cur prev pl = Retry c -> victim_init_ok c.
Proof. intros Hc. unfold evict_choose. repeat case_match; intros E; by simplify_eq. Qed.

Lemma evict_probe_retry e t r loc n i cur prev pl c :
  (forall s, u_ok 32 (timestamp (buckets t !!! s))) -> victim_init_ok cur ->
  evict_probe e t r loc n i cur prev pl = Retry c -> victim_init_ok c.
Proof.
  intros Ht. revert i cur prev pl. induction n as [|n IH]; intros i cur prev pl Hc; [done|].
  cbn [evict_probe]. destruct (_ && negb _); [by intros [= <-]|].
  destruct (IsValidBucket t (slot_at t loc i) && busy _); [by intros [= <-]|].
  destruct (IsValidBucket t (slot_at t loc i) && _).
  { apply evict_choose_retry. split; [apply Hc|done]. }
  assert (victim_init_ok (if IsValidBucket t (slot_at t loc i)
    then find_victim t (slot_at t loc i) cur else cur)) as Hc'.
  { destruct (IsValidBucket t _); [by apply find_victim_init_ok|done]. }
  destruct (MAX_PROBING_LEN <=? i)%nat; [by apply evict_choose_retry|].
  destruct (_ =? 0)%nat; apply IH; done.
Qed.

(** An attempt that must succeed: every lock is free and the last slot of the
    window holds a page. *)
Definition clear_attempt (es : nat -> env) (rs : nat -> Z) (t : lpa) (a : nat) : Prop :=
  (forall l, try_lock (es a) l = true) /\
  IsValidBucket t (slot_at t (Z.to_nat (rs a mod Z.of_nat (capacity t))) MAX_PROBING_LEN) = true.

Definition no_page_busy (t : lpa) : Prop :=
  forall s, IsValidBucket t s = true -> busy (buckets t !!! s) = false.

Lemma wf_stamps t s : wf t -> u_ok 32 (timestamp (buckets t !!! s)).
Proof.
  intros Hwf. destruct (decide (s < capacity t)%nat); [by apply wf_stamp|].
  rewrite list_lookup_total_alt, lookup_ge_None_2; [done|]. rewrite (wf_len t Hwf). lia.
Qed.

Lemma evict_retry_returns es rs fuel a0 t k0 cur a :
  wf t -> no_page_busy t -> victim_init_ok cur ->
  (a0 <= a < a0 + fuel)%nat -> clear_attempt es rs t a ->
  is_Some (evict_retry es rs fuel a0 t k0 cur).
Proof.
  intros Hwf Hb. revert a0 cur. induction fuel as [|fuel IH]; intros a0 cur Hc Ha Hclear; [lia|].
  cbn [evict_retry].
  destruct (evict_probe _ _ _ _ _ _ cur no_victim 0) as [c|s|] eqn:Ep; [|by eexists..].
  apply IH; [|destruct (decide (a = a0)) as [->|]; [exfalso|lia]|done].
  - eapply evict_probe_retry, Ep; [|done]. intros s. by apply wf_stamps.
  - destruct Hclear as [Hl Hlast].
    destruct (evict_probe_progress (es a0) t (Z.of_nat a0) (Z.to_nat (rs a0 mod Z.of_nat (capacity t)))
      (capacity t) 0 cur no_victim 0) as [s E]; [apply Hwf|lia|lia|done|by intros; apply Hb|done| | | |congruence].
    + intros s. by apply wf_stamps.
    + apply Hc.
    + apply Hc.
Qed.

(** ** The properties *)

Lemma lpa_step_refines t o :
  wf t -> op_valid o ->
  wf (ih_step t o).1 /\ spec_step (contents t) o (ih_step t o).2 (contents (ih_step t o).1).
Proof. apply (ih_step_refines (IT:=lpa_IHash)). Qed.

Lemma lpa_run_refines t os :
  wf t -> Forall op_valid os ->
  wf (ih_run t os).1 /\ spec_run (contents t) os (ih_run t os).2 (contents (ih_run t os).1).
Proof. apply (ih_run_refines (IT:=lpa_IHash)). Qed.

(** C2: A table created with at least 16 buckets behaves, under every sequence of
    insertions (by keys other than the two markers, of non-NULL pages), deletions, lookups,
    pins and evictions, as a finite map from keys to pages: every answer is one the map
    allows, no exception is raised, and the map after the run is the table's contents. *)
Theorem table_refines_map n os :
  (lock_size <= n)%nat -> Forall op_valid os ->
  spec_run ∅ os (ih_run (LinearProbingApprox n) os).2 (contents (ih_run (LinearProbingApprox n) os).1).
Proof.
  intros Hn Hos. pose proof (new_wf n Hn) as Hnew.
  destruct (lpa_run_refines (LinearProbingApprox n) os Hnew Hos) as [_ Hr].
  simpl in Hr. by rewrite new_contents in Hr.
Qed.

(** Insertion of an absent key into a full window, when the capacity is a multiple of
    16 and no lock is held: the victim is the window's page with the smallest timestamp (the
    last such page in probe order), although the code scans range by range and compares only
    the victims of adjacent ranges. If that page is pinned the insertion is refused and hands
    the caller's own page back; otherwise the new page takes the bucket and the old key and
    page are handed out. *)
Theorem Insert_evicts_oldest e t k v ev0 :
  wf t -> aligned t -> (forall l, try_lock e l = true) -> valid_key k -> contents t !! k = None ->
  (forall j, (j <= MAX_PROBING_LEN)%nat -> IsVacantBucket t (probe_slot t k j) = false) ->
  exists j, (j <= MAX_PROBING_LEN)%nat /\
    let s := probe_slot t k j in
    (forall j', (j' <= MAX_PROBING_LEN)%nat ->
       timestamp (buckets t !!! s) <= timestamp (buckets t !!! probe_slot t k j')) /\
    (forall j', (j < j' <= MAX_PROBING_LEN)%nat ->
       timestamp (buckets t !!! s) < timestamp (buckets t !!! probe_slot t k j')) /\
    Insert e t k v ev0 =
      Ok (if busy (buckets t !!! s) then InsRes t (-1) k v
          else InsRes (SetBucket e t s k v) 0 (key (buckets t !!! s)) (value (buckets t !!! s))).
Proof.
  intros Hwf Ha Hl Hk Hnone Hfull.
  destruct (window_scan_min t k (S MAX_PROBING_LEN) Hwf) as (j & Hj & Hs & Hm & Hle & Hlt); [lia|].
  exists j. split; [lia|]. split; [|split].
  - intros j' Hj'. apply Hle. lia.
  - intros j' Hj'. apply Hlt. lia.
  - rewrite Insert_full_window by done. unfold evict_window. rewrite Hs.
    destruct (busy _); [done|]. unfold CollEvict. rewrite (proj2 (Z.eqb_neq _ _)); [done|].
    assert (IsVacantBucket t (probe_slot t k j) = false) as Hv by (apply Hfull; lia).
    by apply vacantb_spec in Hv as [? _].
Qed.

(** A pinned page stays: as long as nobody releases, deletes or re-inserts its key,
    no sequence of other insertions, deletions, lookups and evictions moves its bucket, clears
    its pin or changes the page it maps to. *)
Theorem pinned_page_kept t os k pv s :
  wf t -> Forall op_valid os -> valid_key k -> Forall (fun o => ~ unpins k o) os ->
  pinned_at t k pv s ->
  pinned_at (ih_run t os).1 k pv s /\ contents (ih_run t os).1 !! k = Some pv.
Proof.
  intros Hwf Hos Hk Hu Hp.
  assert (wf (ih_run t os).1 /\ pinned_at (ih_run t os).1 k pv s) as [Hwf' Hp'].
  { revert t Hwf Hp. induction Hos as [|o os Ho Hos IH]; intros t Hwf Hp; simpl; [done|].
    apply Forall_cons in Hu as [Hu1 Hu2].
    pose proof (step_pinned t o k pv s Hwf Ho Hk Hu1 Hp) as Hp1.
    destruct (lpa_step_refines t o Hwf Ho) as [Hwf1 _]. destruct (ih_step t o) as [t1 a].
    specialize (IH Hu2 t1 Hwf1 Hp1). by destruct (ih_run t1 os). }
  split; [done|]. apply contents_lookup; [done|]. destruct Hp' as (Hs & Hks & _ & Hv).
  split; [apply Hk|]. eauto.
Qed.

(** The background eviction returns a page: when no stored page is pinned and one of
    the attempts draws a slot whose window ends on a stored page and finds every lock free, the
    retry loop ends with a page that was stored, and removes exactly its key. *)
Theorem Evict_returns es rs fuel t k0 a :
  wf t -> no_page_busy t -> (a < fuel)%nat -> clear_attempt es rs t a ->
  exists t' k v, Evict es rs fuel t k0 = Some (Ok (t', k, v)) /\
    contents t !! k = Some v /\ contents t' = delete k (contents t).
Proof.
  intros Hwf Hb Ha Hc.
  destruct (evict_retry_returns es rs fuel 0 t k0 no_victim a) as [r Hr]; try done; [lia|].
  destruct (Evict_spec es rs fuel t k0 r Hwf Hr) as (t' & k & v & -> & _ & Hk & Hm).
  exists t', k, v. done.
Qed.

(** On a table without pages the background eviction never returns: whatever the
    random draws and however long it runs, it is still retrying. *)
Theorem Evict_empty_spins es rs fuel n k0 :
  (lock_size <= n)%nat -> Evict es rs fuel (LinearProbingApprox n) k0 = None.
Proof.
  intros Hn. destruct (Evict es rs fuel (LinearProbingApprox n) k0) as [r|] eqn:E; [|done].
  destruct (Evict_spec es rs fuel _ k0 r (new_wf n Hn) E) as (t' & k & v & _ & _ & Hk & _).
  by rewrite new_contents, lookup_empty in Hk.
Qed.

(** A pin outlives its page. If a pinned key is deleted before its reader releases it,
    the release finds no key and the flag stays on the tombstone; the next page stored there is
    born pinned though nobody reads it. *)
Theorem stale_pin_inherited e t k k' v r :
  wf t -> valid_key k -> valid_key k' -> is_Some (contents t !! k) ->
  let t1 := (GetWithFlag e t k true).1 in
  let t2 := (Delete t1 k).1 in
  let t3 := (GetWithFlag e t2 k false).1 in
  find t k = Some (probe_slot t k' 0) -> contents t2 !! k' = None ->
  Insert e t3 k' v INVALID = Ok r ->
  t3 = t2 /\ pinned_at (ir_table r) k' v (probe_slot t k' 0).
Proof.
  intros Hwf Hk Hk' Hin t1 t2 t3 Hf Hnone Hr. pose proof (wf_len t Hwf) as Hl.
  pose proof (GetWithFlag_spec e t k true Hwf Hk) as (Hwf1 & Hc1 & _). fold t1 in Hwf1, Hc1.
  pose proof (Delete_spec t1 k Hwf1 Hk) as (Hwf2 & Hc2 & _). fold t2 in Hwf2, Hc2.
  assert (find t2 k = None) as Hf2.
  { pose proof (find_contents t2 k Hwf2 (proj2 Hk)) as E.
    rewrite Hc2, lookup_delete_eq in E. by destruct (find t2 k). }
  assert (t3 = t2) as E3.
  { unfold t3, GetWithFlag. rewrite get_with_flag_probe_find. fold (find t2 k). by rewrite Hf2. }
  split; [done|]. rewrite E3 in Hr. clear t3 E3.
  apply find_spec in Hf as [Hs Hks]; [|done|apply Hk]. set (s := probe_slot t k' 0) in *.
  assert (capacity t1 = capacity t /\ busy (buckets t1 !!! s) = true /\ key (buckets t1 !!! s) = k) as (Hcap1 & Hb1 & Hk1).
  { unfold t1, GetWithFlag. rewrite get_with_flag_probe_find. fold (find t k).
    rewrite (find_stored t k s Hwf (proj2 Hk) Hs Hks). simpl. split; [done|].
    rewrite !list_lookup_total_insert_eq by (rewrite ?length_insert; lia). simpl.
    rewrite ?list_lookup_total_insert_eq by lia. done. }
  pose proof (wf_len t1 Hwf1) as Hl1.
  assert (t2 = set_tombstone t1 s) as E2.
  { unfold t2. rewrite Delete_find. by rewrite (find_stored t1 k s Hwf1 (proj2 Hk)) by (done || lia). }
  assert (IsVacantBucket t2 s = true /\ busy (buckets t2 !!! s) = true) as [Hv2 Hb2].
  { unfold IsVacantBucket, vacantb. rewrite E2. unfold set_tombstone. rewrite set_bkt_same by lia. done. }
  assert (capacity t2 = capacity t) as Hcap2 by (by rewrite E2).
  assert (probe_slot t2 k' 0 = s) as Es.
  { unfold probe_slot, slot_at, GetHashedKey. by rewrite Hcap2. }
  destruct (Insert_post e t2 k' v INVALID Hwf2 Hk' Hnone) as (r' & Hr' & Hp).
  rewrite Hr in Hr'. injection Hr' as <-.
  assert (~ validk (key (buckets t2 !!! s))) as Hnv.
  { intros Hval%vacantb_spec. unfold IsVacantBucket in Hv2. congruence. }
  pose proof (wf_len t2 Hwf2) as Hl2.
  destruct Hp as [j Hj Hpre Hvac|j Hj Hall Hb|Hall]; [destruct j as [|j]| |]; simpl.
  - rewrite Es. unfold pinned_at. rewrite SetBucket_lookup by lia. rewrite Hb2.
    case_decide; [|done]. simpl. rewrite Hcap2. done.
  - destruct Hnv. rewrite <- Es. apply Hpre. lia.
  - destruct Hnv. rewrite <- Es. apply Hall. lia.
  - destruct Hnv. rewrite <- Es. apply Hall. lia.
Qed.
End lpa_props.

(** ** Concrete tables, with the daemon's hash function *)

(** All locks free at second [n]; all locks taken. *)
Definition at_time (n : Z) : env := Env n (fun _ => true).

(** The keys [ks] stored one per second, each with a page of its own. *)
Definition stored (n : nat) (ks : list Z) : lpa :=
  (ih_run (LinearProbingApprox n) (map (fun k => OpInsert (at_time k) k (4096 * k)) ks)).1.

Lemma valid_small k : 0 < k < 2 ^ 63 -> valid_key k.
Proof.
  intros Hk. unfold valid_key, u_ok. change INVALID with (2 ^ 64 - 1). change TOMBSTONE with (2 ^ 64 - 4). lia.
Qed.

Lemma stored_wf n ks :
  (lock_size <= n)%nat -> Forall (fun k => 0 < k < 2 ^ 63) ks -> wf (stored n ks).
Proof.
  intros Hn Hks. apply lpa_run_refines; [by apply new_wf|].
  apply Forall_map. eapply Forall_impl; [exact Hks|]. intros k Hk. cbv beta in Hk.
  split; [by apply valid_small|]. change NONE with 0. lia.
Qed.

Definition small_keys : list Z := Z.of_nat <$> seq 1 16.
Definition full16 : lpa := Eval vm_compute in stored 16 small_keys.

Lemma full16_wf : wf full16.
Proof.
  assert (full16 = stored 16 small_keys) as -> by (vm_compute; reflexivity).
  apply stored_wf; [done|]. by repeat constructor.
Qed.

(** Case analysis on a slot number below a bound, each case by evaluation. *)
Tactic Notation "each_slot" integer(n) ident(s) :=
  do n (destruct s as [|s]; [vm_compute; done|]).

Lemma table_refines_map_witness :
  spec_run ∅ [OpInsert (at_time 1) 5 4096; OpGet (at_time 2) 5; OpDelete 5]
    (ih_run (LinearProbingApprox 16) [OpInsert (at_time 1) 5 4096; OpGet (at_time 2) 5; OpDelete 5]).2
    (contents (ih_run (LinearProbingApprox 16) [OpInsert (at_time 1) 5 4096; OpGet (at_time 2) 5; OpDelete 5]).1).
Proof.
  apply table_refines_map; [done|]. repeat constructor; try (vm_compute; done); try (by apply valid_small).
Defined.

Lemma Insert_evicts_oldest_witness :
  exists j, (j <= MAX_PROBING_LEN)%nat /\
    let s := probe_slot full16 17 j in
    (forall j', (j' <= MAX_PROBING_LEN)%nat ->
       timestamp (buckets full16 !!! s) <= timestamp (buckets full16 !!! probe_slot full16 17 j')) /\
    (forall j', (j < j' <= MAX_PROBING_LEN)%nat ->
       timestamp (buckets full16 !!! s) < timestamp (buckets full16 !!! probe_slot full16 17 j')) /\
    Insert (at_time 100) full16 17 4096 INVALID =
      Ok (if busy (buckets full16 !!! s) then InsRes full16 (-1) 17 4096
          else InsRes (SetBucket (at_time 100) full16 s 17 4096) 0
                 (key (buckets full16 !!! s)) (value (buckets full16 !!! s))).
Proof.
  apply (Insert_evicts_oldest (at_time 100) full16 17 4096 INVALID).
  - apply full16_wf.
  - done.
  - done.
  - by apply valid_small.
  - vm_compute. reflexivity.
  - intros j Hj. each_slot 16 j. unfold MAX_PROBING_LEN in Hj. lia.
Defined.

(** The oldest page is the one stored first. *)
Example full16_evicts_1 :
  exists t, Insert (at_time 100) full16 17 4096 INVALID = Ok (InsRes t 0 1 4096).
Proof. eexists. vm_compute. reflexivity. Qed.

Definition pinned16 : lpa := Eval vm_compute in (GetWithFlag (at_time 20) full16 2 true).1.

Lemma pinned16_wf : wf pinned16.
Proof.
  assert (pinned16 = (GetWithFlag (at_time 20) full16 2 true).1) as -> by (vm_compute; reflexivity).
  apply GetWithFlag_spec; [apply full16_wf|by apply valid_small].
Qed.

Definition churn : list op :=
  [OpInsert (at_time 30) 17 4096; OpDelete 1; OpGetWithFlag (at_time 31) 2 true;
   OpEvict (fun _ => at_time 32) (fun a => Z.of_nat a) 5].

Lemma pinned_page_kept_witness :
  pinned_at (ih_run pinned16 churn).1 2 8192 10 /\ contents (ih_run pinned16 churn).1 !! 2 = Some 8192.
Proof.
  apply (pinned_page_kept pinned16 churn 2 8192 10).
  - apply pinned16_wf.
  - repeat constructor; try (vm_compute; done); by apply valid_small.
  - by apply valid_small.
  - repeat constructor; simpl; lia.
  - vm_compute. repeat split; lia.
Defined.

Lemma Evict_returns_witness :
  exists t' k v, Evict (fun _ => at_time 40) (fun _ => 3) 1 full16 INVALID = Some (Ok (t', k, v)) /\
    contents full16 !! k = Some v /\ contents t' = delete k (contents full16).
Proof.
  apply (Evict_returns (fun _ => at_time 40) (fun _ => 3) 1 full16 INVALID 0).
  - apply full16_wf.
  - intros s _. each_slot 16 s. vm_compute. done.
  - lia.
  - split; [done|vm_compute; done].
Defined.

Lemma Evict_empty_spins_witness : Evict (fun _ => at_time 1) Z.of_nat 7 (LinearProbingApprox 16) 0 = None.
Proof. apply Evict_empty_spins. done. Defined.

(** Keys 2 and 10 hash to the same slot. *)
Definition one16 : lpa := stored 16 [2].
Definition stale16 : lpa := (Delete (GetWithFlag (at_time 20) one16 2 true).1 2).1.

Lemma one16_wf : wf one16.
Proof. apply stored_wf; [done|]. by repeat constructor. Qed.

Definition stale16_insert : ins_res lpa :=
  match Insert (at_time 20) stale16 10 40960 INVALID with Ok r => r | Throw _ => InsRes stale16 0 0 0
  end.

Lemma stale_pin_inherited_witness :
  (GetWithFlag (at_time 20) stale16 2 false).1 = stale16 /\ pinned_at (ir_table stale16_insert) 10 40960 (probe_slot one16 10 0).
Proof.
  apply (stale_pin_inherited (at_time 20) one16 2 10 40960 stale16_insert).
  - apply one16_wf.
  - by apply valid_small.
  - by apply valid_small.
  - eexists. vm_compute. reflexivity.
  - vm_compute. reflexivity.
  - vm_compute. reflexivity.
  - vm_compute. reflexivity.
Defined.

(** Twenty-four buckets are a multiple of 8 but not of 16: a window that starts at slot 12
    crosses three ranges. These keys all start there. *)
Definition keys_at_12 : list Z :=
  [8; 26; 49; 109; 115; 154; 172; 178; 184; 195; 209; 229; 244; 252; 259; 269].
Definition full24 : lpa := Eval vm_compute in stored 24 keys_at_12.

Lemma full24_wf : wf full24.
Proof.
  assert (full24 = stored 24 keys_at_12) as -> by (vm_compute; reflexivity).
  apply stored_wf; [vm_compute; lia|]. by repeat constructor.
Qed.

(** The choice of the oldest page needs the alignment, which [KV] does not establish (it
    rounds the capacity up to a multiple of 8): in a table of 24 buckets there is a full window,
    with no page pinned and all locks free, whose insertion evicts a page although an older one
    is in the window. *)
Theorem unaligned_evicts_newer :
  wf full24 /\ (capacity full24 mod 8 = 0)%nat /\
  (forall j, (j <= MAX_PROBING_LEN)%nat ->
     IsVacantBucket full24 (probe_slot full24 271 j) = false /\
     busy (buckets full24 !!! probe_slot full24 271 j) = false) /\
  exists t ev_key ev_value j,
    Insert (at_time 1000) full24 271 4096 INVALID = Ok (InsRes t 0 ev_key ev_value) /\
    ev_key = key (buckets full24 !!! probe_slot full24 271 4) /\ (j < 4)%nat /\
    timestamp (buckets full24 !!! probe_slot full24 271 j) <
    timestamp (buckets full24 !!! probe_slot full24 271 4).
Proof.
  split; [apply full24_wf|]. split; [done|]. split.
  - intros j Hj. each_slot 16 j. unfold MAX_PROBING_LEN in Hj. lia.
  - do 3 eexists. exists 0%nat. split; [vm_compute; reflexivity|]. vm_compute. split; [done|]. split; [lia|done].
Qed.
