(* ===== verification/CountingBloom.v ===== *)
(** * CountingBloom: the daemon's counting Bloom filter

    [daemon/counting_bloom_filter.hpp]: a byte counter per bit position, the
    ordinary filter derived from it for the client, and the choice of a prime
    number of bits. A filter stands for the multiset of keys it was told about;
    [tally] is the exact count of a position. *)
From Stdlib Require Import Znumtheory.
From S2P Require Import Prelude Keys HashFuncs.

(** ** Data *)

(** [num_bits_] is a [uint32_t]; the byte array has one byte per bit, the bit
    array [BITS_TO_LONGS num_bits_] 64-bit words. *)
Record cbf := Cbf {
  num_hash_ : nat;
  num_bits_ : Z;
  num_longs_ : Z;
  cbf_byte_bitarr_ : list Z;
  bf_long_bitarr_ : list Z;
}.

Definition BITS_PER_BYTE : Z := 8.
Definition DIV_ROUND_UP (n d : Z) : Z := (n + d - 1) / d.
Definition BITS_TO_LONGS (nr : Z) : Z := DIV_ROUND_UP nr (BITS_PER_BYTE * 8).

Definition CountingBloomFilter (num_hash : nat) (num_bits : Z) : cbf :=
  Cbf num_hash num_bits (BITS_TO_LONGS num_bits)
    (replicate (Z.to_nat num_bits) 0) (replicate (Z.to_nat (BITS_TO_LONGS num_bits)) 0).

Definition computeHash (c : cbf) (key : Z) (salt : nat) : Z := hash_key salt key mod num_bits_ c.

Definition byte (c : cbf) (idx : Z) : Z := default 0 (cbf_byte_bitarr_ c !! Z.to_nat idx).
Definition set_byte (c : cbf) (idx b : Z) : cbf :=
  Cbf (num_hash_ c) (num_bits_ c) (num_longs_ c)
    (<[Z.to_nat idx := b]> (cbf_byte_bitarr_ c)) (bf_long_bitarr_ c).
Definition word (c : cbf) (j : Z) : Z := default 0 (bf_long_bitarr_ c !! Z.to_nat j).
Definition set_word (c : cbf) (j w : Z) : cbf :=
  Cbf (num_hash_ c) (num_bits_ c) (num_longs_ c) (cbf_byte_bitarr_ c)
    (<[Z.to_nat j := w]> (bf_long_bitarr_ c)).

(** ** Operations *)

(** One iteration of [Insert]: a saturated counter restarts at 1. *)
Definition Insert1 (o : Z) (c : cbf) (i : nat) : cbf :=
  let idx := computeHash c o i in
  if byte c idx <? 255 then set_byte c idx (byte c idx + 1) else set_byte c idx 1.

Definition Insert (c : cbf) (o : Z) : cbf := foldl (Insert1 o) c (seq 0 (num_hash_ c)).

(** [MightContain(o, idx_res)]: the answer and the positions computed before
    the loop was left; the caller set the others to [-1]. *)
Fixpoint might_contain_from (c : cbf) (o : Z) (n i : nat) (idx_res : list Z) : bool * list Z :=
  match n with
  | O => (true, idx_res)
  | S n =>
      let idx := computeHash c o i in
      let idx_res := <[i := idx]> idx_res in
      if byte c idx =? 0 then (false, idx_res) else might_contain_from c o n (S i) idx_res
  end.
Definition MightContain_idx (c : cbf) (o : Z) (idx_res : list Z) : bool * list Z :=
  might_contain_from c o (num_hash_ c) 0 idx_res.

Definition Remove1 (o : Z) (idx_res : list Z) (c : cbf) (i : nat) : cbf :=
  let idx := if negb (idx_res !!! i =? wrap 32 (-1)) then idx_res !!! i else computeHash c o i in
  set_byte c idx (wrap 8 (byte c idx - 1)).

Definition Remove (c : cbf) (o : Z) : cbf * bool :=
  let idx_res := replicate (num_hash_ c) (wrap 32 (-1)) in
  let '(contained, idx_res) := MightContain_idx c o idx_res in
  if contained then (foldl (Remove1 o idx_res) c (seq 0 (num_hash_ c)), true) else (c, false).

Definition MightContain (c : cbf) (o : Z) : bool :=
  forallb (fun i => negb (byte c (computeHash c o i) =? 0)) (seq 0 (num_hash_ c)).

(** [1UL << (idx % 64)]. *)
Definition check_bit (idx : Z) : Z := 1 <<₆₄ (idx mod 64).

Definition BFInsert1 (o : Z) (c : cbf) (i : nat) : cbf :=
  let idx := computeHash c o i in
  let j := idx / 64 in
  set_word c j (word c j .| check_bit idx).
Definition BFInsert (c : cbf) (o : Z) : cbf := foldl (BFInsert1 o) c (seq 0 (num_hash_ c)).

Definition BFMightContain (c : cbf) (o : Z) : bool :=
  forallb (fun i => let idx := computeHash c o i in
                    negb ((word c (idx / 64) .& check_bit idx) =? 0)) (seq 0 (num_hash_ c)).

Definition ToOrdinaryBF1 (c : cbf) (n : nat) : cbf :=
  let i := Z.of_nat n in
  let j := i / 64 in
  if 0 <? byte c i then set_word c j (word c j .| check_bit i) else c.
Definition reset_bf (c : cbf) : cbf :=
  Cbf (num_hash_ c) (num_bits_ c) (num_longs_ c) (cbf_byte_bitarr_ c)
    (replicate (Z.to_nat (num_longs_ c)) 0).
Definition ToOrdinaryBF (c : cbf) : cbf :=
  foldl ToOrdinaryBF1 (reset_bf c) (seq 0 (Z.to_nat (num_bits_ c))).

(** The counters at zero, which the source prints as a percentage. *)
Definition GetUtilization (c : cbf) : nat :=
  length (filter (fun i => byte c (Z.of_nat i) = 0) (seq 0 (Z.to_nat (num_bits_ c)))).

(** ** Choice of the number of bits *)

(** [for (i = 2; i <= low/2; ++i)]: is there a divisor? *)
Fixpoint has_divisor (n : nat) (i low : Z) : bool :=
  match n with
  | O => false
  | S n => if low / 2 <? i then false
           else if low mod i =? 0 then true else has_divisor n (i + 1) low
  end.

Definition is_prime (low : Z) : bool :=
  negb ((low =? 0) || (low =? 1)) && negb (has_divisor (Z.to_nat low) 2 low).

Fixpoint generate_prime_from (n : nat) (low high : Z) : Z :=
  match n with
  | O => low
  | S n => if low <? high then
             if is_prime low then low else generate_prime_from n (low + 1) high
           else low
  end.
Definition generate_prime (low high : Z) : Z := generate_prime_from (Z.to_nat (high - low)) low high.

(** ** Well-formed filters *)

Record wf (c : cbf) : Prop := {
  wf_bits : 0 < num_bits_ c < 2 ^ 32;
  wf_longs : num_longs_ c = BITS_TO_LONGS (num_bits_ c);
  wf_bytes_len : length (cbf_byte_bitarr_ c) = Z.to_nat (num_bits_ c);
  wf_longs_len : length (bf_long_bitarr_ c) = Z.to_nat (num_longs_ c);
  wf_byte idx : u_ok 8 (byte c idx);
}.

(** How many of the first [n] hash functions send [o] to [idx]; how many hits
    a multiset of keys makes there. *)
Definition hits (c : cbf) (o : Z) (n : nat) (idx : Z) : Z :=
  Z.of_nat (length (filter (fun i => computeHash c o i = idx) (seq 0 n))).
Definition tally (c : cbf) (S : list Z) (idx : Z) : Z :=
  sum_with (fun o => hits c o (num_hash_ c) idx) S.

(** The counters are exactly the hits of [S], none of which overflows. *)
Definition counts (c : cbf) (S : list Z) : Prop :=
  forall idx, 0 <= idx < num_bits_ c -> byte c idx = tally c S idx.
Definition no_overflow (c : cbf) (S : list Z) : Prop :=
  forall idx, 0 <= idx < num_bits_ c -> tally c S idx <= 255.

Implicit Types (c : cbf) (o idx : Z) (S : list Z).

Lemma computeHash_range c o i : 0 < num_bits_ c -> 0 <= computeHash c o i < num_bits_ c.
Proof. intros. by apply Z.mod_pos_bound. Qed.

Lemma hits_S c o n idx :
  hits c o (S n) idx = hits c o n idx + (if decide (computeHash c o n = idx) then 1 else 0).
Proof.
  unfold hits. rewrite seq_S, filter_app, length_app, Nat2Z.inj_add. f_equal.
  rewrite filter_cons, filter_nil. by repeat case_decide.
Qed.

Lemma hits_nonneg c o n idx : 0 <= hits c o n idx.
Proof. unfold hits. lia. Qed.

Lemma hits_pos c o n i : (i < n)%nat -> 1 <= hits c o n (computeHash c o i).
Proof.
  intros Hi. unfold hits. assert (i ∈ filter (fun j => computeHash c o j = computeHash c o i) (seq 0 n)) as Hin.
  { apply list_elem_of_filter. split; [done|]. apply elem_of_seq. lia. }
  destruct (filter _ _); [by apply not_elem_of_nil in Hin|simpl; lia].
Qed.

Lemma tally_nonneg c S idx : 0 <= tally c S idx.
Proof. apply sum_with_nonneg. intros. apply hits_nonneg. Qed.

Lemma tally_perm c S S' idx : S ≡ₚ S' -> tally c S idx = tally c S' idx.
Proof. apply sum_with_perm. Qed.

Lemma tally_in c S o i :
  o ∈ S -> (i < num_hash_ c)%nat -> 1 <= tally c S (computeHash c o i).
Proof.
  intros Ho Hi. etrans; [by apply (hits_pos c o (num_hash_ c) i)|].
  apply (sum_with_elem_le (fun o' => hits c o' (num_hash_ c) (computeHash c o i))); [|done].
  intros. apply hits_nonneg.
Qed.

Lemma byte_set c idx b idx' :
  wf c -> 0 <= idx < num_bits_ c -> 0 <= idx' ->
  byte (set_byte c idx b) idx' = if decide (idx = idx') then b else byte c idx'.
Proof.
  intros Hwf Hi Hi'. unfold byte. simpl. case_decide as E.
  - subst. rewrite list_lookup_insert_eq; [done|]. rewrite (wf_bytes_len c Hwf). lia.
  - rewrite list_lookup_insert_ne; [done|lia].
Qed.

Lemma wf_set_byte c idx b :
  wf c -> 0 <= idx < num_bits_ c -> u_ok 8 b -> wf (set_byte c idx b).
Proof.
  intros Hwf Hi Hb. split; simpl; try apply Hwf.
  - rewrite length_insert. apply Hwf.
  - intros idx'. unfold byte. simpl. destruct (decide (Z.to_nat idx = Z.to_nat idx')) as [E|E].
    + rewrite E, list_lookup_insert_eq; [done|]. rewrite <- E, (wf_bytes_len c Hwf). lia.
    + rewrite list_lookup_insert_ne by done. apply Hwf.
Qed.

(** Two filters that agree on what [computeHash] reads. *)
Definition same_shape c c' : Prop :=
  num_hash_ c' = num_hash_ c /\ num_bits_ c' = num_bits_ c /\ num_longs_ c' = num_longs_ c /\
  bf_long_bitarr_ c' = bf_long_bitarr_ c.

Lemma computeHash_shape c c' o i : same_shape c c' -> computeHash c' o i = computeHash c o i.
Proof. intros (_ & E & _). unfold computeHash. by rewrite E. Qed.

Lemma hits_shape c c' o n idx : same_shape c c' -> hits c' o n idx = hits c o n idx.
Proof. intros E. induction n as [|n IH]; [done|]. by rewrite !hits_S, IH, (computeHash_shape c c'). Qed.

Lemma tally_shape c c' S idx : same_shape c c' -> tally c' S idx = tally c S idx.
Proof.
  intros E. unfold tally. induction S as [|o S IH]; [done|]. simpl. rewrite IH.
  destruct E as (E & E'). rewrite E. by rewrite (hits_shape c c').
Qed.

(** One pass that adds [d i] to the byte of hash [i], never leaving a byte. *)
Lemma bump_pass (f : cbf -> nat -> cbf) (d : Z) c o n :
  wf c ->
  (forall c' i, wf c' -> same_shape c c' -> (i < n)%nat ->
     u_ok 8 (byte c' (computeHash c o i) + d) ->
     f c' i = set_byte c' (computeHash c o i) (byte c' (computeHash c o i) + d)) ->
  (forall i, (i < n)%nat -> forall m, (m <= n)%nat -> u_ok 8 (byte c (computeHash c o i) + d * hits c o m (computeHash c o i))) ->
  let c' := foldl f c (seq 0 n) in
  wf c' /\ same_shape c c' /\ forall idx, 0 <= idx -> byte c' idx = byte c idx + d * hits c o n idx.
Proof.
  intros Hwf Hf. induction n as [|n IH]; intros Hok; cbv zeta.
  { split; [done|]. split; [done|]. intros. unfold hits. simpl. lia. }
  rewrite seq_S, foldl_app. cbn [foldl Nat.add]. destruct IH as (Hwf' & Hs & Hb).
  { intros. apply Hf; auto. }
  { intros i Hi m Hm. apply Hok; lia. }
  set (c' := foldl f c (seq 0 n)) in *.
  pose proof (computeHash_range c o n (proj1 (wf_bits c Hwf))) as Hr.
  assert (u_ok 8 (byte c' (computeHash c o n) + d)) as Hu.
  { rewrite Hb by lia. specialize (Hok n ltac:(lia) (S n) ltac:(lia)).
    rewrite hits_S in Hok. case_decide; [|done].
    replace (_ + _ + d) with (byte c (computeHash c o n) + d * (hits c o n (computeHash c o n) + 1)); [done|lia]. }
  rewrite Hf by (done || lia).
  assert (0 <= computeHash c o n < num_bits_ c') as Hr'.
  { destruct Hs as (_ & E & _). by rewrite E. }
  split; [by apply wf_set_byte|]. split; [done|]. intros idx Hidx.
  rewrite byte_set, hits_S by done. case_decide; subst; rewrite !Hb by done; lia.
Qed.

Lemma Insert_shape c o :
  wf c -> (forall i, (i < num_hash_ c)%nat -> byte c (computeHash c o i) + hits c o (num_hash_ c) (computeHash c o i) <= 255) ->
  wf (Insert c o) /\ same_shape c (Insert c o) /\
  forall idx, 0 <= idx -> byte (Insert c o) idx = byte c idx + hits c o (num_hash_ c) idx.
Proof.
  intros Hwf Hok. destruct (bump_pass (Insert1 o) 1 c o (num_hash_ c) Hwf) as (H1 & H2 & H3).
  - intros c' i Hwf' Hs Hi Hu. unfold Insert1. rewrite (computeHash_shape c c') by done.
    rewrite (proj2 (Z.ltb_lt _ _)); [done|]. unfold u_ok in Hu. lia.
  - intros i Hi m Hm. specialize (Hok i Hi).
    assert (hits c o m (computeHash c o i) <= hits c o (num_hash_ c) (computeHash c o i)).
    { clear -Hm. induction Hm as [|m' Hm IH]; [lia|]. rewrite hits_S. case_decide; lia. }
    pose proof (wf_byte c Hwf (computeHash c o i)). pose proof (hits_nonneg c o m (computeHash c o i)).
    unfold u_ok in *. lia.
  - split; [done|]. split; [done|]. intros idx Hidx. rewrite H3 by done. lia.
Qed.

(** [MightContain] and its two-argument version agree; on success every
    position has been recorded. *)
Lemma might_contain_from_spec c o n i res :
  (length res = i + n)%nat -> (forall j, (j < i)%nat -> res !!! j = computeHash c o j) ->
  (might_contain_from c o n i res).1 = forallb (fun i => negb (byte c (computeHash c o i) =? 0)) (seq i n) /\
  ((might_contain_from c o n i res).1 = true ->
   forall j, (j < i + n)%nat -> (might_contain_from c o n i res).2 !!! j = computeHash c o j).
Proof.
  revert i res. induction n as [|n IH]; intros i res Hl Hres; cbn [might_contain_from].
  { simpl. split; [done|]. intros _ j Hj. apply Hres. lia. }
  simpl. destruct (Z.eqb_spec (byte c (computeHash c o i)) 0) as [E|E]; simpl; [done|].
  destruct (IH (S i) (<[i := computeHash c o i]> res)) as [H1 H2].
  - rewrite length_insert. lia.
  - intros j Hj. destruct (decide (j = i)) as [->|].
    + rewrite list_lookup_total_insert_eq; [done|lia].
    + rewrite list_lookup_total_insert_ne by done. apply Hres. lia.
  - split; [done|]. intros Ht j Hj. apply H2; [done|lia].
Qed.

Lemma MightContain_idx_spec c o res :
  length res = num_hash_ c ->
  (MightContain_idx c o res).1 = MightContain c o /\
  (MightContain c o = true -> forall j, (j < num_hash_ c)%nat ->
     (MightContain_idx c o res).2 !!! j = computeHash c o j).
Proof.
  intros Hl. destruct (might_contain_from_spec c o (num_hash_ c) 0 res) as [H1 H2]; [done|lia|].
  unfold MightContain_idx, MightContain in *. split; [done|]. rewrite <- H1. intros Ht j Hj. by apply H2.
Qed.

Lemma MightContain_spec c o :
  MightContain c o = true <-> forall i, (i < num_hash_ c)%nat -> byte c (computeHash c o i) <> 0.
Proof.
  unfold MightContain. rewrite forallb_forall. split.
  - intros H i Hi. specialize (H i). rewrite negb_true_iff, Z.eqb_neq in H. apply H, in_seq. lia.
  - intros H i Hi%in_seq. rewrite negb_true_iff, Z.eqb_neq. apply H. lia.
Qed.

Lemma Remove_shape c o :
  wf c -> MightContain c o = true ->
  (forall i, (i < num_hash_ c)%nat -> hits c o (num_hash_ c) (computeHash c o i) <= byte c (computeHash c o i)) ->
  (Remove c o).2 = true /\ wf (Remove c o).1 /\ same_shape c (Remove c o).1 /\
  forall idx, 0 <= idx -> byte (Remove c o).1 idx = byte c idx - hits c o (num_hash_ c) idx.
Proof.
  intros Hwf Hm Hok. unfold Remove.
  destruct (MightContain_idx_spec c o (replicate (num_hash_ c) (wrap 32 (-1)))) as [H1 H2]; [apply length_replicate|].
  destruct (MightContain_idx c o _) as [b res]. simpl in *. rewrite H1, Hm.
  specialize (H2 Hm). destruct (bump_pass (Remove1 o res) (-1) c o (num_hash_ c) Hwf) as (H3 & H4 & H5).
  - intros c' i Hwf' Hs Hi Hu. unfold Remove1. rewrite H2, (computeHash_shape c c') by done.
    assert ((if negb (computeHash c o i =? wrap 32 (-1)) then computeHash c o i else computeHash c o i) = computeHash c o i) as ->
      by (by case_match).
    rewrite wrap_small; [f_equal; lia|]. unfold u_ok in *. lia.
  - intros i Hi m Hm'. specialize (Hok i Hi).
    assert (hits c o m (computeHash c o i) <= hits c o (num_hash_ c) (computeHash c o i)).
    { clear -Hm'. induction Hm' as [|m' Hm' IH]; [lia|]. rewrite hits_S. case_decide; lia. }
    pose proof (wf_byte c Hwf (computeHash c o i)). pose proof (hits_nonneg c o m (computeHash c o i)).
    unfold u_ok in *. lia.
  - simpl. split; [done|]. split; [done|]. split; [done|]. intros idx Hidx. rewrite H5 by done. lia.
Qed.

(** ** A filter and the multiset of its keys *)

Record tracks (c : cbf) (S : list Z) : Prop := {
  tr_wf : wf c;
  tr_counts : counts c S;
}.

Lemma new_tracks num_hash num_bits :
  0 < num_bits < 2 ^ 32 -> tracks (CountingBloomFilter num_hash num_bits) [].
Proof.
  intros Hn.
  assert (forall idx, byte (CountingBloomFilter num_hash num_bits) idx = 0) as Hb.
  { intros idx. unfold byte. simpl.
    destruct (decide (Z.to_nat idx < Z.to_nat num_bits)%nat).
    - by rewrite lookup_replicate_2.
    - rewrite lookup_ge_None_2; [done|]. rewrite length_replicate. lia. }
  split; [split|].
  - done.
  - done.
  - apply length_replicate.
  - apply length_replicate.
  - intros idx. rewrite Hb. by split.
  - intros idx _. by rewrite Hb.
Qed.

Lemma tracks_insert c S o :
  tracks c S -> no_overflow c (o :: S) -> tracks (Insert c o) (o :: S) /\ same_shape c (Insert c o).
Proof.
  intros [Hwf Hc] Hno.
  destruct (Insert_shape c o Hwf) as (H1 & H2 & H3).
  - intros i Hi. pose proof (computeHash_range c o i (proj1 (wf_bits c Hwf))) as Hr.
    specialize (Hno _ Hr). rewrite Hc by done. unfold tally in Hno. simpl in Hno.
    unfold tally. lia.
  - split; [|done]. split; [done|]. intros idx Hidx.
    rewrite (tally_shape c) by done. rewrite H3 by lia.
    destruct H2 as (_ & E & _). rewrite E in Hidx. rewrite Hc by done. unfold tally. simpl. lia.
Qed.

Lemma tracks_perm c S S' : S ≡ₚ S' -> tracks c S -> tracks c S'.
Proof. intros E [Hwf Hc]. split; [done|]. intros idx Hidx. rewrite Hc by done. by apply tally_perm. Qed.

Lemma tracks_mem c S o : tracks c S -> o ∈ S -> MightContain c o = true.
Proof.
  intros [Hwf Hc] Ho. apply MightContain_spec. intros i Hi.
  pose proof (computeHash_range c o i (proj1 (wf_bits c Hwf))) as Hr.
  rewrite Hc by done. pose proof (tally_in c S o i Ho Hi). lia.
Qed.

Lemma tracks_remove c S o :
  tracks c (o :: S) ->
  (Remove c o).2 = true /\ tracks (Remove c o).1 S /\ same_shape c (Remove c o).1.
Proof.
  intros Ht. pose proof (tracks_mem c _ o Ht ltac:(left)) as Hm. destruct Ht as [Hwf Hc].
  destruct (Remove_shape c o Hwf Hm) as (H0 & H1 & H2 & H3).
  - intros i Hi. pose proof (computeHash_range c o i (proj1 (wf_bits c Hwf))) as Hr.
    rewrite Hc by done. unfold tally. simpl.
    pose proof (tally_nonneg c S (computeHash c o i)). unfold tally in *. lia.
  - split; [done|]. split; [|done]. split; [done|]. intros idx Hidx.
    rewrite (tally_shape c) by done. rewrite H3 by lia.
    destruct H2 as (_ & E & _). rewrite E in Hidx. rewrite Hc by done. unfold tally. simpl. lia.
Qed.

(** ** A filter that covers a multiset

    Updates insert a key again without removing it first, so counters may be
    larger than needed; what matters is that they are large enough. *)

Record covers (c : cbf) (S : list Z) : Prop := {
  cv_wf : wf c;
  cv_byte idx : 0 <= idx < num_bits_ c -> tally c S idx <= byte c idx;
}.

(** No counter of [o] restarts when [o] is inserted. *)
Definition room (c : cbf) (o : Z) : Prop :=
  forall i, (i < num_hash_ c)%nat -> byte c (computeHash c o i) + hits c o (num_hash_ c) (computeHash c o i) <= 255.

Lemma tracks_covers c S : tracks c S -> covers c S.
Proof. intros [Hwf Hc]. split; [done|]. intros idx Hidx. by rewrite Hc. Qed.

Lemma covers_perm c S S' : S ≡ₚ S' -> covers c S -> covers c S'.
Proof. intros E [Hwf Hc]. split; [done|]. intros idx Hidx. rewrite <- (tally_perm c S S') by done. by apply Hc. Qed.

Lemma covers_weaken c S o : covers c (o :: S) -> covers c S.
Proof.
  intros [Hwf Hc]. split; [done|]. intros idx Hidx. specialize (Hc idx Hidx). unfold tally in *. simpl in Hc.
  pose proof (hits_nonneg c o (num_hash_ c) idx). lia.
Qed.

Lemma covers_mem c S o : covers c S -> o ∈ S -> MightContain c o = true.
Proof.
  intros [Hwf Hc] Ho. apply MightContain_spec. intros i Hi.
  pose proof (computeHash_range c o i (proj1 (wf_bits c Hwf))) as Hr.
  specialize (Hc _ Hr). pose proof (tally_in c S o i Ho Hi). lia.
Qed.

Lemma covers_insert c S o : covers c S -> room c o -> covers (Insert c o) (o :: S).
Proof.
  intros [Hwf Hc] Hroom. destruct (Insert_shape c o Hwf Hroom) as (H1 & H2 & H3).
  split; [done|]. intros idx Hidx. rewrite (tally_shape c) by done. rewrite H3 by lia.
  destruct H2 as (_ & E & _). rewrite E in Hidx. specialize (Hc idx Hidx). unfold tally in *. simpl. lia.
Qed.

Lemma covers_remove c S o :
  covers c (o :: S) ->
  covers (Remove c o).1 S /\ (Remove c o).2 = true /\ (forall o', room c o' -> room (Remove c o).1 o').
Proof.
  intros Hcov. pose proof (covers_mem c _ o Hcov ltac:(left)) as Hm. destruct Hcov as [Hwf Hc].
  destruct (Remove_shape c o Hwf Hm) as (H0 & H1 & H2 & H3).
  - intros i Hi. pose proof (computeHash_range c o i (proj1 (wf_bits c Hwf))) as Hr.
    specialize (Hc _ Hr). unfold tally in Hc. simpl in Hc.
    pose proof (tally_nonneg c S (computeHash c o i)). unfold tally in *. lia.
  - split; [split; [done|]|split; [done|]].
    + intros idx Hidx. rewrite (tally_shape c) by done. rewrite H3 by lia.
      destruct H2 as (_ & E & _). rewrite E in Hidx. specialize (Hc idx Hidx). unfold tally in *. simpl in Hc. lia.
    + intros o' Hroom i Hi. rewrite (computeHash_shape c) by done. destruct H2 as (Eh & H2). rewrite Eh in *.
      rewrite (hits_shape c) by (split; done). specialize (Hroom i Hi).
      pose proof (computeHash_range c o' i (proj1 (wf_bits c Hwf))). rewrite H3 by lia.
      pose proof (hits_nonneg c o (num_hash_ c) (computeHash c o' i)). lia.
Qed.

(** ** The ordinary filter *)

Lemma check_bit_bit idx b :
  0 <= idx -> 0 <= b < 64 -> Z.testbit (check_bit idx) b = (b =? idx mod 64).
Proof.
  intros Hi Hb. unfold check_bit, shl64, wrap.
  pose proof (Z.mod_pos_bound idx 64 eq_refl) as Hm.
  rewrite Z.mod_pow2_bits_low, Z.shiftl_spec by lia.
  destruct (Z.eqb_spec b (idx mod 64)) as [->|E]; [by rewrite Z.sub_diag|].
  destruct (decide (b < idx mod 64)); [by rewrite Z.testbit_neg_r by lia|].
  apply Z.bits_above_log2; [lia|simpl; lia].
Qed.

Lemma check_bit_ok idx : u_ok 64 (check_bit idx).
Proof. apply shl64_ok. Qed.

Lemma land_check_bit w idx :
  0 <= idx -> (w .& check_bit idx =? 0) = negb (Z.testbit w (idx mod 64)).
Proof.
  intros Hi. pose proof (Z.mod_pos_bound idx 64 eq_refl) as Hm.
  destruct (Z.testbit w (idx mod 64)) eqn:E; simpl.
  - apply Z.eqb_neq. intros H0.
    assert (Z.testbit (w .& check_bit idx) (idx mod 64) = true) as Hb.
    { by rewrite Z.land_spec, E, check_bit_bit, Z.eqb_refl. }
    by rewrite H0, Z.bits_0 in Hb.
  - apply Z.eqb_eq, Z.bits_inj'. intros b Hb. rewrite Z.land_spec, Z.bits_0.
    destruct (decide (b < 64)).
    + rewrite check_bit_bit by lia. destruct (Z.eqb_spec b (idx mod 64)) as [->|]; [by rewrite E|].
      apply andb_false_r.
    + rewrite (testbit_high 64 (check_bit idx)); [apply andb_false_r|lia|apply check_bit_ok].
Qed.

(** Bit [idx] of the ordinary filter. *)
Definition bf_bit (c : cbf) (idx : Z) : bool := Z.testbit (word c (idx / 64)) (idx mod 64).

Lemma BFMightContain_spec c o :
  0 < num_bits_ c ->
  BFMightContain c o = forallb (fun i => bf_bit c (computeHash c o i)) (seq 0 (num_hash_ c)).
Proof.
  intros Hn. unfold BFMightContain. induction (seq 0 (num_hash_ c)) as [|i l IH]; [done|]. simpl.
  rewrite IH, land_check_bit, negb_involutive; [done|]. by apply computeHash_range.
Qed.

Lemma set_word_bit c j w idx :
  0 <= j -> 0 <= idx -> (Z.to_nat j < length (bf_long_bitarr_ c))%nat ->
  bf_bit (set_word c j w) idx = if decide (idx / 64 = j) then Z.testbit w (idx mod 64) else bf_bit c idx.
Proof.
  intros Hj Hidx Hl. unfold bf_bit, word. simpl. case_decide as E.
  - by rewrite E, list_lookup_insert_eq.
  - rewrite list_lookup_insert_ne; [done|].
    assert (0 <= idx / 64) by (apply Z.div_pos; lia). lia.
Qed.

(** Setting one bit, as [BFInsert] and [ToOrdinaryBF] do. *)
Lemma set_check_bit c i idx :
  0 <= i -> 0 <= idx -> (Z.to_nat (i / 64) < length (bf_long_bitarr_ c))%nat ->
  bf_bit (set_word c (i / 64) (word c (i / 64) .| check_bit i)) idx = bf_bit c idx || (idx =? i).
Proof.
  intros Hi Hidx Hl. pose proof (Z.mod_pos_bound idx 64 eq_refl) as Hm.
  pose proof (Z.div_mod idx 64 ltac:(lia)) as Ei. pose proof (Z.div_mod i 64 ltac:(lia)) as Ei'.
  rewrite set_word_bit by (done || (apply Z.div_pos; lia)). case_decide as E.
  - rewrite Z.lor_spec, check_bit_bit by lia. unfold bf_bit. rewrite E. f_equal.
    destruct (Z.eqb_spec (idx mod 64) (i mod 64)), (Z.eqb_spec idx i); lia || congruence.
  - rewrite (proj2 (Z.eqb_neq idx i)); [by rewrite orb_false_r|congruence].
Qed.

Lemma longs_enough n i : 0 <= i < n -> i / 64 < BITS_TO_LONGS n.
Proof. unfold BITS_TO_LONGS, DIV_ROUND_UP, BITS_PER_BYTE. intros. dlia. Qed.

Lemma ToOrdinaryBF_prefix c n :
  wf c -> (n <= Z.to_nat (num_bits_ c))%nat ->
  let c' := foldl ToOrdinaryBF1 (reset_bf c) (seq 0 n) in
  cbf_byte_bitarr_ c' = cbf_byte_bitarr_ c /\ num_hash_ c' = num_hash_ c /\ num_bits_ c' = num_bits_ c /\
  length (bf_long_bitarr_ c') = length (bf_long_bitarr_ c) /\
  forall idx, 0 <= idx -> bf_bit c' idx = (idx <? Z.of_nat n) && (0 <? byte c idx).
Proof.
  intros Hwf. induction n as [|n IH]; intros Hn; cbv zeta.
  - simpl. do 3 (split; [done|]). split; [rewrite length_replicate; symmetry; apply Hwf|].
    intros idx Hidx. rewrite (proj2 (Z.ltb_ge _ _)) by lia. simpl. unfold bf_bit, word. simpl.
    destruct (decide (Z.to_nat (idx / 64) < Z.to_nat (num_longs_ c))%nat).
    + rewrite lookup_replicate_2 by done. apply Z.bits_0.
    + rewrite lookup_ge_None_2 by (rewrite length_replicate; lia). apply Z.bits_0.
  - rewrite seq_S, foldl_app. cbn [foldl Nat.add].
    destruct IH as (E1 & E2 & E3 & E4 & Hb); [lia|].
    set (c' := foldl ToOrdinaryBF1 (reset_bf c) (seq 0 n)) in *.
    assert (byte c' (Z.of_nat n) = byte c (Z.of_nat n)) as Eb by (unfold byte; by rewrite E1).
    unfold ToOrdinaryBF1. rewrite Eb. destruct (Z.ltb_spec 0 (byte c (Z.of_nat n))) as [Hp|Hp].
    + split_and!; try done.
      * simpl. by rewrite length_insert.
      * intros idx Hidx. rewrite set_check_bit, Hb; [|done|lia|done|].
        -- destruct (Z.eqb_spec idx (Z.of_nat n)) as [->|E].
           ++ rewrite (proj2 (Z.ltb_lt (Z.of_nat n) (Z.of_nat (S n)))), (proj2 (Z.ltb_lt 0 _)) by lia.
              by rewrite orb_true_r.
           ++ rewrite orb_false_r. f_equal.
              destruct (Z.ltb_spec idx (Z.of_nat n)), (Z.ltb_spec idx (Z.of_nat (S n))); lia || done.
        -- rewrite E4, (wf_longs_len c Hwf), (wf_longs c Hwf).
           pose proof (longs_enough (num_bits_ c) (Z.of_nat n) ltac:(lia)).
           assert (0 <= Z.of_nat n / 64) by (apply Z.div_pos; lia). lia.
    + split_and!; try done. intros idx Hidx. rewrite Hb by done.
      destruct (decide (idx = Z.of_nat n)) as [->|E].
      * rewrite (proj2 (Z.ltb_ge 0 _)) by lia. by rewrite !andb_false_r.
      * f_equal. destruct (Z.ltb_spec idx (Z.of_nat n)), (Z.ltb_spec idx (Z.of_nat (S n))); lia || done.
Qed.

Lemma ToOrdinaryBF_bits c :
  wf c ->
  (forall idx, 0 <= idx < num_bits_ c -> bf_bit (ToOrdinaryBF c) idx = (0 <? byte c idx)) /\
  num_hash_ (ToOrdinaryBF c) = num_hash_ c /\ num_bits_ (ToOrdinaryBF c) = num_bits_ c /\
  cbf_byte_bitarr_ (ToOrdinaryBF c) = cbf_byte_bitarr_ c.
Proof.
  intros Hwf. destruct (ToOrdinaryBF_prefix c (Z.to_nat (num_bits_ c)) Hwf) as (E1 & E2 & E3 & E4 & Hb); [lia|].
  split; [|done]. intros idx Hidx. unfold ToOrdinaryBF. rewrite Hb by lia.
  by rewrite (proj2 (Z.ltb_lt idx _)) by lia.
Qed.

Lemma ToOrdinaryBF_longs c : num_longs_ (ToOrdinaryBF c) = num_longs_ c.
Proof.
  unfold ToOrdinaryBF. change (num_longs_ c) with (num_longs_ (reset_bf c)).
  generalize (seq 0 (Z.to_nat (num_bits_ c))). generalize (reset_bf c). intros c' l. revert c'.
  induction l as [|n l IH]; intros c'; [done|]. cbn [foldl]. rewrite IH. unfold ToOrdinaryBF1. by case_match.
Qed.

Lemma ToOrdinaryBF_covers c S : covers c S -> covers (ToOrdinaryBF c) S.
Proof.
  intros [Hwf Hc]. destruct (ToOrdinaryBF_bits c Hwf) as (_ & Eh & En & Ey).
  assert (length (bf_long_bitarr_ (ToOrdinaryBF c)) = length (bf_long_bitarr_ c)) as El.
  { by destruct (ToOrdinaryBF_prefix c (Z.to_nat (num_bits_ c)) Hwf) as (_ & _ & _ & E4 & _); [lia|]. }
  split.
  - destruct Hwf as [H1 H2 H3 H4 H5]. split; rewrite ?ToOrdinaryBF_longs, ?En, ?Ey, ?El; try done.
    intros idx. unfold byte. rewrite Ey. apply H5.
  - intros idx Hidx. rewrite En in Hidx. specialize (Hc idx Hidx). unfold byte in *. rewrite Ey.
    etrans; [|exact Hc]. unfold tally, hits, computeHash. by rewrite Eh, En.
Qed.

Lemma ToOrdinaryBF_query c o : wf c -> BFMightContain (ToOrdinaryBF c) o = MightContain c o.
Proof.
  intros Hwf. destruct (ToOrdinaryBF_bits c Hwf) as (Hb & Eh & En & Ey).
  rewrite BFMightContain_spec by (rewrite En; apply Hwf). rewrite Eh. unfold MightContain.
  induction (seq 0 (num_hash_ c)) as [|i l IH]; [done|]. simpl. rewrite IH. f_equal.
  assert (computeHash (ToOrdinaryBF c) o i = computeHash c o i) as -> by (unfold computeHash; by rewrite En).
  rewrite Hb by (apply computeHash_range, Hwf).
  pose proof (wf_byte c Hwf (computeHash c o i)) as [? _].
  destruct (Z.ltb_spec 0 (byte c (computeHash c o i))), (Z.eqb_spec (byte c (computeHash c o i)) 0); lia || done.
Qed.

(** ** Primes *)

Lemma has_divisor_spec n i low :
  1 <= i -> low / 2 < i + Z.of_nat n ->
  has_divisor n i low = true <-> exists d, i <= d <= low / 2 /\ low mod d = 0.
Proof.
  revert i. induction n as [|n IH]; intros i Hi Hn; cbn [has_divisor].
  - split; [done|]. intros (d & Hd & _). lia.
  - destruct (Z.ltb_spec (low / 2) i).
    + split; [done|]. intros (d & Hd & _). lia.
    + destruct (Z.eqb_spec (low mod i) 0).
      * split; [|done]. intros _. exists i. split; [lia|done].
      * rewrite IH by lia. split; intros (d & Hd & Hm); exists d; (split; [|done]); [lia|].
        destruct (decide (d = i)) as [->|]; [done|lia].
Qed.

Lemma half_bound low d : 1 < d -> 0 < low -> (d | low) -> d < low -> d <= low / 2.
Proof.
  intros Hd Hl [q Hq] Hlt. assert (2 <= q) by nia.
  apply Z.div_le_lower_bound; [lia|]. nia.
Qed.

Lemma is_prime_spec low : 0 <= low -> is_prime low = true <-> prime low.
Proof.
  intros Hl. rewrite <- prime_alt. unfold is_prime, Z.prime.
  rewrite andb_true_iff, !negb_true_iff, orb_false_iff, !Z.eqb_neq, <- not_true_iff_false.
  rewrite has_divisor_spec by (lia || (pose proof (Z.div_mod low 2 ltac:(lia));
    pose proof (Z.mod_pos_bound low 2 ltac:(lia)); lia)).
  split.
  - intros [[H0 H1] Hno]. split; [lia|]. intros n Hn Hdiv. apply Hno. exists n. split.
    + split; [lia|]. apply half_bound; done || lia.
    + apply Z.mod_divide; [lia|done].
  - intros [H1 Hno]. split; [lia|]. intros (d & Hd & Hm).
    pose proof (Z.div_mod low 2 ltac:(lia)). pose proof (Z.mod_pos_bound low 2 ltac:(lia)).
    apply (Hno d); [lia|]. apply Z.mod_divide; [lia|done].
Qed.

Lemma generate_prime_from_spec n low high :
  0 <= low <= high -> high - low <= Z.of_nat n ->
  let r := generate_prime_from n low high in
  low <= r <= high /\ (r < high -> prime r) /\ (forall p, low <= p < r -> ~ prime p).
Proof.
  revert low. induction n as [|n IH]; intros low Hl Hn; cbn [generate_prime_from].
  { split; [lia|]. split; lia. }
  destruct (Z.ltb_spec low high); [|split; [lia|]; split; lia].
  destruct (is_prime low) eqn:Ep.
  - apply is_prime_spec in Ep; [|lia]. split; [lia|]. split; [done|]. lia.
  - destruct (IH (low + 1)) as (H1 & H2 & H3); [lia|lia|]. split; [lia|]. split; [done|].
    intros p Hp. destruct (decide (p = low)) as [->|]; [|apply H3; lia].
    rewrite <- is_prime_spec by lia. by rewrite Ep.
Qed.

(** ** Properties *)

Inductive cbf_op : Type := CInsert (o : Z) | CRemove (o : Z).
Definition cbf_step (c : cbf) (x : cbf_op) : cbf :=
  match x with CInsert o => Insert c o | CRemove o => (Remove c o).1 end.
Definition cbf_run (c : cbf) (xs : list cbf_op) : cbf := foldl cbf_step c xs.

(** The histories the store produces: a key is only removed while it is in the
    bag, and no insertion drives a counter past 255. *)
Inductive history (c0 : cbf) : list cbf_op -> list Z -> Prop :=
| HistNil : history c0 [] []
| HistInsert xs S o :
    history c0 xs S -> no_overflow c0 (o :: S) -> history c0 (xs ++ [CInsert o]) (o :: S)
| HistRemove xs S S' o :
    history c0 xs S -> S ≡ₚ o :: S' -> history c0 (xs ++ [CRemove o]) S'.

Lemma no_overflow_shape c c' S : same_shape c c' -> no_overflow c S -> no_overflow c' S.
Proof.
  intros E Hn idx Hidx. rewrite (tally_shape c) by done. apply Hn.
  destruct E as (_ & E & _). by rewrite E in Hidx.
Qed.

Lemma history_tracks c0 xs S :
  tracks c0 [] -> history c0 xs S -> tracks (cbf_run c0 xs) S /\ same_shape c0 (cbf_run c0 xs).
Proof.
  intros H0. induction 1 as [|xs S o Hh [Ht Hs] Hno|xs S S' o Hh [Ht Hs] HS]; [done|..];
    unfold cbf_run in *; rewrite foldl_app; simpl.
  - destruct (tracks_insert _ S o Ht) as [Ht' Hs']; [by eapply no_overflow_shape|].
    split; [done|]. destruct Hs as (?&?&?&?), Hs' as (?&?&?&?). repeat split; congruence.
  - apply (tracks_perm _ _ _ HS) in Ht. destruct (tracks_remove _ S' o Ht) as (_ & Ht' & Hs').
    split; [done|]. destruct Hs as (?&?&?&?), Hs' as (?&?&?&?). repeat split; congruence.
Qed.

(** C20: No false negatives: after any history in which only present keys are removed and no
    counter passes 255, every counter is exactly the number of hash hits of the keys present,
    and every present key is reported by the counting filter and by the ordinary filter
    derived from it. *)
Theorem cbf_no_false_negative num_hash num_bits xs S :
  0 < num_bits < 2 ^ 32 ->
  let c0 := CountingBloomFilter num_hash num_bits in
  history c0 xs S ->
  let c := cbf_run c0 xs in
  (forall idx, 0 <= idx < num_bits -> byte c idx = tally c S idx) /\
  (forall o, o ∈ S -> MightContain c o = true /\ BFMightContain (ToOrdinaryBF c) o = true).
Proof.
  intros Hn c0 Hh c. destruct (history_tracks c0 xs S) as [Ht (_ & Eb & _)]; [by apply new_tracks|done|].
  split.
  - intros idx Hidx. apply Ht. fold c in Eb |- *. by rewrite Eb.
  - intros o Ho. pose proof (tracks_mem _ _ _ Ht Ho) as Hm. split; [done|].
    rewrite ToOrdinaryBF_query; [done|apply Ht].
Qed.

(** The ordinary filter the daemon sends to a client answers every query exactly as
    the counting filter it was derived from. *)
Theorem ToOrdinaryBF_equivalent c o :
  wf c -> BFMightContain (ToOrdinaryBF c) o = MightContain c o.
Proof. intros Hwf. by apply ToOrdinaryBF_query. Qed.

(** The number of bits chosen is the first prime of the interval, or its upper end when
    the interval holds none. *)
Theorem generate_prime_first low high :
  0 <= low <= high ->
  let r := generate_prime low high in
  low <= r <= high /\ (r < high -> prime r) /\ (forall p, low <= p < r -> ~ prime p).
Proof. intros H. apply generate_prime_from_spec; lia. Qed.

(** A counter that has reached 255 restarts at 1, so the filter can forget a present key:
    256 insertions and one removal of the same key leave 255 copies in the bag, and the filter
    answers that the key is absent. *)
Theorem cbf_restart_false_negative :
  MightContain (cbf_run (CountingBloomFilter 4 97) (replicate 256 (CInsert 5) ++ [CRemove 5])) 5 = false.
Proof. vm_compute. reflexivity. Qed.

(** ** Witnesses *)

Lemma tally_small c S idx : (length S * num_hash_ c <= 255)%nat -> tally c S idx <= 255.
Proof.
  intros Hl. assert (tally c S idx <= Z.of_nat (length S) * Z.of_nat (num_hash_ c)) as H; [|lia].
  clear Hl. induction S as [|o S IH]; [unfold tally; simpl; lia|].
  unfold tally in *. simpl. assert (hits c o (num_hash_ c) idx <= Z.of_nat (num_hash_ c)); [|lia].
  unfold hits. pose proof (length_filter (fun i => computeHash c o i = idx) (seq 0 (num_hash_ c))) as H.
  rewrite length_seq in H. lia.
Qed.

Lemma cbf_no_false_negative_witness :
  let c := cbf_run (CountingBloomFilter 4 97) [CInsert 5; CInsert 9; CRemove 5] in
  (forall idx, 0 <= idx < 97 -> byte c idx = tally c [9] idx) /\
  (forall o, o ∈ [9] -> MightContain c o = true /\ BFMightContain (ToOrdinaryBF c) o = true).
Proof.
  apply (cbf_no_false_negative 4 97 [CInsert 5; CInsert 9; CRemove 5] [9]); [lia|].
  apply (HistRemove _ [CInsert 5; CInsert 9] [9; 5] [9] 5).
  - apply (HistInsert _ [CInsert 5] [5] 9).
    + apply (HistInsert _ [] [] 5); [constructor|]. intros idx _. apply tally_small. simpl. lia.
    + intros idx _. apply tally_small. simpl. lia.
  - apply Permutation_swap.
Defined.

Lemma ToOrdinaryBF_equivalent_witness :
  BFMightContain (ToOrdinaryBF (Insert (CountingBloomFilter 4 97) 5)) 7 =
  MightContain (Insert (CountingBloomFilter 4 97) 5) 7.
Proof.
  apply ToOrdinaryBF_equivalent.
  apply (tracks_insert (CountingBloomFilter 4 97) [] 5); [by apply new_tracks|].
  intros idx _. apply tally_small. simpl. lia.
Defined.

Lemma generate_prime_first_witness :
  let r := generate_prime 90 140 in
  90 <= r <= 140 /\ (r < 140 -> prime r) /\ (forall p, 90 <= p < r -> ~ prime p).
Proof. apply (generate_prime_first 90 140). lia. Defined.

Example generate_prime_90 : generate_prime 90 140 = 97.
Proof. reflexivity. Qed.

#[global] Arguments Insert : simpl never.
#[global] Arguments Remove : simpl never.
