(* ===== verification/LockFreeStack.v ===== *)
(** * LockFreeStack: the lock-free stack under the free lists

    [daemon/util/lfstack.hpp] and [lfstack.cpp]: two Treiber stacks over one
    node buffer, [head] with the stored values and [free] with the spare nodes,
    each head carrying an ABA counter. Threads interleave at single memory
    accesses: a program counter per access, [step] the interleaving relation.

    The specification is a stack whose operations take effect at one instant
    ([astep]); the refinement is a forward simulation, valid for executions of
    fewer than 2^64 steps, since the counters are 64 bits wide. *)
From S2P Require Import Prelude.

(** ** Memory *)

Record lfstack_node := Node { nvalue : Z; nnext : option nat }.
#[export] Instance node_inhabited : Inhabited lfstack_node := populate (Node 0 None).
Record lfstack_head := Head { aba : Z; hnode : option nat }.

(** The two atomics of the class. *)
Inductive which := MAIN | FREE.
#[export] Instance which_eq : EqDecision which.
Proof. solve_decision. Defined.

Record mem := Mem { node_buffer : list lfstack_node; head : lfstack_head; free : lfstack_head }.

Definition get (m : mem) (w : which) : lfstack_head :=
  match w with MAIN => head m | FREE => free m end.
Definition set (m : mem) (w : which) (h : lfstack_head) : mem :=
  match w with
  | MAIN => Mem (node_buffer m) h (free m)
  | FREE => Mem (node_buffer m) (head m) h
  end.
Definition write_node (m : mem) (n : nat) (x : lfstack_node) : mem :=
  Mem (<[n := x]> (node_buffer m)) (head m) (free m).

(** The constructor: all nodes on the free list, in index order. *)
Definition init_next (num_elems i : nat) : option nat :=
  if (i <? num_elems - 1)%nat then Some (S i) else None.
Definition LockFreeStack (num_elems : nat) : mem :=
  Mem ((fun i => Node 0 (init_next num_elems i)) <$> seq 0 num_elems) (Head 0 None) (Head 0 (Some 0%nat)).

(** ** Threads *)

(** What a call of [pop] returns to; what a call of [push] returns to. *)
Inductive pop_kont := InStackPush (value : Z) | InStackPop.
Inductive push_kont := StackPushEnd | StackPopEnd (value : Z).

(** The target of [pop] and [push] follows from the caller. *)
Definition pop_target (k : pop_kont) : which := match k with InStackPush _ => FREE | InStackPop => MAIN end.
Definition push_target (k : push_kont) : which := match k with StackPushEnd => MAIN | StackPopEnd _ => FREE end.

Inductive pc : Type :=
| Idle
(* pop(head): orig = atomic_load(head) *)
| Pop_load (k : pop_kont)
(* if (!orig.node) return NULL; next.node = orig.node->next *)
| Pop_loop (orig : lfstack_head) (k : pop_kont)
(* the compare-and-exchange of pop *)
| Pop_cas (orig : lfstack_head) (n : nat) (next : option nat) (k : pop_kont)
(* node->value = value, in stack_push; value = node->value, in stack_pop *)
| Write (value : Z) (n : nat)
| Read (n : nat)
(* push(head, node): orig = atomic_load(head) *)
| Push_load (n : nat) (k : push_kont)
(* node->next = orig.node *)
| Push_link (n : nat) (orig : lfstack_head) (k : push_kont)
| Push_cas (n : nat) (orig : lfstack_head) (k : push_kont)
(* return *)
| Done (r : Z).

Definition next_aba (h : lfstack_head) : Z := aba h +₆₄ 1.

(** [(uintptr_t)-1], and the [-1] of [stack_push] as an [int]. *)
Definition NULL_VALUE : Z := wrap 64 (-1).
Definition null_result (k : pop_kont) : Z :=
  match k with InStackPush _ => -1 | InStackPop => NULL_VALUE end.
Definition after_pop (n : nat) (k : pop_kont) : pc :=
  match k with InStackPush v => Write v n | InStackPop => Read n end.
Definition after_push (k : push_kont) : Z :=
  match k with StackPushEnd => 0 | StackPopEnd v => v end.

(** What the outside sees of a step. *)
Inductive label : Type :=
| Call_push (v : Z) | Call_pop | Return (r : Z) | Tau.

(** One memory access of one thread. The weak compare-and-exchange may fail at
    any time and then reloads [orig]. *)
Inductive tstep (m : mem) : pc -> label -> mem -> pc -> Prop :=
| stack_push v : tstep m Idle (Call_push v) m (Pop_load (InStackPush v))
| stack_pop : tstep m Idle Call_pop m (Pop_load InStackPop)
| pop_load k : tstep m (Pop_load k) Tau m (Pop_loop (get m (pop_target k)) k)
| pop_null orig k : hnode orig = None -> tstep m (Pop_loop orig k) Tau m (Done (null_result k))
| pop_next orig k n :
    hnode orig = Some n ->
    tstep m (Pop_loop orig k) Tau m (Pop_cas orig n (nnext (node_buffer m !!! n)) k)
| pop_cas_ok orig n nx k :
    get m (pop_target k) = orig ->
    tstep m (Pop_cas orig n nx k) Tau (set m (pop_target k) (Head (next_aba orig) nx)) (after_pop n k)
| pop_cas_fail orig n nx k :
    tstep m (Pop_cas orig n nx k) Tau m (Pop_loop (get m (pop_target k)) k)
| write_value v n :
    tstep m (Write v n) Tau (write_node m n (Node v (nnext (node_buffer m !!! n)))) (Push_load n StackPushEnd)
| read_value n : tstep m (Read n) Tau m (Push_load n (StackPopEnd (nvalue (node_buffer m !!! n))))
| push_load n k : tstep m (Push_load n k) Tau m (Push_link n (get m (push_target k)) k)
| push_link n orig k :
    tstep m (Push_link n orig k) Tau
      (write_node m n (Node (nvalue (node_buffer m !!! n)) (hnode orig))) (Push_cas n orig k)
| push_cas_ok n orig k :
    get m (push_target k) = orig ->
    tstep m (Push_cas n orig k) Tau (set m (push_target k) (Head (next_aba orig) (Some n))) (Done (after_push k))
| push_cas_fail n orig k :
    tstep m (Push_cas n orig k) Tau m (Push_link n (get m (push_target k)) k)
| return_ r : tstep m (Done r) (Return r) m Idle.

Record state := State { smem : mem; threads : list pc }.

Inductive step (s : state) : nat -> label -> state -> Prop :=
| Step t p l m' p' :
    threads s !! t = Some p -> tstep (smem s) p l m' p' ->
    step s t l (State m' (<[t := p']> (threads s))).

(** [steps c s tr s']: [c] steps, with the calls and returns [tr] in order. *)
Definition visible (t : nat) (l : label) : list (nat * label) :=
  match l with Tau => [] | _ => [(t, l)] end.
Inductive steps : nat -> state -> list (nat * label) -> state -> Prop :=
| StepsNil s : steps 0 s [] s
| StepsSnoc c s tr s1 t l s2 :
    steps c s tr s1 -> step s1 t l s2 -> steps (S c) s (tr ++ visible t l) s2.

Definition start (num_elems num_threads : nat) : state :=
  State (LockFreeStack num_elems) (replicate num_threads Idle).

(** ** The specification: a stack with instantaneous operations *)

Inductive apc : Type := AIdle | APush (v : Z) | APop | ADone (r : Z).
Record astate := AState { astack : list Z; athreads : list apc }.

(** [stack_push] may also report that it found no node. *)
Inductive atstep (st : list Z) : apc -> label -> list Z -> apc -> Prop :=
| A_call_push v : atstep st AIdle (Call_push v) st (APush v)
| A_call_pop : atstep st AIdle Call_pop st APop
| A_push v : atstep st (APush v) Tau (v :: st) (ADone 0)
| A_push_fail v : atstep st (APush v) Tau st (ADone (-1))
| A_pop v st' : st = v :: st' -> atstep st APop Tau st' (ADone v)
| A_pop_empty : st = [] -> atstep st APop Tau st (ADone NULL_VALUE)
| A_return r : atstep st (ADone r) (Return r) st AIdle
| A_tau p : atstep st p Tau st p.

Inductive astep (s : astate) : nat -> label -> astate -> Prop :=
| AStep t p l st' p' :
    athreads s !! t = Some p -> atstep (astack s) p l st' p' ->
    astep s t l (AState st' (<[t := p']> (athreads s))).

Inductive asteps : astate -> list (nat * label) -> astate -> Prop :=
| AStepsNil s : asteps s [] s
| AStepsSnoc s tr s1 t l s2 :
    asteps s tr s1 -> astep s1 t l s2 -> asteps s (tr ++ visible t l) s2.

(** ** The simulation relation *)

(** The nodes of a list in order, from a head pointer. *)
Fixpoint chain (buf : list lfstack_node) (o : option nat) (l : list nat) : Prop :=
  match l with
  | [] => o = None
  | n :: l => o = Some n /\ chain buf (nnext (buf !!! n)) l
  end.

(** The node a thread has taken and not yet linked. *)
Definition owned (p : pc) : option nat :=
  match p with
  | Write _ n | Read n | Push_load n _ | Push_link n _ _ | Push_cas n _ _ => Some n
  | _ => None
  end.

(** A head value read earlier: older than the current one, or the current one. *)
Definition orig_ok (m : mem) (w : which) (orig : lfstack_head) : Prop :=
  aba orig <= aba (get m w) /\ (aba orig = aba (get m w) -> orig = get m w).

(** What a thread knows at each program counter. *)
Definition pc_ok (m : mem) (p : pc) : Prop :=
  match p with
  | Pop_loop orig k => orig_ok m (pop_target k) orig
  | Pop_cas orig n nx k =>
      orig_ok m (pop_target k) orig /\ hnode orig = Some n /\
      (orig = get m (pop_target k) -> nnext (node_buffer m !!! n) = nx)
  | Push_cas n orig k => nnext (node_buffer m !!! n) = hnode orig
  | _ => True
  end.

Record layout (m : mem) (ts : list pc) (lH lF : list nat) : Prop := {
  lay_main : chain (node_buffer m) (hnode (head m)) lH;
  lay_free : chain (node_buffer m) (hnode (free m)) lF;
  lay_nodes : lH ++ lF ++ omap owned ts ≡ₚ seq 0 (length (node_buffer m));
}.

Record inv (c : nat) (s : state) (lH lF : list nat) : Prop := {
  inv_layout : layout (smem s) (threads s) lH lF;
  inv_pcs t p : threads s !! t = Some p -> pc_ok (smem s) p;
  inv_aba w : 0 <= aba (get (smem s) w) <= Z.of_nat c;
}.

(** The status of a thread: an operation has taken effect once its node is
    linked, unlinked, or the head was seen empty. *)
Definition abs_pc (m : mem) (p : pc) : apc :=
  match p with
  | Idle => AIdle
  | Pop_load (InStackPush v) | Pop_cas _ _ _ (InStackPush v) | Write v _ => APush v
  | Pop_load InStackPop | Pop_cas _ _ _ InStackPop => APop
  | Pop_loop orig k =>
      match hnode orig, k with
      | None, _ => ADone (null_result k)
      | Some _, InStackPush v => APush v
      | Some _, InStackPop => APop
      end
  | Read n => ADone (nvalue (node_buffer m !!! n))
  | Push_load n k | Push_link n _ k | Push_cas n _ k =>
      match k with
      | StackPushEnd => APush (nvalue (node_buffer m !!! n))
      | StackPopEnd v => ADone v
      end
  | Done r => ADone r
  end.

Definition values (m : mem) (l : list nat) : list Z := (fun n => nvalue (node_buffer m !!! n)) <$> l.

Definition abs (s : state) (lH : list nat) : astate :=
  AState (values (smem s) lH) (abs_pc (smem s) <$> threads s).

(** ** Lemmas: memory *)

Implicit Types (m : mem) (w : which) (p : pc) (t : nat) (l : label) (ts : list pc).

Lemma get_set m w h w' : get (set m w h) w' = if decide (w = w') then h else get m w'.
Proof. by destruct w, w'. Qed.
Lemma buf_set m w h : node_buffer (set m w h) = node_buffer m.
Proof. by destruct w. Qed.
Lemma get_write m n x w : get (write_node m n x) w = get m w.
Proof. by destruct w. Qed.

Lemma write_other m n x n' : n <> n' -> node_buffer (write_node m n x) !!! n' = node_buffer m !!! n'.
Proof. intros Hn. simpl. by rewrite list_lookup_total_insert_ne. Qed.
Lemma write_same m n x :
  (n < length (node_buffer m))%nat -> node_buffer (write_node m n x) !!! n = x.
Proof. intros Hn. simpl. by rewrite list_lookup_total_insert_eq. Qed.

Lemma chain_write m n x o (l : list nat) :
  n ∉ l -> chain (node_buffer m) o l -> chain (node_buffer (write_node m n x)) o l.
Proof.
  revert o. induction l as [|n' l IH]; intros o Hn; [done|]. apply not_elem_of_cons in Hn as [Hn Hl].
  intros [-> Hc]. split; [done|]. rewrite write_other by done. by apply IH.
Qed.

Lemma values_write m n x (l : list nat) : n ∉ l -> values (write_node m n x) l = values m l.
Proof.
  intros Hn. unfold values. apply list_fmap_ext. intros i n' Hi. rewrite write_other; [done|].
  intros <-. apply Hn. by eapply list_elem_of_lookup_2.
Qed.

(** ** Lemmas: the partition of the nodes *)

Lemma omap_insert_owned (ts : list pc) t p p' :
  ts !! t = Some p ->
  option_list (owned p) ++ omap owned (<[t := p']> ts) ≡ₚ option_list (owned p') ++ omap owned ts.
Proof.
  intros Ht. rewrite <- (take_drop_middle ts t p Ht) at 2.
  rewrite insert_take_drop by (by eapply lookup_lt_Some).
  rewrite !omap_app. simpl.
  destruct (owned p), (owned p'); simpl; solve_Permutation.
Qed.

Lemma owned_in (ts : list pc) t p n : ts !! t = Some p -> owned p = Some n -> n ∈ omap owned ts.
Proof. intros Ht Ho. apply list_elem_of_omap. exists p. split; [by eapply list_elem_of_lookup_2|done]. Qed.

Lemma layout_nodup m ts lH lF : layout m ts lH lF -> NoDup (lH ++ lF ++ omap owned ts).
Proof. intros Hl. rewrite (lay_nodes _ _ _ _ Hl). apply NoDup_seq. Qed.

Lemma owner_unique m (ts : list pc) lH lF t p n :
  layout m ts lH lF -> ts !! t = Some p -> owned p = Some n ->
  ~ n ∈ lH /\ ~ n ∈ lF /\ (n < length (node_buffer m))%nat /\
  (forall t' q, t' <> t -> ts !! t' = Some q -> ~ owned q = Some n).
Proof.
  intros Hl Ht Ho. pose proof (owned_in ts t p n Ht Ho) as Hin.
  pose proof (layout_nodup _ _ _ _ Hl) as Hnd.
  apply NoDup_app in Hnd as (_ & Hd & Hnd). apply NoDup_app in Hnd as (_ & Hd' & Hnd).
  split_and!.
  - intros Hx. apply (Hd n Hx), elem_of_app. by right.
  - intros Hx. by apply (Hd' n Hx).
  - assert (n ∈ seq 0 (length (node_buffer m))) as Hs.
    { rewrite <- (lay_nodes _ _ _ _ Hl). rewrite !elem_of_app. by right; right. }
    apply elem_of_seq in Hs. lia.
  - intros t' q Hne Hq Hoq. pose proof (omap_insert_owned ts t p Idle Ht) as E.
    rewrite Ho in E. simpl in E. rewrite <- E in Hnd. apply NoDup_cons in Hnd as [Hn _].
    apply Hn. apply (owned_in _ t' q); [by rewrite list_lookup_insert_ne|done].
Qed.

Lemma layout_move m ts lH lF t p m' p' lH' lF' :
  layout m ts lH lF -> ts !! t = Some p ->
  chain (node_buffer m') (hnode (head m')) lH' -> chain (node_buffer m') (hnode (free m')) lF' ->
  length (node_buffer m') = length (node_buffer m) ->
  lH' ++ lF' ++ option_list (owned p') ≡ₚ lH ++ lF ++ option_list (owned p) ->
  layout m' (<[t := p']> ts) lH' lF'.
Proof.
  intros Hl Ht Hm Hf Hlen Hp. split; [done|done|]. rewrite Hlen, <- (lay_nodes _ _ _ _ Hl).
  apply (Permutation_app_inv_l (option_list (owned p))).
  pose proof (omap_insert_owned ts t p p' Ht) as E.
  trans (lH' ++ lF' ++ (option_list (owned p) ++ omap owned (<[t := p']> ts))); [solve_Permutation|].
  rewrite E. trans ((lH' ++ lF' ++ option_list (owned p')) ++ omap owned ts); [solve_Permutation|].
  rewrite Hp. solve_Permutation.
Qed.

Lemma abs_threads m m' (ts : list pc) (t : nat) p' :
  (forall t' q, t' <> t -> ts !! t' = Some q -> abs_pc m' q = abs_pc m q) ->
  abs_pc m' <$> <[t := p']> ts = <[t := abs_pc m' p']> (abs_pc m <$> ts).
Proof.
  intros Hq. apply list_eq. intros t'. rewrite list_lookup_fmap.
  destruct (decide (t' = t)) as [->|Hne].
  - destruct (decide (t < length ts)%nat).
    + by rewrite !list_lookup_insert_eq by (rewrite ?length_fmap; done).
    + by rewrite !lookup_ge_None_2 by (rewrite ?length_insert, ?length_fmap; lia).
  - rewrite !list_lookup_insert_ne, list_lookup_fmap by done.
    destruct (ts !! t') as [q|] eqn:E; [|done]. simpl. by rewrite (Hq t').
Qed.

(** A step re-establishes the invariant and is matched by the specification as
    soon as its own thread does and it leaves the other threads' knowledge and
    status alone. *)
Lemma sim_frame c s t p l m' p' lH lF lH' lF' :
  inv c s lH lF -> threads s !! t = Some p ->
  layout m' (<[t := p']> (threads s)) lH' lF' ->
  (forall t' q, t' <> t -> threads s !! t' = Some q -> pc_ok (smem s) q ->
     pc_ok m' q /\ abs_pc m' q = abs_pc (smem s) q) ->
  pc_ok m' p' ->
  (forall w, 0 <= aba (get m' w) <= Z.of_nat (S c)) ->
  atstep (values (smem s) lH) (abs_pc (smem s) p) l (values m' lH') (abs_pc m' p') ->
  inv (S c) (State m' (<[t := p']> (threads s))) lH' lF' /\
  astep (abs s lH) t l (abs (State m' (<[t := p']> (threads s))) lH').
Proof.
  intros Hinv Ht Hl Hoth Hok Haba Hst. split; [split; [done| |done]|].
  - simpl. intros t' q. destruct (decide (t' = t)) as [->|Hne].
    + rewrite list_lookup_insert_eq by (by eapply lookup_lt_Some). by intros [= <-].
    + rewrite list_lookup_insert_ne by done. intros Hq. apply (Hoth t'); [done|done|by eapply Hinv].
  - unfold abs at 2. simpl. rewrite (abs_threads (smem s)).
    + apply (AStep (abs s lH) t (abs_pc (smem s) p)); [|done]. simpl. by rewrite list_lookup_fmap, Ht.
    + intros t' q Hne Hq. apply (Hoth t'); [done|done|by eapply Hinv].
Qed.

(** A step that reads memory only. *)
Lemma sim_local c s t p l p' lH lF :
  inv c s lH lF -> threads s !! t = Some p -> owned p' = owned p -> pc_ok (smem s) p' ->
  atstep (values (smem s) lH) (abs_pc (smem s) p) l (values (smem s) lH) (abs_pc (smem s) p') ->
  inv (S c) (State (smem s) (<[t := p']> (threads s))) lH lF /\
  astep (abs s lH) t l (abs (State (smem s) (<[t := p']> (threads s))) lH).
Proof.
  intros Hinv Ht Ho Hok Hst. pose proof (inv_layout _ _ _ _ Hinv) as Hl.
  eapply sim_frame; [done|done| | |done| |done].
  - apply (layout_move _ _ _ _ _ _ _ _ _ _ Hl Ht); [apply Hl|apply Hl|done|by rewrite Ho].
  - done.
  - intros w. pose proof (inv_aba _ _ _ _ Hinv w). lia.
Qed.

Lemma orig_ok_get m w : orig_ok m w (get m w).
Proof. by split. Qed.

Lemma layout_chain m ts lH lF w :
  layout m ts lH lF -> chain (node_buffer m) (hnode (get m w)) (match w with MAIN => lH | FREE => lF end).
Proof. intros [? ?]. by destruct w. Qed.

(** A step by which the owner of a node writes to it. *)
Lemma sim_write c s t p n x p' lH lF :
  inv c s lH lF -> threads s !! t = Some p -> owned p = Some n -> owned p' = Some n ->
  pc_ok (write_node (smem s) n x) p' ->
  abs_pc (write_node (smem s) n x) p' = abs_pc (smem s) p ->
  inv (S c) (State (write_node (smem s) n x) (<[t := p']> (threads s))) lH lF /\
  astep (abs s lH) t Tau (abs (State (write_node (smem s) n x) (<[t := p']> (threads s))) lH).
Proof.
  intros Hinv Ht Ho Ho' Hok Habs. pose proof (inv_layout _ _ _ _ Hinv) as Hl.
  destruct (owner_unique _ _ _ _ _ _ _ Hl Ht Ho) as (HnH & HnF & Hn & Huniq).
  eapply sim_frame; [done|done| | |done| |].
  - apply (layout_move _ _ _ _ _ _ _ _ _ _ Hl Ht).
    + apply chain_write; [done|apply Hl].
    + apply chain_write; [done|apply Hl].
    + simpl. apply length_insert.
    + by rewrite Ho, Ho'.
  - intros t' q Hne Hq Hokq. specialize (Huniq t' q Hne Hq). split.
    + destruct q as [|k|orig k|orig n' nx k|v n'|n'|n' k|n' orig k|n' orig k|r]; try done;
        unfold pc_ok, orig_ok in *; rewrite ?get_write; try done.
      * destruct Hokq as (H1 & H2 & H3). split; [done|]. split; [done|]. intros E. rewrite write_other; [by apply H3|].
        intros ->. pose proof (layout_chain _ _ _ _ (pop_target k) Hl) as Hc. rewrite <- E, H2 in Hc.
        destruct (pop_target k); [destruct lH|destruct lF]; try done; destruct Hc as [[= ->] _];
          [by apply HnH; left|by apply HnF; left].
      * rewrite write_other; [done|]. intros ->. by apply Huniq.
    + destruct q as [|k|orig k|orig n' nx k|v n'|n'|n' k|n' orig k|n' orig k|r]; try done;
        simpl in Huniq; unfold abs_pc; rewrite write_other by congruence; done.
  - intros w. rewrite get_write. pose proof (inv_aba _ _ _ _ Hinv w). lia.
  - rewrite values_write, Habs by done. constructor.
Qed.

(** A successful compare-and-exchange makes every other copy of that head
    stale. *)
Lemma cas_others m w h q :
  aba (get m w) < aba h -> pc_ok m q ->
  pc_ok (set m w h) q /\ abs_pc (set m w h) q = abs_pc m q.
Proof.
  intros Hlt. destruct q as [|k|orig k|orig n nx k|v n|n|n k|n orig k|n orig k|r];
    unfold pc_ok, abs_pc, orig_ok; rewrite ?buf_set; try done.
  - rewrite get_set. case_decide as E; [|done]. subst w. intros [H1 _]. split; [split; lia|done].
  - rewrite get_set. case_decide as E; [|done]. subst w. intros ([H1 _] & H2 & H3).
    split; [|done]. split; [split; lia|]. split; [done|]. intros ->. lia.
Qed.

Lemma next_aba_eq m w c :
  0 <= aba (get m w) <= Z.of_nat c -> Z.of_nat c + 1 < 2 ^ 64 ->
  next_aba (get m w) = aba (get m w) + 1.
Proof. intros H1 H2. apply add64_small. lia. Qed.

Lemma sim_pop_cas c s t n nx k lH lF :
  inv c s lH lF -> Z.of_nat c + 1 < 2 ^ 64 ->
  threads s !! t = Some (Pop_cas (get (smem s) (pop_target k)) n nx k) ->
  let m' := set (smem s) (pop_target k) (Head (next_aba (get (smem s) (pop_target k))) nx) in
  exists lH' lF',
    inv (S c) (State m' (<[t := after_pop n k]> (threads s))) lH' lF' /\
    astep (abs s lH) t Tau (abs (State m' (<[t := after_pop n k]> (threads s))) lH').
Proof.
  intros Hinv Hc Ht m'. pose proof (inv_layout _ _ _ _ Hinv) as Hl.
  destruct (inv_pcs _ _ _ _ Hinv t _ Ht) as (_ & Hn & Hnx). specialize (Hnx eq_refl).
  pose proof (inv_aba _ _ _ _ Hinv) as Haba.
  pose proof (next_aba_eq _ (pop_target k) _ (Haba _) Hc) as Hna.
  assert (forall w, 0 <= aba (get m' w) <= Z.of_nat (S c)) as Haba'.
  { intros w. unfold m'. rewrite get_set. specialize (Haba w) as H1. specialize (Haba (pop_target k)) as H2.
    case_decide; simpl; lia. }
  assert (forall t' q, t' <> t -> threads s !! t' = Some q -> pc_ok (smem s) q ->
     pc_ok m' q /\ abs_pc m' q = abs_pc (smem s) q) as Hoth.
  { intros t' q _ _. apply cas_others. simpl. lia. }
  destruct k as [v|]; simpl in *.
  - pose proof (lay_free _ _ _ _ Hl) as Hch. rewrite Hn in Hch.
    destruct lF as [|n' lF]; [done|]. destruct Hch as [[= <-] Hch]. exists lH, lF.
    eapply sim_frame; [done|done| |done|done|done|].
    + apply (layout_move _ _ _ _ _ _ _ _ _ _ Hl Ht); simpl; [apply Hl|by rewrite <- Hnx|done|].
      solve_Permutation.
    + simpl. constructor.
  - pose proof (lay_main _ _ _ _ Hl) as Hch. rewrite Hn in Hch.
    destruct lH as [|n' lH]; [done|]. destruct Hch as [[= <-] Hch]. exists lH, lF.
    eapply sim_frame; [done|done| |done|done|done|].
    + apply (layout_move _ _ _ _ _ _ _ _ _ _ Hl Ht); simpl; [by rewrite <- Hnx|apply Hl|done|].
      solve_Permutation.
    + simpl. by constructor.
Qed.

Lemma sim_push_cas c s t n k lH lF :
  inv c s lH lF -> Z.of_nat c + 1 < 2 ^ 64 ->
  threads s !! t = Some (Push_cas n (get (smem s) (push_target k)) k) ->
  let m' := set (smem s) (push_target k) (Head (next_aba (get (smem s) (push_target k))) (Some n)) in
  exists lH' lF',
    inv (S c) (State m' (<[t := Done (after_push k)]> (threads s))) lH' lF' /\
    astep (abs s lH) t Tau (abs (State m' (<[t := Done (after_push k)]> (threads s))) lH').
Proof.
  intros Hinv Hc Ht m'. pose proof (inv_layout _ _ _ _ Hinv) as Hl.
  pose proof (inv_pcs _ _ _ _ Hinv t _ Ht) as Hn. simpl in Hn.
  pose proof (inv_aba _ _ _ _ Hinv) as Haba.
  pose proof (next_aba_eq _ (push_target k) _ (Haba _) Hc) as Hna.
  assert (forall w, 0 <= aba (get m' w) <= Z.of_nat (S c)) as Haba'.
  { intros w. unfold m'. rewrite get_set. specialize (Haba w) as H1. specialize (Haba (push_target k)) as H2.
    case_decide; simpl; lia. }
  assert (forall t' q, t' <> t -> threads s !! t' = Some q -> pc_ok (smem s) q ->
     pc_ok m' q /\ abs_pc m' q = abs_pc (smem s) q) as Hoth.
  { intros t' q _ _. apply cas_others. simpl. lia. }
  destruct k as [|v]; simpl in *.
  - exists (n :: lH), lF. eapply sim_frame; [done|done| |done|done|done|].
    + apply (layout_move _ _ _ _ _ _ _ _ _ _ Hl Ht); simpl; [split; [done|]; rewrite Hn; apply Hl|apply Hl|done|].
      solve_Permutation.
    + simpl. constructor.
  - exists lH, (n :: lF). eapply sim_frame; [done|done| |done|done|done|].
    + apply (layout_move _ _ _ _ _ _ _ _ _ _ Hl Ht); simpl; [apply Hl|split; [done|]; rewrite Hn; apply Hl|done|].
      solve_Permutation.
    + simpl. constructor.
Qed.

(** Reading a head: an empty one already decides the operation. *)
Lemma sim_read_head c s t p k lH lF :
  inv c s lH lF -> threads s !! t = Some p -> owned p = None ->
  abs_pc (smem s) p = (match k with InStackPush v => APush v | InStackPop => APop end) ->
  let p' := Pop_loop (get (smem s) (pop_target k)) k in
  inv (S c) (State (smem s) (<[t := p']> (threads s))) lH lF /\
  astep (abs s lH) t Tau (abs (State (smem s) (<[t := p']> (threads s))) lH).
Proof.
  intros Hinv Ht Ho Habs. apply (sim_local c s t p); [done|done|by rewrite Ho|apply orig_ok_get|].
  rewrite Habs. simpl. destruct (hnode (get (smem s) (pop_target k))) eqn:E.
  - destruct k; constructor.
  - destruct k as [v|]; simpl; [constructor|].
    pose proof (lay_main _ _ _ _ (inv_layout _ _ _ _ Hinv)) as Hch. simpl in E. rewrite E in Hch.
    destruct lH as [|? ?]; [by constructor|by destruct Hch].
Qed.

Lemma step_sim c s t l s' lH lF :
  inv c s lH lF -> Z.of_nat c + 1 < 2 ^ 64 -> step s t l s' ->
  exists lH' lF', inv (S c) s' lH' lF' /\ astep (abs s lH) t l (abs s' lH').
Proof.
  intros Hinv Hc [t' p l' m' p' Ht Hst].
  pose proof (inv_pcs _ _ _ _ Hinv t' p Ht) as Hok.
  pose proof (inv_layout _ _ _ _ Hinv) as Hl.
  inversion Hst; subst; clear Hst; simpl in Hok.
  - exists lH, lF. apply (sim_local _ _ _ _ _ _ _ _ Hinv Ht); [done|done|constructor].
  - exists lH, lF. apply (sim_local _ _ _ _ _ _ _ _ Hinv Ht); [done|done|constructor].
  - exists lH, lF. apply (sim_read_head _ _ _ _ _ _ _ Hinv Ht); [done|by destruct k].
  - exists lH, lF. apply (sim_local _ _ _ _ _ _ _ _ Hinv Ht); [done|done|]. simpl. rewrite H. constructor.
  - exists lH, lF. apply (sim_local _ _ _ _ _ _ _ _ Hinv Ht); [done|done|]. simpl. rewrite H.
    destruct k; constructor.
  - by apply (sim_pop_cas c s t' n nx k lH lF).
  - exists lH, lF. apply (sim_read_head _ _ _ _ _ _ _ Hinv Ht); [done|by destruct k].
  - exists lH, lF. destruct (owner_unique _ _ _ _ _ _ n Hl Ht eq_refl) as (_ & _ & Hn & _).
    apply (sim_write _ _ _ _ n _ _ _ _ Hinv Ht); [done|done|done|]. unfold abs_pc. by rewrite write_same.
  - exists lH, lF. apply (sim_local _ _ _ _ _ _ _ _ Hinv Ht); [done|done|constructor].
  - exists lH, lF. apply (sim_local _ _ _ _ _ _ _ _ Hinv Ht); [done|done|]. simpl. destruct k; constructor.
  - exists lH, lF. destruct (owner_unique _ _ _ _ _ _ n Hl Ht eq_refl) as (_ & _ & Hn & _).
    apply (sim_write _ _ _ _ n _ _ _ _ Hinv Ht); [done|done| |].
    + unfold pc_ok. by rewrite write_same.
    + unfold abs_pc. by rewrite write_same.
  - by apply (sim_push_cas c s t' n k lH lF).
  - exists lH, lF. apply (sim_local _ _ _ _ _ _ _ _ Hinv Ht); [done|done|]. simpl. destruct k; constructor.
  - exists lH, lF. apply (sim_local _ _ _ _ _ _ _ _ Hinv Ht); [done|done|constructor].
Qed.

(** ** The initial state *)

Lemma init_chain N i :
  (i <= N)%nat ->
  chain (node_buffer (LockFreeStack N)) (if (i <? N)%nat then Some i else None) (seq i (N - i)).
Proof.
  intros Hi. remember (N - i)%nat as d eqn:Ed. revert i Hi Ed. induction d as [|d IH]; intros i Hi Ed; simpl.
  - by rewrite (proj2 (Nat.ltb_ge _ _)) by lia.
  - rewrite (proj2 (Nat.ltb_lt _ _)) by lia. split; [done|].
    rewrite list_lookup_total_alt, list_lookup_fmap, lookup_seq_lt by lia. simpl. unfold init_next.
    specialize (IH (S i) ltac:(lia) ltac:(lia)).
    replace (i <? N - 1)%nat with (S i <? N)%nat; [done|].
    destruct (Nat.ltb_spec (S i) N), (Nat.ltb_spec i (N - 1)); lia || done.
Qed.

Lemma init_inv N T : (0 < N)%nat -> inv 0 (start N T) [] (seq 0 N).
Proof.
  intros HN. split; [split|..]; simpl.
  - done.
  - pose proof (init_chain N 0 ltac:(lia)) as Hc. rewrite (proj2 (Nat.ltb_lt _ _)) in Hc by lia.
    by rewrite Nat.sub_0_r in Hc.
  - rewrite length_fmap, length_seq. replace (omap owned (replicate T Idle)) with (@nil nat).
    + by rewrite app_nil_r.
    + clear. by induction T.
  - intros t p Hp. apply lookup_replicate in Hp as [-> _]. done.
  - intros w. by destruct w.
Qed.

Lemma asteps_trans s0 tr s1 t l s2 :
  asteps s0 tr s1 -> astep s1 t l s2 -> asteps s0 (tr ++ visible t l) s2.
Proof. intros. by eapply AStepsSnoc. Qed.

Lemma steps_sim N T c tr s :
  (0 < N)%nat -> Z.of_nat c < 2 ^ 64 -> steps c (start N T) tr s ->
  exists lH lF, inv c s lH lF /\ length (node_buffer (smem s)) = N /\
    asteps (AState [] (replicate T AIdle)) tr (abs s lH).
Proof.
  intros HN Hc Hs. remember (start N T) as s0 eqn:E0.
  induction Hs as [s|c s tr s1 t l s2 Hs IH Hst]; subst.
  - exists [], (seq 0 N). split; [by apply init_inv|]. split; [simpl; by rewrite length_fmap, length_seq|].
    replace (abs (start N T) []) with (AState [] (replicate T AIdle)); [constructor|].
    unfold abs. simpl. f_equal. clear. by induction T; simpl; f_equal.
  - destruct IH as (lH & lF & Hinv & Hlen & Ha); [lia|done|].
    destruct (step_sim _ _ _ _ _ _ _ Hinv ltac:(lia) Hst) as (lH' & lF' & Hinv' & Ha').
    exists lH', lF'. split; [done|]. split; [|by eapply asteps_trans].
    destruct Hst as [t' p l' m' p' Ht Hst]. simpl. rewrite <- Hlen.
    inversion Hst; subst; simpl; rewrite ?buf_set, ?length_insert; done.
Qed.

(** ** Properties *)

(** C3: Linearizability: every interleaving of fewer than 2^64 memory accesses by any
    number of threads calling [stack_push] and [stack_pop] has the same calls and returns, in
    the same order, as a run of a stack whose operations are instantaneous. *)
Theorem stack_linearizable N T c tr s :
  (0 < N)%nat -> Z.of_nat c < 2 ^ 64 -> steps c (start N T) tr s ->
  exists a, asteps (AState [] (replicate T AIdle)) tr a.
Proof. intros HN Hc Hs. destruct (steps_sim N T c tr s HN Hc Hs) as (lH & lF & _ & _ & Ha). eauto. Qed.

(** No node is lost, shared or duplicated: in every reachable state the nodes of the
    buffer are exactly those linked from [head], those linked from [free], and those a single
    thread is holding between taking and linking them. *)
Theorem stack_nodes_partitioned N T c tr s :
  (0 < N)%nat -> Z.of_nat c < 2 ^ 64 -> steps c (start N T) tr s ->
  exists lH lF,
    chain (node_buffer (smem s)) (hnode (head (smem s))) lH /\
    chain (node_buffer (smem s)) (hnode (free (smem s))) lF /\
    lH ++ lF ++ omap owned (threads s) ≡ₚ seq 0 N.
Proof.
  intros HN Hc Hs. destruct (steps_sim N T c tr s HN Hc Hs) as (lH & lF & Hinv & Hlen & _).
  destruct (inv_layout _ _ _ _ Hinv) as [H1 H2 H3]. rewrite Hlen in H3. eauto.
Qed.

(** A thread that carries a value: its argument until the push is linked, or
    the value it has unlinked until its node is back on the free list. *)
Definition carrying (p : pc) : bool :=
  match p with
  | Pop_load (InStackPush _) | Pop_loop _ (InStackPush _) | Pop_cas _ _ _ (InStackPush _) => true
  | Write _ _ | Read _ | Push_load _ _ | Push_link _ _ _ | Push_cas _ _ _ => true
  | _ => false
  end.
Definition carried (ts : list pc) : nat := length (filter (fun p => carrying p = true) ts).

Lemma owned_le_carried ts : (length (omap owned ts) <= carried ts)%nat.
Proof.
  unfold carried. induction ts as [|p ts IH]; [done|]. rewrite filter_cons.
  destruct p as [|[]|? []|? ? ? []| | | | | |]; case_decide as Hd; cbn in *; try lia; try discriminate;
    by destruct Hd.
Qed.

Lemma carried_no_node ts t p :
  ts !! t = Some p -> carrying p = true -> owned p = None ->
  (length (omap owned ts) < carried ts)%nat.
Proof.
  intros Ht Hc Ho. rewrite <- (take_drop_middle ts t p Ht).
  generalize (take t ts) as l1, (drop (S t) ts) as l2. intros l1 l2.
  pose proof (owned_le_carried l1). pose proof (owned_le_carried l2). unfold carried in *.
  rewrite omap_app, filter_app, !length_app, filter_cons. case_decide; [|done].
  simpl. rewrite Ho. change (list_omap pc nat owned l2) with (omap owned l2). lia.
Qed.

(** [stack_push] finds a node: as long as the values in the stack and in the hands of
    running operations are at most as many as the nodes, the free list is not empty whenever a
    pushing thread reads its head, so a push never reports failure and no page is dropped. *)
Theorem push_finds_node N T c tr s t p :
  (0 < N)%nat -> Z.of_nat c < 2 ^ 64 -> steps c (start N T) tr s ->
  (forall lH, chain (node_buffer (smem s)) (hnode (head (smem s))) lH ->
     (length lH + carried (threads s) <= N)%nat) ->
  threads s !! t = Some p -> carrying p = true -> owned p = None ->
  hnode (free (smem s)) <> None.
Proof.
  intros HN Hc Hs Hbound Ht Hcar Ho E.
  destruct (steps_sim N T c tr s HN Hc Hs) as (lH & lF & Hinv & Hlen & _).
  destruct (inv_layout _ _ _ _ Hinv) as [H1 H2 H3].
  specialize (Hbound lH H1). pose proof (carried_no_node _ _ _ Ht Hcar Ho) as Hlt.
  apply Permutation_length in H3. rewrite !length_app, length_seq, Hlen in H3.
  rewrite E in H2. destruct lF as [|n lF]; [simpl in H3; lia|by destruct H2].
Qed.

(** ** Executable schedules *)

(** What a scheduler decides: which operation an idle thread calls, and
    whether a compare-and-exchange that could succeed fails spuriously. *)
Inductive choice := CallPush (v : Z) | CallPop | Go | Spurious.

#[export] Instance head_eq : EqDecision lfstack_head.
Proof. solve_decision. Defined.

Definition exec (m : mem) (p : pc) (ch : choice) : option (label * mem * pc) :=
  match p, ch with
  | Idle, CallPush v => Some (Call_push v, m, Pop_load (InStackPush v))
  | Idle, CallPop => Some (Call_pop, m, Pop_load InStackPop)
  | Idle, _ => None
  | Pop_load k, _ => Some (Tau, m, Pop_loop (get m (pop_target k)) k)
  | Pop_loop orig k, _ =>
      match hnode orig with
      | None => Some (Tau, m, Done (null_result k))
      | Some n => Some (Tau, m, Pop_cas orig n (nnext (node_buffer m !!! n)) k)
      end
  | Pop_cas orig n nx k, Go =>
      if decide (get m (pop_target k) = orig)
      then Some (Tau, set m (pop_target k) (Head (next_aba orig) nx), after_pop n k)
      else Some (Tau, m, Pop_loop (get m (pop_target k)) k)
  | Pop_cas orig n nx k, _ => Some (Tau, m, Pop_loop (get m (pop_target k)) k)
  | Write v n, _ => Some (Tau, write_node m n (Node v (nnext (node_buffer m !!! n))), Push_load n StackPushEnd)
  | Read n, _ => Some (Tau, m, Push_load n (StackPopEnd (nvalue (node_buffer m !!! n))))
  | Push_load n k, _ => Some (Tau, m, Push_link n (get m (push_target k)) k)
  | Push_link n orig k, _ =>
      Some (Tau, write_node m n (Node (nvalue (node_buffer m !!! n)) (hnode orig)), Push_cas n orig k)
  | Push_cas n orig k, Go =>
      if decide (get m (push_target k) = orig)
      then Some (Tau, set m (push_target k) (Head (next_aba orig) (Some n)), Done (after_push k))
      else Some (Tau, m, Push_link n (get m (push_target k)) k)
  | Push_cas n orig k, _ => Some (Tau, m, Push_link n (get m (push_target k)) k)
  | Done r, _ => Some (Return r, m, Idle)
  end.

Lemma exec_tstep m p ch l m' p' : exec m p ch = Some (l, m', p') -> tstep m p l m' p'.
Proof.
  destruct p, ch; simpl; repeat case_match; intros; simplify_eq; by constructor.
Qed.

Fixpoint run (s : state) (tr : list (nat * label)) (sched : list (nat * choice)) : option (state * list (nat * label)) :=
  match sched with
  | [] => Some (s, tr)
  | (t, ch) :: sched =>
      p ← threads s !! t;
      '(l, m', p') ← exec (smem s) p ch;
      run (State m' (<[t := p']> (threads s))) (tr ++ visible t l) sched
  end.

Lemma run_steps_from c s0 tr s sched s' tr' :
  steps c s0 tr s -> run s tr sched = Some (s', tr') -> steps (c + length sched) s0 tr' s'.
Proof.
  revert c tr s. induction sched as [|[t ch] sched IH]; intros c tr s Hs; simpl.
  - intros [= <- <-]. by rewrite Nat.add_0_r.
  - destruct (threads s !! t) as [p|] eqn:Ht; simpl; [|done].
    destruct (exec (smem s) p ch) as [[[l m'] p']|] eqn:He; simpl; [|done].
    intros Hr. rewrite Nat.add_succ_r, <- Nat.add_succ_l. eapply IH; [|exact Hr].
    eapply StepsSnoc; [done|]. econstructor; [done|by eapply exec_tstep].
Qed.

Lemma run_steps s sched s' tr' : run s [] sched = Some (s', tr') -> steps (length sched) s tr' s'.
Proof. intros H. apply (run_steps_from 0 s [] s); [constructor|done]. Qed.

(** ** Witnesses *)

(** Thread 1 prepares to pop the only page, is overtaken by thread 0, which
    pops it and pushes it back, and retries because of the ABA counter. *)
Definition aba_schedule : list (nat * choice) :=
  [(0, CallPush 7)]%nat ++ replicate 8 (0, Go)%nat ++
  [(1, CallPop)]%nat ++ replicate 2 (1, Go)%nat ++
  [(0, CallPop)]%nat ++ replicate 8 (0, Go)%nat ++
  [(0, CallPush 7)]%nat ++ replicate 8 (0, Go)%nat ++
  replicate 8 (1, Go)%nat.

Definition aba_run : state * list (nat * label) :=
  default (start 2 2, []) (run (start 2 2) [] aba_schedule).

Example aba_trace :
  aba_run.2 = [(0, Call_push 7); (0, Return 0); (1, Call_pop); (0, Call_pop); (0, Return 7);
               (0, Call_push 7); (0, Return 0); (1, Return 7)]%nat.
Proof. vm_compute. reflexivity. Qed.

Lemma stack_linearizable_witness : exists a, asteps (AState [] (replicate 2 AIdle)) aba_run.2 a.
Proof.
  apply (stack_linearizable 2 2 (length aba_schedule) aba_run.2 aba_run.1); [lia|done|].
  apply run_steps. vm_compute. reflexivity.
Defined.

Definition mid_run : state * list (nat * label) :=
  default (start 2 2, []) (run (start 2 2) [] (take 24 aba_schedule)).

Lemma stack_nodes_partitioned_witness :
  exists lH lF,
    chain (node_buffer (smem mid_run.1)) (hnode (head (smem mid_run.1))) lH /\
    chain (node_buffer (smem mid_run.1)) (hnode (free (smem mid_run.1))) lF /\
    lH ++ lF ++ omap owned (threads mid_run.1) ≡ₚ seq 0 2.
Proof.
  apply (stack_nodes_partitioned 2 2 24 mid_run.2 mid_run.1); [lia|done|].
  apply (run_steps (start 2 2) (take 24 aba_schedule)). vm_compute. reflexivity.
Defined.

Definition push_run : state * list (nat * label) :=
  default (start 2 2, []) (run (start 2 2) [] ([(0, CallPush 7)]%nat ++ replicate 8 (0, Go)%nat ++ [(1, CallPush 9)]%nat)).

Lemma push_finds_node_witness : hnode (free (smem push_run.1)) <> None.
Proof.
  apply (push_finds_node 2 2 10 push_run.2 push_run.1 1 (Pop_load (InStackPush 9))); [lia|done| | | | |].
  - apply (run_steps (start 2 2) ([(0, CallPush 7)]%nat ++ replicate 8 (0, Go)%nat ++ [(1, CallPush 9)]%nat)).
    vm_compute. reflexivity.
  - intros lH. destruct lH as [|n [|n' lH]]; [vm_compute; lia|vm_compute; lia|].
    intros [H1 [H2 _]]. vm_compute in H1. injection H1 as <-. vm_compute in H2. done.
  - vm_compute. reflexivity.
  - reflexivity.
  - reflexivity.
Defined.
