(* ===== verification/Config.v ===== *)
(** * Config: the daemon's configuration and counters

    [daemon/config.hpp], the defaults of [daemon/main.cpp], and the per-CPU
    counters of [daemon/stats.hpp] and [stats.cpp]. *)
From S2P Require Import Prelude Wire.

(** ** config.hpp *)

Inductive poller_t := PER_QP_POLLER | GLOBAL_QP_POLLER.
Inductive wc_mode_t := WC_BUSY_WAITING | WC_EVENT | WC_ADAPTIVE | WC_ADAPTIVE_BO.
Inductive ht_type_t := HT_CH | HT_CH_APPROX | HT_LP | HT_LP_APPROX.

#[export] Instance poller_eq : EqDecision poller_t.
Proof. solve_decision. Defined.
#[export] Instance wc_mode_eq : EqDecision wc_mode_t.
Proof. solve_decision. Defined.

Record daemon_config_t := DaemonConfig {
  tcp_port : Z;
  num_clients : nat;
  exclusive_policy : bool;
  mem_pool_size : Z;
  ht_type : ht_type_t;
  num_ht_shards : nat;
  cbf_on : bool;
  wc_mode : wc_mode_t;
  poller_type : poller_t;
}.

Definition wc_mode_names : list (string * wc_mode_t) :=
  [("busy_waiting", WC_BUSY_WAITING); ("event", WC_EVENT);
   ("adaptive", WC_ADAPTIVE); ("adaptive_bo", WC_ADAPTIVE_BO)]%string.

(** [for (i = 0; i < MAX_WC_MODE; i++) if (wc_mode_names[i] == str) return i]. *)
Fixpoint wc_mode_from (l : list (string * wc_mode_t)) (str : string) : outcome wc_mode_t :=
  match l with
  | [] => Throw "plz check wc_mode"
  | (name, mode) :: l => if decide (name = str) then Ok mode else wc_mode_from l str
  end.
Definition __wc_mode (str : string) : outcome wc_mode_t := wc_mode_from wc_mode_names str.

(** ** main.cpp: the flags and the configuration made of them *)

Record flags := Flags {
  FLAGS_tcp_port : Z;
  FLAGS_num_clients : nat;
  FLAGS_exclusive_policy : bool;
  FLAGS_mem_pool_size_mb : Z;
  FLAGS_wc_mode : string;
}.
Definition default_flags : flags := Flags 7777 1 true 4096 "busy_waiting".

Definition set_default_config (f : flags) : outcome daemon_config_t :=
  mode ← __wc_mode (FLAGS_wc_mode f);
  Ok (DaemonConfig (FLAGS_tcp_port f) (FLAGS_num_clients f) (FLAGS_exclusive_policy f)
        (FLAGS_mem_pool_size_mb f <<₆₄ 20) HT_LP_APPROX 1 true mode
        (if decide (mode = WC_BUSY_WAITING) then GLOBAL_QP_POLLER else PER_QP_POLLER)).

(** ** stats.hpp: counters by kind and CPU *)

Inductive kv_stats_t :=
| KV_SUCC_PUT | KV_FAILED_PUT | KV_UPDATED_PUT | KV_EVICTED_PUT
| KV_SUCC_GET | KV_FAILED_GET | KV_SUCC_INV | KV_FAILED_INV | KV_EVICTED_BG.
#[export] Instance kv_stats_eq : EqDecision kv_stats_t.
Proof. solve_decision. Defined.

(** [cnts[stats_type][cpu]]; a counter is a [uint64_t]. The constructor leaves
    the counters as [new uint64_t[num_cpus]] gives them, uninitialised. *)
Definition stats := kv_stats_t -> list Z.
Definition Stats (uninitialised : kv_stats_t -> list Z) : stats := uninitialised.
Definition Inc (s : stats) (ty : kv_stats_t) (cpu : nat) : stats :=
  fun ty' => if decide (ty = ty') then <[cpu := (s ty' !!! cpu) +₆₄ 1]> (s ty') else s ty'.
Definition Sum (s : stats) (ty : kv_stats_t) : Z := foldl (fun sum c => sum +₆₄ c) 0 (s ty).

(** ** Lemmas *)

Lemma foldl_add64 l a : foldl (fun sum c => sum +₆₄ c) (wrap 64 a) l = wrap 64 (a + sum_with id l).
Proof.
  revert a. induction l as [|c l IH]; intros a; simpl; [by rewrite Z.add_0_r|].
  assert (wrap 64 a +₆₄ c = wrap 64 (a + c)) as -> by (unfold add64, wrap; by rewrite Zplus_mod_idemp_l).
  rewrite IH. f_equal. unfold id. lia.
Qed.

Lemma Sum_Inc s ty cpu ty' :
  (cpu < length (s ty))%nat ->
  Sum (Inc s ty cpu) ty' = if decide (ty = ty') then Sum s ty' +₆₄ 1 else Sum s ty'.
Proof.
  intros Hc. unfold Sum, Inc. case_decide as E; [subst ty'|done].
  change 0 with (wrap 64 0). rewrite !foldl_add64, !Z.add_0_l.
  assert (s ty !! cpu = Some (s ty !!! cpu)) as Hl by (by apply list_lookup_lookup_total_lt).
  rewrite (sum_with_insert id _ _ _ _ Hl). unfold id at 2 3. unfold add64, wrap.
  rewrite Zplus_mod_idemp_r, Zplus_mod_idemp_l. f_equal. lia.
Qed.
