(* ===== verification/PercpuPool.v ===== *)
(** * PercpuPool: the per-queue page pool

    [daemon/percpu_pool.hpp], [percpu_pool.cpp] and [freelist.hpp]. Every client
    has [per_cli_fl_] free lists; a page is taken from a list of its client, and
    freed to a list of the client the caller names. The counters [allocs_] and
    [useds_] are 64-bit words that may wrap individually: a page allocated from
    one list may be freed to another. A free list is a stack of addresses (see
    [LockFreeStack] for the concurrent structure), bounded by its node buffer. *)
From S2P Require Import Prelude Keys Wire Config.

(** ** freelist.hpp *)

Record FreeList := FreeList_ { fl_nodes : nat; fl_addrs : list Z }.
#[export] Instance freelist_inhabited : Inhabited FreeList := populate (FreeList_ 0 []).

(** [(uintptr_t)-1] *)
Definition NO_ADDR : Z := wrap 64 (-1).

Definition GetFreeAddr (fl : FreeList) : FreeList * Z :=
  match fl_addrs fl with
  | [] => (fl, NO_ADDR)
  | a :: l => (FreeList_ (fl_nodes fl) l, a)
  end.

(** [stack_push] drops the address when no node is left; its result is ignored. *)
Definition PutFreeAddr (fl : FreeList) (addr : Z) : outcome FreeList :=
  if addr =? NO_ADDR then Throw "assert(addr != -1)"
  else if (length (fl_addrs fl) <? fl_nodes fl)%nat
       then Ok (FreeList_ (fl_nodes fl) (addr :: fl_addrs fl)) else Ok fl.

(** ** The pool *)

(** [struct slot]: a page and its key. *)
Definition SLOT_SIZE : Z := 4096 + 8.

Record PerCPUPool := Pool {
  total_fl_ : nat;
  per_cli_fl_ : nat;
  pool_clients : nat;
  pool_size : Z;
  start_addr_ : Z;
  allocs_ : list Z;
  useds_ : list Z;
  interval_ : Z;
  alloc_thold_perc_ : Z;
  free_thold_perc_ : Z;
  min_fl_alloc_ : Z;
  min_fl_free_ : Z;
  freelist_ : list FreeList;
}.

Definition with_lists (p : PerCPUPool) (a u : list Z) (f : list FreeList) : PerCPUPool :=
  Pool (total_fl_ p) (per_cli_fl_ p) (pool_clients p) (pool_size p) (start_addr_ p) a u
    (interval_ p) (alloc_thold_perc_ p) (free_thold_perc_ p) (min_fl_alloc_ p) (min_fl_free_ p) f.

(** The inner loop of the constructor: [for (j = init_chunks - 1; j >= 0; j--)]. *)
Fixpoint fill_list (addr : Z) (j : nat) (fl : FreeList) (alloc : Z) : outcome (FreeList * Z) :=
  match j with
  | O => Ok (fl, alloc)
  | S j =>
      fl ← PutFreeAddr fl (addr +₆₄ (Z.of_nat j *₆₄ SLOT_SIZE));
      fill_list addr j fl (alloc +₆₄ SLOT_SIZE)
  end.

(** The outer loop: list [i] starts where list [i - 1] ends. *)
Fixpoint fill_lists (n : nat) (addr : Z) (max_chunks init_chunks : nat) : outcome (list FreeList * list Z) :=
  match n with
  | O => Ok ([], [])
  | S n =>
      '(fl, alloc) ← fill_list addr init_chunks (FreeList_ max_chunks []) 0;
      '(fls, allocs) ← fill_lists n (addr +₆₄ (Z.of_nat init_chunks *₆₄ SLOT_SIZE)) max_chunks init_chunks;
      Ok (fl :: fls, alloc :: allocs)
  end.

Definition mkPerCPUPool (cfg : daemon_config_t) (rc : rdma_config) (start_addr : Z) : outcome PerCPUPool :=
  let total := (num_clients cfg * Z.to_nat (num_data_qps rc))%nat in
  let max_chunks := mem_pool_size cfg / SLOT_SIZE in
  let init_chunks := mem_pool_size cfg / SLOT_SIZE / Z.of_nat total in
  '(fls, allocs) ← fill_lists total start_addr (Z.to_nat max_chunks) (Z.to_nat init_chunks);
  Ok (Pool total (Z.to_nat (num_data_qps rc)) (num_clients cfg) (mem_pool_size cfg) start_addr
        allocs (replicate total 0) 100 10 5
        (((init_chunks *₆₄ SLOT_SIZE) *₆₄ 10) / 100) (((init_chunks *₆₄ SLOT_SIZE) *₆₄ 5) / 100) fls).

(** ** Accessors ([percpu_pool.hpp]) *)

(** A [size_t] converted to [int] ([to_int]), and back in a comparison. *)
Definition GetThldFree (p : PerCPUPool) (fl_id : nat) : Z :=
  let cur_thold := to_int (((allocs_ p !!! fl_id) *₆₄ free_thold_perc_ p) / 100) in
  if min_fl_free_ p <? wrap 64 cur_thold then wrap 64 cur_thold else min_fl_free_ p.

Definition GetAlloc (p : PerCPUPool) (fl_id : nat) : Z := allocs_ p !!! fl_id.
Definition GetUsed (p : PerCPUPool) (fl_id : nat) : Z := useds_ p !!! fl_id.
Definition GetFree (p : PerCPUPool) (fl_id : nat) : Z := GetAlloc p fl_id -₆₄ GetUsed p fl_id.

(** The lists of a client, and the sums over them. *)
Definition client_fls (p : PerCPUPool) (cli_id : nat) : list nat :=
  seq (cli_id * per_cli_fl_ p) (per_cli_fl_ p).
Definition sum64 (f : nat -> Z) (l : list nat) : Z := foldl (fun acc i => acc +₆₄ f i) 0 l.

Definition GetClientAlloc (p : PerCPUPool) (cli_id : nat) : Z := sum64 (GetAlloc p) (client_fls p cli_id).
Definition GetClientUsed (p : PerCPUPool) (cli_id : nat) : Z := sum64 (GetUsed p) (client_fls p cli_id).
Definition GetUsedAll (p : PerCPUPool) : Z := sum64 (GetUsed p) (seq 0 (total_fl_ p)).
Definition GetClientFree (p : PerCPUPool) (cli_id : nat) : Z := GetClientAlloc p cli_id -₆₄ GetClientUsed p cli_id.
Definition GetFreeAll (p : PerCPUPool) : Z := pool_size p -₆₄ GetUsedAll p.

(** ** Operations ([percpu_pool.cpp]) *)

(** A free list by number; a number past the array is undefined behaviour. *)
Definition fl_at (p : PerCPUPool) (fl_id : nat) : outcome FreeList :=
  match freelist_ p !! fl_id with
  | Some fl => Ok fl
  | None => Throw "freelist_ index out of bounds"
  end.

Definition set_fl (p : PerCPUPool) (fl_id : nat) (fl : FreeList) : PerCPUPool :=
  with_lists p (allocs_ p) (useds_ p) (<[fl_id := fl]> (freelist_ p)).
Definition add_used (p : PerCPUPool) (fl_id : nat) (d : Z) : PerCPUPool :=
  with_lists p (allocs_ p) (<[fl_id := (useds_ p !!! fl_id) +₆₄ d]> (useds_ p)) (freelist_ p).
Definition add_alloc (p : PerCPUPool) (fl_id : nat) (d : Z) : PerCPUPool :=
  with_lists p (<[fl_id := (allocs_ p !!! fl_id) +₆₄ d]> (allocs_ p)) (useds_ p) (freelist_ p).

(** [>> 20] on sizes: the unit of the comparisons. *)
Definition MB (z : Z) : Z := z / Z.shiftl 1 20.

(** The next list of the same client, cyclically. *)
Definition next_fl (p : PerCPUPool) (cid fl_id : nat) : nat :=
  if (fl_id =? cid * per_cli_fl_ p + per_cli_fl_ p - 1)%nat then (cid * per_cli_fl_ p)%nat else S fl_id.

Definition num_iter (p : PerCPUPool) : nat :=
  if (per_cli_fl_ p =? 1)%nat then 1%nat else (per_cli_fl_ p / 2)%nat.

(** [qid == -1] draws the list at random; [r] is the draw. *)
Definition pick_fl (p : PerCPUPool) (cid : nat) (qid : option nat) (r : Z) : nat :=
  match qid with
  | None => (cid * per_cli_fl_ p + Z.to_nat (r mod Z.of_nat (per_cli_fl_ p)))%nat
  | Some q => (cid * per_cli_fl_ p + q)%nat
  end.

Fixpoint allocate_from (p : PerCPUPool) (cid n fl_id : nat) : outcome (PerCPUPool * Z) :=
  match n with
  | O => Ok (p, NO_ADDR)
  | S n =>
      fl ← fl_at p fl_id;
      let '(fl, free_addr) := GetFreeAddr fl in
      if negb (free_addr =? NO_ADDR) then Ok (add_used (set_fl p fl_id fl) fl_id SLOT_SIZE, free_addr)
      else allocate_from (set_fl p fl_id fl) cid n (next_fl p cid fl_id)
  end.

Definition Allocate (p : PerCPUPool) (cid : nat) (qid : option nat) (r : Z) : outcome (PerCPUPool * Z) :=
  allocate_from p cid (num_iter p) (pick_fl p cid qid r).

Definition Free (p : PerCPUPool) (addr : Z) (cid : nat) (qid : option nat) (r : Z) : outcome PerCPUPool :=
  let fl_id := pick_fl p cid qid r in
  fl ← fl_at p fl_id;
  fl ← PutFreeAddr fl addr;
  Ok (add_used (set_fl p fl_id fl) fl_id (- SLOT_SIZE)).

(** ** Borrowing from another client *)

Record selection := Selection { sel_tgt : nat; sel_next : nat; sel_max_free : Z }.

Definition select_step (p : PerCPUPool) (s : selection) : selection :=
  let next := sel_next s in
  let cli_thld_alloc := min_fl_alloc_ p *₆₄ Z.of_nat (per_cli_fl_ p) in
  let cli_alloc := GetClientAlloc p next in
  let cli_free := GetClientFree p next in
  let cli_thld_free := GetThldFree p (next * per_cli_fl_ p) *₆₄ Z.of_nat (per_cli_fl_ p) in
  let alloc_cond := MB cli_thld_alloc <? MB cli_alloc in
  let free_cond := MB cli_thld_free <? MB cli_free in
  let cli_avail_free := cli_free -₆₄ cli_thld_free in
  let next' := (S next mod pool_clients p)%nat in
  if alloc_cond && free_cond && (MB (sel_max_free s) <? MB cli_avail_free)
  then Selection next next' cli_avail_free
  else Selection (sel_tgt s) next' (sel_max_free s).

Definition SelectByFreeMem (p : PerCPUPool) (cur_cli_id : nat) : nat :=
  sel_tgt (Nat.iter (pool_clients p - 1) (select_step p)
             (Selection cur_cli_id (S cur_cli_id mod pool_clients p) 0)).

Fixpoint select_greedy (p : PerCPUPool) (n next_cli_id : nat) : nat :=
  match n with
  | O => next_cli_id
  | S n =>
      let alloc_cond := MB (min_fl_alloc_ p *₆₄ Z.of_nat (per_cli_fl_ p)) <? MB (GetClientAlloc p next_cli_id) in
      let free_cond := MB (min_fl_free_ p *₆₄ Z.of_nat (per_cli_fl_ p)) <? MB (GetClientFree p next_cli_id) in
      if alloc_cond && free_cond then next_cli_id
      else select_greedy p n (S next_cli_id mod pool_clients p)
  end.
Definition SelectByGreedy (p : PerCPUPool) (cur_cli_id : nat) : nat :=
  select_greedy p (pool_clients p - 1) (S cur_cli_id mod pool_clients p).

(** The borrowing loop: a peer list that fails the condition is tried again,
    not skipped. *)
Fixpoint borrow (p : PerCPUPool) (cur_fl_id next_cli_id n peer_fl_id : nat) : outcome (PerCPUPool * Z) :=
  match n with
  | O => Ok (p, NO_ADDR)
  | S n =>
      let alloc_cond := MB (min_fl_alloc_ p) <? MB (GetAlloc p peer_fl_id) in
      let free_cond := MB (min_fl_free_ p) <? MB (GetFree p peer_fl_id) in
      if alloc_cond && free_cond then
        fl ← fl_at p peer_fl_id;
        let '(fl, free_addr) := GetFreeAddr fl in
        let p := set_fl p peer_fl_id fl in
        if negb (free_addr =? NO_ADDR) then
          let p := add_alloc (add_alloc p peer_fl_id (- SLOT_SIZE)) cur_fl_id SLOT_SIZE in
          cur ← fl_at p cur_fl_id;
          cur ← PutFreeAddr cur free_addr;
          Ok (set_fl p cur_fl_id cur, free_addr)
        else borrow p cur_fl_id next_cli_id n (next_fl p next_cli_id peer_fl_id)
      else borrow p cur_fl_id next_cli_id n peer_fl_id
  end.

Definition AllocateFromPeer (p : PerCPUPool) (fl_id : nat) : outcome (PerCPUPool * Z) :=
  let cur_cli_id := (fl_id / per_cli_fl_ p)%nat in
  let next_cli_id := SelectByFreeMem p cur_cli_id in
  if (cur_cli_id =? next_cli_id)%nat then Ok (p, NO_ADDR)
  else borrow p fl_id next_cli_id (num_iter p) (next_cli_id * per_cli_fl_ p + fl_id mod per_cli_fl_ p).

(** ** The invariant *)

Definition free_pages (p : PerCPUPool) : list Z := concat (fl_addrs <$> freelist_ p).

Record pool_wf (p : PerCPUPool) : Prop := {
  pw_per : (0 < per_cli_fl_ p)%nat;
  pw_total : total_fl_ p = (pool_clients p * per_cli_fl_ p)%nat;
  pw_lists : length (freelist_ p) = total_fl_ p;
  pw_allocs : length (allocs_ p) = total_fl_ p;
  pw_useds : length (useds_ p) = total_fl_ p;
  pw_acct i fl : freelist_ p !! i = Some fl ->
    GetFree p i = wrap 64 (SLOT_SIZE * Z.of_nat (length (fl_addrs fl)));
}.

(** The pages of the pool are those on the lists and those [held] outside. *)
Record pool_inv (pages held : list Z) (p : PerCPUPool) : Prop := {
  pi_wf : pool_wf p;
  pi_pages : free_pages p ++ held ≡ₚ pages;
  pi_nodes i fl : freelist_ p !! i = Some fl -> (length pages <= fl_nodes fl)%nat;
  pi_addr : ~ NO_ADDR ∈ pages;
}.

Implicit Types (p : PerCPUPool) (fl : FreeList) (i j cid : nat).

(** ** Lemmas *)

Lemma free_pages_set p i fl fl' :
  freelist_ p !! i = Some fl ->
  fl_addrs fl ++ free_pages (set_fl p i fl') ≡ₚ fl_addrs fl' ++ free_pages p.
Proof.
  apply concat_insert.
Qed.

Lemma GetFree_set_fl p i fl j : GetFree (set_fl p i fl) j = GetFree p j.
Proof. done. Qed.

Lemma GetFree_add_used p i d j :
  (i < length (useds_ p))%nat ->
  GetFree (add_used p i d) j = if decide (i = j) then wrap 64 (GetFree p j - d) else GetFree p j.
Proof.
  intros Hi. unfold GetFree, GetUsed, GetAlloc. simpl. case_decide as E.
  - subst j. rewrite list_lookup_total_insert_eq by done. unfold sub64, add64, wrap.
    rewrite Zminus_mod_idemp_r, Zminus_mod_idemp_l. f_equal. lia.
  - by rewrite list_lookup_total_insert_ne.
Qed.

Lemma GetFree_add_alloc p i d j :
  (i < length (allocs_ p))%nat ->
  GetFree (add_alloc p i d) j = if decide (i = j) then wrap 64 (GetFree p j + d) else GetFree p j.
Proof.
  intros Hi. unfold GetFree, GetUsed, GetAlloc. simpl. case_decide as E.
  - subst j. rewrite list_lookup_total_insert_eq by done. unfold sub64, add64, wrap.
    rewrite Zminus_mod_idemp_l, Zplus_mod_idemp_l. f_equal. lia.
  - by rewrite list_lookup_total_insert_ne.
Qed.

Lemma acct_shift n k : wrap 64 (wrap 64 (SLOT_SIZE * n) + SLOT_SIZE * k) = wrap 64 (SLOT_SIZE * (n + k)).
Proof. unfold wrap. rewrite Zplus_mod_idemp_l. f_equal. lia. Qed.

Lemma fl_at_Some p i : pool_wf p -> (i < total_fl_ p)%nat -> exists fl, freelist_ p !! i = Some fl /\ fl_at p i = Ok fl.
Proof.
  intros Hwf Hi. rewrite <- (pw_lists p Hwf) in Hi.
  destruct (lookup_lt_is_Some_2 _ _ Hi) as [fl Hfl]. exists fl. split; [done|]. unfold fl_at. by rewrite Hfl.
Qed.

(** The lists of client [cid]. *)
Definition of_client p cid i : Prop :=
  (cid < pool_clients p)%nat /\ (cid * per_cli_fl_ p <= i < cid * per_cli_fl_ p + per_cli_fl_ p)%nat.

Lemma of_client_lt p cid i : pool_wf p -> of_client p cid i -> (i < total_fl_ p)%nat.
Proof. intros Hwf [Hc Hi]. rewrite (pw_total p Hwf). nia. Qed.

Lemma next_fl_client p cid i : pool_wf p -> of_client p cid i -> of_client p cid (next_fl p cid i).
Proof.
  intros Hwf [Hc Hi]. pose proof (pw_per p Hwf). unfold next_fl. split; [done|].
  destruct (Nat.eqb_spec i (cid * per_cli_fl_ p + per_cli_fl_ p - 1)%nat); lia.
Qed.

Lemma pick_fl_client p cid qid r :
  pool_wf p -> (cid < pool_clients p)%nat ->
  (forall q, qid = Some q -> (q < per_cli_fl_ p)%nat) -> of_client p cid (pick_fl p cid qid r).
Proof.
  intros Hwf Hc Hq. pose proof (pw_per p Hwf). split; [done|]. destruct qid as [q|]; simpl.
  - specialize (Hq q eq_refl). lia.
  - pose proof (Z.mod_pos_bound r (Z.of_nat (per_cli_fl_ p)) ltac:(lia)). lia.
Qed.

Lemma set_fl_same p i fl : freelist_ p !! i = Some fl -> set_fl p i fl = p.
Proof. intros Hi. unfold set_fl, with_lists. rewrite list_insert_id by done. by destruct p. Qed.

(** A list whose addresses change together with its counters. *)
Lemma wf_update p p' i fl fl' d :
  pool_wf p -> freelist_ p !! i = Some fl ->
  per_cli_fl_ p' = per_cli_fl_ p -> total_fl_ p' = total_fl_ p -> pool_clients p' = pool_clients p ->
  length (allocs_ p') = total_fl_ p -> length (useds_ p') = total_fl_ p ->
  freelist_ p' = <[i := fl']> (freelist_ p) ->
  (forall j, GetFree p' j = if decide (i = j) then wrap 64 (GetFree p j + SLOT_SIZE * d) else GetFree p j) ->
  Z.of_nat (length (fl_addrs fl')) = Z.of_nat (length (fl_addrs fl)) + d ->
  pool_wf p'.
Proof.
  intros Hwf Hi E1 E2 E3 E4 E5 E6 Hf Hd. split.
  - rewrite E1. apply Hwf.
  - rewrite E1, E2, E3. apply Hwf.
  - rewrite E6, length_insert, E2. apply Hwf.
  - by rewrite E2.
  - by rewrite E2.
  - intros j flj. rewrite E6, Hf. case_decide as E.
    + subst j. rewrite list_lookup_insert_eq by (by eapply lookup_lt_Some). intros [= <-].
      by rewrite (pw_acct p Hwf i fl Hi), acct_shift, Hd.
    + rewrite list_lookup_insert_ne by done. apply (pw_acct p Hwf).
Qed.

(** ** Taking a page from a list *)

Lemma take_page pages held p i fl a l :
  pool_inv pages held p -> freelist_ p !! i = Some fl -> fl_addrs fl = a :: l ->
  a ∈ pages /\ a <> NO_ADDR /\
  free_pages (set_fl p i (FreeList_ (fl_nodes fl) l)) ++ a :: held ≡ₚ pages.
Proof.
  intros Hinv Hi Ha.
  assert (free_pages p ≡ₚ a :: free_pages (set_fl p i (FreeList_ (fl_nodes fl) l))) as E.
  { pose proof (free_pages_set p i fl (FreeList_ (fl_nodes fl) l) Hi) as E. rewrite Ha in E. simpl in E.
    apply (Permutation_app_inv_l l). rewrite <- E. solve_Permutation. }
  assert (a ∈ pages) as Hin.
  { rewrite <- (pi_pages _ _ _ Hinv), E. simpl. left. }
  split; [done|]. split; [intros ->; by apply (pi_addr _ _ _ Hinv)|].
  rewrite <- (pi_pages _ _ _ Hinv), E. solve_Permutation.
Qed.

Lemma allocate_from_inv pages held p cid n i :
  pool_inv pages held p -> of_client p cid i ->
  exists p' a, allocate_from p cid n i = Ok (p', a) /\
    ((a = NO_ADDR /\ p' = p) \/ (a <> NO_ADDR /\ pool_inv pages (a :: held) p')).
Proof.
  intros Hinv. revert i. induction n as [|n IH]; intros i Hi; cbn [allocate_from].
  { eexists _, _. split; [done|]. by left. }
  pose proof (pi_wf _ _ _ Hinv) as Hwf. pose proof (of_client_lt p cid i Hwf Hi) as Hlt.
  destruct (fl_at_Some p i Hwf Hlt) as (fl & Hfl & ->). simpl. unfold GetFreeAddr.
  destruct (fl_addrs fl) as [|a l] eqn:Ea; simpl.
  - rewrite set_fl_same by done. apply IH. by apply next_fl_client.
  - destruct (take_page _ _ _ _ _ _ _ Hinv Hfl Ea) as (Hin & Hne & Hp).
    rewrite (proj2 (Z.eqb_neq _ _) Hne). simpl. eexists _, _. split; [done|]. right. split; [done|].
    set (fl' := FreeList_ (fl_nodes fl) l) in *. split.
    + apply (wf_update p _ i fl fl' (-1)); try done; try apply Hwf.
      * simpl. rewrite length_insert. apply Hwf.
      * intros j. rewrite GetFree_add_used by (simpl; rewrite (pw_useds p Hwf); done).
        rewrite GetFree_set_fl. case_decide; [|done]. f_equal; lia.
      * rewrite Ea. simpl length. lia.
    + exact Hp.
    + intros j flj. simpl. intros Hj. apply list_lookup_insert_Some in Hj as [(_ & <- & _)|[_ Hj]].
      * simpl. by apply (pi_nodes _ _ _ Hinv i).
      * by apply (pi_nodes _ _ _ Hinv j).
    + apply Hinv.
Qed.

(** ** Giving a page back *)

Lemma put_page pages held p i fl a :
  pool_inv pages (a :: held) p -> freelist_ p !! i = Some fl ->
  PutFreeAddr fl a = Ok (FreeList_ (fl_nodes fl) (a :: fl_addrs fl)) /\
  free_pages (set_fl p i (FreeList_ (fl_nodes fl) (a :: fl_addrs fl))) ++ held ≡ₚ pages.
Proof.
  intros Hinv Hi. pose proof (pi_pages _ _ _ Hinv) as Hp.
  assert (a <> NO_ADDR) as Hne.
  { intros ->. apply (pi_addr _ _ _ Hinv). rewrite <- Hp, elem_of_app. right. left. }
  pose proof (free_pages_set p i fl (FreeList_ (fl_nodes fl) (a :: fl_addrs fl)) Hi) as E. simpl in E.
  split.
  - unfold PutFreeAddr. rewrite (proj2 (Z.eqb_neq _ _) Hne), (proj2 (Nat.ltb_lt _ _)); [done|].
    pose proof (pi_nodes _ _ _ Hinv i fl Hi) as Hn. apply Permutation_length in Hp.
    assert (length (fl_addrs fl) <= length (free_pages p))%nat.
    { unfold free_pages. rewrite <- (take_drop_middle _ _ _ Hi), fmap_app, concat_app. simpl.
      rewrite !length_app. lia. }
    rewrite length_app in Hp. simpl in Hp. lia.
  - rewrite <- Hp. apply (Permutation_app_inv_l (fl_addrs fl)).
    trans ((fl_addrs fl ++ free_pages (set_fl p i (FreeList_ (fl_nodes fl) (a :: fl_addrs fl)))) ++ held);
      [solve_Permutation|]. rewrite E. solve_Permutation.
Qed.

Lemma Free_inv pages held p a cid qid r :
  pool_inv pages (a :: held) p -> (cid < pool_clients p)%nat ->
  (forall q, qid = Some q -> (q < per_cli_fl_ p)%nat) ->
  exists p', Free p a cid qid r = Ok p' /\ pool_inv pages held p'.
Proof.
  intros Hinv Hc Hq. pose proof (pi_wf _ _ _ Hinv) as Hwf.
  pose proof (pick_fl_client p cid qid r Hwf Hc Hq) as Hi.
  pose proof (of_client_lt p cid _ Hwf Hi) as Hlt.
  unfold Free. set (i := pick_fl p cid qid r) in *.
  destruct (fl_at_Some p i Hwf Hlt) as (fl & Hfl & ->). simpl.
  destruct (put_page _ _ _ _ _ _ Hinv Hfl) as [-> Hp]. simpl. eexists. split; [done|].
  set (fl' := FreeList_ (fl_nodes fl) (a :: fl_addrs fl)) in *. split.
  - apply (wf_update p _ i fl fl' 1); try done; try apply Hwf.
    + simpl. rewrite length_insert. apply Hwf.
    + intros j. rewrite GetFree_add_used by (simpl; rewrite (pw_useds p Hwf); done).
      rewrite GetFree_set_fl. case_decide; [|done]. f_equal; lia.
    + simpl length. lia.
  - exact Hp.
  - intros j flj. simpl. intros Hj. apply list_lookup_insert_Some in Hj as [(_ & <- & _)|[_ Hj]].
    + simpl. by apply (pi_nodes _ _ _ Hinv i).
    + by apply (pi_nodes _ _ _ Hinv j).
  - apply Hinv.
Qed.

Lemma Allocate_inv pages held p cid qid r :
  pool_inv pages held p -> (cid < pool_clients p)%nat ->
  (forall q, qid = Some q -> (q < per_cli_fl_ p)%nat) ->
  exists p' a, Allocate p cid qid r = Ok (p', a) /\
    ((a = NO_ADDR /\ p' = p) \/ (a <> NO_ADDR /\ pool_inv pages (a :: held) p')).
Proof.
  intros Hinv Hc Hq. apply allocate_from_inv; [done|]. apply pick_fl_client; [apply Hinv|done|done].
Qed.

(** ** Borrowing *)

Lemma take_inv pages held p i fl a l :
  pool_inv pages held p -> freelist_ p !! i = Some fl -> fl_addrs fl = a :: l ->
  pool_inv pages (a :: held) (add_alloc (set_fl p i (FreeList_ (fl_nodes fl) l)) i (- SLOT_SIZE)).
Proof.
  intros Hinv Hfl Ea. pose proof (pi_wf _ _ _ Hinv) as Hwf.
  destruct (take_page _ _ _ _ _ _ _ Hinv Hfl Ea) as (Hin & Hne & Hp).
  pose proof (lookup_lt_Some _ _ _ Hfl) as Hlt. rewrite (pw_lists p Hwf) in Hlt.
  set (fl' := FreeList_ (fl_nodes fl) l) in *. split.
  - apply (wf_update p _ i fl fl' (-1)); try done; try apply Hwf.
    + simpl. rewrite length_insert. apply Hwf.
    + intros j. rewrite GetFree_add_alloc by (simpl; rewrite (pw_allocs p Hwf); done).
      rewrite GetFree_set_fl. case_decide; [|done]. f_equal; lia.
    + rewrite Ea. simpl length. lia.
  - exact Hp.
  - intros j flj. simpl. intros Hj. apply list_lookup_insert_Some in Hj as [(_ & <- & _)|[_ Hj]].
    + simpl. by apply (pi_nodes _ _ _ Hinv i).
    + by apply (pi_nodes _ _ _ Hinv j).
  - apply Hinv.
Qed.

Lemma put_inv pages held p i fl a :
  pool_inv pages (a :: held) p -> freelist_ p !! i = Some fl ->
  PutFreeAddr fl a = Ok (FreeList_ (fl_nodes fl) (a :: fl_addrs fl)) /\
  pool_inv pages held (set_fl (add_alloc p i SLOT_SIZE) i (FreeList_ (fl_nodes fl) (a :: fl_addrs fl))).
Proof.
  intros Hinv Hfl. pose proof (pi_wf _ _ _ Hinv) as Hwf.
  destruct (put_page _ _ _ _ _ _ Hinv Hfl) as [Hput Hp]. split; [done|].
  pose proof (lookup_lt_Some _ _ _ Hfl) as Hlt. rewrite (pw_lists p Hwf) in Hlt.
  set (fl' := FreeList_ (fl_nodes fl) (a :: fl_addrs fl)) in *. split.
  - apply (wf_update p _ i fl fl' 1); try done; try apply Hwf.
    + simpl. rewrite length_insert. apply Hwf.
    + intros j. rewrite GetFree_set_fl, GetFree_add_alloc by (rewrite (pw_allocs p Hwf); done).
      case_decide; [|done]. f_equal; lia.
    + simpl length. lia.
  - exact Hp.
  - intros j flj. simpl. intros Hj. apply list_lookup_insert_Some in Hj as [(_ & <- & _)|[_ Hj]].
    + simpl. by apply (pi_nodes _ _ _ Hinv i).
    + by apply (pi_nodes _ _ _ Hinv j).
  - apply Hinv.
Qed.

Lemma of_client_disjoint p c1 c2 i : pool_wf p -> of_client p c1 i -> of_client p c2 i -> c1 = c2.
Proof. intros Hwf [_ H1] [_ H2]. pose proof (pw_per p Hwf). nia. Qed.

Lemma borrow_inv pages held p cur cid next n peer :
  pool_inv pages held p -> of_client p cid cur -> of_client p next peer -> cid <> next ->
  exists p' a, borrow p cur next n peer = Ok (p', a) /\
    ((a = NO_ADDR /\ p' = p) \/ (a <> NO_ADDR /\ pool_inv pages held p')).
Proof.
  intros Hinv Hcur. revert peer. induction n as [|n IH]; intros peer Hpeer Hne; cbn [borrow].
  { eexists _, _. split; [done|]. by left. }
  destruct (_ && _); [|by apply IH].
  pose proof (pi_wf _ _ _ Hinv) as Hwf.
  destruct (fl_at_Some p peer Hwf) as (fl & Hfl & ->); [by eapply of_client_lt|]. simpl. unfold GetFreeAddr.
  destruct (fl_addrs fl) as [|a l] eqn:Ea; simpl.
  { rewrite set_fl_same by done. apply IH; [by apply next_fl_client|done]. }
  destruct (take_page _ _ _ _ _ _ _ Hinv Hfl Ea) as (_ & Hna & _).
  rewrite (proj2 (Z.eqb_neq _ _) Hna). simpl.
  pose proof (take_inv _ _ _ _ _ _ _ Hinv Hfl Ea) as Hinv1.
  set (p1 := add_alloc (set_fl p peer (FreeList_ (fl_nodes fl) l)) peer (- SLOT_SIZE)) in *.
  destruct (fl_at_Some p1 cur (pi_wf _ _ _ Hinv1)) as (flc & Hflc & Hat).
  { by apply (of_client_lt p cid cur Hwf). }
  change (fl_at (add_alloc p1 cur SLOT_SIZE) cur) with (fl_at p1 cur). rewrite Hat. simpl.
  destruct (put_inv _ _ _ _ _ _ Hinv1 Hflc) as [-> Hinv2]. simpl. eexists _, _. split; [done|]. by right.
Qed.

(** ** Choosing the peer *)

(** A client lends when its lists hold more memory, and more free memory, than
    the thresholds (compared in MB); its score is what it can spare. *)
Definition spare (p : PerCPUPool) (c : nat) : Z :=
  GetClientFree p c -₆₄ (GetThldFree p (c * per_cli_fl_ p) *₆₄ Z.of_nat (per_cli_fl_ p)).
Definition lends (p : PerCPUPool) (c : nat) : bool :=
  (MB (min_fl_alloc_ p *₆₄ Z.of_nat (per_cli_fl_ p)) <? MB (GetClientAlloc p c)) &&
  (MB (GetThldFree p (c * per_cli_fl_ p) *₆₄ Z.of_nat (per_cli_fl_ p)) <? MB (GetClientFree p c)).
Definition score (p : PerCPUPool) (c : nat) : Z := if lends p c then MB (spare p c) else 0.

Lemma select_step_eq p s :
  select_step p s =
    if lends p (sel_next s) && (MB (sel_max_free s) <? MB (spare p (sel_next s)))
    then Selection (sel_next s) (S (sel_next s) mod pool_clients p) (spare p (sel_next s))
    else Selection (sel_tgt s) (S (sel_next s) mod pool_clients p) (sel_max_free s).
Proof. done. Qed.

Lemma MB_nonneg z : u_ok 64 z -> 0 <= MB z.
Proof. intros [Hz _]. apply Z.div_pos; [done|]. done. Qed.

Lemma score_nonneg p c : 0 <= score p c.
Proof. unfold score. case_match; [apply MB_nonneg, sub64_ok|done]. Qed.

Lemma select_iter p cur k :
  (cur < pool_clients p)%nat -> (k < pool_clients p)%nat ->
  let s := Nat.iter k (select_step p) (Selection cur (S cur mod pool_clients p) 0) in
  sel_next s = ((cur + S k) mod pool_clients p)%nat /\
  (forall j, (1 <= j <= k)%nat -> score p ((cur + j) mod pool_clients p) <= MB (sel_max_free s)) /\
  ((sel_tgt s = cur /\ sel_max_free s = 0) \/
   (exists j, (1 <= j <= k)%nat /\ sel_tgt s = ((cur + j) mod pool_clients p)%nat /\
      MB (sel_max_free s) = score p (sel_tgt s) /\ 0 < score p (sel_tgt s))).
Proof.
  intros Hcur. induction k as [|k IH]; intros Hk; cbv zeta.
  { simpl. split; [by rewrite Nat.add_1_r|]. split; [lia|by left]. }
  rewrite Nat.iter_succ. destruct IH as (Hn & Hall & Hsel); [lia|].
  set (s := Nat.iter k (select_step p) _) in *. rewrite select_step_eq.
  assert (S (sel_next s) mod pool_clients p = (cur + S (S k)) mod pool_clients p)%nat as En.
  { rewrite Hn. rewrite <- (Nat.add_1_r (_ mod _)), Nat.Div0.add_mod_idemp_l. f_equal. lia. }
  assert (0 <= MB (sel_max_free s)) as Hpos.
  { destruct Hsel as [[_ ->]|(j & _ & _ & -> & ?)]; [done|lia]. }
  destruct (lends p (sel_next s)) eqn:El; [destruct (Z.ltb_spec (MB (sel_max_free s)) (MB (spare p (sel_next s)))) as [Hlt|Hge]|].
  all: simpl; (split; [exact En|]).
  - assert (score p (sel_next s) = MB (spare p (sel_next s))) as Es by (unfold score; by rewrite El).
    split.
    + intros j Hj. destruct (decide (j = S k)) as [->|]; [rewrite <- Hn; lia|].
      etrans; [apply Hall; lia|lia].
    + right. exists (S k). split; [lia|]. split; [done|]. split; [done|]. lia.
  - split.
    + intros j Hj. destruct (decide (j = S k)) as [->|]; [|apply Hall; lia].
      rewrite <- Hn. unfold score. by rewrite El.
    + destruct Hsel as [?|(j & ? & ?)]; [by left|]. right. exists j. split; [lia|done].
  - split.
    + intros j Hj. destruct (decide (j = S k)) as [->|]; [|apply Hall; lia].
      rewrite <- Hn. unfold score. by rewrite El.
    + destruct Hsel as [?|(j & ? & ?)]; [by left|]. right. exists j. split; [lia|done].
Qed.

(** Every other client is visited once. *)
Lemma other_client n cur c :
  (cur < n)%nat -> (c < n)%nat -> c <> cur -> exists j, (1 <= j <= n - 1)%nat /\ ((cur + j) mod n)%nat = c.
Proof.
  intros Hcur Hc Hne. destruct (decide (cur < c)%nat).
  - exists (c - cur)%nat. split; [lia|]. replace (cur + (c - cur))%nat with c by lia. by apply Nat.mod_small.
  - exists (n - cur + c)%nat. split; [lia|]. replace (cur + (n - cur + c))%nat with (c + 1 * n)%nat by lia.
    rewrite Nat.Div0.mod_add. by apply Nat.mod_small.
Qed.

Lemma SelectByFreeMem_lemma p cur :
  (cur < pool_clients p)%nat ->
  let tgt := SelectByFreeMem p cur in
  (tgt < pool_clients p)%nat /\
  (forall c, (c < pool_clients p)%nat -> c <> cur -> score p c <= if decide (tgt = cur) then 0 else score p tgt) /\
  (tgt <> cur -> 0 < score p tgt).
Proof.
  intros Hcur tgt.
  destruct (select_iter p cur (pool_clients p - 1) Hcur ltac:(lia)) as (_ & Hall & Hsel).
  fold (SelectByFreeMem p cur) in Hsel. fold tgt in Hsel.
  set (s := Nat.iter _ _ _) in *. change (sel_tgt s) with tgt in Hsel.
  assert (forall j, (1 <= j <= pool_clients p - 1)%nat -> ((cur + j) mod pool_clients p)%nat <> cur) as Hdiff.
  { intros j Hj E. assert (0 < pool_clients p)%nat by lia.
    pose proof (Nat.div_mod_eq (cur + j) (pool_clients p)) as Hd. rewrite E in Hd.
    destruct ((cur + j) / pool_clients p)%nat as [|[|q]]; nia. }
  destruct Hsel as [[Et Em]|(j & Hj & Et & Em & Hp)].
  - split; [lia|]. split; [|done]. intros c Hc Hne. rewrite decide_True by done.
    destruct (other_client _ _ _ Hcur Hc Hne) as (j & Hj & <-). specialize (Hall j Hj). rewrite Em in Hall. done.
  - assert (tgt <> cur) as Hne by (rewrite Et; by apply Hdiff). split; [rewrite Et; apply Nat.mod_upper_bound; lia|].
    split; [|done]. intros c Hc Hnec. rewrite decide_False by done. rewrite <- Em.
    destruct (other_client _ _ _ Hcur Hc Hnec) as (j' & Hj' & <-). by apply Hall.
Qed.

Lemma AllocateFromPeer_inv pages held p fl_id :
  pool_inv pages held p -> (fl_id < total_fl_ p)%nat ->
  exists p' a, AllocateFromPeer p fl_id = Ok (p', a) /\
    ((a = NO_ADDR /\ p' = p) \/ (a <> NO_ADDR /\ pool_inv pages held p')).
Proof.
  intros Hinv Hid. pose proof (pi_wf _ _ _ Hinv) as Hwf. pose proof (pw_per p Hwf) as Hper.
  rewrite (pw_total p Hwf) in Hid.
  assert (fl_id / per_cli_fl_ p < pool_clients p)%nat as Hc by (apply Nat.Div0.div_lt_upper_bound; lia).
  pose proof (Nat.div_mod_eq fl_id (per_cli_fl_ p)) as Hd.
  pose proof (Nat.mod_upper_bound fl_id (per_cli_fl_ p) ltac:(lia)) as Hm.
  unfold AllocateFromPeer. destruct (Nat.eqb_spec (fl_id / per_cli_fl_ p) (SelectByFreeMem p (fl_id / per_cli_fl_ p))).
  { eexists _, _. split; [done|]. by left. }
  destruct (SelectByFreeMem_lemma p _ Hc) as [Ht _].
  apply (borrow_inv _ _ _ _ (fl_id / per_cli_fl_ p)); [done| | |done]; split; try done; lia.
Qed.

(** ** The initial pool *)

(** [n] consecutive slots from [addr]. *)
Definition slots (addr : Z) (n : nat) : list Z := (fun k => addr + Z.of_nat k * SLOT_SIZE) <$> seq 0 n.

#[local] Arguments slots : simpl never.

Lemma slots_S addr n : slots addr (S n) = slots addr n ++ [addr + Z.of_nat n * SLOT_SIZE].
Proof. unfold slots. by rewrite seq_S, fmap_app. Qed.

Lemma slots_add addr n k : slots addr (n + k) = slots addr n ++ slots (addr + Z.of_nat n * SLOT_SIZE) k.
Proof.
  induction k as [|k IH]; [by rewrite Nat.add_0_r, app_nil_r|].
  rewrite Nat.add_succ_r, !slots_S, IH, <- app_assoc. do 3 f_equal. lia.
Qed.

Lemma slots_elem addr n a : a ∈ slots addr n <-> exists k, (k < n)%nat /\ a = addr + Z.of_nat k * SLOT_SIZE.
Proof.
  unfold slots. rewrite list_elem_of_fmap. split.
  - intros (k & -> & Hk%elem_of_seq). exists k. split; [lia|done].
  - intros (k & Hk & ->). exists k. split; [done|]. apply elem_of_seq. lia.
Qed.

Lemma slots_nodup addr n : NoDup (slots addr n).
Proof.
  unfold slots. apply NoDup_fmap_2_strong; [|apply NoDup_seq]. intros k1 k2 _ _. unfold SLOT_SIZE. lia.
Qed.

Lemma length_slots addr n : length (slots addr n) = n.
Proof. unfold slots. by rewrite length_fmap, length_seq. Qed.

Lemma fill_list_spec addr j fl alloc :
  0 <= addr -> addr + Z.of_nat j * SLOT_SIZE < 2 ^ 64 ->
  (length (fl_addrs fl) + j <= fl_nodes fl)%nat ->
  exists alloc', fill_list addr j fl alloc = Ok (FreeList_ (fl_nodes fl) (slots addr j ++ fl_addrs fl), alloc') /\
    wrap 64 alloc' = wrap 64 (alloc + Z.of_nat j * SLOT_SIZE).
Proof.
  revert fl alloc. induction j as [|j IH]; intros fl alloc Ha Hb Hn; cbn [fill_list].
  { exists alloc. split; [by destruct fl|]. f_equal. lia. }
  rewrite slots_S, <- app_assoc. unfold SLOT_SIZE in *.
  rewrite mul64_small, (add64_small addr) by lia. unfold PutFreeAddr.
  rewrite (proj2 (Z.eqb_neq _ _)), (proj2 (Nat.ltb_lt _ _)); [|lia|change NO_ADDR with (2 ^ 64 - 1); lia].
  simpl. set (fl1 := FreeList_ _ _).
  destruct (IH fl1 (alloc +₆₄ (4096 + 8)) Ha) as (alloc' & E & Ew); [lia|simpl; lia|].
  exists alloc'. split.
  - exact E.
  - rewrite Ew. unfold add64, wrap. rewrite Zplus_mod_idemp_l. f_equal. lia.
Qed.

Lemma fill_lists_spec n addr mx c :
  0 <= addr -> addr + Z.of_nat (n * c) * SLOT_SIZE < 2 ^ 64 -> (c <= mx)%nat ->
  exists fls allocs, fill_lists n addr mx c = Ok (fls, allocs) /\ length fls = n /\ length allocs = n /\
    concat (fl_addrs <$> fls) = slots addr (n * c) /\
    (forall i fl, fls !! i = Some fl -> fl_nodes fl = mx /\ length (fl_addrs fl) = c /\
       wrap 64 (allocs !!! i) = wrap 64 (SLOT_SIZE * Z.of_nat c)).
Proof.
  revert addr. induction n as [|n IH]; intros addr Ha Hb Hc; cbn [fill_lists].
  { by exists [], []. }
  assert (0 < SLOT_SIZE) by done.
  destruct (fill_list_spec addr c (FreeList_ mx []) 0) as (alloc & -> & Ew); [done|nia|simpl; lia|]. simpl.
  rewrite mul64_small, add64_small by nia.
  destruct (IH (addr + Z.of_nat c * SLOT_SIZE)) as (fls & allocs & -> & H1 & H2 & H3 & H4); [nia|nia|done|].
  simpl. eexists _, _. split; [done|]. simpl. split; [by f_equal|]. split; [by f_equal|]. split.
  - change (list_fmap _ _ fl_addrs fls) with (fl_addrs <$> fls).
    by rewrite H3, app_nil_r, slots_add.
  - intros [|i] fl; simpl; [|apply H4]. intros [= <-]. simpl. rewrite app_nil_r, length_slots.
    split; [done|]. split; [done|]. rewrite Ew. f_equal. lia.
Qed.

(** The page slots of a pool made from a configuration. *)
Definition total_lists (cfg : daemon_config_t) (rc : rdma_config) : nat :=
  (num_clients cfg * Z.to_nat (num_data_qps rc))%nat.
Definition init_pages (cfg : daemon_config_t) (rc : rdma_config) (start_addr : Z) : list Z :=
  slots start_addr (total_lists cfg rc * Z.to_nat (mem_pool_size cfg / SLOT_SIZE / Z.of_nat (total_lists cfg rc))).

(** A configuration a daemon can run with. *)
Record pool_config_ok (cfg : daemon_config_t) (rc : rdma_config) (start_addr : Z) : Prop := {
  pc_clients : (0 < num_clients cfg)%nat;
  pc_queues : 0 < num_data_qps rc;
  pc_start : 0 <= start_addr;
  pc_size : 0 <= mem_pool_size cfg;
  pc_room : start_addr + mem_pool_size cfg < 2 ^ 64;
}.

Lemma init_pages_room cfg rc start_addr :
  pool_config_ok cfg rc start_addr ->
  0 <= Z.of_nat (length (init_pages cfg rc start_addr)) * SLOT_SIZE <= mem_pool_size cfg.
Proof.
  intros [H1 H2 H3 H4 H5]. unfold init_pages. rewrite length_slots.
  set (n := total_lists cfg rc). assert (0 < n)%nat by (unfold n, total_lists; nia).
  assert (0 < SLOT_SIZE) by done.
  set (m := mem_pool_size cfg / SLOT_SIZE).
  assert (0 <= m) by (apply Z.div_pos; lia).
  assert (m * SLOT_SIZE <= mem_pool_size cfg) by (unfold m; rewrite Z.mul_comm; apply Z.mul_div_le; lia).
  assert (Z.of_nat n * (m / Z.of_nat n) <= m) by (apply Z.mul_div_le; lia).
  assert (0 <= m / Z.of_nat n) by (apply Z.div_pos; lia). nia.
Qed.

Lemma mkPerCPUPool_inv cfg rc start_addr :
  pool_config_ok cfg rc start_addr ->
  exists p, mkPerCPUPool cfg rc start_addr = Ok p /\ pool_inv (init_pages cfg rc start_addr) [] p /\
    pool_clients p = num_clients cfg /\ per_cli_fl_ p = Z.to_nat (num_data_qps rc).
Proof.
  intros Hok. pose proof (init_pages_room _ _ _ Hok) as Hroom. destruct Hok as [H1 H2 H3 H4 H5].
  unfold mkPerCPUPool. fold (total_lists cfg rc). unfold init_pages in *. rewrite length_slots in Hroom.
  set (n := total_lists cfg rc) in *. set (m := mem_pool_size cfg / SLOT_SIZE) in *.
  assert (0 < SLOT_SIZE) by done. assert (0 < n)%nat by (unfold n, total_lists; nia).
  assert (0 <= m) by (apply Z.div_pos; lia).
  assert (m / Z.of_nat n <= m) by (apply Z.div_le_upper_bound; nia).
  assert (0 <= m / Z.of_nat n) by (apply Z.div_pos; lia).
  destruct (fill_lists_spec n start_addr (Z.to_nat m) (Z.to_nat (m / Z.of_nat n))) as
    (fls & allocs & -> & L1 & L2 & Hc & Hf); [done|lia|lia|]. simpl.
  eexists. split; [done|]. split; [|done]. split.
  - split; try done; simpl.
    + lia.
    + by rewrite length_replicate.
    + intros i fl Hi. destruct (Hf i fl Hi) as (_ & Hl & Ha). rewrite Hl, <- Ha.
      unfold GetFree, GetAlloc, GetUsed. simpl.
      rewrite list_lookup_total_alt with (l := replicate n 0), lookup_replicate_2.
      * simpl. unfold sub64. by rewrite Z.sub_0_r.
      * rewrite <- L1. by eapply lookup_lt_Some.
  - unfold free_pages. simpl. by rewrite Hc, app_nil_r.
  - intros i fl Hi. destruct (Hf i fl Hi) as (-> & _ & _). rewrite length_slots.
    assert (Z.of_nat n * (m / Z.of_nat n) <= m) by (apply Z.mul_div_le; lia). nia.
  - intros (k & Hk & E)%slots_elem. change NO_ADDR with (2 ^ 64 - 1) in E. nia.
Qed.

(** ** Properties *)

Inductive pool_op : Type :=
| PAllocate (cid : nat) (qid : option nat) (r : Z)
| PFree (addr : Z) (cid : nat) (qid : option nat) (r : Z)
| PBorrow (fl_id : nat).

(** A run of the pool, with the pages the callers hold: they only free pages
    they hold, and name clients and queues that exist. *)
Inductive pool_run (p0 : PerCPUPool) : list pool_op -> PerCPUPool -> list Z -> Prop :=
| PRNil : pool_run p0 [] p0 []
| PRAllocate ops p held cid qid r p' a :
    pool_run p0 ops p held -> (cid < pool_clients p)%nat ->
    (forall q, qid = Some q -> (q < per_cli_fl_ p)%nat) ->
    Allocate p cid qid r = Ok (p', a) ->
    pool_run p0 (ops ++ [PAllocate cid qid r]) p' (if decide (a = NO_ADDR) then held else a :: held)
| PRFree ops p held a held' cid qid r p' :
    pool_run p0 ops p held -> held ≡ₚ a :: held' -> (cid < pool_clients p)%nat ->
    (forall q, qid = Some q -> (q < per_cli_fl_ p)%nat) ->
    Free p a cid qid r = Ok p' ->
    pool_run p0 (ops ++ [PFree a cid qid r]) p' held'
| PRBorrow ops p held fl_id p' a :
    pool_run p0 ops p held -> (fl_id < total_fl_ p)%nat ->
    AllocateFromPeer p fl_id = Ok (p', a) ->
    pool_run p0 (ops ++ [PBorrow fl_id]) p' held.

Lemma pool_inv_perm pages held held' p : held ≡ₚ held' -> pool_inv pages held p -> pool_inv pages held' p.
Proof. intros E [H1 H2 H3 H4]. split; [done| |done|done]. by rewrite <- E. Qed.

Lemma pool_run_inv pages p0 ops p held :
  pool_inv pages [] p0 -> pool_run p0 ops p held -> pool_inv pages held p.
Proof.
  intros H0. induction 1 as [|ops p held cid qid r p' a Hr IH Hc Hq E|ops p held a held' cid qid r p' Hr IH Hh Hc Hq E|ops p held fl_id p' a Hr IH Hf E].
  - done.
  - destruct (Allocate_inv _ _ _ cid qid r IH Hc Hq) as (p1 & a1 & E1 & Hres). rewrite E in E1. simplify_eq.
    destruct Hres as [[-> ->]|[Hne Hinv]]; case_decide; done.
  - apply (pool_inv_perm _ _ _ _ Hh) in IH.
    destruct (Free_inv _ _ _ a cid qid r IH Hc Hq) as (p1 & E1 & Hinv). by rewrite E in E1; simplify_eq.
  - destruct (AllocateFromPeer_inv _ _ _ fl_id IH Hf) as (p1 & a1 & E1 & Hres). rewrite E in E1. simplify_eq.
    destruct Hres as [[_ ->]|[_ Hinv]]; done.
Qed.

(** The pool a daemon starts with: page slots of 4104 bytes that do not overlap and lie
    inside the memory pool, each on exactly one free list. *)
Theorem pool_initial cfg rc start_addr :
  pool_config_ok cfg rc start_addr ->
  exists p, mkPerCPUPool cfg rc start_addr = Ok p /\ pool_wf p /\
    free_pages p ≡ₚ init_pages cfg rc start_addr /\ NoDup (free_pages p) /\
    (forall a, a ∈ free_pages p ->
       start_addr <= a /\ a + SLOT_SIZE <= start_addr + mem_pool_size cfg /\
       (forall b, b ∈ free_pages p -> a <> b -> a + SLOT_SIZE <= b \/ b + SLOT_SIZE <= a)).
Proof.
  intros Hok. destruct (mkPerCPUPool_inv _ _ _ Hok) as (p & E & Hinv & _). exists p. split; [done|].
  pose proof (pi_pages _ _ _ Hinv) as Hp. rewrite app_nil_r in Hp.
  split; [apply Hinv|]. split; [done|]. split; [rewrite Hp; apply slots_nodup|].
  intros a Ha. rewrite Hp in Ha. pose proof (init_pages_room _ _ _ Hok) as Hroom.
  unfold init_pages in *. rewrite length_slots in Hroom. apply slots_elem in Ha as (k & Hk & ->).
  assert (SLOT_SIZE = 4104) as ES by done. rewrite ES in *.
  split; [lia|]. split; [nia|]. intros b Hb. rewrite Hp in Hb. apply slots_elem in Hb as (k' & Hk' & ->).
  rewrite ES. intros Hne. destruct (decide (k < k')%nat); [left; lia|right]. assert (k <> k') by congruence. lia.
Qed.

(** C19: Conservation: whatever sequence of allocations, frees (to any queue of any client)
    and borrowings the pool has served, the pages on the free lists together with the pages
    still held are exactly the pages it started with, and every list's counters satisfy
    [GetFree = 4104 * length], although [useds_] alone may have wrapped around. *)
Theorem pool_conservation cfg rc start_addr p0 ops p held :
  pool_config_ok cfg rc start_addr -> mkPerCPUPool cfg rc start_addr = Ok p0 ->
  pool_run p0 ops p held ->
  free_pages p ++ held ≡ₚ init_pages cfg rc start_addr /\
  (forall i fl, freelist_ p !! i = Some fl -> GetFree p i = SLOT_SIZE * Z.of_nat (length (fl_addrs fl))).
Proof.
  intros Hok E Hr. destruct (mkPerCPUPool_inv _ _ _ Hok) as (p1 & E1 & Hinv & _).
  rewrite E in E1. simplify_eq. pose proof (pool_run_inv _ _ _ _ _ Hinv Hr) as Hi.
  split; [apply Hi|]. intros i fl Hfl. rewrite (pw_acct p (pi_wf _ _ _ Hi) i fl Hfl). apply wrap_small.
  assert (length (fl_addrs fl) <= length (init_pages cfg rc start_addr))%nat as Hlen.
  { rewrite <- (Permutation_length (pi_pages _ _ _ Hi)). unfold free_pages.
    rewrite <- (take_drop_middle _ _ _ Hfl), fmap_app, concat_app. simpl. rewrite !length_app. lia. }
  pose proof (init_pages_room _ _ _ Hok) as Hroom. destruct Hok. assert (0 < SLOT_SIZE) by done.
  unfold u_ok. nia.
Qed.

(** The peer chosen for borrowing is the client with the most spare free memory (in MB)
    among the other clients that pass both thresholds; the client itself is returned exactly
    when no other client can spare a megabyte. *)
Theorem SelectByFreeMem_best p cur :
  (cur < pool_clients p)%nat ->
  let tgt := SelectByFreeMem p cur in
  (tgt < pool_clients p)%nat /\
  (forall c, (c < pool_clients p)%nat -> c <> cur -> score p c <= if decide (tgt = cur) then 0 else score p tgt) /\
  (tgt <> cur -> lends p tgt = true /\ 0 < MB (spare p tgt)).
Proof.
  intros Hcur tgt. destruct (SelectByFreeMem_lemma p cur Hcur) as (H1 & H2 & H3).
  split; [done|]. split; [done|]. intros Hne. specialize (H3 Hne). fold tgt in H3. unfold score in H3.
  destruct (lends p tgt); [done|lia].
Qed.

(** The lists [Allocate] looks at, in order. *)
Definition tried (p : PerCPUPool) (cid : nat) (qid : option nat) (r : Z) (k : nat) : nat :=
  Nat.iter k (next_fl p cid) (pick_fl p cid qid r).

Lemma allocate_from_none p cid n i :
  pool_wf p -> of_client p cid i -> (forall j fl, freelist_ p !! j = Some fl -> ~ NO_ADDR ∈ fl_addrs fl) ->
  allocate_from p cid n i = Ok (p, NO_ADDR) ->
  forall k, (k < n)%nat -> fl_addrs (freelist_ p !!! Nat.iter k (next_fl p cid) i) = [].
Proof.
  intros Hwf Hi Hno. revert i Hi. induction n as [|n IH]; intros i Hi E k Hk; [lia|]. cbn [allocate_from] in E.
  destruct (fl_at_Some p i Hwf) as (fl & Hfl & Hat); [by eapply of_client_lt|]. rewrite Hat in E. simpl in E.
  unfold GetFreeAddr in E. destruct (fl_addrs fl) as [|a l] eqn:Ea; simpl in E.
  - rewrite set_fl_same in E by done. destruct k as [|k].
    + simpl. by rewrite (list_lookup_total_correct _ _ _ Hfl).
    + rewrite Nat.iter_succ_r. apply IH; [by apply next_fl_client|done|lia].
  - destruct (Z.eqb_spec a NO_ADDR) as [->|Hne]; simpl in E.
    + exfalso. apply (Hno i fl Hfl). rewrite Ea. left.
    + injection E as _ E. done.
Qed.

(** An allocation fails only when each of the [per_cli_fl_ / 2] lists it tries, starting
    from the chosen one and wrapping around within the client, is empty. *)
Theorem Allocate_fails_empty pages held p cid qid r p' :
  pool_inv pages held p -> (cid < pool_clients p)%nat ->
  (forall q, qid = Some q -> (q < per_cli_fl_ p)%nat) ->
  Allocate p cid qid r = Ok (p', NO_ADDR) ->
  p' = p /\ forall k, (k < num_iter p)%nat -> fl_addrs (freelist_ p !!! tried p cid qid r k) = [].
Proof.
  intros Hinv Hc Hq E. destruct (Allocate_inv _ _ _ cid qid r Hinv Hc Hq) as (p1 & a1 & E1 & Hres).
  rewrite E in E1. simplify_eq. destruct Hres as [[_ ->]|[Hne _]]; [|done]. split; [done|].
  pose proof (pi_wf _ _ _ Hinv) as Hwf.
  apply allocate_from_none; [done|by apply pick_fl_client| |done].
  intros j fl Hfl Hin. apply (pi_addr _ _ _ Hinv). rewrite <- (pi_pages _ _ _ Hinv).
  apply elem_of_app. left. unfold free_pages.
  rewrite <- (take_drop_middle _ _ _ Hfl), fmap_app, concat_app. simpl. rewrite !elem_of_app. by right; left.
Qed.

(** The free-memory threshold of a list is 5% of its memory, and at least the initial
    minimum, as long as that is below 2^31; from 2^31 on (a list of 40 GB) the conversion to
    [int] makes it negative and the comparison takes it for a huge [size_t]. *)
Theorem GetThldFree_spec p fl_id :
  free_thold_perc_ p = 5 -> u_ok 64 (min_fl_free_ p) -> 0 <= GetAlloc p fl_id -> GetAlloc p fl_id * 5 < 2 ^ 64 ->
  (GetAlloc p fl_id * 5 / 100 < 2 ^ 31 ->
     GetThldFree p fl_id = Z.max (GetAlloc p fl_id * 5 / 100) (min_fl_free_ p)) /\
  (2 ^ 31 <= GetAlloc p fl_id * 5 / 100 < 2 ^ 32 -> min_fl_free_ p < 2 ^ 63 -> 2 ^ 63 < GetThldFree p fl_id).
Proof.
  intros Hp [Hm1 Hm2] H0 H1. unfold GetThldFree. rewrite Hp. unfold GetAlloc in *. rewrite mul64_small by lia.
  set (t := allocs_ p !!! fl_id * 5 / 100). assert (0 <= t) by (apply Z.div_pos; lia). split.
  - intros Ht. assert (to_int t = t) as ->.
    { unfold to_int. rewrite wrap_small by (unfold u_ok; lia). by rewrite (proj2 (Z.ltb_lt _ _)). }
    rewrite wrap_small by (unfold u_ok; lia). destruct (Z.ltb_spec (min_fl_free_ p) t); lia.
  - intros Ht Hmin. assert (to_int t = t - 2 ^ 32) as ->.
    { unfold to_int. rewrite wrap_small by (unfold u_ok; lia). by rewrite (proj2 (Z.ltb_ge _ _)) by lia. }
    assert (wrap 64 (t - 2 ^ 32) = 2 ^ 64 + t - 2 ^ 32) as ->.
    { unfold wrap. rewrite <- (Z.mod_add _ 1) by done. rewrite Z.mod_small; lia. }
    rewrite (proj2 (Z.ltb_lt _ _)) by lia. lia.
Qed.

(** The list a borrowed page comes from. *)
Lemma borrow_moves pages held p cur next n peer p' a :
  pool_inv pages held p -> of_client p next peer -> a <> NO_ADDR ->
  borrow p cur next n peer = Ok (p', a) ->
  exists peer' fl cfl l, of_client p next peer' /\
    freelist_ p !! peer' = Some fl /\ fl_addrs fl = a :: l /\
    MB (min_fl_alloc_ p) < MB (GetAlloc p peer') /\ MB (min_fl_free_ p) < MB (GetFree p peer') /\
    <[peer' := FreeList_ (fl_nodes fl) l]> (freelist_ p) !! cur = Some cfl /\
    exists cfl', PutFreeAddr cfl a = Ok cfl' /\
      freelist_ p' = <[cur := cfl']> (<[peer' := FreeList_ (fl_nodes fl) l]> (freelist_ p)).
Proof.
  intros Hinv Hpeer Hne. pose proof (pi_wf _ _ _ Hinv) as Hwf.
  revert peer Hpeer. induction n as [|n IH]; intros peer Hpeer; cbn [borrow].
  { by intros [= _ <-]. }
  destruct (Z.ltb_spec (MB (min_fl_alloc_ p)) (MB (GetAlloc p peer))) as [Ha|]; [|apply (IH peer Hpeer)].
  destruct (Z.ltb_spec (MB (min_fl_free_ p)) (MB (GetFree p peer))) as [Hf|]; [|apply (IH peer Hpeer)].
  simpl. destruct (fl_at_Some p peer Hwf) as (fl & Hfl & ->); [by eapply of_client_lt|]. simpl. unfold GetFreeAddr.
  destruct (fl_addrs fl) as [|b l] eqn:Ea; simpl.
  { rewrite set_fl_same by done. apply (IH _ (next_fl_client _ _ _ Hwf Hpeer)). }
  destruct (take_page _ _ _ _ _ _ _ Hinv Hfl Ea) as (_ & Hb & _).
  rewrite (proj2 (Z.eqb_neq _ _) Hb). simpl. unfold fl_at. simpl.
  destruct (<[peer := _]> (freelist_ p) !! cur) as [cfl|] eqn:Ec; simpl; [|done].
  destruct (PutFreeAddr cfl b) as [cfl'|] eqn:Ep; simpl; [|done].
  intros [= <- <-]. exists peer, fl, cfl, l. split_and!; try done. by exists cfl'.
Qed.

Lemma borrow_page pages held p fl_id :
  pool_inv pages held p -> (fl_id < total_fl_ p)%nat ->
  let cli := (fl_id / per_cli_fl_ p)%nat in
  exists p' a, AllocateFromPeer p fl_id = Ok (p', a) /\ pool_inv pages held p' /\
    ((a = NO_ADDR /\ p' = p) \/
     (exists peer fl cfl l,
        of_client p (SelectByFreeMem p cli) peer /\ SelectByFreeMem p cli <> cli /\
        freelist_ p !! peer = Some fl /\ fl_addrs fl = a :: l /\ freelist_ p !! fl_id = Some cfl /\
        MB (min_fl_alloc_ p) < MB (GetAlloc p peer) /\ MB (min_fl_free_ p) < MB (GetFree p peer) /\
        freelist_ p' = <[fl_id := FreeList_ (fl_nodes cfl) (a :: fl_addrs cfl)]>
                         (<[peer := FreeList_ (fl_nodes fl) l]> (freelist_ p)))).
Proof.
  intros Hinv Hid cli. destruct (AllocateFromPeer_inv _ _ _ fl_id Hinv Hid) as (p' & a & E & Hres).
  exists p', a. split; [done|]. destruct Hres as [[-> ->]|[Hne Hinv']]; [split; [done|by left]|].
  split; [done|]. right. pose proof (pi_wf _ _ _ Hinv) as Hwf. pose proof (pw_per p Hwf) as Hper.
  unfold AllocateFromPeer in E. fold cli in E.
  destruct (Nat.eqb_spec cli (SelectByFreeMem p cli)) as [|Hcli]; [injection E as _ <-; done|].
  assert (of_client p (SelectByFreeMem p cli) (SelectByFreeMem p cli * per_cli_fl_ p + fl_id mod per_cli_fl_ p)) as Hpeer.
  { split; [|pose proof (Nat.mod_upper_bound fl_id (per_cli_fl_ p)); lia].
    apply SelectByFreeMem_lemma. rewrite (pw_total p Hwf) in Hid. apply Nat.Div0.div_lt_upper_bound. lia. }
  destruct (borrow_moves _ _ _ _ _ _ _ _ _ Hinv Hpeer Hne E) as (peer & fl & cfl & l & Hp & Hfl & Hl & Ha & Hf & Hc & cfl' & Hput & Hfls).
  assert (fl_id <> peer) as Hdiff.
  { intros ->. apply Hcli. destruct Hp as [_ Hp]. unfold cli.
    symmetry. apply (Nat.div_unique _ _ _ (peer - SelectByFreeMem p (peer / per_cli_fl_ p) * per_cli_fl_ p)); fold cli; lia. }
  rewrite list_lookup_insert_ne in Hc by done. exists peer, fl, cfl, l. split_and!; try done.
  rewrite Hfls. f_equal. pose proof (take_inv _ _ _ _ _ _ _ Hinv Hfl Hl) as Hinv1.
  assert (freelist_ (add_alloc (set_fl p peer (FreeList_ (fl_nodes fl) l)) peer (- SLOT_SIZE)) !! fl_id = Some cfl) as Hc1.
  { simpl. by rewrite list_lookup_insert_ne. }
  destruct (put_page _ _ _ _ _ _ Hinv1 Hc1) as [Hput' _]. congruence.
Qed.

(** Borrowing either changes nothing and reports that no page was found, or moves the top
    page of one list of the chosen peer (a different client, that passes both thresholds in that
    list) to the requesting list; the pages held outside and the total allocation are unchanged. *)
Theorem AllocateFromPeer_moves pages held p fl_id :
  pool_inv pages held p -> (fl_id < total_fl_ p)%nat ->
  let cli := (fl_id / per_cli_fl_ p)%nat in
  exists p' a, AllocateFromPeer p fl_id = Ok (p', a) /\ pool_inv pages held p' /\
    ((a = NO_ADDR /\ p' = p) \/
     (exists peer fl cfl l,
        of_client p (SelectByFreeMem p cli) peer /\ SelectByFreeMem p cli <> cli /\
        freelist_ p !! peer = Some fl /\ fl_addrs fl = a :: l /\ freelist_ p !! fl_id = Some cfl /\
        MB (min_fl_alloc_ p) < MB (GetAlloc p peer) /\ MB (min_fl_free_ p) < MB (GetFree p peer) /\
        freelist_ p' = <[fl_id := FreeList_ (fl_nodes cfl) (a :: fl_addrs cfl)]>
                         (<[peer := FreeList_ (fl_nodes fl) l]> (freelist_ p)))).
Proof. apply borrow_page. Qed.

(** A freed page goes on top of one list; no list gets shorter. *)
Lemma Free_grows p a cid (qid : option nat) r p' i fl :
  Free p a cid qid r = Ok p' -> freelist_ p !! i = Some fl ->
  exists fl', freelist_ p' !! i = Some fl' /\ (length (fl_addrs fl) <= length (fl_addrs fl'))%nat.
Proof.
  unfold Free. intros (fl0 & H0 & (fl1 & H1 & [= <-])%outcome_bind_Ok)%outcome_bind_Ok Hi.
  unfold fl_at in H0. destruct (freelist_ p !! pick_fl p cid qid r) as [x|] eqn:E0; [|done]. injection H0 as ->.
  cbn. destruct (decide (pick_fl p cid qid r = i)) as [<-|Hne]; [|exists fl; by rewrite list_lookup_insert_ne].
  rewrite Hi in E0. injection E0 as ->. exists fl1. rewrite list_lookup_insert_eq by (by eapply lookup_lt_Some).
  split; [done|]. unfold PutFreeAddr in H1. repeat case_match; simplify_eq; cbn; lia.
Qed.

(** ** Witnesses: two clients, 16 lists of two pages *)

Definition demo_config : daemon_config_t :=
  DaemonConfig 7777 2 true (4104 * 32) HT_LP_APPROX 1 true WC_BUSY_WAITING GLOBAL_QP_POLLER.
Definition demo_rdma : rdma_config := dcc_rdma_set_default_config.
Definition demo_pool : PerCPUPool :=
  match mkPerCPUPool demo_config demo_rdma 4096 with
  | Ok p => p
  | Throw _ => Pool 0 0 0 0 0 [] [] 0 0 0 0 0 []
  end.
Definition pool_after (o : outcome (PerCPUPool * Z)) : PerCPUPool :=
  match o with Ok (p, _) => p | Throw _ => demo_pool end.

Lemma demo_ok : pool_config_ok demo_config demo_rdma 4096.
Proof. split; vm_compute; (done || lia). Qed.

Lemma demo_make : mkPerCPUPool demo_config demo_rdma 4096 = Ok demo_pool.
Proof. reflexivity. Qed.

Lemma demo_inv : pool_inv (init_pages demo_config demo_rdma 4096) [] demo_pool.
Proof.
  destruct (mkPerCPUPool_inv _ _ _ demo_ok) as (p & E & Hinv & _). rewrite demo_make in E.
  assert (demo_pool = p) as -> by congruence. exact Hinv.
Qed.

Lemma pool_initial_witness :
  exists p, mkPerCPUPool demo_config demo_rdma 4096 = Ok p /\ pool_wf p /\
    free_pages p ≡ₚ init_pages demo_config demo_rdma 4096 /\ NoDup (free_pages p) /\
    (forall a, a ∈ free_pages p ->
       4096 <= a /\ a + SLOT_SIZE <= 4096 + mem_pool_size demo_config /\
       (forall b, b ∈ free_pages p -> a <> b -> a + SLOT_SIZE <= b \/ b + SLOT_SIZE <= a)).
Proof. apply (pool_initial demo_config demo_rdma 4096). apply demo_ok. Defined.

(** Allocate from queue 3 of client 1 and free to queue 5: both [useds_] are
    off by one page in opposite directions. *)
Definition demo_alloc : PerCPUPool := pool_after (Allocate demo_pool 1 (Some 3%nat) 0).
Definition demo_page : Z := match Allocate demo_pool 1 (Some 3%nat) 0 with Ok (_, a) => a | Throw _ => 0 end.
Definition demo_freed : PerCPUPool :=
  match Free demo_alloc demo_page 1 (Some 5%nat) 0 with Ok p => p | Throw _ => demo_pool end.

Example demo_useds : (GetUsed demo_freed 11, GetUsed demo_freed 13) = (4104, 2 ^ 64 - 4104).
Proof. vm_compute. reflexivity. Qed.

Lemma pool_conservation_witness :
  free_pages demo_freed ++ [] ≡ₚ init_pages demo_config demo_rdma 4096 /\
  (forall i fl, freelist_ demo_freed !! i = Some fl ->
     GetFree demo_freed i = SLOT_SIZE * Z.of_nat (length (fl_addrs fl))).
Proof.
  apply (pool_conservation demo_config demo_rdma 4096 demo_pool
           [PAllocate 1 (Some 3%nat) 0; PFree demo_page 1 (Some 5%nat) 0]).
  - apply demo_ok.
  - apply demo_make.
  - apply (PRFree demo_pool [PAllocate 1 (Some 3%nat) 0] demo_alloc [demo_page] demo_page []).
    + apply (PRAllocate demo_pool [] demo_pool [] 1 (Some 3%nat) 0 demo_alloc demo_page).
      * constructor.
      * vm_compute. lia.
      * intros q [= <-]. vm_compute. lia.
      * vm_compute. reflexivity.
    + reflexivity.
    + vm_compute. lia.
    + intros q [= <-]. vm_compute. lia.
    + vm_compute. reflexivity.
Defined.

Lemma SelectByFreeMem_best_witness :
  let tgt := SelectByFreeMem demo_pool 1 in
  (tgt < pool_clients demo_pool)%nat /\
  (forall c, (c < pool_clients demo_pool)%nat -> c <> 1%nat ->
     score demo_pool c <= if decide (tgt = 1%nat) then 0 else score demo_pool tgt) /\
  (tgt <> 1%nat -> lends demo_pool tgt = true /\ 0 < MB (spare demo_pool tgt)).
Proof. apply (SelectByFreeMem_best demo_pool 1). vm_compute. lia. Defined.

(** A pool of one page: every list of the client is empty but one. *)
Definition demo_empty : PerCPUPool :=
  with_lists demo_pool (replicate 16 0) (replicate 16 0) (replicate 16 (FreeList_ 4 [])).

Lemma demo_empty_inv : pool_inv [] [] demo_empty.
Proof.
  split; [split| | |].
  - vm_compute. lia.
  - reflexivity.
  - reflexivity.
  - reflexivity.
  - reflexivity.
  - intros i fl Hi. apply lookup_replicate in Hi as [-> Hi]. unfold GetFree, GetAlloc, GetUsed. simpl.
    by rewrite list_lookup_total_alt with (l := replicate 16 0), lookup_replicate_2.
  - reflexivity.
  - intros i fl Hi. apply lookup_replicate in Hi as [-> Hi]. simpl. lia.
  - by intros ?%not_elem_of_nil.
Qed.

Lemma Allocate_fails_empty_witness :
  demo_empty = demo_empty /\
  forall k, (k < num_iter demo_empty)%nat -> fl_addrs (freelist_ demo_empty !!! tried demo_empty 1 None 3 k) = [].
Proof.
  apply (Allocate_fails_empty [] [] demo_empty 1 None 3 demo_empty).
  - apply demo_empty_inv.
  - vm_compute. lia.
  - done.
  - vm_compute. reflexivity.
Defined.

Lemma GetThldFree_spec_witness :
  (GetAlloc demo_pool 0 * 5 / 100 < 2 ^ 31 ->
     GetThldFree demo_pool 0 = Z.max (GetAlloc demo_pool 0 * 5 / 100) (min_fl_free_ demo_pool)) /\
  (2 ^ 31 <= GetAlloc demo_pool 0 * 5 / 100 < 2 ^ 32 -> min_fl_free_ demo_pool < 2 ^ 63 ->
     2 ^ 63 < GetThldFree demo_pool 0).
Proof.
  apply (GetThldFree_spec demo_pool 0);
    [vm_compute; reflexivity|split; vm_compute; congruence|vm_compute; congruence|vm_compute; reflexivity].
Defined.

Lemma AllocateFromPeer_moves_witness :
  exists p' a, AllocateFromPeer demo_pool 11 = Ok (p', a) /\
    pool_inv (init_pages demo_config demo_rdma 4096) [] p' /\
    ((a = NO_ADDR /\ p' = demo_pool) \/
     (exists peer fl cfl l,
        of_client demo_pool (SelectByFreeMem demo_pool 1) peer /\ SelectByFreeMem demo_pool 1 <> 1%nat /\
        freelist_ demo_pool !! peer = Some fl /\ fl_addrs fl = a :: l /\ freelist_ demo_pool !! 11%nat = Some cfl /\
        MB (min_fl_alloc_ demo_pool) < MB (GetAlloc demo_pool peer) /\
        MB (min_fl_free_ demo_pool) < MB (GetFree demo_pool peer) /\
        freelist_ p' = <[11%nat := FreeList_ (fl_nodes cfl) (a :: fl_addrs cfl)]>
                         (<[peer := FreeList_ (fl_nodes fl) l]> (freelist_ demo_pool)))).
Proof.
  apply (AllocateFromPeer_moves (init_pages demo_config demo_rdma 4096) [] demo_pool 11); [apply demo_inv|].
  vm_compute. lia.
Defined.

#[global] Arguments Free : simpl never.
#[global] Arguments Allocate : simpl never.
#[global] Arguments AllocateFromPeer : simpl never.
