(* ===== verification/Crc.v ===== *)
(** * Crc: the checksums of transferred pages

    [daemon/util/crc8.hpp], [crc8.cpp], [crc16.hpp], [crc16.cpp] (the driver's
    copies are in [DriverUtil]): table-driven checksums of sixteen bytes of a page. A page is a list of
    4096 bytes. *)
From S2P Require Import Prelude.

(** ** The tables *)

Definition crc8tab : list Z :=
  [0x00; 0x07; 0x0e; 0x09; 0x1c; 0x1b; 0x12; 0x15; 0x38; 0x3f; 0x36; 0x31; 0x24; 0x23; 0x2a; 0x2d;
   0x70; 0x77; 0x7e; 0x79; 0x6c; 0x6b; 0x62; 0x65; 0x48; 0x4f; 0x46; 0x41; 0x54; 0x53; 0x5a; 0x5d;
   0xe0; 0xe7; 0xee; 0xe9; 0xfc; 0xfb; 0xf2; 0xf5; 0xd8; 0xdf; 0xd6; 0xd1; 0xc4; 0xc3; 0xca; 0xcd;
   0x90; 0x97; 0x9e; 0x99; 0x8c; 0x8b; 0x82; 0x85; 0xa8; 0xaf; 0xa6; 0xa1; 0xb4; 0xb3; 0xba; 0xbd;
   0xc7; 0xc0; 0xc9; 0xce; 0xdb; 0xdc; 0xd5; 0xd2; 0xff; 0xf8; 0xf1; 0xf6; 0xe3; 0xe4; 0xed; 0xea;
   0xb7; 0xb0; 0xb9; 0xbe; 0xab; 0xac; 0xa5; 0xa2; 0x8f; 0x88; 0x81; 0x86; 0x93; 0x94; 0x9d; 0x9a;
   0x27; 0x20; 0x29; 0x2e; 0x3b; 0x3c; 0x35; 0x32; 0x1f; 0x18; 0x11; 0x16; 0x03; 0x04; 0x0d; 0x0a;
   0x57; 0x50; 0x59; 0x5e; 0x4b; 0x4c; 0x45; 0x42; 0x6f; 0x68; 0x61; 0x66; 0x73; 0x74; 0x7d; 0x7a;
   0x89; 0x8e; 0x87; 0x80; 0x95; 0x92; 0x9b; 0x9c; 0xb1; 0xb6; 0xbf; 0xb8; 0xad; 0xaa; 0xa3; 0xa4;
   0xf9; 0xfe; 0xf7; 0xf0; 0xe5; 0xe2; 0xeb; 0xec; 0xc1; 0xc6; 0xcf; 0xc8; 0xdd; 0xda; 0xd3; 0xd4;
   0x69; 0x6e; 0x67; 0x60; 0x75; 0x72; 0x7b; 0x7c; 0x51; 0x56; 0x5f; 0x58; 0x4d; 0x4a; 0x43; 0x44;
   0x19; 0x1e; 0x17; 0x10; 0x05; 0x02; 0x0b; 0x0c; 0x21; 0x26; 0x2f; 0x28; 0x3d; 0x3a; 0x33; 0x34;
   0x4e; 0x49; 0x40; 0x47; 0x52; 0x55; 0x5c; 0x5b; 0x76; 0x71; 0x78; 0x7f; 0x6a; 0x6d; 0x64; 0x63;
   0x3e; 0x39; 0x30; 0x37; 0x22; 0x25; 0x2c; 0x2b; 0x06; 0x01; 0x08; 0x0f; 0x1a; 0x1d; 0x14; 0x13;
   0xae; 0xa9; 0xa0; 0xa7; 0xb2; 0xb5; 0xbc; 0xbb; 0x96; 0x91; 0x98; 0x9f; 0x8a; 0x8d; 0x84; 0x83;
   0xde; 0xd9; 0xd0; 0xd7; 0xc2; 0xc5; 0xcc; 0xcb; 0xe6; 0xe1; 0xe8; 0xef; 0xfa; 0xfd; 0xf4; 0xf3].

Definition crc16tab : list Z :=
  [0x0000; 0x1021; 0x2042; 0x3063; 0x4084; 0x50a5; 0x60c6; 0x70e7;
   0x8108; 0x9129; 0xa14a; 0xb16b; 0xc18c; 0xd1ad; 0xe1ce; 0xf1ef;
   0x1231; 0x0210; 0x3273; 0x2252; 0x52b5; 0x4294; 0x72f7; 0x62d6;
   0x9339; 0x8318; 0xb37b; 0xa35a; 0xd3bd; 0xc39c; 0xf3ff; 0xe3de;
   0x2462; 0x3443; 0x0420; 0x1401; 0x64e6; 0x74c7; 0x44a4; 0x5485;
   0xa56a; 0xb54b; 0x8528; 0x9509; 0xe5ee; 0xf5cf; 0xc5ac; 0xd58d;
   0x3653; 0x2672; 0x1611; 0x0630; 0x76d7; 0x66f6; 0x5695; 0x46b4;
   0xb75b; 0xa77a; 0x9719; 0x8738; 0xf7df; 0xe7fe; 0xd79d; 0xc7bc;
   0x48c4; 0x58e5; 0x6886; 0x78a7; 0x0840; 0x1861; 0x2802; 0x3823;
   0xc9cc; 0xd9ed; 0xe98e; 0xf9af; 0x8948; 0x9969; 0xa90a; 0xb92b;
   0x5af5; 0x4ad4; 0x7ab7; 0x6a96; 0x1a71; 0x0a50; 0x3a33; 0x2a12;
   0xdbfd; 0xcbdc; 0xfbbf; 0xeb9e; 0x9b79; 0x8b58; 0xbb3b; 0xab1a;
   0x6ca6; 0x7c87; 0x4ce4; 0x5cc5; 0x2c22; 0x3c03; 0x0c60; 0x1c41;
   0xedae; 0xfd8f; 0xcdec; 0xddcd; 0xad2a; 0xbd0b; 0x8d68; 0x9d49;
   0x7e97; 0x6eb6; 0x5ed5; 0x4ef4; 0x3e13; 0x2e32; 0x1e51; 0x0e70;
   0xff9f; 0xefbe; 0xdfdd; 0xcffc; 0xbf1b; 0xaf3a; 0x9f59; 0x8f78;
   0x9188; 0x81a9; 0xb1ca; 0xa1eb; 0xd10c; 0xc12d; 0xf14e; 0xe16f;
   0x1080; 0x00a1; 0x30c2; 0x20e3; 0x5004; 0x4025; 0x7046; 0x6067;
   0x83b9; 0x9398; 0xa3fb; 0xb3da; 0xc33d; 0xd31c; 0xe37f; 0xf35e;
   0x02b1; 0x1290; 0x22f3; 0x32d2; 0x4235; 0x5214; 0x6277; 0x7256;
   0xb5ea; 0xa5cb; 0x95a8; 0x8589; 0xf56e; 0xe54f; 0xd52c; 0xc50d;
   0x34e2; 0x24c3; 0x14a0; 0x0481; 0x7466; 0x6447; 0x5424; 0x4405;
   0xa7db; 0xb7fa; 0x8799; 0x97b8; 0xe75f; 0xf77e; 0xc71d; 0xd73c;
   0x26d3; 0x36f2; 0x0691; 0x16b0; 0x6657; 0x7676; 0x4615; 0x5634;
   0xd94c; 0xc96d; 0xf90e; 0xe92f; 0x99c8; 0x89e9; 0xb98a; 0xa9ab;
   0x5844; 0x4865; 0x7806; 0x6827; 0x18c0; 0x08e1; 0x3882; 0x28a3;
   0xcb7d; 0xdb5c; 0xeb3f; 0xfb1e; 0x8bf9; 0x9bd8; 0xabbb; 0xbb9a;
   0x4a75; 0x5a54; 0x6a37; 0x7a16; 0x0af1; 0x1ad0; 0x2ab3; 0x3a92;
   0xfd2e; 0xed0f; 0xdd6c; 0xcd4d; 0xbdaa; 0xad8b; 0x9de8; 0x8dc9;
   0x7c26; 0x6c07; 0x5c64; 0x4c45; 0x3ca2; 0x2c83; 0x1ce0; 0x0cc1;
   0xef1f; 0xff3e; 0xcf5d; 0xdf7c; 0xaf9b; 0xbfba; 0x8fd9; 0x9ff8;
   0x6e17; 0x7e36; 0x4e55; 0x5e74; 0x2e93; 0x3eb2; 0x0ed1; 0x1ef0].

(** ** The checksums *)

Definition CRC8_NUM_CHECK : nat := 16.
Definition CRC16_NUM_CHECK : nat := 16.

(** The bytes the loops look at: [stride = 4096 / CRC8_NUM_CHECK]. *)
Definition samples (page : list Z) : list Z :=
  (fun i => default 0 (page !! (i * (4096 / CRC8_NUM_CHECK))%nat)) <$> seq 0 CRC8_NUM_CHECK.

Definition crc8_step (crc b : Z) : Z := crc8tab !!! Z.to_nat (Z.lxor crc b .& 0xff).

(** Without [DCC_CRC_CHECK], the default, the checksum is 0. *)
Definition CRC8 (DCC_CRC_CHECK : bool) (page : list Z) : Z :=
  if DCC_CRC_CHECK then foldl crc8_step 0 (samples page) else 0.

Definition crc16_step (crc b : Z) : Z :=
  Z.lxor (wrap 16 (crc <<₃₂ 8)) (crc16tab !!! Z.to_nat (Z.lxor (crc >> 8) b .& 0xff)).

Definition CRC16 (page : list Z) : Z := foldl crc16_step 0 (samples page).

(** ** Reference: division by the generator polynomial, one bit at a time *)

Definition poly_bit (w poly r : Z) : Z :=
  if Z.testbit r (w - 1) then Z.lxor (Z.shiftl r 1 mod 2 ^ w) poly else Z.shiftl r 1 mod 2 ^ w.
Definition poly_byte (w poly r b : Z) : Z :=
  Nat.iter 8 (poly_bit w poly) (Z.lxor r (Z.shiftl b (w - 8))).
Definition poly_crc (w poly : Z) (l : list Z) : Z := foldl (poly_byte w poly) 0 l.

Definition is_byte (b : Z) : Prop := 0 <= b < 256.
Definition is_page (page : list Z) : Prop := length page = 4096%nat /\ Forall is_byte page.

(** ** Lemmas *)

(** A fold whose step is injective in the state and in the byte tells apart two
    lists that differ in one place. *)
Section one_change.
Context (step : Z -> Z -> Z) (ok : Z -> Prop).
Hypothesis step_ok : forall r b, ok r -> is_byte b -> ok (step r b).
Hypothesis step_inj : forall r r' b b', ok r -> ok r' -> is_byte b -> is_byte b' ->
  step r b = step r' b' -> (b = b' -> r = r') /\ (r = r' -> b = b').

Lemma fold_ok l r : ok r -> Forall is_byte l -> ok (foldl step r l).
Proof. revert r. induction l; intros r Hr Hl; [done|]. inversion Hl; subst. apply IHl; auto. Qed.

Lemma fold_state_inj l r r' :
  ok r -> ok r' -> Forall is_byte l -> foldl step r l = foldl step r' l -> r = r'.
Proof.
  revert r r'. induction l as [|b l IH]; intros r r' Hr Hr' Hl E; [done|]. inversion Hl; subst.
  apply IH in E; [|auto..]. by destruct (step_inj r r' b b Hr Hr' H1 H1 E) as [H _]; apply H.
Qed.

Lemma fold_one_change l i b b' r :
  ok r -> Forall is_byte l -> l !! i = Some b -> is_byte b' ->
  foldl step r (<[i := b']> l) = foldl step r l -> b = b'.
Proof.
  intros Hr Hl Hi Hb' E. assert (is_byte b) as Hb by (by eapply Forall_lookup_1).
  rewrite <- (take_drop_middle l i b Hi) in E at 2. rewrite insert_take_drop in E by (by eapply lookup_lt_Some).
  rewrite !foldl_app in E. cbn [foldl] in E.
  pose proof Hl as Hl'. rewrite <- (take_drop_middle l i b Hi) in Hl'.
  pose proof (fold_ok (take i l) r Hr (proj1 (proj1 (Forall_app _ _ _) Hl'))) as Hs.
  apply fold_state_inj in E; [|auto..|by apply Forall_drop].
  destruct (step_inj _ _ b' b Hs Hs Hb' Hb E) as [_ H]. symmetry. by apply H.
Qed.
End one_change.

Lemma all_below (P : Z -> bool) (n : Z) :
  forallb (fun k => P (Z.of_nat k)) (seq 0 (Z.to_nat n)) = true -> forall x, 0 <= x < n -> P x = true.
Proof.
  intros H x Hx. rewrite forallb_forall in H. rewrite <- (Z2Nat.id x) by lia.
  apply H, in_seq. lia.
Qed.

Lemma crc8tab_poly x : 0 <= x < 256 -> crc8tab !!! Z.to_nat x = Nat.iter 8 (poly_bit 8 0x07) x.
Proof.
  intros Hx. apply Z.eqb_eq. revert x Hx.
  apply (all_below (fun x => crc8tab !!! Z.to_nat x =? Nat.iter 8 (poly_bit 8 0x07) x) 256). vm_compute. reflexivity.
Qed.

(** Division is linear, so the two bytes of a 16-bit remainder divide separately. *)
Lemma poly_bit_lxor w poly a b : 0 <= w ->
  poly_bit w poly (Z.lxor a b) = Z.lxor (poly_bit w poly a) (poly_bit w poly b).
Proof.
  intros Hw. unfold poly_bit. rewrite Z.lxor_spec, Z.shiftl_lxor, <- !Z.land_ones by done.
  assert (forall u v, Z.land (Z.lxor u v) (Z.ones w) = Z.lxor (Z.land u (Z.ones w)) (Z.land v (Z.ones w))) as E.
  { intros u v. bits. }
  rewrite E. destruct (Z.testbit a (w - 1)), (Z.testbit b (w - 1)); cbn [xorb].
  - rewrite Z.lxor_assoc, (Z.lxor_comm poly), <- !Z.lxor_assoc.
    rewrite (Z.lxor_assoc _ poly poly), Z.lxor_nilpotent, Z.lxor_0_r. done.
  - rewrite !Z.lxor_assoc. f_equal. apply Z.lxor_comm.
  - by rewrite Z.lxor_assoc.
  - done.
Qed.

Lemma poly_iter_lxor w poly n a b : 0 <= w ->
  Nat.iter n (poly_bit w poly) (Z.lxor a b) = Z.lxor (Nat.iter n (poly_bit w poly) a) (Nat.iter n (poly_bit w poly) b).
Proof. intros Hw. induction n as [|n IH]; [done|].
  rewrite !Nat.iter_succ, IH. by apply poly_bit_lxor. Qed.

Lemma poly16_low x : 0 <= x < 256 -> Nat.iter 8 (poly_bit 16 0x1021) x = Z.shiftl x 8.
Proof.
  intros Hx. apply Z.eqb_eq. revert x Hx.
  apply (all_below (fun x => Nat.iter 8 (poly_bit 16 0x1021) x =? Z.shiftl x 8) 256). vm_compute. reflexivity.
Qed.

Lemma poly16_high x : 0 <= x < 256 -> Nat.iter 8 (poly_bit 16 0x1021) (Z.shiftl x 8) = crc16tab !!! Z.to_nat x.
Proof.
  intros Hx. apply Z.eqb_eq. revert x Hx.
  apply (all_below (fun x => Nat.iter 8 (poly_bit 16 0x1021) (Z.shiftl x 8) =? crc16tab !!! Z.to_nat x) 256).
  vm_compute. reflexivity.
Qed.

Lemma crc8_step_poly r b : is_byte r -> is_byte b -> crc8_step r b = poly_byte 8 0x07 r b.
Proof.
  intros Hr Hb. unfold crc8_step, poly_byte. rewrite Z.shiftl_0_r.
  assert (0 <= Z.lxor r b < 256) as Hx by (change 256 with (2 ^ 8); apply (lxor_ok 8); done).
  replace (Z.lxor r b .& 0xff) with (Z.lxor r b); [by apply crc8tab_poly|].
  change 0xff with (Z.ones 8). rewrite Z.land_ones by done. by rewrite Z.mod_small.
Qed.

Lemma crc16_step_poly r b : u_ok 16 r -> is_byte b -> crc16_step r b = poly_byte 16 0x1021 r b.
Proof.
  intros Hr Hb. unfold crc16_step, poly_byte. change (16 - 8) with 8.
  assert (u_ok 8 (r >> 8)) as Hh by (unfold u_ok in *; rewrite Z.shiftr_div_pow2 by done; dlia).
  assert (u_ok 8 (Z.lxor (r >> 8) b)) as Hx by (by apply (lxor_ok 8)).
  replace (Z.lxor (r >> 8) b .& 0xff) with (Z.lxor (r >> 8) b)
    by (change 0xff with (Z.ones 8); rewrite Z.land_ones by done; by rewrite Z.mod_small).
  assert (Z.lxor r (Z.shiftl b 8) = Z.lxor (Z.shiftl (Z.lxor (r >> 8) b) 8) (r mod 2 ^ 8)) as -> by bits.
  rewrite poly_iter_lxor, poly16_high, poly16_low by (try done; apply Z.mod_pos_bound; done).
  rewrite Z.lxor_comm. f_equal. bits.
Qed.

Lemma crc8_step_ok r b : is_byte r -> is_byte b -> is_byte (crc8_step r b).
Proof.
  intros Hr Hb. unfold crc8_step.
  assert (0 <= Z.lxor r b .& 0xff < 256) as Hx.
  { change 0xff with (Z.ones 8). rewrite Z.land_ones by done. by apply Z.mod_pos_bound. }
  revert Hx. generalize (Z.lxor r b .& 0xff). intros x Hx.
  assert ((0 <=? crc8tab !!! Z.to_nat x) && (crc8tab !!! Z.to_nat x <? 256) = true) as H.
  { revert x Hx. apply (all_below (fun x => (0 <=? crc8tab !!! Z.to_nat x) && (crc8tab !!! Z.to_nat x <? 256)) 256).
    vm_compute. reflexivity. }
  unfold is_byte. lia.
Qed.

Lemma lookup_inj (l : list Z) x y :
  NoDup l -> 0 <= x < Z.of_nat (length l) -> 0 <= y < Z.of_nat (length l) ->
  l !!! Z.to_nat x = l !!! Z.to_nat y -> x = y.
Proof.
  intros Hn Hx Hy E.
  assert (l !! Z.to_nat x = Some (l !!! Z.to_nat x)) as H1 by (apply list_lookup_lookup_total_lt; lia).
  assert (l !! Z.to_nat y = Some (l !!! Z.to_nat y)) as H2 by (apply list_lookup_lookup_total_lt; lia).
  rewrite E in H1. pose proof (NoDup_lookup _ _ _ _ Hn H1 H2). lia.
Qed.

Lemma lxor_cancel a b c d : Z.lxor a b = Z.lxor c d -> (b = d -> a = c) /\ (a = c -> b = d).
Proof.
  intros E. split; intros ->.
  - apply (f_equal (fun z => Z.lxor z d)) in E. by rewrite !Z.lxor_assoc, Z.lxor_nilpotent, !Z.lxor_0_r in E.
  - apply (f_equal (fun z => Z.lxor c z)) in E. by rewrite <- !Z.lxor_assoc, Z.lxor_nilpotent, !Z.lxor_0_l in E.
Qed.

Lemma crc8_step_inj r r' b b' :
  is_byte r -> is_byte r' -> is_byte b -> is_byte b' ->
  crc8_step r b = crc8_step r' b' -> (b = b' -> r = r') /\ (r = r' -> b = b').
Proof.
  intros Hr Hr' Hb Hb' E. apply lxor_cancel.
  assert (forall u v, is_byte u -> is_byte v -> 0 <= Z.lxor u v < 256) as Hlt.
  { intros u v. change 256 with (2 ^ 8). apply (lxor_ok 8). done. }
  unfold crc8_step in E. change 0xff with (Z.ones 8) in E. rewrite !Z.land_ones, !Z.mod_small in E by (done || by apply Hlt).
  revert E. apply lookup_inj; [|by apply Hlt..]. refine (bool_decide_unpack _ _). vm_compute. exact I.
Qed.

Lemma crc16_step_ok r b : u_ok 16 r -> is_byte b -> u_ok 16 (crc16_step r b).
Proof.
  intros Hr Hb. unfold crc16_step. apply (lxor_ok 16); [done|apply Z.mod_pos_bound; done|].
  assert (0 <= Z.lxor (r >> 8) b .& 0xff < 256) as Hx.
  { change 0xff with (Z.ones 8). rewrite Z.land_ones by done. by apply Z.mod_pos_bound. }
  revert Hx. generalize (Z.lxor (r >> 8) b .& 0xff). intros x Hx. apply u_ok_lt. revert x Hx.
  apply (all_below (fun x => (0 <=? crc16tab !!! Z.to_nat x) && (crc16tab !!! Z.to_nat x <? 2 ^ 16)) 256).
  vm_compute. reflexivity.
Qed.

(** The low byte of an entry of [crc16tab] determines the entry. *)
Lemma crc16_step_inj r r' b b' :
  u_ok 16 r -> u_ok 16 r' -> is_byte b -> is_byte b' ->
  crc16_step r b = crc16_step r' b' -> (b = b' -> r = r') /\ (r = r' -> b = b').
Proof.
  intros Hr Hr' Hb Hb' E.
  assert (forall u v, u_ok 16 u -> is_byte v -> 0 <= Z.lxor (u >> 8) v < 256) as Hlt.
  { intros u v Hu Hv. change 256 with (2 ^ 8). apply (lxor_ok 8); [done| |done].
    unfold u_ok in *. rewrite Z.shiftr_div_pow2 by done. dlia. }
  unfold crc16_step in E. change 0xff with (Z.ones 8) in E.
  rewrite !Z.land_ones, !(Z.mod_small _ (2 ^ 8)) in E by (done || by apply Hlt).
  set (x := Z.lxor (r >> 8) b) in *. set (y := Z.lxor (r' >> 8) b') in *.
  assert (0 <= x < 256) as Hx by (by apply Hlt). assert (0 <= y < 256) as Hy by (by apply Hlt).
  assert (forall u t, Z.lxor (wrap 16 (u <<₃₂ 8)) t mod 2 ^ 8 = t mod 2 ^ 8) as Elow by (intros u t; bits).
  pose proof (f_equal (fun z => z mod 2 ^ 8) E) as El. cbv beta in El. rewrite !Elow in El.
  assert (x = y) as Exy.
  { apply (lookup_inj ((fun t => t mod 2 ^ 8) <$> crc16tab)); [|done|done|].
    - refine (bool_decide_unpack _ _). vm_compute. exact I.
    - assert (forall z, 0 <= z < 256 ->
        ((fun t => t mod 2 ^ 8) <$> crc16tab) !!! Z.to_nat z = (crc16tab !!! Z.to_nat z) mod 2 ^ 8) as Em.
      { intros z Hz. apply list_lookup_total_correct. rewrite list_lookup_fmap.
        rewrite (list_lookup_lookup_total_lt crc16tab) by (change (length crc16tab) with 256%nat; lia). done. }
      rewrite !Em by done. exact El. }
  rewrite Exy in E. destruct (lxor_cancel _ _ _ _ E) as [Hs _]. specialize (Hs eq_refl).
  destruct (lxor_cancel _ _ _ _ Exy) as [H1 H2]. split.
  - intros Eb. specialize (H1 Eb).
    assert (r mod 2 ^ 8 = r' mod 2 ^ 8) as E0.
    { unfold shl32, wrap in Hs. rewrite !Z.shiftl_mul_pow2 in Hs by done. unfold u_ok in *. dlia. }
    rewrite !Z.shiftr_div_pow2 in H1 by done. unfold u_ok in *. dlia.
  - intros ->. by apply H2.
Qed.

Lemma samples_bytes page : is_page page -> Forall is_byte (samples page).
Proof.
  intros [Hl Hp]. unfold samples. apply Forall_fmap, Forall_forall. intros i _. cbn.
  destruct (page !! _) as [b|] eqn:E; [by eapply Forall_lookup_1|done].
Qed.

Lemma fold_steps (f g : Z -> Z -> Z) (ok : Z -> Prop) l r :
  (forall r b, ok r -> is_byte b -> f r b = g r b /\ ok (f r b)) -> ok r -> Forall is_byte l ->
  foldl f r l = foldl g r l.
Proof.
  intros Hfg. revert r. induction l as [|b l IH]; intros r Hr Hl; [done|]. inversion Hl; subst.
  destruct (Hfg r b Hr) as [E Hok]; [done|]. cbn [foldl]. rewrite <- E. by apply IH.
Qed.

(** ** Properties *)

(** The table-driven checksums are the remainders of polynomial division: CRC8 of a page is
    the remainder of its sampled bytes by x^8+x^2+x+1, CRC16 by x^16+x^12+x^5+1, computed
    one bit at a time. *)
Theorem crc_reference page :
  is_page page ->
  CRC8 true page = poly_crc 8 0x07 (samples page) /\ CRC16 page = poly_crc 16 0x1021 (samples page).
Proof.
  intros Hp%samples_bytes. split.
  - apply (fold_steps _ _ is_byte); [|done|done]. intros r b Hr Hb.
    split; [by apply crc8_step_poly|by apply crc8_step_ok].
  - apply (fold_steps _ _ (u_ok 16)); [|done|done]. intros r b Hr Hb.
    split; [by apply crc16_step_poly|by apply crc16_step_ok].
Qed.

(** A transfer that corrupts one of the sampled bytes of a page and leaves the other samples
    alone changes both checksums; without [DCC_CRC_CHECK] no corruption of any kind changes the CRC8. *)
Theorem crc_detects page page' i b :
  is_page page -> is_page page' -> samples page' = <[i := b]> (samples page) ->
  samples page !! i <> Some b -> (i < CRC8_NUM_CHECK)%nat ->
  CRC8 true page' <> CRC8 true page /\ CRC16 page' <> CRC16 page /\ CRC8 false page' = CRC8 false page.
Proof.
  intros Hp%samples_bytes Hp'%samples_bytes Es Hb Hi.
  assert (length (samples page) = 16%nat) as Hlen by (unfold samples; by rewrite length_fmap, length_seq).
  destruct (lookup_lt_is_Some_2 (samples page) i) as [b0 H0]; [by rewrite Hlen|].
  assert (is_byte b) as Hbb.
  { rewrite Es in Hp'. eapply Forall_lookup_1; [exact Hp'|]. apply list_lookup_insert_eq. by rewrite Hlen. }
  assert (b0 <> b) as Hne by congruence.
  split; [|split; [|done]]; unfold CRC8, CRC16; rewrite Es; intros E; apply Hne; revert E.
  - by apply (fold_one_change crc8_step is_byte crc8_step_ok crc8_step_inj).
  - by apply (fold_one_change crc16_step (u_ok 16) crc16_step_ok crc16_step_inj).
Qed.

(** ** Witnesses: a page of zeros, and its byte 512 corrupted *)

Definition zero_page : list Z := replicate 4096 0.
Definition bad_page : list Z := <[512%nat := 7]> zero_page.

Lemma zero_page_ok : is_page zero_page.
Proof. split; [apply length_replicate|]. by apply Forall_replicate. Qed.
Lemma bad_page_ok : is_page bad_page.
Proof. unfold bad_page, zero_page. split; [by rewrite length_insert, length_replicate|]. apply Forall_insert; [apply zero_page_ok|done]. Qed.

Lemma crc_reference_witness :
  CRC8 true bad_page = poly_crc 8 0x07 (samples bad_page) /\ CRC16 bad_page = poly_crc 16 0x1021 (samples bad_page).
Proof. apply (crc_reference bad_page). apply bad_page_ok. Defined.

Lemma crc_detects_witness :
  CRC8 true bad_page <> CRC8 true zero_page /\ CRC16 bad_page <> CRC16 zero_page /\
  CRC8 false bad_page = CRC8 false zero_page.
Proof.
  apply (crc_detects zero_page bad_page 2 7); [apply zero_page_ok|apply bad_page_ok|..].
  - vm_compute. reflexivity.
  - vm_compute. congruence.
  - vm_compute. lia.
Defined.
