(* ===== verification/DriverUtil.v ===== *)
(** * DriverUtil: the driver's own copies of the hash functions and checksums

    [driver/util/hash.h], [driver/util/hash-funcs/], [crc8.h], [crc8.c], [crc16.h] and
    [crc16.c], with their pointers: a message is a block of bytes, a pointer an offset into
    it, and a load outside the block has no result ([None], as a loop that has not ended
    with its fuel). [driver_hashes_agree] and [driver_crcs_agree] say that no load is outside,
    that every loop ends, and that the values are those of the daemon ([HashFuncs], [Crc]):
    what both sides' filters and checksums rely on. *)
From S2P Require Import Prelude HashFuncs Crc.

(** ** Memory and loops *)

(** [n] bytes at [p], little-endian; [memcpy] of [n] bytes from [p]. *)
Definition ld (n : nat) (buf : list Z) (p : Z) : option Z :=
  if (0 <=? p) && (p + Z.of_nat n <=? Z.of_nat (length buf)) then Some (le_load n (drop (Z.to_nat p) buf)) else None.
Definition ld_block (n : Z) (buf : list Z) (p : Z) : option (list Z) :=
  if (0 <=? p) && (0 <=? n) && (p + n <=? Z.of_nat (length buf)) then Some (take (Z.to_nat n) (drop (Z.to_nat p) buf)) else None.

(** [while (cond) body], and [do body while (cond)]. *)
Fixpoint while {A} (fuel : nat) (cond : A -> bool) (body : A -> option A) (s : A) : option A :=
  match fuel with
  | O => None
  | S fuel => if cond s then s ← body s; while fuel cond body s else Some s
  end.
Definition do_while {A} (fuel : nat) (body : A -> option A) (cond : A -> bool) (s : A) : option A :=
  s ← body s; while fuel cond body s.

(** [switch (n)] with the cases [n], ..., 1 that fall through: case [i + 1] combines the
    byte [p[i]], shifted to its place. *)
Definition fall_through (shl : Z -> Z -> Z) (op : Z -> Z -> Z) (n : Z) (buf : list Z) (p : Z) (v : Z) : option Z :=
  foldl (fun (o : option Z) i =>
    v ← o; if i <? n then b ← ld 1 buf (p + i); Some (op v (shl b (8 * i))) else Some v)
    (Some v) [6; 5; 4; 3; 2; 1; 0].

(** One loop iteration consumes at least a byte. *)
Definition enough (len : Z) : nat := S (Z.to_nat len).

(** ** komihash.h *)

Module Komihash.

Definition KOMIHASH_BYTESW32 (v : Z) : Z :=
  ((v .& 0xFF000000) >> 24) .| ((v .& 0x00FF0000) >> 8)
  .| ((v .& 0x0000FF00) <<₃₂ 8) .| ((v .& 0x000000FF) <<₃₂ 24).

Definition KOMIHASH_BYTESW64 (v : Z) : Z :=
  ((v .& 0xFF00000000000000) >> 56) .| ((v .& 0x00FF000000000000) >> 40)
  .| ((v .& 0x0000FF0000000000) >> 24) .| ((v .& 0x000000FF00000000) >> 8)
  .| ((v .& 0x00000000FF000000) <<₆₄ 8) .| ((v .& 0x0000000000FF0000) <<₆₄ 24)
  .| ((v .& 0x000000000000FF00) <<₆₄ 40) .| ((v .& 0x00000000000000FF) <<₆₄ 56).

(** The endianness correction of a host. *)
Definition KOMIHASH_EC32 (big_endian : bool) (v : Z) : Z := if big_endian then KOMIHASH_BYTESW32 v else v.
Definition KOMIHASH_EC64 (big_endian : bool) (v : Z) : Z := if big_endian then KOMIHASH_BYTESW64 v else v.

Definition kh_lu32ec (buf : list Z) (p : Z) : option Z := v ← ld 4 buf p; Some (KOMIHASH_EC32 false v).
Definition kh_lu64ec (buf : list Z) (p : Z) : option Z := v ← ld 8 buf p; Some (KOMIHASH_EC64 false v).

Definition kh_lpu64 (buf : list Z) (Msg MsgEnd fb : Z) : option Z :=
  let l := to_int (MsgEnd - Msg) in
  let r := fb <<₆₄ (Z.shiftl l 3) in
  if 3 <? l then
    v ← kh_lu32ec buf Msg;
    let r := r .| v in
    let Msg := Msg + 4 in
    if Msg <? MsgEnd then
      b ← ld 1 buf Msg;
      let r := r .| (b <<₆₄ 32) in
      let Msg := Msg + 1 in
      if Msg <? MsgEnd then
        b ← ld 1 buf Msg;
        let r := r .| (b <<₆₄ 40) in
        let Msg := Msg + 1 in
        if Msg <? MsgEnd then b ← ld 1 buf Msg; Some (r .| (b <<₆₄ 48)) else Some r
      else Some r
    else Some r
  else if Msg <? MsgEnd then
    b ← ld 1 buf Msg;
    let r := r .| b in
    let Msg := Msg + 1 in
    if Msg <? MsgEnd then
      b ← ld 1 buf Msg;
      let r := r .| (b <<₆₄ 8) in
      let Msg := Msg + 1 in
      if Msg <? MsgEnd then b ← ld 1 buf Msg; Some (r .| (b <<₆₄ 16)) else Some r
    else Some r
  else Some r.

Definition kh_m128 (m1 m2 : Z) : Z * Z :=
  let r := m1 * m2 in (wrap 64 r, wrap 64 (r >> 64)).

(** The fallback without a 128-bit type. *)
Definition kh__emulu (x y : Z) : Z := x *₆₄ y.
Definition kh_m128_32 (ab cd : Z) : Z * Z :=
  let ad := kh__emulu (wrap 32 (ab >> 32)) (wrap 32 cd) in
  let bd := kh__emulu (wrap 32 ab) (wrap 32 cd) in
  let adbc := ad +₆₄ kh__emulu (wrap 32 ab) (wrap 32 (cd >> 32)) in
  let adbc_carry := if adbc <? ad then 1 else 0 in
  let lo := bd +₆₄ (adbc <<₆₄ 32) in
  let rb := kh__emulu (wrap 32 (ab >> 32)) (wrap 32 (cd >> 32)) +₆₄ (adbc >> 32)
            +₆₄ (adbc_carry <<₆₄ 32) +₆₄ (if lo <? bd then 1 else 0) in
  (lo, rb).

(** The body of the loop over blocks of 64 bytes. *)
Definition block64 (buf : list Z) (st : kh_seeds * Z) : option (kh_seeds * Z) :=
  let '(KhSeeds Seed1 Seed2 Seed3 Seed4 Seed5 Seed6 Seed7 Seed8, Msg) := st in
  w1 ← kh_lu64ec buf Msg; let Seed1 := Seed1 ⊻ w1 in
  w2 ← kh_lu64ec buf (Msg + 8); let Seed2 := Seed2 ⊻ w2 in
  w3 ← kh_lu64ec buf (Msg + 16); let Seed3 := Seed3 ⊻ w3 in
  w4 ← kh_lu64ec buf (Msg + 24); let Seed4 := Seed4 ⊻ w4 in
  w5 ← kh_lu64ec buf (Msg + 32); let Seed5 := Seed5 ⊻ w5 in
  w6 ← kh_lu64ec buf (Msg + 40); let Seed6 := Seed6 ⊻ w6 in
  w7 ← kh_lu64ec buf (Msg + 48); let Seed7 := Seed7 ⊻ w7 in
  w8 ← kh_lu64ec buf (Msg + 56); let Seed8 := Seed8 ⊻ w8 in
  let '(r1a, r1b) := kh_m128 Seed1 Seed5 in
  let '(r2a, r2b) := kh_m128 Seed2 Seed6 in
  let Seed5 := Seed5 +₆₄ r1b in
  let Seed6 := Seed6 +₆₄ r2b in
  let Seed2 := Seed5 ⊻ r2a in
  let '(r3a, r3b) := kh_m128 Seed3 Seed7 in
  let '(r4a, r4b) := kh_m128 Seed4 Seed8 in
  let Seed7 := Seed7 +₆₄ r3b in
  let Seed8 := Seed8 +₆₄ r4b in
  let Seed3 := Seed6 ⊻ r3a in
  let Seed4 := Seed7 ⊻ r4a in
  let Seed1 := Seed8 ⊻ r1a in
  Some (KhSeeds Seed1 Seed2 Seed3 Seed4 Seed5 Seed6 Seed7 Seed8, Msg + 8 * 8).

(** The body of the loop over blocks of 16 bytes. *)
Definition block16 (buf : list Z) (st : Z * Z * Z) : option (Z * Z * Z) :=
  let '(Seed1, Seed5, Msg) := st in
  w1 ← kh_lu64ec buf Msg; let Seed1 := Seed1 ⊻ w1 in
  w5 ← kh_lu64ec buf (Msg + 8); let Seed5 := Seed5 ⊻ w5 in
  let '(r1a, r1b) := kh_m128 Seed1 Seed5 in
  let Seed5 := Seed5 +₆₄ r1b in
  let Seed1 := Seed5 ⊻ r1a in
  Some (Seed1, Seed5, Msg + 8 * 2).

Definition komihash (buf : list Z) (MsgLen UseSeed : Z) : option Z :=
  let Seed1 := 0x243F6A8885A308D3 in
  let Seed2 := 0x13198A2E03707344 in
  let Seed5 := 0x452821E638D01377 in
  let Msg := 0 in
  let MsgEnd := Msg + MsgLen in
  let fb := 1 in
  let '(Seed1, Seed5) :=
    if negb (UseSeed =? 0) then
      let Seed1 := Seed1 ⊻ (UseSeed .& 0xFFFFFFFF00000000) in
      let Seed5 := Seed5 ⊻ (UseSeed <<₆₄ 32) in
      let '(r1a, r1b) := kh_m128 Seed1 Seed5 in
      let Seed5 := Seed5 +₆₄ r1b in
      (Seed5 ⊻ r1a, Seed5)
    else (Seed1, Seed5) in
  fb ← (if negb (MsgLen =? 0) then b ← ld 1 buf (MsgEnd - 1); Some (fb <<₆₄ (b >> 7)) else Some fb);
  '(Seed1, Seed2, Seed5, Msg) ←
    (if 63 <? MsgLen then
       '(KhSeeds Seed1 Seed2 Seed3 Seed4 Seed5 Seed6 Seed7 Seed8, Msg) ←
         do_while (enough MsgLen) (block64 buf) (fun '(_, Msg) => Msg <? MsgEnd - 63)
           (KhSeeds Seed1 Seed2 0xA4093822299F31D0 0x082EFA98EC4E6C89 Seed5
              0xBE5466CF34E90C6C 0xC0AC29B7C97C50DD 0x3F84D5B5B5470917, Msg);
       let '(r2a, r2b) := kh_m128 Seed2 Seed6 in
       let '(r3a, r3b) := kh_m128 Seed3 Seed7 in
       let '(r4a, r4b) := kh_m128 Seed4 Seed8 in
       let Seed6 := Seed6 +₆₄ r2b in
       let Seed7 := Seed7 +₆₄ r3b in
       let Seed8 := Seed8 +₆₄ r4b in
       let Seed2 := Seed6 ⊻ r2a in
       let Seed3 := Seed7 ⊻ r3a in
       let Seed4 := Seed8 ⊻ r4a in
       Some (Seed1, Seed2 ⊻ (Seed3 ⊻ Seed4), Seed5, Msg)
     else Some (Seed1, Seed2, Seed5, Msg));
  '(Seed1, Seed5, Msg) ← while (enough MsgLen) (fun '(_, _, Msg) => Msg <? MsgEnd - 15) (block16 buf) (Seed1, Seed5, Msg);
  '(Seed1, Seed5) ←
    (if Msg <? MsgEnd - 7 then
       w1 ← kh_lu64ec buf Msg; w5 ← kh_lpu64 buf (Msg + 8) MsgEnd fb; Some (Seed1 ⊻ w1, Seed5 ⊻ w5)
     else w1 ← kh_lpu64 buf Msg MsgEnd fb; Some (Seed1 ⊻ w1, Seed5));
  let '(r1a, r1b) := kh_m128 Seed1 Seed5 in
  let Seed5 := Seed5 +₆₄ r1b in
  let Seed1 := Seed5 ⊻ r1a in
  let '(r1a, r1b) := kh_m128 Seed1 Seed5 in
  let Seed5 := Seed5 +₆₄ r1b in
  let Seed1 := Seed5 ⊻ r1a in
  Some (Seed1 ⊻ Seed2).
End Komihash.

(** ** fasthash.h *)

Module Fasthash.

Definition mix (h : Z) : Z :=
  let h := h ⊻ (h >> 23) in
  let h := h *₆₄ 0x2127599bf4325c37 in
  h ⊻ (h >> 47).

Definition fasthash64 (buf : list Z) (len seed : Z) : option Z :=
  let m := 0x880355f21e6d1965 in
  let pos := 0 in
  let end_ := pos + 8 * (len / 8) in
  let h := seed ⊻ (len *₆₄ m) in
  '(pos, h) ← while (enough len) (fun '(pos, _) => negb (pos =? end_))
    (fun '(pos, h) => v ← ld 8 buf pos; Some (pos + 8, (h ⊻ mix v) *₆₄ m)) (pos, h);
  let pos2 := pos in
  v ← fall_through shl64 Z.lxor (len .& 7) buf pos2 0;
  let h := if 1 <=? len .& 7 then (h ⊻ mix v) *₆₄ m else h in
  Some (mix h).

Definition fasthash32 (buf : list Z) (len seed : Z) : option Z :=
  h ← fasthash64 buf len seed; Some (wrap 32 (h -₆₄ (h >> 32))).
End Fasthash.

(** ** mx3.h *)

Module Mx3.

Definition C : Z := 0xbea225f9eb34556d.

Definition mx3_mix (x : Z) : Z :=
  let x := x *₆₄ C in
  let x := x ⊻ (x >> 33) in
  let x := x *₆₄ C in
  let x := x ⊻ (x >> 29) in
  let x := x *₆₄ C in
  x ⊻ (x >> 39).

Definition mix_stream (h x : Z) : Z :=
  let x := x *₆₄ C in
  let x := x ⊻ ((x >> 57) ⊻ (x >> 33)) in
  let x := x *₆₄ C in
  let h := h +₆₄ x in
  h *₆₄ C.

(** [h = mix_stream(h, *buf64++)]. *)
Definition next_word (buf : list Z) (st : Z * Z) : option (Z * Z) :=
  let '(h, buf64) := st in v ← ld 8 buf buf64; Some (mix_stream h v, buf64 + 8).

Definition mx3 (buf : list Z) (len seed : Z) : option Z :=
  let buf64 := 0 in
  let tail := buf64 + 8 * (len / 8) in
  let h := seed ⊻ len in
  '(h, buf64, len) ← while (enough len) (fun '(_, _, len) => 32 <=? len)
    (fun '(h, buf64, len) =>
       let len := len - 32 in
       st ← next_word buf (h, buf64); st ← next_word buf st; st ← next_word buf st; '(h, buf64) ← next_word buf st;
       Some (h, buf64, len)) (h, buf64, len);
  '(h, _, len) ← while (enough len) (fun '(_, _, len) => 8 <=? len)
    (fun '(h, buf64, len) => let len := len - 8 in '(h, buf64) ← next_word buf (h, buf64); Some (h, buf64, len)) (h, buf64, len);
  v ← fall_through shl64 Z.lor (len .& 7) buf tail 0;
  let h := if 1 <=? len .& 7 then mix_stream h v else h in
  Some (mx3_mix h).
End Mx3.

(** ** xxhash.h *)

Module Xxhash.

Definition NUMBER64_1 : Z := 11400714785074694791.
Definition NUMBER64_2 : Z := 14029467366897019727.
Definition NUMBER64_3 : Z := 1609587929392839161.
Definition NUMBER64_4 : Z := 9650029242287828579.
Definition NUMBER64_5 : Z := 2870177450012600261.

Definition shifting_hash (x r : Z) : Z := (x <<₆₄ r) .| (x >> (64 - r)).

Definition TO64 (buf : list Z) (x : Z) : option Z := ld 8 buf x.
Definition TO32 (buf : list Z) (x : Z) : option Z := ld 4 buf x.
Definition hash_read64_align (buf : list Z) (ptr align : Z) : option Z := if align =? 0 then TO64 buf ptr else ld 8 buf ptr.
Definition hash_read32_align (buf : list Z) (ptr align : Z) : option Z := if align =? 0 then TO32 buf ptr else ld 4 buf ptr.

(** [v += hash_get64bits(p) * NUMBER64_2; p += 8; v = shifting_hash(v, 31); v *= NUMBER64_1]. *)
Definition lane (buf : list Z) (align v p : Z) : option (Z * Z) :=
  w ← hash_read64_align buf p align;
  let v := v +₆₄ (w *₆₄ NUMBER64_2) in
  let p := p + 8 in
  let v := shifting_hash v 31 in
  Some (v *₆₄ NUMBER64_1, p).

(** [v *= NUMBER64_2; ...; hash ^= v; hash = hash * NUMBER64_1 + NUMBER64_4]. *)
Definition merge (hash v : Z) : Z :=
  let v := v *₆₄ NUMBER64_2 in
  let v := shifting_hash v 31 in
  let v := v *₆₄ NUMBER64_1 in
  let hash := hash ⊻ v in
  (hash *₆₄ NUMBER64_1) +₆₄ NUMBER64_4.

Definition hash_compute (buf : list Z) (length seed align : Z) : option Z :=
  let p := 0 in
  let end_ := p + length in
  '(hash, p) ←
    (if 32 <=? length then
       let limitation := end_ - 32 in
       '(v1, v2, v3, v4, p) ←
         do_while (enough length)
           (fun '(v1, v2, v3, v4, p) =>
              '(v1, p) ← lane buf align v1 p; '(v2, p) ← lane buf align v2 p;
              '(v3, p) ← lane buf align v3 p; '(v4, p) ← lane buf align v4 p;
              Some (v1, v2, v3, v4, p))
           (fun '(_, _, _, _, p) => p <=? limitation)
           (seed +₆₄ NUMBER64_1 +₆₄ NUMBER64_2, seed +₆₄ NUMBER64_2, seed +₆₄ 0, seed -₆₄ NUMBER64_1, p);
       let hash := shifting_hash v1 1 +₆₄ shifting_hash v2 7 +₆₄ shifting_hash v3 12 +₆₄ shifting_hash v4 18 in
       let hash := merge hash v1 in
       let hash := merge hash v2 in
       let hash := merge hash v3 in
       let hash := merge hash v4 in
       Some (hash, p)
     else Some (seed +₆₄ NUMBER64_5, p));
  let hash := hash +₆₄ length in
  '(hash, p) ← while (enough length) (fun '(_, p) => p + 8 <=? end_)
    (fun '(hash, p) =>
       k1 ← hash_read64_align buf p align;
       let k1 := k1 *₆₄ NUMBER64_2 in
       let k1 := shifting_hash k1 31 in
       let k1 := k1 *₆₄ NUMBER64_1 in
       let hash := hash ⊻ k1 in
       let hash := (shifting_hash hash 27 *₆₄ NUMBER64_1) +₆₄ NUMBER64_4 in
       Some (hash, p + 8)) (hash, p);
  '(hash, p) ←
    (if p + 4 <=? end_ then
       w ← hash_read32_align buf p align;
       let hash := hash ⊻ (w *₆₄ NUMBER64_1) in
       Some ((shifting_hash hash 23 *₆₄ NUMBER64_2) +₆₄ NUMBER64_3, p + 4)
     else Some (hash, p));
  '(hash, p) ← while (enough length) (fun '(_, p) => p <? end_)
    (fun '(hash, p) =>
       b ← ld 1 buf p;
       let hash := hash ⊻ (b *₆₄ NUMBER64_5) in
       Some (shifting_hash hash 11 *₆₄ NUMBER64_1, p + 1)) (hash, p);
  let hash := hash ⊻ (hash >> 33) in
  let hash := hash *₆₄ NUMBER64_2 in
  let hash := hash ⊻ (hash >> 29) in
  let hash := hash *₆₄ NUMBER64_3 in
  let hash := hash ⊻ (hash >> 32) in
  Some hash.

(** [addr] is the address of the message. *)
Definition xxhash (addr : Z) (buf : list Z) (length seed : Z) : option Z :=
  if addr .& 7 =? 0 then hash_compute buf length seed 1 else hash_compute buf length seed 0.
End Xxhash.

(** ** jenkins.h, standard.h: a byte at a time, as a signed [char] *)

Definition jenkins (buf : list Z) (_len _seed : Z) : option Z :=
  '(_, hash) ← while (enough _len) (fun '(i, _) => negb (i =? _len))
    (fun '(i, hash) =>
       b ← ld 1 buf i;
       let i := i + 1 in
       let hash := hash +₆₄ sext8 b in
       let hash := hash +₆₄ (hash <<₆₄ 10) in
       Some (i, hash ⊻ (hash >> 6))) (0, 0);
  let hash := hash +₆₄ (hash <<₆₄ 3) in
  let hash := hash ⊻ (hash >> 11) in
  Some (hash +₆₄ (hash <<₆₄ 15)).

Definition standard (buf : list Z) (_len _seed : Z) : option Z :=
  '(_, _, _seed) ← while (enough _len) (fun '(_, _len, _) => negb (_len =? 0))
    (fun '(cptr, _len, _seed) =>
       b ← ld 1 buf cptr;
       let _seed := _seed ⊻ sext8 b in
       Some (cptr + 1, _len - 1, _seed *₆₄ 1099511628211)) (0, _len, _seed);
  Some _seed.

(** ** pengyhash.h *)

(** The four assignments of a round. *)
Definition pengy_mix (b : pengy_block) (seed : Z) (s : pengy) : pengy :=
  let '(Pengy s0 s1 s2 s3) := s in
  let s0 := s0 +₆₄ (s1 +₆₄ pb3 b) in
  let s1 := s0 +₆₄ ((s1 <<₆₄ 14) .| (s1 >> 50)) +₆₄ seed in
  let s2 := s2 +₆₄ (s3 +₆₄ pb2 b) in
  let s3 := s2 +₆₄ ((s3 <<₆₄ 23) .| (s3 >> 41)) in
  let s0 := s0 +₆₄ (s3 +₆₄ pb1 b) in
  let s3 := s0 ⊻ ((s3 <<₆₄ 16) .| (s3 >> 48)) in
  let s2 := s2 +₆₄ (s1 +₆₄ pb0 b) in
  let s1 := s2 ⊻ ((s1 <<₆₄ 40) .| (s1 >> 24)) in
  Pengy s0 s1 s2 s3.

Definition pengyhash (buf : list Z) (size seed : Z) : option Z :=
  '(b, s, p, size) ← while (enough size) (fun '(_, _, _, size) => 32 <=? size)
    (fun '(b, s, p, size) =>
       l ← ld_block 32 buf p;
       let b := pengy_memcpy b l in
       Some (b, pengy_mix b 0 s, p + 32, size - 32)) (PengyBlock 0 0 0 0, Pengy 0 0 0 size, 0, size);
  l ← ld_block size buf p;
  let b := pengy_memcpy b l in
  let s := Nat.iter 6 (pengy_mix b seed) s in
  Some (ps0 s +₆₄ ps1 s +₆₄ ps2 s +₆₄ ps3 s).

(** ** murmur2.h *)

Definition MurmurHash64A (buf : list Z) (len seed : Z) : option Z :=
  let m := 0xc6a4a7935bd1e995 in
  let r := 47 in
  let h := seed ⊻ (len *₆₄ m) in
  let data := 0 in
  let end_ := data + 8 * (len / 8) in
  '(data, h) ← while (enough len) (fun '(data, _) => negb (data =? end_))
    (fun '(data, h) =>
       k ← ld 8 buf data;
       let k := k *₆₄ m in
       let k := k ⊻ (k >> r) in
       let k := k *₆₄ m in
       Some (data + 8, (h ⊻ k) *₆₄ m)) (data, h);
  let data2 := data in
  h ← fall_through shl64 Z.lxor (len .& 7) buf data2 h;
  let h := if 1 <=? len .& 7 then h *₆₄ m else h in
  let h := h ⊻ (h >> r) in
  let h := h *₆₄ m in
  Some (h ⊻ (h >> r)).

(** [h] and [k] are [unsigned int]. *)
Definition murmur2 (buf : list Z) (len seed : Z) : option Z :=
  let m := 0x5bd1e995 in
  let r := 24 in
  let h := wrap 32 (seed ⊻ len) in
  '(h, data, len) ← while (enough len) (fun '(_, _, len) => 4 <=? len)
    (fun '(h, data, len) =>
       k ← ld 4 buf data;
       let k := k *₃₂ m in
       let k := k ⊻ (k >> r) in
       let k := k *₃₂ m in
       let h := h *₃₂ m in
       Some (h ⊻ k, data + 4, len - 4)) (h, 0, len);
  h ← fall_through shl32 Z.lxor len buf data h;
  let h := if 1 <=? len then h *₃₂ m else h in
  let h := h ⊻ (h >> 13) in
  let h := h *₃₂ m in
  Some (h ⊻ (h >> 15)).

(** ** hash.h *)

Definition f_seed : Z := 0x2B12647CD1C7F697.
Definition s_seed : Z := 0x9549A2C424952156.

(** [addr] is the address of the message in the block's memory. *)
Definition hash_funcs (addr : Z) : list (list Z -> Z -> Z -> option Z) :=
  [Komihash.komihash; Fasthash.fasthash64; Mx3.mx3; Xxhash.xxhash addr; jenkins; pengyhash; MurmurHash64A; standard].
Definition h (addr : Z) (key : list Z) (len seed : Z) : option Z :=
  match hash_funcs addr !! 0%nat with Some f => f key len seed | None => None end.

(** ** crc8.c, crc16.c: the tables *)

Definition crc8tab : list Z :=
  [0x00; 0x07; 0x0e; 0x09; 0x1c; 0x1b; 0x12; 0x15;
   0x38; 0x3f; 0x36; 0x31; 0x24; 0x23; 0x2a; 0x2d;
   0x70; 0x77; 0x7e; 0x79; 0x6c; 0x6b; 0x62; 0x65;
   0x48; 0x4f; 0x46; 0x41; 0x54; 0x53; 0x5a; 0x5d;
   0xe0; 0xe7; 0xee; 0xe9; 0xfc; 0xfb; 0xf2; 0xf5;
   0xd8; 0xdf; 0xd6; 0xd1; 0xc4; 0xc3; 0xca; 0xcd;
   0x90; 0x97; 0x9e; 0x99; 0x8c; 0x8b; 0x82; 0x85;
   0xa8; 0xaf; 0xa6; 0xa1; 0xb4; 0xb3; 0xba; 0xbd;
   0xc7; 0xc0; 0xc9; 0xce; 0xdb; 0xdc; 0xd5; 0xd2;
   0xff; 0xf8; 0xf1; 0xf6; 0xe3; 0xe4; 0xed; 0xea;
   0xb7; 0xb0; 0xb9; 0xbe; 0xab; 0xac; 0xa5; 0xa2;
   0x8f; 0x88; 0x81; 0x86; 0x93; 0x94; 0x9d; 0x9a;
   0x27; 0x20; 0x29; 0x2e; 0x3b; 0x3c; 0x35; 0x32;
   0x1f; 0x18; 0x11; 0x16; 0x03; 0x04; 0x0d; 0x0a;
   0x57; 0x50; 0x59; 0x5e; 0x4b; 0x4c; 0x45; 0x42;
   0x6f; 0x68; 0x61; 0x66; 0x73; 0x74; 0x7d; 0x7a;
   0x89; 0x8e; 0x87; 0x80; 0x95; 0x92; 0x9b; 0x9c;
   0xb1; 0xb6; 0xbf; 0xb8; 0xad; 0xaa; 0xa3; 0xa4;
   0xf9; 0xfe; 0xf7; 0xf0; 0xe5; 0xe2; 0xeb; 0xec;
   0xc1; 0xc6; 0xcf; 0xc8; 0xdd; 0xda; 0xd3; 0xd4;
   0x69; 0x6e; 0x67; 0x60; 0x75; 0x72; 0x7b; 0x7c;
   0x51; 0x56; 0x5f; 0x58; 0x4d; 0x4a; 0x43; 0x44;
   0x19; 0x1e; 0x17; 0x10; 0x05; 0x02; 0x0b; 0x0c;
   0x21; 0x26; 0x2f; 0x28; 0x3d; 0x3a; 0x33; 0x34;
   0x4e; 0x49; 0x40; 0x47; 0x52; 0x55; 0x5c; 0x5b;
   0x76; 0x71; 0x78; 0x7f; 0x6a; 0x6d; 0x64; 0x63;
   0x3e; 0x39; 0x30; 0x37; 0x22; 0x25; 0x2c; 0x2b;
   0x06; 0x01; 0x08; 0x0f; 0x1a; 0x1d; 0x14; 0x13;
   0xae; 0xa9; 0xa0; 0xa7; 0xb2; 0xb5; 0xbc; 0xbb;
   0x96; 0x91; 0x98; 0x9f; 0x8a; 0x8d; 0x84; 0x83;
   0xde; 0xd9; 0xd0; 0xd7; 0xc2; 0xc5; 0xcc; 0xcb;
   0xe6; 0xe1; 0xe8; 0xef; 0xfa; 0xfd; 0xf4; 0xf3].

Definition crc16tab : list Z :=
  [0x0000; 0x1021; 0x2042; 0x3063; 0x4084; 0x50a5; 0x60c6; 0x70e7;
   0x8108; 0x9129; 0xa14a; 0xb16b; 0xc18c; 0xd1ad; 0xe1ce; 0xf1ef;
   0x1231; 0x0210; 0x3273; 0x2252; 0x52b5; 0x4294; 0x72f7; 0x62d6;
   0x9339; 0x8318; 0xb37b; 0xa35a; 0xd3bd; 0xc39c; 0xf3ff; 0xe3de;
   0x2462; 0x3443; 0x0420; 0x1401; 0x64e6; 0x74c7; 0x44a4; 0x5485;
   0xa56a; 0xb54b; 0x8528; 0x9509; 0xe5ee; 0xf5cf; 0xc5ac; 0xd58d;
   0x3653; 0x2672; 0x1611; 0x0630; 0x76d7; 0x66f6; 0x5695; 0x46b4;
   0xb75b; 0xa77a; 0x9719; 0x8738; 0xf7df; 0xe7fe; 0xd79d; 0xc7bc;
   0x48c4; 0x58e5; 0x6886; 0x78a7; 0x0840; 0x1861; 0x2802; 0x3823;
   0xc9cc; 0xd9ed; 0xe98e; 0xf9af; 0x8948; 0x9969; 0xa90a; 0xb92b;
   0x5af5; 0x4ad4; 0x7ab7; 0x6a96; 0x1a71; 0x0a50; 0x3a33; 0x2a12;
   0xdbfd; 0xcbdc; 0xfbbf; 0xeb9e; 0x9b79; 0x8b58; 0xbb3b; 0xab1a;
   0x6ca6; 0x7c87; 0x4ce4; 0x5cc5; 0x2c22; 0x3c03; 0x0c60; 0x1c41;
   0xedae; 0xfd8f; 0xcdec; 0xddcd; 0xad2a; 0xbd0b; 0x8d68; 0x9d49;
   0x7e97; 0x6eb6; 0x5ed5; 0x4ef4; 0x3e13; 0x2e32; 0x1e51; 0x0e70;
   0xff9f; 0xefbe; 0xdfdd; 0xcffc; 0xbf1b; 0xaf3a; 0x9f59; 0x8f78;
   0x9188; 0x81a9; 0xb1ca; 0xa1eb; 0xd10c; 0xc12d; 0xf14e; 0xe16f;
   0x1080; 0x00a1; 0x30c2; 0x20e3; 0x5004; 0x4025; 0x7046; 0x6067;
   0x83b9; 0x9398; 0xa3fb; 0xb3da; 0xc33d; 0xd31c; 0xe37f; 0xf35e;
   0x02b1; 0x1290; 0x22f3; 0x32d2; 0x4235; 0x5214; 0x6277; 0x7256;
   0xb5ea; 0xa5cb; 0x95a8; 0x8589; 0xf56e; 0xe54f; 0xd52c; 0xc50d;
   0x34e2; 0x24c3; 0x14a0; 0x0481; 0x7466; 0x6447; 0x5424; 0x4405;
   0xa7db; 0xb7fa; 0x8799; 0x97b8; 0xe75f; 0xf77e; 0xc71d; 0xd73c;
   0x26d3; 0x36f2; 0x0691; 0x16b0; 0x6657; 0x7676; 0x4615; 0x5634;
   0xd94c; 0xc96d; 0xf90e; 0xe92f; 0x99c8; 0x89e9; 0xb98a; 0xa9ab;
   0x5844; 0x4865; 0x7806; 0x6827; 0x18c0; 0x08e1; 0x3882; 0x28a3;
   0xcb7d; 0xdb5c; 0xeb3f; 0xfb1e; 0x8bf9; 0x9bd8; 0xabbb; 0xbb9a;
   0x4a75; 0x5a54; 0x6a37; 0x7a16; 0x0af1; 0x1ad0; 0x2ab3; 0x3a92;
   0xfd2e; 0xed0f; 0xdd6c; 0xcd4d; 0xbdaa; 0xad8b; 0x9de8; 0x8dc9;
   0x7c26; 0x6c07; 0x5c64; 0x4c45; 0x3ca2; 0x2c83; 0x1ce0; 0x0cc1;
   0xef1f; 0xff3e; 0xcf5d; 0xdf7c; 0xaf9b; 0xbfba; 0x8fd9; 0x9ff8;
   0x6e17; 0x7e36; 0x4e55; 0x5e74; 0x2e93; 0x3eb2; 0x0ed1; 0x1ef0].

(** ** crc8.h, crc16.h *)

(** A byte as the signed [char] that [*buf] is. *)
Definition schar (b : Z) : Z := if b <? 128 then b else b - 256.

Definition CRC8_NUM_CHECK : Z := 16.
Definition CRC16_NUM_CHECK : Z := 16.

(** [for (i = 0; i < CRC8_NUM_CHECK; i++)]; without [DCC_CRC_CHECK], which the header leaves out, 0. *)
Definition CRC8 (DCC_CRC_CHECK : bool) (page : list Z) : option Z :=
  if DCC_CRC_CHECK then
    let stride := 4096 / CRC8_NUM_CHECK in
    '(_, _, crc) ← while 17 (fun '(i, _, _) => i <? CRC8_NUM_CHECK)
      (fun '(i, buf, crc) =>
         b ← ld 1 page buf;
         crc ← crc8tab !! Z.to_nat (Z.lxor crc (schar b) .& 0xff);
         Some (i + 1, buf + stride, crc)) (0, 0, 0);
    Some crc
  else Some 0.

(** [for (i = 0; i < 4096; i += stride)]. *)
Definition CRC16 (page : list Z) : option Z :=
  let stride := 4096 / CRC16_NUM_CHECK in
  '(_, _, crc) ← while 17 (fun '(i, _, _) => i <? 4096)
    (fun '(i, buf, crc) =>
       b ← ld 1 page buf;
       w ← crc16tab !! Z.to_nat (Z.lxor (crc >> 8) (schar b) .& 0x00FF);
       Some (i + stride, buf + stride, wrap 16 (Z.lxor (Z.shiftl crc 8) w))) (0, 0, 0);
  Some crc.

Definition CRC16_CHECK (DCC_CRC_CHECK : bool) (crc16 : Z) (page : list Z) : option Z :=
  if DCC_CRC_CHECK then c ← CRC16 page; Some (if negb (crc16 =? c) then 1 else 0) else Some 0.

(** ** Lemmas: pointers *)

(** [p] points to the last [length Msg] bytes of the block, [Msg]. *)
Definition points (buf : list Z) (p : Z) (Msg : list Z) : Prop :=
  0 <= p /\ drop (Z.to_nat p) buf = Msg /\ p + Z.of_nat (length Msg) = Z.of_nat (length buf).

Section pointers.
Context (buf : list Z).

Lemma points_start : points buf 0 buf.
Proof. by split_and!. Qed.

Lemma points_add p k Msg : (k <= length Msg)%nat -> points buf p Msg -> points buf (p + Z.of_nat k) (drop k Msg).
Proof.
  intros Hk (Hp & <- & Hl). rewrite length_drop in *. split; [lia|]. rewrite drop_drop. split; [f_equal; lia|].
  rewrite length_drop. lia.
Qed.

(** Loading at [q], [k] bytes behind [p]. *)
Lemma ld_at n p q k Msg :
  points buf p Msg -> q = p + Z.of_nat k -> (k + n <= length Msg)%nat -> ld n buf q = Some (le_load n (drop k Msg)).
Proof.
  intros (Hp & <- & Hl) -> Hk. rewrite length_drop in *. unfold ld.
  rewrite (proj2 (Z.leb_le _ _)), (proj2 (Z.leb_le _ _)) by lia. cbn [andb]. rewrite drop_drop. do 3 f_equal. lia.
Qed.

Lemma ld_block_at n p Msg : points buf p Msg -> (n <= length Msg)%nat -> ld_block (Z.of_nat n) buf p = Some (take n Msg).
Proof.
  intros (Hp & <- & Hl) Hn. rewrite length_drop in *. unfold ld_block.
  rewrite !(proj2 (Z.leb_le _ _)) by lia. cbn [andb]. by rewrite Nat2Z.id.
Qed.

Lemma ld_byte p q k Msg : points buf p Msg -> q = p + Z.of_nat k -> (k < length Msg)%nat -> ld 1 buf q = Some (byte_at k Msg).
Proof.
  intros HP Hq Hk. rewrite (ld_at 1 p q k Msg) by (done || lia). cbn [le_load].
  rewrite Z.shiftl_0_l, Z.lor_0_r. unfold byte_at. f_equal. by rewrite !nth_lookup, lookup_drop, Nat.add_0_r.
Qed.
End pointers.

(** Rewrites the loads of a step at [p + c], where [HP : points buf p Msg]. *)
Ltac loads HP :=
  match type of HP with
  | points ?buf ?p ?Msg =>
      repeat match goal with
      | |- context [ld ?n buf ?q] =>
          let k := match q with
                   | p => constr:(0%nat)
                   | p + ?c => let k := eval vm_compute in (Z.to_nat c) in k
                   end in
          rewrite (ld_at buf n p q k Msg HP) by lia
      end
  end; cbn [mbind option_bind drop].

(** ** Lemmas: loops *)

(** The loop without pointers. *)
Fixpoint rwhile {B} (fuel : nat) (cond : B -> bool) (body : B -> B) (s : B) : B :=
  match fuel with
  | O => s
  | S fuel => if cond s then rwhile fuel cond body (body s) else s
  end.

Section simulation.
Context {A B : Type} (R : A -> B -> Prop) (size : B -> nat).
Context (condA : A -> bool) (bodyA : A -> option A) (condB : B -> bool) (bodyB : B -> B).
Hypothesis sim_cond : forall a b, R a b -> condA a = condB b.
Hypothesis sim_body : forall a b, R a b -> condB b = true ->
  exists a', bodyA a = Some a' /\ R a' (bodyB b) /\ (size (bodyB b) < size b)%nat.

Lemma while_sim f g a b : R a b -> (size b <= f)%nat -> (size b <= g)%nat ->
  exists a', while (S f) condA bodyA a = Some a' /\ R a' (rwhile g condB bodyB b) /\ condB (rwhile g condB bodyB b) = false.
Proof.
  revert g a b. induction f as [|f IH]; intros g a b HR Hf Hg; cbn [while]; rewrite (sim_cond _ _ HR);
    destruct (condB b) eqn:Ec; [destruct (sim_body a b HR Ec) as (a' & Ea & HR' & Hs); lia| | |].
  - exists a. destruct g; cbn [rwhile]; by rewrite ?Ec.
  - destruct (sim_body a b HR Ec) as (a' & Ea & HR' & Hs). destruct g as [|g]; [lia|]. rewrite Ea. cbn [mbind option_bind rwhile].
    rewrite Ec. apply IH; [done|lia|lia].
  - exists a. destruct g; cbn [rwhile]; by rewrite ?Ec.
Qed.

(** The reference's loops that test after the body, with one more unit of fuel. *)
Lemma do_while_sim f g a b : R a b -> condB b = true -> (size b <= f)%nat -> (size b <= S g)%nat ->
  exists a', do_while (S f) bodyA condA a = Some a' /\ R a' (rwhile g condB bodyB (bodyB b)) /\ condB (rwhile g condB bodyB (bodyB b)) = false.
Proof.
  intros HR Ec Hf Hg. unfold do_while. destruct (sim_body a b HR Ec) as (a' & Ea & HR' & Hs). rewrite Ea.
  cbn [mbind option_bind]. apply while_sim; [done|lia|lia].
Qed.
End simulation.

(** A loop over the bytes is a fold. *)
Lemma rwhile_foldl {S} (step : S -> Z -> S) g s l : (length l <= g)%nat ->
  rwhile g (fun '(_, l) => (0 <? length l)%nat) (fun '(s, l) => (step s (byte_at 0 l), tail l)) (s, l) = (foldl step s l, []).
Proof.
  revert s l. induction g as [|g IH]; intros s [|b l] Hg; cbn in Hg |- *; try done; [lia|]. apply IH. lia.
Qed.

(** ** Lemmas: the switches over the last bytes *)

Lemma fall_through_spec shl op buf p Msg v :
  points buf p Msg -> (length Msg <= 7)%nat ->
  fall_through shl op (Z.of_nat (length Msg)) buf p v =
    Some (foldr (fun i v => op v (shl (byte_at i Msg) (8 * Z.of_nat i))) v (seq 0 (length Msg))).
Proof.
  intros HP Hl. unfold fall_through.
  assert (forall i : nat, (i < length Msg)%nat -> ld 1 buf (p + Z.of_nat i) = Some (byte_at i Msg)) as HL.
  { intros i Hi. by apply (ld_byte buf p _ i Msg HP). }
  pose proof (HL 0%nat) as H0; pose proof (HL 1%nat) as H1; pose proof (HL 2%nat) as H2; pose proof (HL 3%nat) as H3;
    pose proof (HL 4%nat) as H4; pose proof (HL 5%nat) as H5; pose proof (HL 6%nat) as H6.
  destruct Msg as [|b0 [|b1 [|b2 [|b3 [|b4 [|b5 [|b6 [|]]]]]]]]; cbn [length] in *; try lia;
    cbv [Z.of_nat Pos.of_succ_nat Pos.succ Z.ltb Z.compare Pos.compare Pos.compare_cont] in *;
    cbn [foldl mbind option_bind foldr seq]; rewrite ?H0, ?H1, ?H2, ?H3, ?H4, ?H5, ?H6 by lia; reflexivity.
Qed.

(** [len & 7] is what the words of eight bytes leave over. *)
Lemma land7 n : n .& 7 = n mod 8.
Proof. change 7 with (Z.ones 3). by rewrite Z.land_ones. Qed.

(** A loop over words of eight bytes. *)
Fixpoint words {S} (step : S -> Z -> S) (n : nat) (s : S) (l : list Z) : S * list Z :=
  match n with O => (s, l) | Datatypes.S n => words step n (step s (le_load 8 l)) (drop 8 l) end.

Definition word_cond {S} (st : S * list Z) : bool := (8 <=? length st.2)%nat.
Definition word_body {S} (step : S -> Z -> S) (st : S * list Z) : S * list Z := (step st.1 (le_load 8 st.2), drop 8 st.2).

Lemma rwhile_words {S} (step : S -> Z -> S) g s l : (length l <= g)%nat ->
  rwhile g word_cond (word_body step) (s, l) = words step (length l / 8) s l.
Proof.
  revert s l. induction g as [|g IH]; intros s l Hg.
  - destruct l; [done|cbn in Hg; lia].
  - cbn [rwhile word_cond word_body fst snd]. unfold word_cond. cbn [snd]. destruct (Nat.leb_spec 8 (length l)) as [H|H].
    + unfold word_body. cbn [fst snd]. rewrite IH by (rewrite length_drop; lia). rewrite length_drop.
      replace (length l / 8)%nat with (Datatypes.S ((length l - 8) / 8)); [done|].
      replace (length l) with (1 * 8 + (length l - 8))%nat at 2 by lia. by rewrite Nat.div_add_l.
    + by rewrite Nat.div_small.
Qed.

Lemma words_fasthash n m h l : fasthash_words n m h l = words (fun h v => (h ⊻ HashFuncs.mix v) *₆₄ m) n h l.
Proof. revert h l. induction n as [|n IH]; intros h l; [done|]. apply IH. Qed.
Lemma words_murmur n m h l : murmur_words n m h l = words (fun h v => (h ⊻ murmur_k m v) *₆₄ m) n h l.
Proof. revert h l. induction n as [|n IH]; intros h l; [done|]. apply IH. Qed.

(** The pointer loop [while (pos != end)] over whole words: the words, and a pointer to the rest. *)
Lemma word_loop buf step (bodyA : Z * Z -> option (Z * Z)) h0 :
  let len := Z.of_nat (length buf) in
  (forall pos h Msg, points buf pos Msg -> (8 <= length Msg)%nat -> bodyA (pos, h) = Some (pos + 8, step h (le_load 8 Msg))) ->
  exists pos, while (enough len) (fun '(pos, _) => negb (pos =? 0 + 8 * (len / 8))) bodyA (0, h0) =
      Some (pos, (words step (length buf / 8) h0 buf).1) /\
    points buf pos (words step (length buf / 8) h0 buf).2 /\
    len .& 7 = Z.of_nat (length (words step (length buf / 8) h0 buf).2) /\ (length (words step (length buf / 8) h0 buf).2 <= 7)%nat.
Proof.
  intros len Hb.
  destruct (while_sim (fun '(pos, h) (st : Z * list Z) => st.1 = h /\ points buf pos st.2 /\ pos + 8 * (Z.of_nat (length st.2) / 8) = 8 * (len / 8))
    (fun st => length st.2) (fun '(pos, _) => negb (pos =? 0 + 8 * (len / 8))) bodyA word_cond (word_body step)) with
    (f := Z.to_nat len) (g := length buf) (a := (0, h0)) (b := (h0, buf)) as ([pos h] & E & (Eh & HP & He) & Hx).
  - intros [pos h] [h' Msg] (_ & HP & He). cbn [fst snd word_cond] in *. unfold word_cond. cbn [snd].
    destruct (Nat.leb_spec 8 (length Msg)); destruct (Z.eqb_spec pos (0 + 8 * (len / 8))); try done; exfalso;
      Z.to_euclidean_division_equations; lia.
  - intros [pos h] [h' Msg] (<- & HP & He) Hc. cbn [fst snd] in *. unfold word_cond in Hc. cbn [snd] in Hc. apply Nat.leb_le in Hc.
    eexists. split; [by apply Hb|]. unfold word_body. cbn [fst snd]. rewrite length_drop. split; [|lia]. split; [done|].
    split; [by apply (points_add buf pos 8)|]. rewrite <- He. Z.to_euclidean_division_equations; lia.
  - cbn. split; [done|]. split; [apply points_start|]. unfold len. lia.
  - unfold len. cbn. lia.
  - cbn. lia.
  - rewrite rwhile_words in Eh, HP, He, Hx by lia. exists pos. unfold enough. rewrite E, <- Eh.
    unfold word_cond in Hx. apply Nat.leb_gt in Hx. split_and!; [done|done| |lia].
    destruct HP as (_ & _ & HP). rewrite land7. fold len in HP. Z.to_euclidean_division_equations; lia.
Qed.

(** ** Lemmas: one per function *)

Ltac lbool :=
  repeat match goal with
  | |- context [?a <? ?b] => first [rewrite (proj2 (Z.ltb_lt a b)) by lia | rewrite (proj2 (Z.ltb_ge a b)) by lia]
  | |- context [?a <=? ?b] => first [rewrite (proj2 (Z.leb_le a b)) by lia | rewrite (proj2 (Z.leb_gt a b)) by lia]
  | |- context [?a =? ?b] => first [rewrite (proj2 (Z.eqb_eq a b)) by lia | rewrite (proj2 (Z.eqb_neq a b)) by lia]
  end.

Section functions.
Context (buf : list Z) (seed : Z).
Abbreviation len := (Z.of_nat (length buf)).

Lemma tail_test {A} (l : list Z) (x y : A) :
  (if 1 <=? Z.of_nat (length l) then x else y) = (if (length l =? 0)%nat then y else x).
Proof. destruct l; cbn [length]; [done|]. by rewrite (proj2 (Z.leb_le _ _)) by lia. Qed.

Lemma fasthash64_eq : Fasthash.fasthash64 buf len seed = Some (HashFuncs.fasthash64 buf seed).
Proof.
  unfold Fasthash.fasthash64, HashFuncs.fasthash64. rewrite words_fasthash. set (m := 0x880355f21e6d1965).
  match goal with |- context [while _ _ ?body _] =>
    destruct (word_loop buf (fun h v => (h ⊻ HashFuncs.mix v) *₆₄ m) body (seed ⊻ (len *₆₄ m))) as (pos & E & HP & El & Hl); [|rewrite E; clear E] end.
  - intros pos h Msg HP Hl. loads HP. reflexivity.
  - destruct (words _ _ _ _) as [h pos2]. cbn [fst snd mbind option_bind] in *. rewrite El.
    rewrite (fall_through_spec _ _ _ _ pos2) by done. cbn [mbind option_bind]. by rewrite tail_test.
Qed.

Lemma fasthash32_eq : Fasthash.fasthash32 buf len seed = Some (HashFuncs.fasthash32 buf seed).
Proof. unfold Fasthash.fasthash32. by rewrite fasthash64_eq. Qed.

(** The murmur switch folds into the hash itself. *)
Lemma xor_tail (f : nat -> Z) h l : foldr (fun i v => v ⊻ f i) h l = h ⊻ foldr (fun i v => v ⊻ f i) 0 l.
Proof. induction l as [|i l IH]; cbn [foldr]; [by rewrite Z.lxor_0_r|]. by rewrite IH, Z.lxor_assoc. Qed.

Lemma MurmurHash64A_eq : MurmurHash64A buf len seed = Some (HashFuncs.MurmurHash64A buf seed).
Proof.
  unfold MurmurHash64A, HashFuncs.MurmurHash64A. rewrite words_murmur. set (m := 0xc6a4a7935bd1e995).
  match goal with |- context [while _ _ ?body _] =>
    destruct (word_loop buf (fun h v => (h ⊻ murmur_k m v) *₆₄ m) body (seed ⊻ (len *₆₄ m))) as (pos & E & HP & El & Hl); [|rewrite E; clear E] end.
  - intros pos h Msg HP Hl. loads HP. reflexivity.
  - destruct (words _ _ _ _) as [h data2]. cbn [fst snd mbind option_bind] in *. rewrite El.
    rewrite (fall_through_spec _ _ _ _ data2) by done. cbn [mbind option_bind]. rewrite tail_test, xor_tail.
    unfold tail_xor. destruct data2; [cbn [length Nat.eqb seq foldr]; by rewrite Z.lxor_0_r|done].
Qed.

(** A loop over the bytes: [while (p < end)], [while (i != _len)], [for (; _len; --_len)]. *)
Lemma byte_loop {A S} (proj : A -> Z * S) cond (bodyA : A -> option A) (step : S -> Z -> S) a0 p s Msg :
  (forall a p s Msg, proj a = (p, s) -> points buf p Msg -> cond a = (0 <? length Msg)%nat) ->
  (forall a p s Msg, proj a = (p, s) -> points buf p Msg -> (0 < length Msg)%nat ->
     exists a', bodyA a = Some a' /\ proj a' = (p + 1, step s (byte_at 0 Msg))) ->
  proj a0 = (p, s) -> points buf p Msg ->
  exists a, while (enough len) cond bodyA a0 = Some a /\ (proj a).2 = foldl step s Msg.
Proof.
  intros Hc Hb Ha HP.
  destruct (while_sim (fun a (st : S * list Z) => exists p, proj a = (p, st.1) /\ points buf p st.2) (fun st => length st.2)
    cond bodyA (fun '(_, l) => (0 <? length l)%nat) (fun '(s, l) => (step s (byte_at 0 l), tail l)))
    with (f := Z.to_nat len) (g := length Msg) (a := a0) (b := (s, Msg)) as (a & E & (q & Eq & _) & _).
  - intros a [s' l] (q & Eq & Hq). by apply (Hc _ q s').
  - intros a [s' l] (q & Eq & Hq) Hl. cbn [fst snd] in *. apply Nat.ltb_lt in Hl.
    destruct (Hb a q s' l Eq Hq Hl) as (a' & E & Ea). exists a'. split; [done|]. cbn [fst snd]. split.
    + exists (q + 1). split; [done|]. replace (tail l) with (drop 1 l) by by destruct l. by apply (points_add buf q 1).
    + destruct l; cbn in *; lia.
  - by exists p.
  - cbn. destruct HP as (? & _ & ?). lia.
  - cbn. lia.
  - exists a. split; [exact E|]. rewrite Eq. rewrite rwhile_foldl by done. done.
Qed.

Lemma jenkins_eq : jenkins buf len seed = Some (HashFuncs.jenkins buf seed).
Proof.
  unfold jenkins, HashFuncs.jenkins. set (step := fun hash b => _).
  match goal with |- context [while _ ?cond ?body _] =>
    destruct (byte_loop (fun a : Z * Z => a) cond body step (0, 0) 0 0 buf) as ([i hash] & E & Eh); [| | | |rewrite E; clear E] end.
  - intros [i hash] p s Msg [= -> ->] (_ & _ & Hp). destruct (Z.eqb_spec p len), (Nat.ltb_spec 0 (length Msg)); cbn; (done || lia).
  - intros [i hash] p s Msg [= -> ->] HP Hl. eexists. rewrite (ld_byte buf p p 0 Msg HP) by lia. cbn [mbind option_bind].
    split; [reflexivity|]. reflexivity.
  - done.
  - apply points_start.
  - cbn [mbind option_bind snd] in *. by rewrite Eh.
Qed.

Lemma standard_eq : standard buf len seed = Some (HashFuncs.standard buf seed).
Proof.
  unfold standard, HashFuncs.standard.
  match goal with |- context [while _ ?cond ?body _] =>
    destruct (byte_loop (fun '((p, n, s) : Z * Z * Z) => if decide (p + n = len) then (p, s) else (-1, s)) cond body
      (fun seed b => (seed ⊻ sext8 b) *₆₄ 1099511628211) (0, len, seed) 0 seed buf) as ([[p n] s] & E & Eh); [| | | |rewrite E; clear E] end.
  - intros [[p n] s] p' s' Msg. case_decide as Hd; [|by intros [= <- _] [? _]]. intros [= <- <-] (_ & _ & Hp).
    destruct (Z.eqb_spec n 0), (Nat.ltb_spec 0 (length Msg)); cbn; (done || lia).
  - intros [[p n] s] p' s' Msg. case_decide as Hd; [|by intros [= <- _] [? _]]. intros [= <- <-] HP Hl. eexists.
    rewrite (ld_byte buf p p 0 Msg HP) by lia. cbn [mbind option_bind]. split; [reflexivity|]. cbv beta iota. by rewrite decide_True by lia.
  - cbv beta iota. by rewrite decide_True by lia.
  - apply points_start.
  - cbn [mbind option_bind]. f_equal. rewrite <- Eh. cbv beta iota. by case_decide.
Qed.

(** A loop over blocks of [N] bytes; the reference is [blocks]. *)
Definition blocks {S} (N g : nat) (step : S -> list Z -> S) (st : S * list Z) : S * list Z :=
  rwhile g (fun st => (N <=? length st.2)%nat) (fun st => (step st.1 st.2, drop N st.2)) st.

Section block_loop.
Context {A S : Type} (N : nat) (proj : A -> Z * S) (cond : A -> bool) (bodyA : A -> option A) (step : S -> list Z -> S).
Hypothesis HN : (0 < N)%nat.
Hypothesis Hcond : forall a p s Msg, proj a = (p, s) -> points buf p Msg -> cond a = (N <=? length Msg)%nat.
Hypothesis Hbody : forall a p s Msg, proj a = (p, s) -> points buf p Msg -> (N <= length Msg)%nat ->
  exists a', bodyA a = Some a' /\ proj a' = (p + Z.of_nat N, step s Msg).

Definition at_block (a : A) (st : S * list Z) : Prop := exists p, proj a = (p, st.1) /\ points buf p st.2.

Lemma block_body a st : at_block a st -> (N <=? length st.2)%nat = true ->
  exists a', bodyA a = Some a' /\ at_block a' (step st.1 st.2, drop N st.2) /\ (length (drop N st.2) < length st.2)%nat.
Proof.
  intros (p & Ep & HP) Hl. apply Nat.leb_le in Hl. destruct (Hbody a p st.1 st.2 Ep HP Hl) as (a' & E & Ea).
  exists a'. split; [done|]. split; [|rewrite length_drop; lia]. exists (p + Z.of_nat N). split; [done|]. by apply points_add.
Qed.

Lemma block_while f g a0 st : at_block a0 st -> (length st.2 <= f)%nat -> (length st.2 <= g)%nat ->
  exists a, while (Datatypes.S f) cond bodyA a0 = Some a /\ at_block a (blocks N g step st) /\ (length (blocks N g step st).2 < N)%nat.
Proof.
  intros Ha Hf Hg.
  destruct (while_sim at_block (fun st => length st.2) cond bodyA (fun st => (N <=? length st.2)%nat)
    (fun st => (step st.1 st.2, drop N st.2))) with (f := f) (g := g) (a := a0) (b := st) as (a & E & HR & Hx); [|by apply block_body|done..|].
  - intros a [s l] (p & Ep & HP). by apply (Hcond a p s).
  - exists a. apply Nat.leb_gt in Hx. done.
Qed.

Lemma block_do_while f g a0 st : at_block a0 st -> (N <= length st.2)%nat -> (length st.2 <= f)%nat -> (length st.2 <= Datatypes.S g)%nat ->
  let st' := blocks N g step (step st.1 st.2, drop N st.2) in
  exists a, do_while (Datatypes.S f) bodyA cond a0 = Some a /\ at_block a st' /\ (length st'.2 < N)%nat.
Proof.
  intros Ha Hn Hf Hg st'.
  destruct (do_while_sim at_block (fun st => length st.2) cond bodyA (fun st => (N <=? length st.2)%nat)
    (fun st => (step st.1 st.2, drop N st.2))) with (f := f) (g := g) (a := a0) (b := st) as (a & E & HR & Hx); [|by apply block_body|done| |done..|].
  - intros a [s l] (p & Ep & HP). by apply (Hcond a p s).
  - by apply Nat.leb_le.
  - exists a. apply Nat.leb_gt in Hx. done.
Qed.
End block_loop.

(** The reference's loops as [blocks]. *)
Lemma blocks_step {S} N g (step : S -> list Z -> S) s l :
  blocks N (Datatypes.S g) step (s, l) = if (N <=? length l)%nat then blocks N g step (step s l, drop N l) else (s, l).
Proof. done. Qed.

(** The state of the loops that count [len] down: [p] points to the last [n] bytes, at a multiple of [u]. *)
Definition counting {S} (u p n : Z) (s : S) : Z * S := if decide (p + n = len /\ p mod u = 0) then (p, s) else (-1, s).

Lemma counting_points {S} u p n (s : S) p' s' Msg :
  counting u p n s = (p', s') -> points buf p' Msg -> p = p' /\ s = s' /\ n = Z.of_nat (length Msg) /\ p' mod u = 0.
Proof.
  unfold counting. case_decide as Hd; [|by intros [= <- _] [? _]]. intros [= <- <-] (_ & _ & ?). split_and!; [done|done|lia|apply Hd].
Qed.
Lemma counting_here {S} u p n (s : S) : p + n = len -> p mod u = 0 -> counting u p n s = (p, s).
Proof. intros H H'. unfold counting. by rewrite decide_True. Qed.
Lemma counting_next {S} u p N Msg (s : S) : 0 < u -> points buf p Msg -> p mod u = 0 -> Z.of_nat N mod u = 0 ->
  counting u (p + Z.of_nat N) (Z.of_nat (length Msg) - Z.of_nat N) s = (p + Z.of_nat N, s).
Proof.
  intros Hu (_ & _ & Hl) H1 H2. apply counting_here; [lia|].
  rewrite Z.add_mod, H1, H2 by lia. by rewrite Z.mod_0_l by lia.
Qed.
Lemma counting_cond N n : (Z.of_nat N <=? Z.of_nat n) = (N <=? n)%nat.
Proof. destruct (Z.leb_spec (Z.of_nat N) (Z.of_nat n)), (Nat.leb_spec N n); (done || lia). Qed.

Definition murmur2_step (m h : Z) (l : list Z) : Z :=
  let k := le_load 4 l *₃₂ m in let k := k ⊻ (k >> 24) in let k := k *₃₂ m in (h *₃₂ m) ⊻ k.
Lemma blocks_murmur2 g m h l : murmur2_words g m h l = blocks 4 g (murmur2_step m) (h, l).
Proof. revert h l. induction g as [|g IH]; intros h l; [done|]. rewrite blocks_step. cbn [murmur2_words]. by case_match. Qed.

Lemma murmur2_eq : murmur2 buf len seed = Some (HashFuncs.murmur2 buf seed).
Proof.
  unfold murmur2, HashFuncs.murmur2. rewrite blocks_murmur2. set (m := 0x5bd1e995). set (h0 := wrap 32 (seed ⊻ len)).
  match goal with |- context [while _ ?cond ?body _] =>
    destruct (block_while 4 (fun '((h, p, n) : Z * Z * Z) => counting 1 p n h) cond body (murmur2_step m))
      with (f := Z.to_nat len) (g := length buf) (a0 := (h0, 0, len)) (st := (h0, buf)) as ([[h p] n] & E & (q & Eq & HP) & Hl) end.
  - lia.
  - intros [[h p] n] p' s' Msg Hc HP. destruct (counting_points _ _ _ _ _ _ _ Hc HP) as (-> & -> & -> & _). apply (counting_cond 4).
  - intros [[h p] n] p' s' Msg Hc HP Hl. destruct (counting_points _ _ _ _ _ _ _ Hc HP) as (-> & -> & -> & Hu). eexists. loads HP.
    split; [reflexivity|]. by apply (counting_next 1 p' 4 Msg).
  - exists 0. split; [by apply counting_here|apply points_start].
  - cbn. lia.
  - done.
  - unfold enough. rewrite E. cbn [mbind option_bind]. destruct (blocks _ _ _ _) as [h' l]. cbn [fst snd] in *.
    destruct (counting_points _ _ _ _ _ _ _ Eq HP) as (-> & -> & -> & _).
    rewrite (fall_through_spec _ _ _ _ l) by (done || lia). cbn [mbind option_bind]. rewrite tail_test, xor_tail.
    destruct l; [cbn [length Nat.eqb seq foldr]; by rewrite Z.lxor_0_r|done].
Qed.

(** *** mx3 *)

Lemma mx3_mix_same : Mx3.mx3_mix = HashFuncs.mx3_mix.
Proof. reflexivity. Qed.
Lemma mix_stream_same : Mx3.mix_stream = HashFuncs.mix_stream.
Proof. reflexivity. Qed.

Definition mx3_step4 (h : Z) (l : list Z) : Z :=
  let h := HashFuncs.mix_stream h (le_load 8 l) in
  let h := HashFuncs.mix_stream h (le_load 8 (drop 8 l)) in
  let h := HashFuncs.mix_stream h (le_load 8 (drop 16 l)) in
  HashFuncs.mix_stream h (le_load 8 (drop 24 l)).
Lemma blocks_mx3_32 g h l : mx3_loop32 g h l = blocks 32 g mx3_step4 (h, l).
Proof.
  revert h l. induction g as [|g IH]; intros h l; [done|]. rewrite blocks_step. cbn [mx3_loop32]. unfold mx3_step4 at 2.
  destruct (32 <=? length l)%nat; [|reflexivity]. cbv zeta. apply IH.
Qed.
Definition mx3_step (h : Z) (l : list Z) : Z := HashFuncs.mix_stream h (le_load 8 l).
Lemma blocks_mx3_8 g h l : mx3_loop8 g h l = blocks 8 g mx3_step (h, l).
Proof. revert h l. induction g as [|g IH]; intros h l; [done|]. rewrite blocks_step. cbn [mx3_loop8]. by case_match. Qed.

Lemma next_word_at p q Msg k h : points buf p Msg -> q = p + Z.of_nat k -> (k + 8 <= length Msg)%nat ->
  Mx3.next_word buf (h, q) = Some (HashFuncs.mix_stream h (le_load 8 (drop k Msg)), p + Z.of_nat (k + 8)).
Proof.
  intros HP Hq Hk. unfold Mx3.next_word. rewrite mix_stream_same, (ld_at buf 8 p q k Msg HP) by done. cbn [mbind option_bind]. do 2 f_equal. lia.
Qed.

(** The state [(h, buf64, len)] of both loops. *)
Definition mx3_proj (st : Z * Z * Z) : Z * Z := let '(h, p, n) := st in counting 8 p n h.

Lemma mx3_body32 st p s Msg : mx3_proj st = (p, s) -> points buf p Msg -> (32 <= length Msg)%nat ->
  exists st', (let '(h, buf64, len) := st in
       let len := len - 32 in
       st ← Mx3.next_word buf (h, buf64); st ← Mx3.next_word buf st; st ← Mx3.next_word buf st; '(h, buf64) ← Mx3.next_word buf st;
       Some (h, buf64, len)) = Some st' /\ mx3_proj st' = (p + Z.of_nat 32, mx3_step4 s Msg).
Proof.
  destruct st as [[h q] n]. intros Hc HP Hl. destruct (counting_points _ _ _ _ _ _ _ Hc HP) as (-> & -> & -> & Hu).
  rewrite (next_word_at p _ Msg 0) by (done || lia). cbn [mbind option_bind].
  rewrite (next_word_at p _ Msg 8) by (done || lia). cbn [mbind option_bind].
  rewrite (next_word_at p _ Msg 16) by (done || lia). cbn [mbind option_bind].
  rewrite (next_word_at p _ Msg 24) by (done || lia). cbn [mbind option_bind].
  eexists. split; [reflexivity|]. unfold mx3_step4. cbv zeta. rewrite drop_0. by apply (counting_next 8 p 32 Msg).
Qed.

Lemma mx3_body8 st p s Msg : mx3_proj st = (p, s) -> points buf p Msg -> (8 <= length Msg)%nat ->
  exists st', (let '(h, buf64, len) := st in let len := len - 8 in '(h, buf64) ← Mx3.next_word buf (h, buf64); Some (h, buf64, len)) = Some st' /\
    mx3_proj st' = (p + Z.of_nat 8, mx3_step s Msg).
Proof.
  destruct st as [[h q] n]. intros Hc HP Hl. destruct (counting_points _ _ _ _ _ _ _ Hc HP) as (-> & -> & -> & Hu).
  rewrite (next_word_at p _ Msg 0) by (done || lia). cbn [mbind option_bind].
  eexists. split; [reflexivity|]. by apply (counting_next 8 p 8 Msg).
Qed.

Lemma mx3_cond N st p s Msg : mx3_proj st = (p, s) -> points buf p Msg ->
  (let '(_, _, len) := st in Z.of_nat N <=? len) = (N <=? length Msg)%nat.
Proof.
  destruct st as [[h q] n]. intros Hc HP. destruct (counting_points _ _ _ _ _ _ _ Hc HP) as (-> & -> & -> & Hu). apply counting_cond.
Qed.

Lemma mx3_eq : Mx3.mx3 buf len seed = Some (HashFuncs.mx3 buf seed).
Proof.
  unfold Mx3.mx3, HashFuncs.mx3. set (h0 := seed ⊻ len).
  destruct (block_while 32 mx3_proj _ _ mx3_step4 ltac:(lia) (mx3_cond 32) mx3_body32 (Z.to_nat len) (length buf) (h0, 0, len) (h0, buf))
    as ([[h p] n] & E & (q & Eq & HP) & Hl);
    [exists 0; split; [by apply counting_here|apply points_start]|cbn; lia|done|].
  change (Z.of_nat 32) with 32 in E. unfold enough. cbv zeta in E |- *. rewrite E. cbn [mbind option_bind]. rewrite blocks_mx3_32. fold h0. clear E.
  destruct (blocks 32 _ _ _) as [h1 l1]. cbn [fst snd] in *.
  destruct (counting_points _ _ _ _ _ _ _ Eq HP) as (-> & -> & -> & Hu). pose proof HP as (Hq & _ & Hlen).
  destruct (block_while 8 mx3_proj _ _ mx3_step ltac:(lia) (mx3_cond 8) mx3_body8 (Z.to_nat (Z.of_nat (length l1))) (length buf)
    (h1, q, Z.of_nat (length l1)) (h1, l1)) as ([[h p] n] & E & (q2 & Eq2 & HP2) & Hl2);
    [exists q; split; [by apply counting_here; lia|done]|cbn; lia|cbn; lia|].
  change (Z.of_nat 8) with 8 in E. cbv zeta in E. rewrite E. cbn [mbind option_bind]. rewrite blocks_mx3_8. clear E.
  destruct (blocks 8 _ _ _) as [h2 t]. cbn [fst snd] in *.
  destruct (counting_points _ _ _ _ _ _ _ Eq2 HP2) as (-> & -> & -> & Hu2). pose proof HP2 as (_ & _ & Hlen2).
  replace (0 + 8 * (len / 8)) with q2 by (Z.to_euclidean_division_equations; lia).
  rewrite land7, Z.mod_small by lia. rewrite (fall_through_spec _ _ _ _ t) by (done || lia). cbn [mbind option_bind].
  by rewrite tail_test, mx3_mix_same, mix_stream_same.
Qed.

(** *** pengyhash *)

Definition pengy_step (st : pengy_block * pengy) (l : list Z) : pengy_block * pengy :=
  let b := pengy_memcpy st.1 (take 32 l) in (b, pengy_round b 0 st.2).
Lemma blocks_pengy g b s l : pengy_loop g b s l = blocks 32 g pengy_step (b, s, l).
Proof. revert b s l. induction g as [|g IH]; intros b s l; [done|]. rewrite blocks_step. cbn [pengy_loop]. by case_match. Qed.

Lemma pengy_mix_same : pengy_mix = pengy_round.
Proof. reflexivity. Qed.

Lemma pengyhash_eq : pengyhash buf len seed = Some (HashFuncs.pengyhash buf seed).
Proof.
  unfold pengyhash, HashFuncs.pengyhash. rewrite blocks_pengy, pengy_mix_same.
  match goal with |- context [while _ ?cond ?body _] =>
    destruct (block_while 32 (fun '((b, s, p, n) : pengy_block * pengy * Z * Z) => counting 1 p n (b, s)) cond body pengy_step)
      with (f := Z.to_nat len) (g := length buf) (a0 := (PengyBlock 0 0 0 0, Pengy 0 0 0 len, 0, len)) (st := (PengyBlock 0 0 0 0, Pengy 0 0 0 len, buf))
      as ([[[b s] p] n] & E & (q & Eq & HP) & Hl) end.
  - lia.
  - intros [[[b s] p] n] p' s' Msg Hc HP. destruct (counting_points _ _ _ _ _ _ _ Hc HP) as (-> & _ & -> & _). apply (counting_cond 32).
  - intros [[[b s] p] n] p' s' Msg Hc HP Hl. destruct (counting_points _ _ _ _ _ _ _ Hc HP) as (-> & <- & -> & Hu).
    change (ld_block 32 buf p') with (ld_block (Z.of_nat 32) buf p'). rewrite (ld_block_at buf 32 p' Msg HP Hl). cbn [mbind option_bind].
    eexists. split; [reflexivity|]. by apply (counting_next 1 p' 32 Msg).
  - exists 0. split; [by apply counting_here|apply points_start].
  - cbn. lia.
  - done.
  - unfold enough. rewrite E. cbn [mbind option_bind]. destruct (blocks _ _ _ _) as [[b' s'] l]. cbn [fst snd] in *.
    destruct (counting_points _ _ _ _ _ _ _ Eq HP) as (-> & [= -> ->] & -> & _).
    rewrite (ld_block_at buf _ q l HP) by done. cbn [mbind option_bind]. by rewrite firstn_all.
Qed.

(** *** xxhash *)

Definition xx_step (v : Z * Z * Z * Z) (l : list Z) : Z * Z * Z * Z :=
  let '(v1, v2, v3, v4) := v in
  (xx_lane v1 (le_load 8 l), xx_lane v2 (le_load 8 (drop 8 l)), xx_lane v3 (le_load 8 (drop 16 l)), xx_lane v4 (le_load 8 (drop 24 l))).
Lemma blocks_xx32 g v l : xx_loop32 (S g) v l = blocks 32 g xx_step (xx_step v l, drop 32 l).
Proof.
  revert v l. induction g as [|g IH]; intros [[[v1 v2] v3] v4] l; [cbn [xx_loop32 xx_step]; by case_match|].
  rewrite blocks_step. cbn [xx_loop32]. case_match; [|done]. by rewrite <- IH.
Qed.
Definition xx_step8 (hash : Z) (l : list Z) : Z := xx_word hash (le_load 8 l).
Lemma blocks_xx8 g h l : xx_loop8 g h l = blocks 8 g xx_step8 (h, l).
Proof. revert h l. induction g as [|g IH]; intros h l; [done|]. rewrite blocks_step. cbn [xx_loop8]. by case_match. Qed.

Lemma read64 align q : Xxhash.hash_read64_align buf q align = ld 8 buf q.
Proof. unfold Xxhash.hash_read64_align. by destruct (align =? 0). Qed.
Lemma read32 align q : Xxhash.hash_read32_align buf q align = ld 4 buf q.
Proof. unfold Xxhash.hash_read32_align. by destruct (align =? 0). Qed.

Lemma lane_at align p q Msg k v : points buf p Msg -> q = p + Z.of_nat k -> (k + 8 <= length Msg)%nat ->
  Xxhash.lane buf align v q = Some (xx_lane v (le_load 8 (drop k Msg)), p + Z.of_nat (k + 8)).
Proof.
  intros HP Hq Hk. unfold Xxhash.lane. rewrite read64, (ld_at buf 8 p q k Msg HP) by done. cbn [mbind option_bind]. do 2 f_equal. lia.
Qed.

(** The loop over blocks of 32 bytes. *)
Lemma xx_lanes align v : (32 <= length buf)%nat ->
  exists v1 v2 v3 v4 p,
  do_while (enough len)
    (fun '(v1, v2, v3, v4, p) =>
       '(v1, p) ← Xxhash.lane buf align v1 p; '(v2, p) ← Xxhash.lane buf align v2 p;
       '(v3, p) ← Xxhash.lane buf align v3 p; '(v4, p) ← Xxhash.lane buf align v4 p;
       Some (v1, v2, v3, v4, p)) (fun '(_, _, _, _, p) => p <=? 0 + len - 32) (v, 0) = Some (v1, v2, v3, v4, p) /\
    (v1, v2, v3, v4) = (xx_loop32 (length buf) v buf).1 /\ points buf p (xx_loop32 (length buf) v buf).2.
Proof.
  intros Hl. assert (exists g, length buf = S g) as [g Eg] by (exists (pred (length buf)); lia).
  assert (xx_loop32 (length buf) v buf = blocks 32 g xx_step (xx_step v buf, drop 32 buf)) as -> by (rewrite Eg; apply blocks_xx32).
  match goal with |- context [do_while _ ?body ?cond _] =>
    destruct (block_do_while 32 (fun '((v, p) : Z * Z * Z * Z * Z) => (p, v)) cond body xx_step)
      with (f := Z.to_nat len) (g := g) (a0 := (v, 0)) (st := (v, buf)) as ([[[[v1 v2] v3] v4] p] & E & (q & Eq & HP) & _) end.
  - lia.
  - intros [[[[v1 v2] v3] v4] p] p' s' Msg [= -> _] (_ & _ & Hp).
    destruct (Z.leb_spec p' (0 + len - 32)), (Nat.leb_spec 32 (length Msg)); (done || lia).
  - intros [[[[v1 v2] v3] v4] p] p' s' Msg [= -> <-] HP Hm. eexists.
    rewrite (lane_at align p' p' Msg 0) by (done || lia). cbn [mbind option_bind].
    rewrite (lane_at align p' _ Msg 8) by (done || lia). cbn [mbind option_bind].
    rewrite (lane_at align p' _ Msg 16) by (done || lia). cbn [mbind option_bind].
    rewrite (lane_at align p' _ Msg 24) by (done || lia). cbn [mbind option_bind]. split; reflexivity.
  - exists 0. split; [done|apply points_start].
  - done.
  - cbn. lia.
  - cbn. lia.
  - exists v1, v2, v3, v4, p. split; [exact E|]. cbn [fst snd] in *. injection Eq as <- Ev. by rewrite <- Ev.
Qed.

(** From the end of the long blocks on. *)
Lemma xx_tail align hash p Msg : points buf p Msg -> 
  (let end_ := 0 + len in
   '(hash, p) ← while (enough len) (fun '(_, p) => p + 8 <=? end_)
     (fun '(hash, p) =>
        k1 ← Xxhash.hash_read64_align buf p align;
        let k1 := k1 *₆₄ Xxhash.NUMBER64_2 in
        let k1 := Xxhash.shifting_hash k1 31 in
        let k1 := k1 *₆₄ Xxhash.NUMBER64_1 in
        let hash := hash ⊻ k1 in
        let hash := (Xxhash.shifting_hash hash 27 *₆₄ Xxhash.NUMBER64_1) +₆₄ Xxhash.NUMBER64_4 in
        Some (hash, p + 8)) (hash, p);
   '(hash, p) ←
     (if p + 4 <=? end_ then
        w ← Xxhash.hash_read32_align buf p align;
        let hash := hash ⊻ (w *₆₄ Xxhash.NUMBER64_1) in
        Some ((Xxhash.shifting_hash hash 23 *₆₄ Xxhash.NUMBER64_2) +₆₄ Xxhash.NUMBER64_3, p + 4)
      else Some (hash, p));
   '(hash, p) ← while (enough len) (fun '(_, p) => p <? end_)
     (fun '(hash, p) =>
        b ← ld 1 buf p;
        let hash := hash ⊻ (b *₆₄ Xxhash.NUMBER64_5) in
        Some (Xxhash.shifting_hash hash 11 *₆₄ Xxhash.NUMBER64_1, p + 1)) (hash, p);
   let hash := hash ⊻ (hash >> 33) in
   let hash := hash *₆₄ Xxhash.NUMBER64_2 in
   let hash := hash ⊻ (hash >> 29) in
   let hash := hash *₆₄ Xxhash.NUMBER64_3 in
   let hash := hash ⊻ (hash >> 32) in
   Some hash) =
  let '(hash, p) := xx_loop8 (length buf) hash Msg in
  let '(hash, p) :=
    if (4 <=? length p)%nat then
      let hash := hash ⊻ (le_load 4 p *₆₄ NUMBER64_1) in
      ((rotl64 hash 23 *₆₄ NUMBER64_2) +₆₄ NUMBER64_3, drop 4 p)
    else (hash, p) in
  Some (xx_final (foldl xx_byte hash p)).
Proof.
  intros HP. rewrite blocks_xx8. cbv zeta.
  match goal with |- context [while _ ?cond ?body (hash, p)] =>
    destruct (block_while 8 (fun '((h, p) : Z * Z) => (p, h)) cond body xx_step8)
      with (f := Z.to_nat len) (g := length buf) (a0 := (hash, p)) (st := (hash, Msg)) as ([h1 p1] & E & (q & Eq & HP1) & Hl1) end.
  - lia.
  - intros [h p1] p' s' l [= -> _] (_ & _ & Hp). destruct (Z.leb_spec (p' + 8) (0 + len)), (Nat.leb_spec 8 (length l)); (done || lia).
  - intros [h p1] p' s' l [= -> ->] HP' Hl. eexists. rewrite read64. loads HP'. split; reflexivity.
  - by exists p.
  - cbn. destruct HP. lia.
  - cbn. destruct HP. lia.
  - change (S (Z.to_nat len)) with (enough len) in E. rewrite E. cbn [mbind option_bind]. clear E. destruct (blocks 8 _ _ _) as [h l]. cbn [fst snd] in *.
    injection Eq as -> ->. pose proof HP1 as (Hq0 & _ & Hq).
    replace (q + 4 <=? 0 + len) with (4 <=? length l)%nat by (destruct (Z.leb_spec (q + 4) (0 + len)), (Nat.leb_spec 4 (length l)); (done || lia)).
    assert (exists h' p' l', (if (4 <=? length l)%nat then w ← Xxhash.hash_read32_align buf q align;
              Some ((Xxhash.shifting_hash (h ⊻ (w *₆₄ Xxhash.NUMBER64_1)) 23 *₆₄ Xxhash.NUMBER64_2) +₆₄ Xxhash.NUMBER64_3, q + 4)
            else Some (h, q)) = Some (h', p') /\ points buf p' l' /\
          (if (4 <=? length l)%nat then ((rotl64 (h ⊻ (le_load 4 l *₆₄ NUMBER64_1)) 23 *₆₄ NUMBER64_2) +₆₄ NUMBER64_3, drop 4 l) else (h, l)) = (h', l'))
      as (h' & p' & l' & E1 & HP' & E2).
    { destruct (Nat.leb_spec 4 (length l)); [|by exists h, q, l]. rewrite read32. loads HP1. do 3 eexists. split; [reflexivity|].
      split; [by apply (points_add buf q 4)|done]. }
    cbv zeta. rewrite E1, E2. cbn [mbind option_bind].
    match goal with |- context [while _ ?cond ?body _] =>
      destruct (byte_loop (fun '((h, p) : Z * Z) => (p, h)) cond body xx_byte (h', p') p' h' l') as ([h2 p2] & E & Eh); [| |done|done|rewrite E] end.
    + intros [h2 p2] r s' t [= -> _] (_ & _ & Hr). destruct (Z.ltb_spec r (0 + len)), (Nat.ltb_spec 0 (length t)); (done || lia).
    + intros [h2 p2] r s' t [= -> ->] HPt Ht. eexists. rewrite (ld_byte buf r r 0 t HPt) by lia. cbn [mbind option_bind]. split; reflexivity.
    + cbn [mbind option_bind snd] in *. by rewrite <- Eh.
Qed.

Lemma merge_eq hash v : Xxhash.merge hash v = xx_merge hash v.
Proof. reflexivity. Qed.
Lemma merges_eq v1 v2 v3 v4 :
  Xxhash.merge (Xxhash.merge (Xxhash.merge (Xxhash.merge
    (Xxhash.shifting_hash v1 1 +₆₄ Xxhash.shifting_hash v2 7 +₆₄ Xxhash.shifting_hash v3 12 +₆₄ Xxhash.shifting_hash v4 18) v1) v2) v3) v4 =
  xx_merge (xx_merge (xx_merge (xx_merge (rotl64 v1 1 +₆₄ rotl64 v2 7 +₆₄ rotl64 v3 12 +₆₄ rotl64 v4 18) v1) v2) v3) v4.
Proof.
  etransitivity; [apply merge_eq|apply (f_equal (fun x => xx_merge x v4))].
  etransitivity; [apply merge_eq|apply (f_equal (fun x => xx_merge x v3))].
  etransitivity; [apply merge_eq|apply (f_equal (fun x => xx_merge x v2))]. apply merge_eq.
Qed.

Lemma hash_compute_eq align : Xxhash.hash_compute buf len seed align = Some (HashFuncs.hash_compute buf seed).
Proof.
  unfold Xxhash.hash_compute, HashFuncs.hash_compute.
  replace (32 <=? len) with (32 <=? length buf)%nat by (by rewrite <- (counting_cond 32)).
  destruct (Nat.leb_spec 32 (length buf)) as [Hl|Hl].
  - destruct (xx_lanes align (seed +₆₄ NUMBER64_1 +₆₄ NUMBER64_2, seed +₆₄ NUMBER64_2, seed +₆₄ 0, seed -₆₄ NUMBER64_1) Hl)
      as (v1 & v2 & v3 & v4 & p & E & Ev & HP).
    destruct (xx_loop32 _ _ _) as [[[[w1 w2] w3] w4] l]. cbn [fst snd] in *. injection Ev as <- <- <- <-.
    cbv zeta in E |- *.
    match goal with |- context [do_while _ _ _ ?s] => change s with (seed +₆₄ NUMBER64_1 +₆₄ NUMBER64_2, seed +₆₄ NUMBER64_2, seed +₆₄ 0, seed -₆₄ NUMBER64_1, 0) end.
    rewrite E. cbn [mbind option_bind].
    match goal with |- context [while _ _ _ (?h, p)] => pose proof (xx_tail align h p l HP) as T end.
    cbv zeta in T. rewrite T. clear T E.
    cbv zeta. rewrite merges_eq. destruct (xx_loop8 _ _ _) as [h q]. by destruct (4 <=? length q)%nat.
  - cbv zeta. cbn [mbind option_bind].
    match goal with |- context [while _ _ _ (?h, 0)] => pose proof (xx_tail align h 0 buf (points_start buf)) as T end.
    cbv zeta in T. rewrite T. clear T. change Xxhash.NUMBER64_5 with NUMBER64_5.
    destruct (xx_loop8 _ _ _) as [h q]. by destruct (4 <=? length q)%nat.
Qed.

Lemma xxhash_eq addr : Xxhash.xxhash addr buf len seed = Some (HashFuncs.xxhash buf seed).
Proof. unfold Xxhash.xxhash. case_match; apply hash_compute_eq. Qed.

(** *** komihash *)

Lemma kh_lu64ec_at p q Msg k : points buf p Msg -> q = p + Z.of_nat k -> (k + 8 <= length Msg)%nat ->
  Komihash.kh_lu64ec buf q = Some (HashFuncs.kh_lu64ec (drop k Msg)).
Proof. intros HP Hq Hk. unfold Komihash.kh_lu64ec. by rewrite (ld_at buf 8 p q k Msg HP). Qed.

Lemma kh_lpu64_eq p Msg fb : points buf p Msg -> (length Msg <= 7)%nat ->
  Komihash.kh_lpu64 buf p (0 + len) fb = Some (HashFuncs.kh_lpu64 Msg fb).
Proof.
  intros HP Hl. pose proof HP as (Hp & _ & He). unfold Komihash.kh_lpu64, HashFuncs.kh_lpu64.
  replace (to_int (0 + len - p)) with (Z.of_nat (length Msg)) by (rewrite to_int_small; lia).
  rewrite Z.shiftl_mul_pow2, (Z.mul_comm _ (2 ^ 3)) by done. change (2 ^ 3) with 8.
  assert (forall i q, (i < length Msg)%nat -> q = p + Z.of_nat i -> ld 1 buf q = Some (byte_at i Msg)) as HL.
  { intros i q Hi Hq. by apply (ld_byte buf p _ i Msg HP). }
  assert ((3 < length Msg)%nat -> Komihash.kh_lu32ec buf p = Some (HashFuncs.kh_lu32ec Msg)) as HW.
  { intros H. unfold Komihash.kh_lu32ec. by rewrite (ld_at buf 4 p p 0 Msg HP) by lia. }
  destruct Msg as [|b0 [|b1 [|b2 [|b3 [|b4 [|b5 [|b6 [|]]]]]]]]; cbn [length] in *; try lia;
    cbn [Nat.ltb Nat.leb drop]; rewrite ?HW by lia; cbn [mbind option_bind];
    repeat first
    [ progress lbool
    | match goal with |- context [ld 1 buf ?q] =>
        first [rewrite (HL 0%nat q) by lia|rewrite (HL 1%nat q) by lia|rewrite (HL 2%nat q) by lia|rewrite (HL 4%nat q) by lia
              |rewrite (HL 5%nat q) by lia|rewrite (HL 6%nat q) by lia] end
    | progress cbn [mbind option_bind] ]; reflexivity.
Qed.

Lemma blocks_kh64 g s l : kh_loop64 (S g) s l = blocks 64 g kh_round64 (kh_round64 s l, drop 64 l).
Proof.
  revert s l. induction g as [|g IH]; intros s l; [cbn [kh_loop64]; by case_match|].
  rewrite blocks_step. cbn [kh_loop64]. change (63 <? ?n)%nat with (64 <=? n)%nat. destruct (64 <=? _)%nat; [|done].
  by rewrite <- IH.
Qed.

Definition kh_step16 (st : Z * Z) (l : list Z) : Z * Z := kh_mix (st.1 ⊻ HashFuncs.kh_lu64ec l) (st.2 ⊻ HashFuncs.kh_lu64ec (drop 8 l)).
Lemma blocks_kh16 g s1 s5 l : kh_loop16 g s1 s5 l = blocks 16 g kh_step16 (s1, s5, l).
Proof.
  revert s1 s5 l. induction g as [|g IH]; intros s1 s5 l; [done|]. rewrite blocks_step. cbn [kh_loop16].
  change (15 <? length l)%nat with (16 <=? length l)%nat. destruct (16 <=? _)%nat; [|done]. unfold kh_step16. cbn [fst snd].
  destruct (kh_mix _ _) as [s1' s5']. apply IH.
Qed.

Lemma block64_at s p Msg : points buf p Msg -> (64 <= length Msg)%nat ->
  Komihash.block64 buf (s, p) = Some (kh_round64 s Msg, p + Z.of_nat 64).
Proof.
  intros HP Hl. unfold Komihash.block64, kh_round64. destruct s as [s1 s2 s3 s4 s5 s6 s7 s8].
  rewrite (kh_lu64ec_at p p Msg 0), (kh_lu64ec_at p (p + 8) Msg 8), (kh_lu64ec_at p (p + 16) Msg 16), (kh_lu64ec_at p (p + 24) Msg 24),
    (kh_lu64ec_at p (p + 32) Msg 32), (kh_lu64ec_at p (p + 40) Msg 40), (kh_lu64ec_at p (p + 48) Msg 48), (kh_lu64ec_at p (p + 56) Msg 56)
    by (done || lia).
  cbn [mbind option_bind]. rewrite drop_0. reflexivity.
Qed.

Lemma block16_at s1 s5 p Msg : points buf p Msg -> (16 <= length Msg)%nat ->
  Komihash.block16 buf (s1, s5, p) = Some (kh_step16 (s1, s5) Msg, p + Z.of_nat 16).
Proof.
  intros HP Hl. unfold Komihash.block16, kh_step16, kh_mix. rewrite (kh_lu64ec_at p p Msg 0), (kh_lu64ec_at p (p + 8) Msg 8) by (done || lia).
  cbn [mbind option_bind fst snd]. rewrite drop_0. reflexivity.
Qed.

Lemma kh_first s1 s5 :
  (if negb (seed =? 0) then
     let Seed1 := s1 ⊻ (seed .& 0xFFFFFFFF00000000) in
     let Seed5 := s5 ⊻ (seed <<₆₄ 32) in
     let '(r1a, r1b) := Komihash.kh_m128 Seed1 Seed5 in
     let Seed5 := Seed5 +₆₄ r1b in
     (Seed5 ⊻ r1a, Seed5)
   else (s1, s5)) =
  (if seed =? 0 then (s1, s5) else kh_mix (s1 ⊻ (seed .& 0xFFFFFFFF00000000)) (s5 ⊻ (seed <<₆₄ 32))).
Proof. by destruct (seed =? 0). Qed.

Lemma kh_final_byte :
  (if negb (len =? 0) then b ← ld 1 buf (0 + len - 1); Some (1 <<₆₄ (b >> 7)) else Some 1) =
  Some (if (length buf =? 0)%nat then 1 else 1 <<₆₄ (default 0 (last buf) >> 7)).
Proof.
  destruct buf as [|b l] eqn:E; [done|]. rewrite <- E. assert (0 < length buf)%nat by (rewrite E; cbn; lia).
  rewrite (proj2 (Z.eqb_neq _ _)), (proj2 (Nat.eqb_neq _ _)) by lia. cbn [negb].
  rewrite (ld_byte buf 0 _ (length buf - 1) buf (points_start buf)) by lia. cbn [mbind option_bind].
  unfold byte_at. rewrite last_lookup, nth_lookup. do 4 f_equal. f_equal. lia.
Qed.

(** The loop over blocks of 64 bytes, with the seeds folded after it. *)
Lemma kh_long s : (64 <= length buf)%nat ->
  exists s' p, do_while (enough len) (Komihash.block64 buf) (fun '(_, Msg) => Msg <? 0 + len - 63) (s, 0) = Some (s', p) /\
    s' = (kh_loop64 (length buf) s buf).1 /\ points buf p (kh_loop64 (length buf) s buf).2.
Proof.
  intros Hl. assert (exists g, length buf = S g) as [g Eg] by (exists (pred (length buf)); lia).
  assert (kh_loop64 (length buf) s buf = blocks 64 g kh_round64 (kh_round64 s buf, drop 64 buf)) as -> by (rewrite Eg; apply blocks_kh64).
  destruct (block_do_while 64 (fun '((s, p) : kh_seeds * Z) => (p, s)) (fun '(_, Msg) => Msg <? 0 + len - 63) (Komihash.block64 buf) kh_round64)
    with (f := Z.to_nat len) (g := g) (a0 := (s, 0)) (st := (s, buf)) as ([s' p] & E & (q & Eq & HP) & _).
  - lia.
  - intros [s' p] p' t Msg [= -> _] (_ & _ & Hp). destruct (Z.ltb_spec p' (0 + len - 63)), (Nat.leb_spec 64 (length Msg)); (done || lia).
  - intros [s' p] p' t Msg [= -> ->] HP Hm. eexists. by rewrite (block64_at t p' Msg).
  - exists 0. split; [done|apply points_start].
  - done.
  - cbn. lia.
  - cbn. lia.
  - exists s', p. split; [exact E|]. injection Eq as <- Es. by rewrite <- Es.
Qed.

Lemma kh_short s1 s5 p Msg : points buf p Msg ->
  exists t1 t5 q l, while (enough len) (fun '(_, _, Msg) => Msg <? 0 + len - 15) (Komihash.block16 buf) (s1, s5, p) = Some (t1, t5, q) /\
    kh_loop16 (length Msg) s1 s5 Msg = (t1, t5, l) /\ points buf q l /\ (length l < 16)%nat.
Proof.
  intros HP. rewrite blocks_kh16.
  destruct (block_while 16 (fun '((s1, s5, p) : Z * Z * Z) => (p, (s1, s5))) (fun '(_, _, Msg) => Msg <? 0 + len - 15) (Komihash.block16 buf) kh_step16)
    with (f := Z.to_nat len) (g := length Msg) (a0 := (s1, s5, p)) (st := (s1, s5, Msg)) as ([[t1 t5] q] & E & (q' & Eq & HQ) & Hl).
  - lia.
  - intros [[t1 t5] q] p' t l [= -> _] (_ & _ & Hp). destruct (Z.ltb_spec p' (0 + len - 15)), (Nat.leb_spec 16 (length l)); (done || lia).
  - intros [[t1 t5] q] p' t l [= -> <-] HQ Hm. rewrite (block16_at t1 t5 p' l) by done. destruct (kh_step16 (t1, t5) l) as [u1 u5]. by eexists.
  - by exists p.
  - cbn. destruct HP as (? & _ & ?). lia.
  - done.
  - destruct (blocks _ _ _ _) as [[u1 u5] l] eqn:El. cbn [fst snd] in *. injection Eq as -> -> ->. by exists u1, u5, q', l.
Qed.

(** The last two mixes. *)
Lemma kh_last s1 s2 s5 :
  (let '(r1a, r1b) := Komihash.kh_m128 s1 s5 in
   let Seed5 := s5 +₆₄ r1b in
   let Seed1 := Seed5 ⊻ r1a in
   let '(r1a, r1b) := Komihash.kh_m128 Seed1 Seed5 in
   let Seed5 := Seed5 +₆₄ r1b in
   let Seed1 := Seed5 ⊻ r1a in
   Some (Seed1 ⊻ s2)) =
  (let '(s1, s5) := kh_mix s1 s5 in let '(s1, s5) := kh_mix s1 s5 in Some (s1 ⊻ s2)).
Proof. reflexivity. Qed.

(** From the blocks of 16 bytes on. *)
Lemma kh_rest s1 s2 s5 p Msg fb : points buf p Msg ->
  ('(Seed1, Seed5, Msg) ← while (enough len) (fun '(_, _, Msg) => Msg <? 0 + len - 15) (Komihash.block16 buf) (s1, s5, p);
   '(Seed1, Seed5) ←
     (if Msg <? 0 + len - 7 then
        w1 ← Komihash.kh_lu64ec buf Msg; w5 ← Komihash.kh_lpu64 buf (Msg + 8) (0 + len) fb; Some (Seed1 ⊻ w1, Seed5 ⊻ w5)
      else w1 ← Komihash.kh_lpu64 buf Msg (0 + len) fb; Some (Seed1 ⊻ w1, Seed5));
   let '(r1a, r1b) := Komihash.kh_m128 Seed1 Seed5 in
   let Seed5 := Seed5 +₆₄ r1b in
   let Seed1 := Seed5 ⊻ r1a in
   let '(r1a, r1b) := Komihash.kh_m128 Seed1 Seed5 in
   let Seed5 := Seed5 +₆₄ r1b in
   let Seed1 := Seed5 ⊻ r1a in
   Some (Seed1 ⊻ s2)) =
  (let '(s1, s5, Msg) := kh_loop16 (length Msg) s1 s5 Msg in
   let '(s1, s5) :=
     if (7 <? length Msg)%nat then (s1 ⊻ HashFuncs.kh_lu64ec Msg, s5 ⊻ HashFuncs.kh_lpu64 (drop 8 Msg) fb)
     else (s1 ⊻ HashFuncs.kh_lpu64 Msg fb, s5) in
   let '(s1, s5) := kh_mix s1 s5 in let '(s1, s5) := kh_mix s1 s5 in Some (s1 ⊻ s2)).
Proof.
  intros HP. destruct (kh_short s1 s5 p Msg HP) as (t1 & t5 & q & l & -> & -> & HQ & Hl). cbn [mbind option_bind].
  pose proof HQ as (_ & _ & Hq). destruct (Nat.ltb_spec 7 (length l)) as [H|H].
  - rewrite (proj2 (Z.ltb_lt _ _)) by lia. rewrite (kh_lu64ec_at q q l 0) by (done || lia). cbn [mbind option_bind].
    rewrite (kh_lpu64_eq (q + 8) (drop 8 l)); [|by apply (points_add buf q 8); [lia|]|rewrite length_drop; lia].
    cbn [mbind option_bind]. by rewrite drop_0.
  - rewrite (proj2 (Z.ltb_ge _ _)) by lia. rewrite (kh_lpu64_eq q l) by (done || lia). reflexivity.
Qed.

Lemma komihash_eq : Komihash.komihash buf len seed = Some (HashFuncs.komihash buf seed).
Proof.
  unfold Komihash.komihash, HashFuncs.komihash. cbv zeta. rewrite (kh_first _ _).
  destruct (if seed =? 0 then _ else _) as [s1 s5]. rewrite kh_final_byte. cbn [mbind option_bind].
  set (fb := if (length buf =? 0)%nat then _ else _). clearbody fb.
  replace (63 <? len) with (63 <? length buf)%nat by (destruct (Z.ltb_spec 63 len), (Nat.ltb_spec 63 (length buf)); (done || lia)).
  destruct (Nat.ltb_spec 63 (length buf)) as [Hl|Hl].
  - match goal with |- context [do_while _ _ _ (?s, 0)] => destruct (kh_long s) as (s' & p & E & Es & HP); [lia|] end.
    rewrite E. cbn [mbind option_bind]. clear E. destruct (kh_loop64 _ _ _) as [r Msg]. cbn [fst snd] in *. subst s'.
    destruct r as [r1 r2 r3 r4 r5 r6 r7 r8]. change Komihash.kh_m128 with kh_m128.
    destruct (kh_m128 r2 r6) as [r2a r2b], (kh_m128 r3 r7) as [r3a r3b], (kh_m128 r4 r8) as [r4a r4b]. cbn [mbind option_bind].
    match goal with |- context [Some (_ ⊻ ?s2)] => pose proof (kh_rest r1 s2 r5 p Msg fb HP) as T end.
    change Komihash.kh_m128 with kh_m128 in T. cbv zeta in T. rewrite T. clear T.
    destruct (kh_loop16 _ _ _ _) as [[t1 t5] l]. destruct (if (7 <? length l)%nat then _ else _) as [u1 u5].
    destruct (kh_mix u1 u5) as [v1 v5]. by destruct (kh_mix v1 v5).
  - cbn [mbind option_bind]. match goal with |- context [Some (_ ⊻ ?s2)] => pose proof (kh_rest s1 s2 s5 0 buf fb (points_start buf)) as T end.
    cbv zeta in T. rewrite T. clear T.
    destruct (kh_loop16 _ _ _ _) as [[t1 t5] l]. destruct (if (7 <? length l)%nat then _ else _) as [u1 u5].
    destruct (kh_mix u1 u5) as [v1 v5]. by destruct (kh_mix v1 v5).
Qed.
End functions.

(** ** Properties *)

(** C34: The driver's hash functions and the daemon's are the same functions: for every message, seed and address
    of the message, each entry of the driver's table reads the message only, ends, and returns what the
    entry of the daemon's table returns; so do fasthash32, murmur2 and the driver's [h]. *)
Theorem driver_hashes_agree addr msg seed :
  let len := Z.of_nat (length msg) in
  Forall2 (fun f g => f msg len seed = Some (g msg seed)) (hash_funcs addr) HashFuncs.hash_funcs /\
  h addr msg len seed = Some (HashFuncs.komihash msg seed) /\
  Fasthash.fasthash32 msg len seed = Some (HashFuncs.fasthash32 msg seed) /\
  murmur2 msg len seed = Some (HashFuncs.murmur2 msg seed).
Proof.
  intros len. split; [|split; [apply komihash_eq|split; [apply fasthash32_eq|apply murmur2_eq]]].
  repeat apply Forall2_cons_2; [..|apply Forall2_nil_2].
  - apply komihash_eq.
  - apply fasthash64_eq.
  - apply mx3_eq.
  - apply xxhash_eq.
  - apply jenkins_eq.
  - apply pengyhash_eq.
  - apply MurmurHash64A_eq.
  - apply standard_eq.
Qed.

(** *** Checksums *)

Lemma schar_low x b : is_byte b -> Z.lxor x (schar b) .& 0xff = Z.lxor x b .& 0xff.
Proof.
  intros Hb. unfold schar. destruct (Z.ltb_spec b 128); [done|]. change 0xff with (Z.ones 8).
  assert (Z.land (b - 256) (Z.ones 8) = Z.land b (Z.ones 8)) as E.
  { rewrite !Z.land_ones by done. change (2 ^ 8) with 256. replace (b - 256) with (b + (-1) * 256) by lia. apply Z.mod_add. done. }
  apply Z.bits_inj'. intros i Hi. apply (f_equal (fun z => Z.testbit z i)) in E. rewrite !Z.land_spec in *. rewrite !Z.lxor_spec.
  destruct (Z.testbit (Z.ones 8) i); rewrite ?Bool.andb_false_r, ?Bool.andb_true_r in *; congruence.
Qed.

(** The sixteen loads, at multiples of the stride. *)
Lemma sample_at page k : is_page page -> 0 <= k < 16 ->
  exists b, ld 1 page (k * 256) = Some b /\ samples page !! Z.to_nat k = Some b /\ is_byte b.
Proof.
  intros [Hl Hb] Hk. destruct (lookup_lt_is_Some_2 page (Z.to_nat (k * 256))) as [b Eb]; [lia|]. exists b.
  rewrite (ld_byte page 0 (k * 256) (Z.to_nat (k * 256)) page (points_start page)) by lia.
  split; [unfold byte_at; by rewrite nth_lookup, Eb|]. split; [|by eapply Forall_lookup_1].
  unfold samples. rewrite list_lookup_fmap, lookup_seq_lt by (unfold Crc.CRC8_NUM_CHECK; lia). cbn [fmap option_fmap option_map].
  unfold Crc.CRC8_NUM_CHECK. change (4096 / 16)%nat with 256%nat. replace ((0 + Z.to_nat k) * 256)%nat with (Z.to_nat (k * 256)) by lia. by rewrite Eb.
Qed.

Section sampling.
Context (page : list Z) (Hp : is_page page) (I : Z -> Prop) (step : Z -> Z -> Z) (inc : Z).
Context (cond : Z * Z * Z -> bool) (body : Z * Z * Z -> option (Z * Z * Z)).
Hypothesis Hcond : forall k crc, 0 <= k -> cond (k * inc, k * 256, crc) = (k <? 16).
Hypothesis Hbody : forall k crc b, I crc -> is_byte b -> ld 1 page (k * 256) = Some b ->
  body (k * inc, k * 256, crc) = Some ((k + 1) * inc, (k + 1) * 256, step crc b) /\ I (step crc b).

(** The loop from sample [k] on. *)
Lemma sampling_loop n : forall k crc, I crc -> k + Z.of_nat n = 16 -> 0 <= k ->
  while (S n) cond body (k * inc, k * 256, crc) = Some (16 * inc, 16 * 256, foldl step crc (drop (Z.to_nat k) (samples page))).
Proof.
  induction n as [|n IH]; intros k crc HI Hk Hk0; cbn [while]; rewrite Hcond by done.
  - replace k with 16 by lia. cbn [Z.ltb Z.compare Pos.compare Pos.compare_cont]. rewrite drop_ge; [done|]. unfold samples. by rewrite length_fmap, length_seq.
  - rewrite (proj2 (Z.ltb_lt _ _)) by lia. destruct (sample_at page k Hp) as (b & Eb & Es & Hb); [lia|].
    destruct (Hbody k crc b HI Hb Eb) as [-> HI']. cbn [mbind option_bind]. rewrite (drop_S _ _ _ Es). cbn [foldl].
    rewrite <- Z2Nat.inj_succ by done. rewrite <- (IH (k + 1)) by (done || lia). reflexivity.
Qed.

Corollary sampling crc : I crc -> while 17 cond body (0 * inc, 0, crc) = Some (16 * inc, 16 * 256, foldl step crc (samples page)).
Proof. intros HI. by apply (sampling_loop 16 0). Qed.
End sampling.

Lemma crc8tab_range x : (Z.to_nat (x .& 0xff) < 256)%nat.
Proof. change 0xff with (Z.ones 8). rewrite Z.land_ones by done. pose proof (Z.mod_pos_bound x (2 ^ 8)). lia. Qed.

Lemma crc16tab_word i w : crc16tab !! i = Some w -> u_ok 16 w.
Proof.
  intros H. assert (Forall (fun w => (0 <=? w) && (w <? 2 ^ 16) = true) crc16tab) as HF by (by apply (bool_decide_unpack _); vm_compute).
  apply (Forall_lookup_1 _ _ _ _ HF) in H. unfold u_ok. lia.
Qed.

Lemma CRC16_eq page : is_page page -> CRC16 page = Some (Crc.CRC16 page).
Proof.
  intros Hp. unfold CRC16. match goal with |- context [while _ ?cond ?body _] =>
    pose proof (sampling page Hp (u_ok 16) crc16_step 256 cond body) as T end.
  cbv zeta in T |- *. change (4096 / CRC16_NUM_CHECK) with 256 in T |- *.
  change (0 * 256) with 0 in T. rewrite T; clear T; [cbn [mbind option_bind]; unfold Crc.CRC16; reflexivity| | |done].
  - intros k crc Hk. destruct (Z.ltb_spec (k * 256) 4096), (Z.ltb_spec k 16); (done || lia).
  - intros k crc b HI Hb Eb. rewrite Eb. cbn [mbind option_bind]. change 0x00FF with 0xff. rewrite schar_low by done.
    destruct (lookup_lt_is_Some_2 crc16tab (Z.to_nat (Z.lxor (crc >> 8) b .& 0xff))) as [w Ew]; [apply crc8tab_range|].
    rewrite Ew. cbn [mbind option_bind]. pose proof (crc16tab_word _ _ Ew) as Hw.
    assert (wrap 16 (Z.lxor (Z.shiftl crc 8) w) = crc16_step crc b) as ->.
    { unfold crc16_step. change Crc.crc16tab with crc16tab. rewrite (list_lookup_total_correct _ _ _ Ew). bits. }
    split; [do 3 f_equal; lia|]. unfold crc16_step. apply lxor_ok; [done|by apply wrap_ok|].
    change Crc.crc16tab with crc16tab. by rewrite (list_lookup_total_correct _ _ _ Ew).
Qed.

Lemma CRC8_eq page : is_page page -> CRC8 true page = Some (Crc.CRC8 true page).
Proof.
  intros Hp. unfold CRC8. match goal with |- context [while _ ?cond ?body _] =>
    pose proof (sampling page Hp (fun _ => True) crc8_step 1 cond body) as T end.
  cbv zeta in T |- *. change (4096 / CRC8_NUM_CHECK) with 256 in T |- *.
  change (0 * 1) with 0 in T. rewrite T; clear T; [cbn [mbind option_bind]; unfold Crc.CRC8; reflexivity| | |done].
  - intros k crc Hk. by rewrite Z.mul_1_r.
  - intros k crc b _ Hb Eb. rewrite Eb. cbn [mbind option_bind]. rewrite schar_low by done.
    destruct (lookup_lt_is_Some_2 crc8tab (Z.to_nat (Z.lxor crc b .& 0xff))) as [w Ew]; [apply crc8tab_range|].
    rewrite Ew. cbn [mbind option_bind]. unfold crc8_step. change Crc.crc8tab with crc8tab. rewrite (list_lookup_total_correct _ _ _ Ew).
    split; [do 3 f_equal; lia|done].
Qed.

(** Both sides compute the same checksums: on every page the driver's functions read the sixteen sampled
    bytes, all inside the page, and return what the daemon's return; CRC16_CHECK tells exactly the sums that differ. *)
Theorem driver_crcs_agree page : is_page page ->
  crc8tab = Crc.crc8tab /\ crc16tab = Crc.crc16tab /\
  (forall check, CRC8 check page = Some (Crc.CRC8 check page)) /\ CRC16 page = Some (Crc.CRC16 page) /\
  forall crc16, CRC16_CHECK true crc16 page = Some (if decide (crc16 = Crc.CRC16 page) then 0 else 1).
Proof.
  intros Hp. split; [reflexivity|]. split; [reflexivity|].
  assert (CRC16 page = Some (Crc.CRC16 page)) as E16 by by apply CRC16_eq. split; [|split; [done|]].
  - intros [|]; [|done]. by apply CRC8_eq.
  - intros crc16. unfold CRC16_CHECK. rewrite E16. cbn [mbind option_bind]. case_decide as Hd.
    + by rewrite (proj2 (Z.eqb_eq _ _)).
    + by rewrite (proj2 (Z.eqb_neq _ _)).
Qed.

Lemma driver_crcs_agree_witness :
  crc8tab = Crc.crc8tab /\ crc16tab = Crc.crc16tab /\
  (forall check, CRC8 check bad_page = Some (Crc.CRC8 check bad_page)) /\ CRC16 bad_page = Some (Crc.CRC16 bad_page) /\
  forall crc16, CRC16_CHECK true crc16 bad_page = Some (if decide (crc16 = Crc.CRC16 bad_page) then 0 else 1).
Proof. apply (driver_crcs_agree bad_page). apply bad_page_ok. Defined.

Example driver_xxhash_empty : Xxhash.xxhash 4 [] 0 0 = Some 0xEF46DB3751D8E999.
Proof. reflexivity. Qed.
