(* ===== verification/WorkerThread.v ===== *)
(** * WorkerThread: the daemon's pool of worker threads

    [daemon/worker_thread.hpp]: a queue of jobs under a mutex, workers that poll it with
    [try_lock] between sleeps, and the destructor that joins them. Threads interleave at
    each access to [stop_all], to the queue or to the mutex. *)
From S2P Require Import Prelude.

Section worker_thread.
Context {J : Type}.
Implicit Types (j : J) (js : list J).

(** ** State *)

(** Where a thread in [Work] is: [RETRY], [RETRY2], the two tests of [stop_all] and the
    queue, the extraction of the front job, the job itself, and the test that follows it. *)
Inductive wpc := Sleeping | Trying | Checking | Checking2 | Popping | Running j | Locking | Rechecking | Returned.
(** Where a caller of [EnqueueJob] is. *)
Inductive cpc := Calling j | Entering j | Pushing j | Finished | Threw.

(** The mutex, [jobs_] and [stop_all]; what was pushed, popped and executed so far. *)
Record pool := Pool {
  m_job_q : bool;
  jobs_ : list J;
  stop_all : bool;
  worker_threads : list wpc;
  callers : list cpc;
  pushed : list J;
  popped : list J;
  executed : list J;
}.
Implicit Types (p : pool).

Definition set_mutex p (b : bool) : pool :=
  Pool b (jobs_ p) (stop_all p) (worker_threads p) (callers p) (pushed p) (popped p) (executed p).
Definition set_worker p (i : nat) (x : wpc) : pool :=
  Pool (m_job_q p) (jobs_ p) (stop_all p) (<[i := x]> (worker_threads p)) (callers p) (pushed p) (popped p) (executed p).
Definition set_caller p (i : nat) (x : cpc) : pool :=
  Pool (m_job_q p) (jobs_ p) (stop_all p) (worker_threads p) (<[i := x]> (callers p)) (pushed p) (popped p) (executed p).
Definition pop p j js : pool :=
  Pool (m_job_q p) js (stop_all p) (worker_threads p) (callers p) (pushed p) (popped p ++ [j]) (executed p).
Definition push p j : pool :=
  Pool (m_job_q p) (jobs_ p ++ [j]) (stop_all p) (worker_threads p) (callers p) (pushed p ++ [j]) (popped p) (executed p).
Definition execute p j : pool :=
  Pool (m_job_q p) (jobs_ p) (stop_all p) (worker_threads p) (callers p) (pushed p) (popped p) (executed p ++ [j]).

(** ** Threads *)

(** The constructor starts the workers. *)
Definition mkWorkerThread (num_threads : nat) : pool := Pool false [] false (replicate num_threads Sleeping) [] [] [] [].

Definition is_empty js : bool := match js with [] => true | _ => false end.

(** The next step of worker [i]; [None]: it has returned, it waits for the mutex, or it
    reads the front of an empty queue. *)
Definition Work p (i : nat) : option pool :=
  match worker_threads p !! i with
  | Some Sleeping => Some (set_worker p i Trying)
  | Some Trying => Some (if m_job_q p then set_worker p i Sleeping else set_worker (set_mutex p true) i Checking)
  | Some Checking =>
      Some (if negb (stop_all p) && is_empty (jobs_ p) then set_worker (set_mutex p false) i Sleeping else set_worker p i Checking2)
  | Some Checking2 =>
      Some (if stop_all p && is_empty (jobs_ p) then set_worker (set_mutex p false) i Returned else set_worker p i Popping)
  | Some Popping =>
      match jobs_ p with
      | [] => None
      | j :: js => Some (set_worker (set_mutex (pop p j js) false) i (Running j))
      end
  | Some (Running j) => Some (set_worker (execute p j) i Locking)
  | Some Locking => if m_job_q p then None else Some (set_worker (set_mutex p true) i Rechecking)
  | Some Rechecking =>
      Some (set_worker (set_mutex p false) i (if negb (stop_all p) && negb (is_empty (jobs_ p)) then Trying else Sleeping))
  | Some Returned | None => None
  end.

(** The next step of a call of [EnqueueJob]. *)
Definition EnqueueJob p (i : nat) : option pool :=
  match callers p !! i with
  | Some (Calling j) => Some (set_caller p i (if stop_all p then Threw else Entering j))
  | Some (Entering j) => if m_job_q p then None else Some (set_caller (set_mutex p true) i (Pushing j))
  | Some (Pushing j) => Some (set_caller (set_mutex (push p j) false) i Finished)
  | _ => None
  end.

Definition call p j : pool :=
  Pool (m_job_q p) (jobs_ p) (stop_all p) (worker_threads p) (callers p ++ [Calling j]) (pushed p) (popped p) (executed p).

(** The destructor sets [stop_all], without the mutex, and joins the workers. *)
Definition destroy p : pool :=
  Pool (m_job_q p) (jobs_ p) true (worker_threads p) (callers p) (pushed p) (popped p) (executed p).
Definition joined p : Prop := forall i x, worker_threads p !! i = Some x -> x = Returned.

Inductive pool_step p p' : Prop :=
| PWork i : Work p i = Some p' -> pool_step p p'
| PEnqueue i : EnqueueJob p i = Some p' -> pool_step p p'
| PCall j : p' = call p j -> pool_step p p'
| PDestroy : p' = destroy p -> pool_step p p'.

Definition pool_reachable (n : nat) p : Prop := rtc pool_step (mkWorkerThread n) p.

(** ** Invariant *)

Definition worker_holds (x : wpc) : Z := match x with Checking | Checking2 | Popping | Rechecking => 1 | _ => 0 end.
Definition caller_holds (x : cpc) : Z := match x with Pushing _ => 1 | _ => 0 end.
Definition holders p : Z := sum_with worker_holds (worker_threads p) + sum_with caller_holds (callers p).

Definition running (x : wpc) : list J := match x with Running j => [j] | _ => [] end.
Definition running_jobs p : list J := concat (running <$> worker_threads p).

(** What a worker knows of the state where it is. *)
Definition worker_ok p (x : wpc) : Prop :=
  match x with
  | Checking2 => stop_all p = true \/ jobs_ p <> []
  | Popping => jobs_ p <> []
  | Returned => stop_all p = true
  | _ => True
  end.

Record pool_inv p : Prop := {
  pi_lock : holders p = if m_job_q p then 1 else 0;
  pi_fifo : pushed p = popped p ++ jobs_ p;
  pi_exec : popped p ≡ₚ executed p ++ running_jobs p;
  pi_worker i x : worker_threads p !! i = Some x -> worker_ok p x;
}.

(** ** Lemmas *)

Lemma worker_holds_nonneg l : 0 <= sum_with worker_holds l.
Proof. apply sum_with_nonneg. intros [] _; cbn; lia. Qed.
Lemma caller_holds_nonneg l : 0 <= sum_with caller_holds l.
Proof. apply sum_with_nonneg. intros [] _; cbn; lia. Qed.

(** Two workers never hold the mutex, nor a worker and a caller. *)
Lemma one_worker p i k x y : pool_inv p -> i <> k ->
  worker_threads p !! i = Some x -> worker_threads p !! k = Some y -> worker_holds x = 1 -> worker_holds y = 0.
Proof.
  intros Hi Hne Hx Hy H1. pose proof (pi_lock _ Hi) as Hl. unfold holders in Hl.
  pose proof (sum_with_insert worker_holds _ i x Sleeping Hx) as E. cbn in E. rewrite H1 in E.
  assert (<[i := Sleeping]> (worker_threads p) !! k = Some y) as Hk by by rewrite list_lookup_insert_ne.
  pose proof (sum_with_elem_le worker_holds (<[i := Sleeping]> (worker_threads p)) y) as Hle.
  assert (worker_holds y <= sum_with worker_holds (<[i := Sleeping]> (worker_threads p))) as Hy1.
  { apply Hle; [intros [] _; cbn; lia|by eapply list_elem_of_lookup_2]. }
  pose proof (caller_holds_nonneg (callers p)). assert (holders p <= 1) as Hh by (unfold holders; destruct (m_job_q p); lia).
  unfold holders in Hh. destruct y; cbn in *; lia.
Qed.

Lemma caller_excludes p i k x y : pool_inv p ->
  callers p !! i = Some x -> caller_holds x = 1 -> worker_threads p !! k = Some y -> worker_holds y = 0.
Proof.
  intros Hi Hx H1 Hy. pose proof (pi_lock _ Hi) as Hl. unfold holders in Hl.
  assert (worker_holds y <= sum_with worker_holds (worker_threads p)).
  { apply sum_with_elem_le; [intros [] _; cbn; lia|by eapply list_elem_of_lookup_2]. }
  assert (caller_holds x <= sum_with caller_holds (callers p)).
  { apply sum_with_elem_le; [intros [] _; cbn; lia|by eapply list_elem_of_lookup_2]. }
  destruct y, (m_job_q p); cbn in *; lia.
Qed.

(** A worker that does not hold the mutex knows nothing of the queue. *)
Lemma worker_ok_free p p' x : worker_holds x = 0 -> (stop_all p = true -> stop_all p' = true) ->
  worker_ok p x -> worker_ok p' x.
Proof. destruct x; cbn; try done; auto. Qed.

Definition lock_value p : Z := if m_job_q p then 1 else 0.

(** A step of worker [i] from [x] to [y]: the queue changes only while it holds the mutex. *)
Lemma worker_change p p' i x y : pool_inv p -> worker_threads p !! i = Some x ->
  worker_threads p' = <[i := y]> (worker_threads p) -> callers p' = callers p -> stop_all p' = stop_all p ->
  lock_value p' = lock_value p - worker_holds x + worker_holds y ->
  (worker_holds x = 1 \/ jobs_ p' = jobs_ p) -> pushed p' = popped p' ++ jobs_ p' ->
  popped p' ++ executed p ++ running x ≡ₚ popped p ++ executed p' ++ running y -> worker_ok p' y ->
  pool_inv p'.
Proof.
  intros Hi Hx Ew Ec Es El Hq Hf He Hy. split; [|done| |].
  - unfold holders. rewrite Ew, Ec, (sum_with_insert _ _ _ _ _ Hx). pose proof (pi_lock _ Hi) as Hl. unfold holders, lock_value in *. lia.
  - pose proof (concat_insert running _ _ x y Hx) as Hc. rewrite <- Ew in Hc. fold (running_jobs p') (running_jobs p) in Hc.
    apply (Permutation_app_inv_r (executed p ++ running x)). rewrite He.
    transitivity ((executed p ++ executed p') ++ (running y ++ running_jobs p)); [rewrite (pi_exec _ Hi); solve_Permutation|].
    rewrite <- Hc. solve_Permutation.
  - intros k z. rewrite Ew. destruct (decide (i = k)) as [<-|Hne].
    + rewrite list_lookup_insert_eq by by eapply lookup_lt_Some. by intros [= <-].
    + rewrite list_lookup_insert_ne by done. intros Hz. pose proof (pi_worker _ Hi k z Hz) as Hok.
      destruct Hq as [H1|Eq]; [|destruct z; cbn in *; by rewrite ?Es, ?Eq].
      apply (worker_ok_free p); [by eapply (one_worker p i k)|by rewrite Es|done].
Qed.

(** A step of caller [i]. *)
Lemma caller_change p p' i x y : pool_inv p -> callers p !! i = Some x ->
  callers p' = <[i := y]> (callers p) -> worker_threads p' = worker_threads p -> stop_all p' = stop_all p ->
  lock_value p' = lock_value p - caller_holds x + caller_holds y ->
  (caller_holds x = 1 \/ jobs_ p' = jobs_ p) -> pushed p' = popped p' ++ jobs_ p' ->
  popped p' = popped p -> executed p' = executed p ->
  pool_inv p'.
Proof.
  intros Hi Hx Ec Ew Es El Hq Hf Ep Ee. split; [|done| |].
  - unfold holders. rewrite Ew, Ec, (sum_with_insert _ _ _ _ _ Hx). pose proof (pi_lock _ Hi) as Hl. unfold holders, lock_value in *. lia.
  - rewrite Ep, Ee. unfold running_jobs. rewrite Ew. apply Hi.
  - intros k z. rewrite Ew. intros Hz. pose proof (pi_worker _ Hi k z Hz) as Hok.
    destruct Hq as [H1|Eq]; [|destruct z; cbn in *; by rewrite ?Es, ?Eq].
    apply (worker_ok_free p); [by eapply (caller_excludes p i k)|by rewrite Es|done].
Qed.

Lemma holder_locked p i x : pool_inv p -> worker_threads p !! i = Some x -> worker_holds x = 1 -> m_job_q p = true.
Proof.
  intros Hi Hx H1. pose proof (pi_lock _ Hi) as Hl. unfold holders in Hl. destruct (m_job_q p); [done|].
  assert (worker_holds x <= sum_with worker_holds (worker_threads p)).
  { apply sum_with_elem_le; [intros [] _; cbn; lia|by eapply list_elem_of_lookup_2]. }
  pose proof (caller_holds_nonneg (callers p)). lia.
Qed.

Lemma pusher_locked p i x : pool_inv p -> callers p !! i = Some x -> caller_holds x = 1 -> m_job_q p = true.
Proof.
  intros Hi Hx H1. pose proof (pi_lock _ Hi) as Hl. unfold holders in Hl. destruct (m_job_q p); [done|].
  assert (caller_holds x <= sum_with caller_holds (callers p)).
  { apply sum_with_elem_le; [intros [] _; cbn; lia|by eapply list_elem_of_lookup_2]. }
  pose proof (worker_holds_nonneg (worker_threads p)). lia.
Qed.

(** Side conditions of the two lemmas above. *)
Local Ltac wt := try done; try (unfold lock_value; cbn; repeat match goal with H : m_job_q _ = _ |- _ => rewrite H end; lia).

Lemma work_inv p p' i : pool_inv p -> Work p i = Some p' -> pool_inv p'.
Proof.
  intros Hi. unfold Work. destruct (worker_threads p !! i) as [x|] eqn:Hx; [|done].
  pose proof (pi_worker _ Hi i x Hx) as Hok. pose proof (pi_fifo _ Hi) as Hf. pose proof (holder_locked p i x Hi Hx) as Hl.
  assert (forall p' y, Work p i = Some p' -> worker_threads p' = <[i := y]> (worker_threads p) -> callers p' = callers p ->
    stop_all p' = stop_all p -> lock_value p' = lock_value p - worker_holds x + worker_holds y ->
    jobs_ p' = jobs_ p -> pushed p' = pushed p -> popped p' = popped p ->
    executed p ++ running x ≡ₚ executed p' ++ running y -> worker_ok p' y -> pool_inv p') as Hc.
  { intros q y _ Ew Ec Es El Ej Eu Ep He Hy. apply (worker_change p q i x y); auto; [congruence|by rewrite Ep, He]. }
  unfold Work in Hc. rewrite Hx in Hc. destruct x; try done; cbn in Hok, Hl.
  - intros [= <-]. apply (Hc _ Trying); wt.
  - destruct (m_job_q p) eqn:Em; intros [= <-].
    + apply (Hc _ Sleeping); wt.
    + apply (Hc _ Checking); wt.
  - specialize (Hl eq_refl). destruct (negb (stop_all p) && is_empty (jobs_ p)) eqn:Et; intros [= <-].
    + apply (Hc _ Sleeping); wt.
    + apply (Hc _ Checking2); wt. cbn.
      destruct (stop_all p); [by left|right]. by destruct (jobs_ p).
  - specialize (Hl eq_refl). destruct (stop_all p && is_empty (jobs_ p)) eqn:Et; intros [= <-].
    + apply (Hc _ Returned); wt. cbn. by destruct (stop_all p).
    + apply (Hc _ Popping); wt. cbn.
      destruct (jobs_ p); [|done]. rewrite andb_true_r in Et. destruct Hok; congruence.
  - specialize (Hl eq_refl). destruct (jobs_ p) as [|j js] eqn:Ej; [done|]. intros [= <-].
    apply (worker_change p _ i Popping (Running j)); wt; cbn; auto.
    + by rewrite Hf, <- app_assoc.
    + solve_Permutation.
  - intros [= <-]. apply (Hc _ Locking); wt. cbn. by rewrite app_nil_r.
  - destruct (m_job_q p) eqn:Em; [done|]. intros [= <-]. apply (Hc _ Rechecking); wt.
  - specialize (Hl eq_refl). intros [= <-].
    destruct (negb (stop_all p) && negb (is_empty (jobs_ p))); [apply (Hc _ Trying)|apply (Hc _ Sleeping)]; wt.
Qed.

Lemma enqueue_inv p p' i : pool_inv p -> EnqueueJob p i = Some p' -> pool_inv p'.
Proof.
  intros Hi. unfold EnqueueJob. destruct (callers p !! i) as [x|] eqn:Hx; [|done].
  pose proof (pi_fifo _ Hi) as Hf. pose proof (pusher_locked p i x Hi Hx) as Hl.
  destruct x; try done; cbn in Hl.
  - intros [= <-]. apply (caller_change p _ i (Calling j) (if stop_all p then Threw else Entering j)); wt; auto.
    destruct (stop_all p); wt.
  - destruct (m_job_q p) eqn:Em; [done|]. intros [= <-]. apply (caller_change p _ i (Entering j) (Pushing j)); wt; auto.
  - specialize (Hl eq_refl). intros [= <-]. apply (caller_change p _ i (Pushing j) Finished); wt; auto.
    cbn. by rewrite Hf, app_assoc.
Qed.

Lemma pool_step_inv p p' : pool_inv p -> pool_step p p' -> pool_inv p'.
Proof.
  intros Hi [i H|i H|j ->| ->]; [by eapply work_inv|by eapply enqueue_inv| |]; destruct Hi as [Hl Hf He Hw].
  - split; try done. unfold holders in *. cbn [callers call worker_threads m_job_q]. rewrite sum_with_app. cbn. lia.
  - split; try done. intros i x Hx. specialize (Hw i x Hx). destruct x; cbn in *; auto.
Qed.

Lemma pool_start_inv n : pool_inv (mkWorkerThread n).
Proof.
  split; cbn.
  - unfold holders. cbn [callers mkWorkerThread worker_threads m_job_q].
    assert (sum_with worker_holds (replicate n Sleeping) = 0) as ->; [|done]. induction n as [|n IH]; [done|exact IH].
  - done.
  - unfold running_jobs. cbn [worker_threads mkWorkerThread popped executed app]. induction n as [|n IH]; [done|exact IH].
  - intros i x [-> _]%lookup_replicate. done.
Qed.

Lemma pool_reachable_inv n p : pool_reachable n p -> pool_inv p.
Proof. apply (rtc_invariant pool_step pool_inv); [exact pool_step_inv|apply pool_start_inv]. Qed.

(** *** After the destructor *)

(** No caller is between the test of [stop_all] and its push. *)
Definition quiet p : Prop := forall i x, callers p !! i = Some x -> match x with Entering _ | Pushing _ => False | _ => True end.

(** Once a worker has returned, the queue stays empty. *)
Record stopping (l : list J) p : Prop := {
  sg_inv : pool_inv p;
  sg_stop : stop_all p = true;
  sg_quiet : quiet p;
  sg_empty i : worker_threads p !! i = Some Returned -> jobs_ p = [];
  sg_pushed : pushed p = l;
}.

Lemma quiet_insert p p' i x y : quiet p -> callers p !! i = Some x -> callers p' = <[i := y]> (callers p) ->
  match y with Entering _ | Pushing _ => False | _ => True end -> quiet p'.
Proof.
  intros Hq Hx Ec Hy k z. rewrite Ec. destruct (decide (i = k)) as [<-|Hne].
  - rewrite list_lookup_insert_eq by by eapply lookup_lt_Some. by intros [= <-].
  - rewrite list_lookup_insert_ne by done. apply Hq.
Qed.

(** A step of a worker: what becomes of the fields that [stopping] mentions. *)
Lemma work_fields p p' i : Work p i = Some p' ->
  stop_all p' = stop_all p /\ callers p' = callers p /\ pushed p' = pushed p /\
  exists y, worker_threads p' = <[i := y]> (worker_threads p) /\ (jobs_ p = [] -> jobs_ p' = []) /\
    (y = Returned -> jobs_ p' = []).
Proof.
  unfold Work. destruct (worker_threads p !! i) as [[| | | | |j| | |]|]; try done; repeat case_match; try done; intros [= <-];
    (split_and!; [done..|]); eexists; (split; [done|]); cbn; split; try done; try congruence.
  intros _. destruct (jobs_ p); [done|]. rewrite andb_comm in *. done.
Qed.

Lemma stopping_step l p p' : stopping l p -> pool_step p p' -> stopping l p'.
Proof.
  intros [Hi Hs Hq He Hl] Hstep. pose proof (pool_step_inv _ _ Hi Hstep) as Hi'. destruct Hstep as [i H|i H|j ->| ->].
  - destruct (work_fields p p' i H) as (Es & Ec & Ep & y & Ew & Hj & Hy). split; [done|congruence| | |congruence].
    + intros k x. rewrite Ec. apply Hq.
    + intros k. rewrite Ew. destruct (decide (i = k)) as [<-|Hne].
      * destruct (decide (i < length (worker_threads p))%nat).
        -- rewrite list_lookup_insert_eq by done. intros [= ->]. by apply Hy.
        -- rewrite lookup_ge_None_2; [done|]. rewrite length_insert. lia.
      * rewrite list_lookup_insert_ne by done. intros Hk. by eapply Hj, He.
  - unfold EnqueueJob in H. destruct (callers p !! i) as [x|] eqn:Hx; [|done]. pose proof (Hq i x Hx) as Hqx.
    destruct x; try done. injection H as <-. rewrite Hs in *. split; try done.
    by apply (quiet_insert p _ i (Calling j) Threw).
  - split; try done. intros i x. cbn. intros [Hx|[_ Hx]]%lookup_app_Some; [by eapply Hq|].
    destruct (i - length (callers p))%nat; [|done]. by injection Hx as <-.
  - split; try done.
Qed.

(** What is left to do once [stop_all] is set, while the callers that have not entered wait. *)
Definition worker_cost (x : wpc) : Z :=
  match x with
  | Returned => 0 | Popping => 1 | Checking2 => 2 | Checking => 3 | Trying => 4 | Sleeping => 5 | Rechecking => 6
  | Locking => 7 | Running _ => 8
  end.
Definition stop_cost p : Z :=
  10 * Z.of_nat (length (jobs_ p)) + sum_with worker_cost (worker_threads p) + 11 * sum_with caller_holds (callers p).

Lemma stop_cost_nonneg p : 0 <= stop_cost p.
Proof.
  unfold stop_cost. pose proof (caller_holds_nonneg (callers p)).
  assert (0 <= sum_with worker_cost (worker_threads p)) by (apply sum_with_nonneg; intros [] _; cbn; lia). lia.
Qed.

(** A worker that can move without a failed [try_lock] gets closer to its return. *)
Lemma work_cost p i x : pool_inv p -> stop_all p = true -> worker_threads p !! i = Some x -> x <> Returned ->
  (x = Trying \/ x = Locking -> m_job_q p = false) ->
  exists p', Work p i = Some p' /\ stop_all p' = true /\ stop_cost p' < stop_cost p.
Proof.
  intros Hi Hs Hx Hr Hf. unfold Work, stop_cost. rewrite Hx, Hs. pose proof (pi_worker _ Hi i x Hx) as Hok.
  pose proof (fun y => sum_with_insert worker_cost _ i x y Hx) as Hc.
  destruct x; try done; cbn [negb andb]; rewrite ?Hf by auto;
    try (eexists; split; [reflexivity|]; split; [done|]; cbn [jobs_ set_worker set_mutex execute worker_threads callers];
         rewrite Hc; cbn [worker_cost]; lia).
  - destruct (is_empty (jobs_ p)); (eexists; split; [reflexivity|]; split; [done|];
      cbn [jobs_ set_worker set_mutex worker_threads callers]; rewrite Hc; cbn [worker_cost]; lia).
  - cbn in Hok. destruct (jobs_ p) as [|j js] eqn:Ej; [done|]. eexists; split; [reflexivity|]. split; [done|].
    cbn [jobs_ set_worker set_mutex pop worker_threads callers]. rewrite Hc. cbn [worker_cost length]. lia.
Qed.

Lemma find_holder {A} (f : A -> Z) (l : list A) : (forall x, x ∈ l -> 0 <= f x) -> 0 < sum_with f l -> exists i x, l !! i = Some x /\ 0 < f x.
Proof.
  induction l as [|x l IH]; intros Hf Hp; [by cbn in Hp|]. change (0 < f x + sum_with f l) in Hp. destruct (decide (0 < f x)) as [Hx|Hx].
  - by exists 0%nat, x.
  - destruct IH as (i & y & Hi & Hy); [intros; apply Hf; by right|pose proof (Hf x ltac:(left)); lia|]. by exists (S i), y.
Qed.

Definition returned (x : wpc) : bool := match x with Returned => true | _ => false end.

(** While a worker is left, someone can move towards the end. *)
Lemma stop_progress p : pool_inv p -> stop_all p = true ->
  joined p \/ exists p', pool_step p p' /\ stop_all p' = true /\ stop_cost p' < stop_cost p.
Proof.
  intros Hi Hs. destruct (m_job_q p) eqn:Em.
  - pose proof (pi_lock _ Hi) as Hl. rewrite Em in Hl. unfold holders in Hl. right.
    destruct (decide (0 < sum_with worker_holds (worker_threads p))) as [Hw|Hw].
    + destruct (find_holder worker_holds (worker_threads p)) as (i & x & Hx & Hh); [intros [] _; cbn; lia|done|].
      destruct (work_cost p i x Hi Hs Hx) as (p' & H1 & H2 & H3); [by intros ->|by intros [->| ->]|].
      exists p'. split; [by eapply PWork|done].
    + destruct (find_holder caller_holds (callers p)) as (i & x & Hx & Hh); [intros [] _; cbn; lia|lia|].
      destruct x; cbn in Hh; try lia. eexists. split; [eapply (PEnqueue _ _ i); unfold EnqueueJob; by rewrite Hx|].
      split; [done|]. unfold stop_cost. cbn [jobs_ set_caller set_mutex push worker_threads callers].
      rewrite (sum_with_insert _ _ _ _ _ Hx), length_app. cbn. lia.
  - destruct (decide (Forall (fun x => returned x = true) (worker_threads p))) as [Hf|Hf].
    + left. intros i x Hx. pose proof (Forall_lookup_1 _ _ _ _ Hf Hx) as H. by destruct x.
    + right. apply not_Forall_Exists, Exists_exists in Hf as (x & Hin & Hx); [|apply _].
      apply list_elem_of_lookup_1 in Hin as [i Hi'].
      destruct (work_cost p i x Hi Hs Hi') as (p' & H1 & H2 & H3); [intros ->; by apply Hx|done|]. exists p'. split; [by eapply PWork|done].
Qed.

(** *** Executable runs *)

Inductive action := AWork (i : nat) | AEnqueue (i : nat) | ACall j | ADestroy.
Definition act p (a : action) : option pool :=
  match a with AWork i => Work p i | AEnqueue i => EnqueueJob p i | ACall j => Some (call p j) | ADestroy => Some (destroy p) end.
Fixpoint run (l : list action) p : option pool := match l with [] => Some p | a :: l => p ← act p a; run l p end.

Lemma actions_steps l p p' : run l p = Some p' -> rtc pool_step p p'.
Proof.
  revert p. induction l as [|a l IH]; intros p; cbn [run]; [by intros [= <-]|].
  destruct (act p a) as [p1|] eqn:E; [|done]. cbn [mbind option_bind]. intros H. eapply rtc_l; [|by apply IH].
  destruct a; cbn in E; [by eapply PWork|by eapply PEnqueue|injection E as <-; by eapply PCall|injection E as <-; by apply PDestroy].
Qed.

(** ** Properties *)

(** Jobs are neither lost, repeated nor reordered: at any time the jobs pushed are, in order, those
    taken from the queue followed by those in it; those taken are executed or being executed,
    one for one; two threads never hold the mutex together, and no worker reads the
    front of an empty queue. *)
Theorem jobs_conserved n p :
  pool_reachable n p ->
  pushed p = popped p ++ jobs_ p /\ popped p ≡ₚ executed p ++ running_jobs p /\
  holders p = (if m_job_q p then 1 else 0) /\
  forall i, worker_threads p !! i = Some Popping -> jobs_ p <> [].
Proof.
  intros Hr. destruct (pool_reachable_inv n p Hr) as [Hl Hf He Hw]. split_and!; [done|done|done|].
  intros i Hi. apply (Hw i _ Hi).
Qed.

(** C40: The destructor drains the queue: when no caller is between its test of [stop_all] and its push as
    the destructor runs, then once the workers have returned every job pushed has been executed,
    exactly once, and whatever state the threads are in, they can still get there. *)
Theorem destructor_drains n p p' :
  pool_reachable n p -> stop_all p = false -> quiet p -> rtc pool_step (destroy p) p' ->
  (joined p' -> (0 < length (worker_threads p'))%nat ->
     jobs_ p' = [] /\ pushed p' = pushed p /\ executed p' ≡ₚ pushed p) /\
  exists p'', rtc pool_step p' p'' /\ joined p''.
Proof.
  intros Hr Hs Hq Hd. pose proof (pool_reachable_inv n p Hr) as Hi.
  assert (stopping (pushed p) (destroy p)) as Hst.
  { split; [by eapply pool_step_inv, PDestroy|done|done| |done]. intros i Hx. pose proof (pi_worker _ Hi i _ Hx) as H.
    cbn in H. congruence. }
  pose proof (rtc_invariant _ _ _ _ (stopping_step (pushed p)) Hst Hd) as [Hi' Hs' Hq' He' Hl'].
  split.
  - intros Hj Hn. assert (jobs_ p' = []) as Ej.
    { destruct (lookup_lt_is_Some_2 (worker_threads p') 0 Hn) as [x Hx]. pose proof (Hj _ _ Hx) as ->. by eapply He'. }
    split; [done|]. split; [done|]. rewrite <- Hl', (pi_fifo _ Hi'), Ej, app_nil_r, (pi_exec _ Hi').
    assert (running_jobs p' = []) as ->; [|by rewrite app_nil_r]. unfold running_jobs.
    assert (forall l, (forall i x, l !! i = Some x -> x = Returned) -> concat (running <$> l) = []) as Hr0; [|by apply Hr0].
    induction l as [|x l IH]; intros Hl; [done|]. rewrite fmap_cons. cbn. rewrite (Hl 0%nat x eq_refl). cbn. apply IH.
    intros i y Hy. by apply (Hl (S i)).
  - clear Hd Hq' He' Hl'. remember (Z.to_nat (stop_cost p')) as m eqn:Em. revert p' Hi' Hs' Em.
    induction m as [m IH] using lt_wf_ind. intros p' Hi' Hs' ->.
    destruct (stop_progress p' Hi' Hs') as [Hj|(p1 & Hstep & Hs1 & Hc)]; [by exists p'|].
    pose proof (stop_cost_nonneg p1). destruct (IH (Z.to_nat (stop_cost p1)) ltac:(lia) p1) as (p2 & H2 & Hj2);
      [by eapply pool_step_inv|done|done|]. exists p2. split; [by eapply rtc_l|done].
Qed.

(** The test of [stop_all] is outside the mutex: a caller that passed it before the destructor ran can push its
    job after the last worker has returned; the call succeeds and the job is never executed. *)
Theorem late_job_lost j :
  exists p, pool_reachable 1 p /\ joined p /\ callers p = [Finished] /\ jobs_ p = [j] /\ executed p = [] /\
    forall i, Work p i = None.
Proof.
  exists (Pool false [j] true [Returned] [Finished] [j] [] []). split; [apply (actions_steps [ACall j; AEnqueue 0; ADestroy; AWork 0; AWork 0; AWork 0; AWork 0; AEnqueue 0; AEnqueue 0]); reflexivity|].
  split; [|split_and!; try done].
  - intros [|i] x; cbn; [by intros [= <-]|done].
  - intros [|i]; done.
Qed.

End worker_thread.

(** ** Witnesses: one worker and one job *)

Definition demo_pushed : pool (J := nat) := Pool false [7%nat] false [Sleeping] [Finished] [7%nat] [] [].
Definition demo_joined : pool (J := nat) := Pool false [] true [Returned] [Finished] [7%nat] [7%nat] [7%nat].

Lemma demo_pushed_reach : pool_reachable 1 demo_pushed.
Proof. apply (actions_steps [ACall 7%nat; AEnqueue 0; AEnqueue 0; AEnqueue 0]). reflexivity. Qed.

Lemma demo_joined_steps : rtc pool_step (destroy demo_pushed) demo_joined.
Proof. apply (actions_steps (replicate 12 (AWork 0))). vm_compute. reflexivity. Qed.

Lemma jobs_conserved_witness :
  pushed demo_pushed = popped demo_pushed ++ jobs_ demo_pushed /\
  popped demo_pushed ≡ₚ executed demo_pushed ++ running_jobs demo_pushed /\
  holders demo_pushed = (if m_job_q demo_pushed then 1 else 0) /\
  forall i, worker_threads demo_pushed !! i = Some Popping -> jobs_ demo_pushed <> [].
Proof. apply (jobs_conserved 1 demo_pushed), demo_pushed_reach. Defined.

Lemma destructor_drains_witness :
  (joined demo_joined -> (0 < length (worker_threads demo_joined))%nat ->
     jobs_ demo_joined = [] /\ pushed demo_joined = pushed demo_pushed /\ executed demo_joined ≡ₚ pushed demo_pushed) /\
  exists p'', rtc pool_step demo_joined p'' /\ joined p''.
Proof.
  apply (destructor_drains 1 demo_pushed demo_joined).
  - apply demo_pushed_reach.
  - reflexivity.
  - intros [|i] x; cbn; [by intros [= <-]|done].
  - apply demo_joined_steps.
Defined.
