(* ===== verification/CpuStats.v ===== *)
(** * CpuStats: the CPU usage the daemon reports to its clients

    [daemon/cpu-stats/] reads the counters of [/proc/stat] and computes the usage over an
    interval in single precision; [daemon/cpu_stats.hpp] reads the counters of the
    process and averages its usage in double precision. The text of the files is a parameter. *)
From Stdlib Require Import Ascii.
From stdpp Require Import pretty.
From S2P Require Import Prelude.

(** ** Numbers in text: [operator>>] and [fscanf] *)

Definition code (c : ascii) : Z := Z.of_N (Ascii.N_of_ascii c).
Definition is_space (c : ascii) : bool := (code c =? 32) || ((9 <=? code c) && (code c <=? 13)).
Definition is_digit (c : ascii) : bool := (48 <=? code c) && (code c <=? 57).

Fixpoint skip_ws (s : string) : string :=
  match s with String c s' => if is_space c then skip_ws s' else s | EmptyString => EmptyString end.

(** The characters up to white space, and the rest. *)
Fixpoint word (s : string) : string * string :=
  match s with
  | EmptyString => (EmptyString, EmptyString)
  | String c s' => if is_space c then (EmptyString, s) else let '(w, r) := word s' in (String c w, r)
  end.

Fixpoint digits (acc : Z) (s : string) : Z * string :=
  match s with
  | String c s' => if is_digit c then digits (acc * 10 + (code c - 48)) s' else (acc, s)
  | EmptyString => (acc, EmptyString)
  end.

(** A sign and at least one digit: the sign, the magnitude, the rest. *)
Definition number (s : string) : option (bool * Z * string) :=
  let '(neg, s') := match s with
    | String c s' => if code c =? 45 then (true, s') else if code c =? 43 then (false, s') else (false, s)
    | EmptyString => (false, s)
    end in
  match s' with
  | String c _ => if is_digit c then let '(v, r) := digits 0 s' in Some (neg, v, r) else None
  | EmptyString => None
  end.

Definition ULONG_MAX : Z := 2 ^ 64 - 1.

(** A stream: what is left, and whether its state is good. *)
Record istream := IStream { rest : string; good : bool }.

(** [ss >> s] for a string. *)
Definition read_string (ss : istream) (old : string) : istream * string :=
  if negb (good ss) then (ss, old)
  else match skip_ws (rest ss) with
  | EmptyString => (IStream EmptyString false, old)
  | s => let '(w, r) := word s in (IStream r (match r with EmptyString => false | _ => true end), w)
  end.

(** [ss >> n] for a [size_t]: no digit gives 0, too large a number the maximum, and both end the stream. *)
Definition read_size (ss : istream) (old : Z) : istream * Z :=
  if negb (good ss) then (ss, old)
  else match skip_ws (rest ss) with
  | EmptyString => (IStream EmptyString false, old)
  | s =>
      match number s with
      | None => (IStream s false, 0)
      | Some (neg, v, r) =>
          if ULONG_MAX <? v then (IStream r false, ULONG_MAX)
          else (IStream r (match r with EmptyString => false | _ => true end), if neg : bool then wrap 64 (- v) else v)
      end
  end.

(** ** [CPUData] *)

Definition NUM_CPU_STATES : nat := 10.
Inductive CPUStates :=
  S_USER | S_NICE | S_SYSTEM | S_IDLE | S_IOWAIT | S_IRQ | S_SOFTIRQ | S_STEAL | S_GUEST | S_GUEST_NICE.
Definition state_index (x : CPUStates) : nat :=
  match x with
  | S_USER => 0 | S_NICE => 1 | S_SYSTEM => 2 | S_IDLE => 3 | S_IOWAIT => 4 | S_IRQ => 5 | S_SOFTIRQ => 6
  | S_STEAL => 7 | S_GUEST => 8 | S_GUEST_NICE => 9
  end.

Record CPUData := MkCPUData { mLabel : string; mTimes : list Z }.
(** [CPUData()] zeroes the times. *)
Definition new_CPUData : CPUData := MkCPUData EmptyString (replicate NUM_CPU_STATES 0).

Definition STR_CPU : string := "cpu".
Definition STR_TOT : string := "tot".
Definition LEN_STR_CPU : nat := 3.

Definition IsDataCPUStats (line : string) : bool := String.eqb (String.substring 0 LEN_STR_CPU line) STR_CPU.

Fixpoint read_times (ss : istream) (times : list Z) : istream * list Z :=
  match times with
  | [] => (ss, [])
  | t :: times => let '(ss, v) := read_size ss t in let '(ss, vs) := read_times ss times in (ss, v :: vs)
  end.

Definition ReadData (d : CPUData) (line : string) : CPUData :=
  let '(ss, label) := read_string (IStream line true) (mLabel d) in
  let label := if (LEN_STR_CPU <? String.length label)%nat
    then String.substring LEN_STR_CPU (String.length label - LEN_STR_CPU) label else STR_TOT in
  MkCPUData label (read_times ss (mTimes d)).2.

Definition time (d : CPUData) (x : CPUStates) : Z := mTimes d !!! state_index x.

Definition GetActiveTime (d : CPUData) : Z :=
  time d S_USER +₆₄ time d S_NICE +₆₄ time d S_SYSTEM +₆₄ time d S_IRQ +₆₄ time d S_SOFTIRQ +₆₄ time d S_STEAL +₆₄
  time d S_GUEST +₆₄ time d S_GUEST_NICE.
Definition GetIdleTime (d : CPUData) : Z := time d S_IDLE +₆₄ time d S_IOWAIT.
Definition GetStateTime (d : CPUData) (state : Z) : Z :=
  if state <? Z.of_nat NUM_CPU_STATES then mTimes d !!! Z.to_nat state else 0.
Definition GetTotalTime (d : CPUData) : Z :=
  time d S_USER +₆₄ time d S_NICE +₆₄ time d S_SYSTEM +₆₄ time d S_IDLE +₆₄ time d S_IOWAIT +₆₄ time d S_IRQ +₆₄
  time d S_SOFTIRQ +₆₄ time d S_STEAL +₆₄ time d S_GUEST +₆₄ time d S_GUEST_NICE.
Definition GetLabel (d : CPUData) : string := mLabel d.

(** ** [CPUSnapshot] *)

Definition newline : ascii := Ascii.ascii_of_N 10.

(** [getline] until it fails: a last line without newline counts if it is not empty. *)
Fixpoint lines (s : string) : list string :=
  match s with
  | EmptyString => []
  | String c s' =>
      if Ascii.eqb c newline then EmptyString :: lines s'
      else match lines s' with [] => [String c EmptyString] | l :: ls => String c l :: ls end
  end.

(** The entries of [/proc/stat]; [None]: the file cannot be opened. *)
Definition CPUSnapshot (proc_stat : option string) : list CPUData :=
  ReadData new_CPUData <$> filter (fun line => IsDataCPUStats line = true) (match proc_stat with Some s => lines s | None => [] end).

Definition INDEX_TOT : nat := 0.
Definition GetNumEntries (mEntries : list CPUData) : Z := sub64 (Z.of_nat (length mEntries)) 1.
(** [mEntries[INDEX_TOT]] on an empty vector is out of bounds. *)
Definition total_entry {A} (f : CPUData -> A) (mEntries : list CPUData) : outcome A :=
  match mEntries !! INDEX_TOT with Some d => Ok (f d) | None => Throw "mEntries[INDEX_TOT]" end.
(** [++cpu] on an [unsigned int] skips the totals. *)
Definition cpu_entry {A} (f : CPUData -> A) (dflt : A) (mEntries : list CPUData) (cpu : Z) : A :=
  match mEntries !! Z.to_nat (add32 cpu 1) with Some d => f d | None => dflt end.

Definition GetLabelTotal := total_entry GetLabel.
Definition GetActiveTimeTotal := total_entry GetActiveTime.
Definition GetIdleTimeTotal := total_entry GetIdleTime.
Definition GetTotalTimeTotal := total_entry GetTotalTime.
Definition GetStateTimeTotal (m : list CPUData) (state : Z) := total_entry (fun d => GetStateTime d state) m.
Definition GetLabelCpu := cpu_entry (fun d => Some (GetLabel d)) None.
Definition GetActiveTimeCpu := cpu_entry GetActiveTime 0.
Definition GetIdleTimeCpu := cpu_entry GetIdleTime 0.
Definition GetTotalTimeCpu := cpu_entry GetTotalTime 0.
Definition GetStateTimeCpu (m : list CPUData) (state cpu : Z) := cpu_entry (fun d => GetStateTime d state) 0 m cpu.

(** ** Floating point

    The values are not negative, so a finite one is a fraction [(n, d)] with [0 <= n] and
    [0 < d]; operations are exact and then rounded to [p] bits, to nearest with ties to
    even. (Exponents stay far inside the range of both formats.) *)
Definition frac : Type := Z * Z.

Definition round_half_even (n d : Z) : Z :=
  let q := n / d in let r := n mod d in
  if 2 * r <? d then q else if d <? 2 * r then q + 1 else if Z.even q then q else q + 1.

(** [n/d >= 2^k], for [k] of either sign. *)
Definition at_least (n d k : Z) : bool := if 0 <=? k then d * 2 ^ k <=? n else d <=? n * 2 ^ (- k).

Definition rnd (p : Z) (x : frac) : frac :=
  let '(n, d) := x in
  if n =? 0 then (0, 1)
  else
    let k := Z.log2 n - Z.log2 d in
    let k := if at_least n d k then k else k - 1 in
    let e := k - (p - 1) in
    if 0 <=? e then (round_half_even n (d * 2 ^ e) * 2 ^ e, 1)
    else (round_half_even (n * 2 ^ (- e)) d, 2 ^ (- e)).

Definition of_int (p n : Z) : frac := rnd p (n, 1).
Definition fadd (p : Z) (x y : frac) : frac := rnd p (x.1 * y.2 + y.1 * x.2, x.2 * y.2).
Definition fmul (p : Z) (x y : frac) : frac := rnd p (x.1 * y.1, x.2 * y.2).
(** [None]: a division by zero, whose result is infinite or not a number. *)
Definition fdiv (p : Z) (x y : frac) : option frac := if y.1 =? 0 then None else Some (rnd p (x.1 * y.2, x.2 * y.1)).
Definition trunc (x : frac) : Z := x.1 / x.2.

(** ** [CPUMonitor] *)

Definition FLT : Z := 24.
Definition DBL : Z := 53.

(** The value an iteration of [MonitorCPUUsage] stores; [None]: [0 / 0], whose conversion to
    [int] is undefined. *)
Definition usage (ACTIVE IDLE : Z) : option Z :=
  let ACTIVE_TIME := of_int FLT ACTIVE in
  let IDLE_TIME := of_int FLT IDLE in
  let TOTAL_TIME := fadd FLT ACTIVE_TIME IDLE_TIME in
  x ← fdiv FLT (fmul FLT (of_int FLT 100) ACTIVE_TIME) TOTAL_TIME;
  Some (trunc x).

Definition MonitorCPUUsage (previousSnap curSnap : list CPUData) : outcome (option Z) :=
  ca ← GetActiveTimeTotal curSnap; pa ← GetActiveTimeTotal previousSnap;
  ci ← GetIdleTimeTotal curSnap; pi ← GetIdleTimeTotal previousSnap;
  Ok (usage (ca -₆₄ pa) (ci -₆₄ pi)).

(** ** [CPUStats] *)

Inductive directive := SkipNum | SkipWord | SkipChar | ULong | Long.

(** [fscanf] on formats whose directives are separated by white space: the assigned values;
    [None] is [EOF], the end of the input before any assignment. *)
Definition ulong_value (neg : bool) (v : Z) : Z :=
  if ULONG_MAX <? v then ULONG_MAX else if neg then wrap 64 (- v) else v.
Definition long_value (neg : bool) (v : Z) : Z := if neg then Z.max (- v) (- 2 ^ 63) else Z.min v (2 ^ 63 - 1).

Fixpoint fscanf (ds : list directive) (s : string) (vals : list Z) : option (list Z) :=
  match ds with
  | [] => Some vals
  | d :: ds =>
      match skip_ws s with
      | EmptyString => match vals with [] => None | _ => Some vals end
      | String c s' =>
          let s := String c s' in
          match d with
          | SkipWord => fscanf ds (word s).2 vals
          | SkipChar => fscanf ds s' vals
          | SkipNum => match number s with Some (_, _, r) => fscanf ds r vals | None => Some vals end
          | ULong => match number s with Some (neg, v, r) => fscanf ds r (vals ++ [ulong_value neg v]) | None => Some vals end
          | Long => match number s with Some (neg, v, r) => fscanf ds r (vals ++ [long_value neg v]) | None => Some vals end
          end
      end
  end.

Record cpu_stat := CpuStat { utime_ticks : Z; cutime_ticks : Z; stime_ticks : Z; cstime_ticks : Z; cpu_total_time : Z }.

(** [%*d %*s %*c %*d ... %lu %lu %ld %ld ...] of [/proc/pid/stat], and [%*s %lu ...] of [/proc/stat]. *)
Definition pid_stat_format : list directive :=
  [SkipNum; SkipWord; SkipChar] ++ replicate 10 SkipNum ++ [ULong; ULong; Long; Long] ++ replicate 7 SkipNum.
Definition stat_format : list directive := SkipWord :: replicate 10 ULong.

(** [None] for a file that cannot be opened. *)
Definition Profile (pid_stat stat : option string) (result : cpu_stat) : outcome (cpu_stat * Z) :=
  match pid_stat, stat with
  | None, _ => Ok (result, -1)
  | Some _, None => Throw "fclose(NULL)"
  | Some ps, Some st =>
      match fscanf pid_stat_format ps [] with
      | None => Ok (CpuStat 0 0 0 0 0, -1)
      | Some v =>
          let result := CpuStat (nth 0 v 0) (nth 2 v 0) (nth 1 v 0) (nth 3 v 0) 0 in
          match fscanf stat_format st [] with
          | None => Ok (result, -1)
          | Some cpu_time =>
              Ok (CpuStat (utime_ticks result) (cutime_ticks result) (stime_ticks result) (cstime_ticks result)
                    (foldl add64 0 cpu_time), 0)
          end
      end
  end.

(** [util]: [None] when it is infinite or not a number. *)
Record CPUStats := MkCPUStats { res : cpu_stat * cpu_stat; util : option frac; cumm_cnt : Z }.

Definition calc_avg_filter (avg : option frac) (new_val : frac) (cnt : Z) : option frac :=
  avg ← avg;
  x ← fdiv DBL (fmul DBL avg (of_int DBL (cnt -₆₄ 1))) (of_int DBL cnt);
  y ← fdiv DBL new_val (of_int DBL cnt);
  Some (fadd DBL x y).

(** [100 * (ticks / (double) total_time_diff)], for a total that is not zero. *)
Definition percent (ticks total_time_diff : Z) : frac :=
  fmul DBL (of_int DBL 100) (default (0, 1) (fdiv DBL (of_int DBL ticks) (of_int DBL total_time_diff))).

Definition CalcUtil (s : CPUStats) : CPUStats :=
  let last_usage := (res s).1 in let cur_usage := (res s).2 in
  let total_time_diff := cpu_total_time cur_usage -₆₄ cpu_total_time last_usage in
  if total_time_diff =? 0 then s
  else
    let ucpu_usage := percent (wrap 64 (utime_ticks cur_usage + cutime_ticks cur_usage) -₆₄
                               wrap 64 (utime_ticks last_usage + cutime_ticks last_usage)) total_time_diff in
    let scpu_usage := percent (wrap 64 (stime_ticks cur_usage + cstime_ticks cur_usage) -₆₄
                               wrap 64 (stime_ticks last_usage + cstime_ticks last_usage)) total_time_diff in
    MkCPUStats (res s) (calc_avg_filter (util s) (fadd DBL ucpu_usage scpu_usage) (cumm_cnt s)) (cumm_cnt s).

Definition Start (pid_stat stat : option string) (s : CPUStats) : outcome CPUStats :=
  '(r, _) ← Profile pid_stat stat (res s).1; Ok (MkCPUStats (r, (res s).2) (util s) (cumm_cnt s)).
Definition End_ (pid_stat stat : option string) (s : CPUStats) : outcome CPUStats :=
  '(r, _) ← Profile pid_stat stat (res s).2; Ok (MkCPUStats ((res s).1, r) (util s) (cumm_cnt s)).

(** A round of [Monitor]; the files are read again after the sleep. *)
Definition Monitor (p0 s0 p1 s1 : option string) (s : CPUStats) : outcome CPUStats :=
  s ← Start p0 s0 s; s ← End_ p1 s1 s;
  let s := MkCPUStats (res s) (util s) (if cumm_cnt s =? ULONG_MAX then cumm_cnt s else cumm_cnt s + 1) in
  Ok (CalcUtil s).

Definition demo_stat : string :=
  "cpu  10 20 30 40 50 60 70 80 90 100" +:+ String newline "cpu0 1 2 3 4 5 6 7 8 9 10" +:+ String newline "intr 5 6".
Example demo_snapshot :
  CPUSnapshot (Some demo_stat) = [MkCPUData "tot" [10; 20; 30; 40; 50; 60; 70; 80; 90; 100]; MkCPUData "0" [1; 2; 3; 4; 5; 6; 7; 8; 9; 10]].
Proof. vm_compute. reflexivity. Qed.
Example demo_usage : usage 30 10 = Some 75 /\ usage 0 0 = None /\ usage (2 ^ 40 + 1) 1 = Some 100.
Proof. vm_compute. done. Qed.

(** ** Lemmas: rounding *)

Lemma round_half_even_error n d : 0 <= n -> 0 < d ->
  0 <= round_half_even n d /\ 2 * Z.abs (round_half_even n d * d - n) <= d.
Proof.
  intros Hn Hd. unfold round_half_even. pose proof (Z.div_mod n d ltac:(lia)). pose proof (Z.mod_pos_bound n d Hd).
  pose proof (Z.div_pos n d Hn Hd). repeat case_match; nia.
Qed.

(** The exponent is low enough. *)
Lemma exponent_ok n d : 0 < n -> 0 < d ->
  let k := Z.log2 n - Z.log2 d in at_least n d (if at_least n d k then k else k - 1) = true.
Proof.
  intros Hn Hd k. destruct (at_least n d k) eqn:E; [done|]. unfold at_least.
  pose proof (Z.log2_spec n Hn) as [Hn1 Hn2]. pose proof (Z.log2_spec d Hd) as [Hd1 Hd2].
  pose proof (Z.log2_nonneg n). pose proof (Z.log2_nonneg d).
  destruct (Z.leb_spec 0 (k - 1)) as [Hk|Hk]; apply Z.leb_le.
  - etransitivity; [|exact Hn1]. replace (Z.log2 n) with (Z.succ (Z.log2 d) + (k - 1)) by (unfold k; lia).
    rewrite Z.pow_add_r by lia. apply Z.mul_le_mono_nonneg_r; [apply Z.pow_nonneg; lia|lia].
  - assert (2 ^ Z.succ (Z.log2 d) = 2 ^ Z.log2 n * 2 ^ (- (k - 1))) as Ed.
    { rewrite <- Z.pow_add_r by (unfold k in *; lia). f_equal. unfold k. lia. }
    assert (2 ^ Z.log2 n * 2 ^ (- (k - 1)) <= n * 2 ^ (- (k - 1))); [|lia].
    apply Z.mul_le_mono_nonneg_r; [apply Z.pow_nonneg; lia|lia].
Qed.

Definition pos_frac (x : frac) : Prop := 0 <= x.1 /\ 0 < x.2.

(** The relative error of a rounding is at most [2^-p]. *)
Lemma rnd_error p x : 1 <= p -> pos_frac x ->
  pos_frac (rnd p x) /\ 2 ^ p * Z.abs ((rnd p x).1 * x.2 - x.1 * (rnd p x).2) <= x.1 * (rnd p x).2.
Proof.
  intros Hp. destruct x as [n d]. intros [Hn Hd]. cbn in Hn, Hd. unfold rnd. destruct (Z.eqb_spec n 0) as [->|Hn0]; [by (unfold pos_frac; cbn; lia)|].
  pose proof (exponent_ok n d ltac:(lia) Hd) as Hk. cbv zeta in Hk. set (k := if at_least _ _ _ then _ else _) in *.
  assert (2 ^ p = 2 * 2 ^ (p - 1)) as Ep by (replace p with (Z.succ (p - 1)) at 1 by lia; apply Z.pow_succ_r; lia).
  assert (0 < 2 ^ (p - 1)) as Hp0 by (apply Z.pow_pos_nonneg; lia).
  set (P := 2 ^ (p - 1)) in *. rewrite Ep. unfold at_least in Hk.
  destruct (Z.leb_spec 0 (k - (p - 1))) as [He|He].
  - set (e := k - (p - 1)) in *. assert (0 < 2 ^ e) as H2 by (apply Z.pow_pos_nonneg; lia).
    rewrite (proj2 (Z.leb_le 0 k)), Z.leb_le in Hk by lia.
    assert (2 ^ k = P * 2 ^ e) as Ek by (unfold P; rewrite <- Z.pow_add_r by lia; f_equal; unfold e; lia). rewrite Ek in Hk.
    destruct (round_half_even_error n (d * 2 ^ e) Hn ltac:(nia)) as [Hm Herr]. set (m := round_half_even _ _) in *.
    split; [split; cbn; nia|]. cbn [fst snd]. replace (m * 2 ^ e * d - n * 1) with (m * (d * 2 ^ e) - n) by ring. nia.
  - set (e := - (k - (p - 1))) in *. assert (0 < 2 ^ e) as H2 by (apply Z.pow_pos_nonneg; lia).
    destruct (round_half_even_error (n * 2 ^ e) d ltac:(nia) Hd) as [Hm Herr]. set (m := round_half_even _ _) in *.
    split; [split; cbn; nia|]. cbn [fst snd].
    assert (P * d <= n * 2 ^ e); [|nia]. destruct (Z.leb_spec 0 k) as [Hk0|Hk0]; apply Z.leb_le in Hk.
    + assert (P = 2 ^ k * 2 ^ e) as -> by (unfold P; rewrite <- Z.pow_add_r by lia; f_equal; unfold e; lia). nia.
    + assert (2 ^ e = P * 2 ^ (- k)) as -> by (unfold P; rewrite <- Z.pow_add_r by lia; f_equal; unfold e; lia). nia.
Qed.

Lemma rnd_between p x : 1 <= p -> pos_frac x ->
  2 ^ p * ((rnd p x).1 * x.2) <= (2 ^ p + 1) * (x.1 * (rnd p x).2) /\
  (2 ^ p - 1) * (x.1 * (rnd p x).2) <= 2 ^ p * ((rnd p x).1 * x.2).
Proof.
  intros Hp Hx. destruct (rnd_error p x Hp Hx) as [_ He].
  assert (0 < 2 ^ p) as H2 by (apply Z.pow_pos_nonneg; lia). set (M := 2 ^ p) in *.
  set (D := (rnd p x).1 * x.2 - x.1 * (rnd p x).2) in *.
  assert (M * D <= M * Z.abs D /\ M * - D <= M * Z.abs D) as [H3 H4] by (split; apply Z.mul_le_mono_nonneg_l; lia).
  unfold D in *. lia.
Qed.

Lemma rnd_zero p x : 1 <= p -> pos_frac x -> (rnd p x).1 = 0 <-> x.1 = 0.
Proof.
  intros Hp Hx. destruct (rnd_error p x Hp Hx) as [[Hr1 Hr2] He]. destruct Hx as [H1 H2].
  assert (2 <= 2 ^ p) by (change 2 with (2 ^ 1) at 1; apply Z.pow_le_mono_r; lia). split; intros E.
  - rewrite E in He. nia.
  - rewrite E in He. nia.
Qed.

Lemma of_int_frac p n : 1 <= p -> 0 <= n -> pos_frac (of_int p n).
Proof. intros Hp Hn. apply rnd_error; [done|]. split; cbn; lia. Qed.

Lemma pos_frac_mul x y : pos_frac x -> pos_frac y -> pos_frac (x.1 * y.1, x.2 * y.2).
Proof. intros [] []. split; cbn; nia. Qed.
Lemma pos_frac_add x y : pos_frac x -> pos_frac y -> pos_frac (x.1 * y.2 + y.1 * x.2, x.2 * y.2).
Proof. intros [] []. split; cbn; nia. Qed.

(** The arithmetic of [usage]: three roundings of relative error [1/M] move [100 * a / t] by less than 1%. *)
Lemma percent_below M a da pn pd tn td rn rd :
  2 ^ 10 <= M -> 0 < da -> 0 <= a -> 0 <= pn -> 0 < pd -> 0 < tn -> 0 < td -> 0 < rd -> 0 <= rn ->
  M * (pn * da) <= (M + 1) * (100 * a * pd) ->
  (M - 1) * (a * td) <= M * (tn * da) ->
  M * (rn * (pd * tn)) <= (M + 1) * (pn * td * rd) ->
  rn < 101 * rd.
Proof.
  intros HM Hda Ha Hpn Hpd Htn Htd Hrd Hrn HP HT HR.
  assert (M * M * (M - 1) * (rn * (pd * tn)) * da <= (M + 1) * (M + 1) * (100 * pd) * rd * (M * (tn * da))) as H.
  { apply Z.le_trans with ((M + 1) * (M * (pn * da)) * ((M - 1) * (td * rd))).
    - transitivity ((M * (rn * (pd * tn))) * (M * (M - 1) * da)); [apply Z.eq_le_incl; ring|].
      transitivity ((M + 1) * (pn * td * rd) * (M * (M - 1) * da)); [apply Z.mul_le_mono_nonneg_r; [nia|done]|apply Z.eq_le_incl; ring].
    - transitivity ((M + 1) * ((M + 1) * (100 * a * pd)) * ((M - 1) * (td * rd))).
      + apply Z.mul_le_mono_nonneg_r; [|apply Z.mul_le_mono_nonneg_l; [lia|done]]. apply Z.mul_nonneg_nonneg; nia.
      + transitivity ((M + 1) * (M + 1) * (100 * pd) * rd * ((M - 1) * (a * td))); [apply Z.eq_le_incl; ring|].
        apply Z.mul_le_mono_nonneg_l; [|done]. repeat apply Z.mul_nonneg_nonneg; lia. }
  assert (0 < M * (pd * tn * da)) as Hc by (repeat apply Z.mul_pos_pos; lia).
  assert (M * (M - 1) * rn <= 100 * ((M + 1) * (M + 1)) * rd) as H1.
  { apply (Z.mul_le_mono_pos_r _ _ _ Hc). etransitivity; [|etransitivity; [exact H|]]; apply Z.eq_le_incl; ring. }
  assert (100 * ((M + 1) * (M + 1)) < 101 * (M * (M - 1))) as H2 by nia.
  apply (Zmult_lt_reg_r _ _ (M * (M - 1))); [nia|]. apply Z.le_lt_trans with (100 * ((M + 1) * (M + 1)) * rd); [lia|nia].
Qed.

(** ** Lemmas: text *)

(** The text of a counter, of a line of [/proc/stat] and of a file. *)
Definition show (n : Z) : string := pretty (Z.to_N n).
Fixpoint show_times (times : list Z) : string :=
  match times with [] => EmptyString | t :: times => String " " (show t +:+ show_times times) end.
Definition stat_line (label : string) (times : list Z) : string := label +:+ show_times times.
Fixpoint unlines (ls : list string) : string :=
  match ls with [] => EmptyString | l :: ls => l +:+ String newline (unlines ls) end.

Fixpoint all_chars (f : ascii -> bool) (s : string) : bool :=
  match s with String c s => f c && all_chars f s | EmptyString => true end.
Definition is_word (s : string) : bool := all_chars (fun c => negb (is_space c)) s.
Definition no_newline (s : string) : bool := all_chars (fun c => negb (Ascii.eqb c newline)) s.

Lemma string_app_assoc (s t u : string) : (s +:+ t) +:+ u = s +:+ (t +:+ u).
Proof. induction s as [|c s IH]; [done|]. exact (f_equal (String c) IH). Qed.
Lemma string_app_nil (s : string) : s +:+ EmptyString = s.
Proof. induction s as [|c s IH]; [done|]. exact (f_equal (String c) IH). Qed.

Lemma all_chars_app f s t : all_chars f (s +:+ t) = all_chars f s && all_chars f t.
Proof. induction s as [|c s IH]; [done|]. change (f c && all_chars f (s +:+ t) = f c && all_chars f s && all_chars f t). by rewrite IH, andb_assoc. Qed.

Lemma all_chars_impl (f g : ascii -> bool) s : (forall c, f c = true -> g c = true) -> all_chars f s = true -> all_chars g s = true.
Proof. intros H. induction s as [|c s IH]; [done|]. cbn. intros [H1 H2]%andb_true_iff. rewrite H by done. by apply IH. Qed.

Lemma pretty_char x : (x < 10)%N -> code (pretty_N_char x) = 48 + Z.of_N x.
Proof.
  intros Hx. assert (x = 0 \/ x = 1 \/ x = 2 \/ x = 3 \/ x = 4 \/ x = 5 \/ x = 6 \/ x = 7 \/ x = 8 \/ x = 9)%N as H by lia.
  by repeat destruct H as [->|H]; [..|subst x].
Qed.

Lemma digit_char c : is_digit c = true -> is_space c = false /\ (code c =? 45) = false /\ (code c =? 43) = false.
Proof. unfold is_digit, is_space. rewrite andb_true_iff, !Z.leb_le. intros. split_and!; lia. Qed.

Lemma pretty_digit x : is_digit (pretty_N_char (x `mod` 10)) = true.
Proof.
  pose proof (N.mod_upper_bound x 10 ltac:(done)). unfold is_digit. rewrite pretty_char by done. apply andb_true_iff. rewrite !Z.leb_le. revert H. generalize (x `mod` 10)%N. lia.
Qed.

Lemma pretty_go_app x s r : pretty_N_go x s +:+ r = pretty_N_go x (s +:+ r).
Proof.
  revert s. induction (N.lt_wf_0 x) as [x _ IH]; intros s. destruct (decide (x = 0)%N) as [->|Hx]; [by rewrite !pretty_N_go_0|].
  rewrite !(pretty_N_go_step x) by lia. apply IH, N.div_lt; lia.
Qed.

Lemma digits_go x s : exists k, 0 <= k /\ forall acc, digits acc (pretty_N_go x s) = digits (acc * 10 ^ k + Z.of_N x) s.
Proof.
  revert s. induction (N.lt_wf_0 x) as [x _ IH]; intros s. destruct (decide (x = 0)%N) as [->|Hx].
  { exists 0. split; [done|]. intros acc. rewrite pretty_N_go_0. f_equal. lia. }
  rewrite pretty_N_go_step by lia. destruct (IH (x / 10)%N ltac:(apply N.div_lt; lia) (String (pretty_N_char (x `mod` 10)) s)) as (k & Hk & E).
  exists (k + 1). split; [lia|]. intros acc. rewrite E. cbn [digits]. rewrite pretty_digit, pretty_char by (apply N.mod_upper_bound; done).
  f_equal. rewrite Z.pow_add_r, N2Z.inj_div, N2Z.inj_mod by lia. pose proof (Z.div_mod (Z.of_N x) 10 ltac:(done)). lia.
Qed.

Lemma pretty_go_head x s : (0 < x)%N -> exists c s', pretty_N_go x s = String c s' /\ is_digit c = true.
Proof.
  revert s. induction (N.lt_wf_0 x) as [x _ IH]; intros s Hx. rewrite pretty_N_go_step by done.
  destruct (decide (x / 10 = 0)%N) as [->|Hd].
  - rewrite pretty_N_go_0. eexists _, _. split; [done|]. apply pretty_digit.
  - apply IH; [apply N.div_lt; lia|by apply N.neq_0_lt_0].
Qed.

Lemma show_head n : exists c s, show n = String c s /\ is_digit c = true.
Proof.
  unfold show, pretty, pretty_N. case_decide; [by eexists _, _|]. apply pretty_go_head. lia.
Qed.

Lemma pretty_go_digits x s : all_chars is_digit s = true -> all_chars is_digit (pretty_N_go x s) = true.
Proof.
  revert s. induction (N.lt_wf_0 x) as [x _ IH]; intros s Hs. destruct (decide (x = 0)%N) as [->|Hx]; [by rewrite pretty_N_go_0|].
  rewrite pretty_N_go_step by lia. apply IH; [apply N.div_lt; lia|]. cbn [all_chars]. by rewrite pretty_digit.
Qed.

Lemma show_digits n : all_chars is_digit (show n) = true.
Proof. unfold show, pretty, pretty_N. case_decide; [done|]. by apply pretty_go_digits. Qed.

(** A printed number is read back. *)
Lemma number_show n r : 0 <= n -> (match r with String c _ => is_digit c = false | EmptyString => True end) ->
  number (show n +:+ r) = Some (false, n, r).
Proof.
  intros Hn Hr. destruct (show_head n) as (c & s & Es & Hc). destruct (digit_char c Hc) as (_ & H1 & H2).
  assert (digits 0 (show n +:+ r) = (n, r)) as Ed.
  { assert (forall v, digits v r = (v, r)) as Hstop by (intros v; destruct r; cbn; [done|by rewrite Hr]).
    unfold show, pretty, pretty_N. case_decide as E.
    - change (digits 0 r = (n, r)). rewrite Hstop. f_equal. lia.
    - rewrite pretty_go_app. destruct (digits_go (Z.to_N n) (EmptyString +:+ r)) as (k & _ & ->).
      change (digits (0 * 10 ^ k + Z.of_N (Z.to_N n)) r = (n, r)). rewrite Hstop. f_equal. lia. }
  unfold number. rewrite Es in Ed |- *. change (String c s +:+ r) with (String c (s +:+ r)) in *. cbv beta iota.
  rewrite H1, H2. cbv beta iota. rewrite Hc, Ed. done.
Qed.

Lemma skip_word s : (match s with String c _ => is_space c = false | EmptyString => True end) -> skip_ws s = s.
Proof. destruct s as [|c s]; [done|]. cbn [skip_ws]. by intros ->. Qed.

Lemma read_size_show t r old : u_ok 64 t -> (match r with String c _ => is_digit c = false | EmptyString => True end) ->
  read_size (IStream (String " " (show t +:+ r)) true) old =
    (IStream r (match r with EmptyString => false | _ => true end), t).
Proof.
  intros Ht Hr. unfold read_size. cbn [good rest negb]. change (skip_ws (String " " (show t +:+ r))) with (skip_ws (show t +:+ r)).
  destruct (show_head t) as (c & s & Es & Hc). pose proof (number_show t r ltac:(apply Ht) Hr) as Hn.
  rewrite Es in Hn |- *. change (String c s +:+ r) with (String c (s +:+ r)) in *.
  rewrite skip_word by by apply digit_char. rewrite Hn. rewrite (proj2 (Z.ltb_ge _ _)); [done|]. destruct Ht. unfold ULONG_MAX. lia.
Qed.

Lemma read_times_end g olds : (read_times (IStream EmptyString g) olds).2 = olds.
Proof.
  revert g. induction olds as [|o olds IH]; intros g; [done|]. cbn [read_times].
  assert (exists g', read_size (IStream EmptyString g) o = (IStream EmptyString g', o)) as [g' ->] by (destruct g; by eexists).
  specialize (IH g'). destruct (read_times (IStream EmptyString g') olds). cbn in *. by rewrite IH.
Qed.

(** The counters of a line replace the first ones. *)
Lemma read_times_show ts olds g : Forall (u_ok 64) ts -> (length ts <= length olds)%nat -> (ts <> [] -> g = true) ->
  (read_times (IStream (show_times ts) g) olds).2 = ts ++ drop (length ts) olds.
Proof.
  intros Hts. revert olds g. induction Hts as [|t ts Ht _ IH]; intros olds g Hl Hg; [apply read_times_end|].
  rewrite Hg by done. destruct olds as [|o olds]; [cbn in Hl; lia|]. cbn [read_times show_times].
  rewrite read_size_show; [|done|by destruct ts].
  specialize (IH olds (match show_times ts with EmptyString => false | _ => true end)).
  destruct (read_times _ olds) as [ss vs]. cbn in *. rewrite IH; [done|lia|]. by destruct ts.
Qed.

Lemma word_app w r : is_word w = true -> (match r with String c _ => is_space c = true | EmptyString => True end) ->
  word (w +:+ r) = (w, r).
Proof.
  intros Hw Hr. induction w as [|c w IH].
  - change (EmptyString +:+ r) with r. destruct r as [|c r]; [done|]. cbn [word]. by rewrite Hr.
  - unfold is_word in Hw. cbn [all_chars] in Hw. apply andb_true_iff in Hw as [Hc Hw]. apply negb_true_iff in Hc.
    change (String c w +:+ r) with (String c (w +:+ r)). cbn [word]. rewrite Hc, IH; done.
Qed.

Definition stat_label (w : string) : string :=
  if (LEN_STR_CPU <? String.length w)%nat then String.substring LEN_STR_CPU (String.length w - LEN_STR_CPU) w else STR_TOT.

(** A line with a label and up to ten counters. *)
Lemma ReadData_line d w ts : mLabel d = EmptyString -> w <> EmptyString -> is_word w = true -> ts <> [] ->
  Forall (u_ok 64) ts -> (length ts <= length (mTimes d))%nat ->
  ReadData d (stat_line w ts) = MkCPUData (stat_label w) (ts ++ drop (length ts) (mTimes d)).
Proof.
  intros Hd Hw Hword Hne Hts Hl. unfold ReadData, stat_line, read_string. cbn [good rest negb].
  destruct w as [|c w]; [done|]. rewrite skip_word.
  2:{ change (String c w +:+ show_times ts) with (String c (w +:+ show_times ts)). unfold is_word in Hword. cbn [all_chars] in Hword.
      apply andb_true_iff in Hword as [Hc _]. by apply negb_true_iff. }
  pose proof (word_app (String c w) (show_times ts) Hword ltac:(by destruct ts)) as Ew.
  change (String c w +:+ show_times ts) with (String c (w +:+ show_times ts)) in *. cbv beta iota. rewrite Ew. fold (stat_label (String c w)). rewrite read_times_show; [done|done|done|]. by destruct ts.
Qed.

Lemma lines_unlines ls : Forall (fun l => no_newline l = true) ls -> lines (unlines ls) = ls.
Proof.
  induction 1 as [|l ls Hl _ IH]; [done|]. cbn [unlines]. revert Hl. unfold no_newline. induction l as [|c l IHl]; intros Hl.
  - change (EmptyString :: lines (unlines ls) = EmptyString :: ls). by rewrite IH.
  - cbn [all_chars] in Hl. apply andb_true_iff in Hl as [Hc Hl]. apply negb_true_iff in Hc.
    change (String c l +:+ String newline (unlines ls)) with (String c (l +:+ String newline (unlines ls))). cbn [lines].
    rewrite Hc, IHl by done. done.
Qed.

Lemma proc_line_cpu w ts : IsDataCPUStats (stat_line (STR_CPU +:+ w) ts) = true.
Proof. unfold IsDataCPUStats, stat_line. rewrite string_app_assoc. cbn. by destruct (w +:+ show_times ts). Qed.

Lemma proc_line_newline w ts : is_word w = true -> no_newline (stat_line w ts) = true.
Proof.
  intros Hw. unfold no_newline, stat_line. rewrite all_chars_app. apply andb_true_iff. split.
  - eapply all_chars_impl; [|exact Hw]. intros c Hc. cbn in Hc. destruct (Ascii.eqb_spec c newline) as [->|]; [by vm_compute in Hc|done].
  - induction ts as [|t ts IH]; [done|]. cbn [show_times all_chars]. rewrite all_chars_app, IH. rewrite andb_true_r.
    change (negb (Ascii.eqb " " newline)) with true. cbn [andb]. eapply all_chars_impl; [|apply show_digits].
    intros c Hc. destruct (Ascii.eqb_spec c newline) as [->|]; [by vm_compute in Hc|done].
Qed.

(** ** Properties *)

(** The entries of a file: the line of the totals, one per processor, other lines. *)
Definition cpu_lines (entries : list (string * list Z)) : list string := (fun '(w, ts) => stat_line (STR_CPU +:+ w) ts) <$> entries.

(** What the kernel prints the daemon reads: from a file whose lines "cpu<n>" hold ten 64-bit
    counters, the snapshot has one entry per such line, in order, with its label ("tot" for the totals)
    and exactly its counters; other lines are skipped. *)
Theorem snapshot_roundtrip entries others :
  Forall (fun '(w, ts) => is_word w = true /\ Forall (u_ok 64) ts /\ length ts = NUM_CPU_STATES) entries ->
  Forall (fun l => no_newline l = true /\ IsDataCPUStats l = false) others ->
  CPUSnapshot (Some (unlines (cpu_lines entries ++ others))) =
    (fun '(w, ts) => MkCPUData (match w with EmptyString => STR_TOT | _ => w end) ts) <$> entries.
Proof.
  intros He Ho. unfold CPUSnapshot. rewrite lines_unlines.
  2:{ apply Forall_app. split; [|by eapply Forall_impl; [exact Ho|intros l [H _]]].
      unfold cpu_lines. apply Forall_fmap. eapply Forall_impl; [exact He|]. intros [w ts] (Hw & _ & _). cbn. apply proc_line_newline.
      unfold is_word. by rewrite all_chars_app. }
  rewrite filter_app. assert (filter (fun l => IsDataCPUStats l = true) others = []) as ->.
  { induction Ho as [|l ls [_ Hl] _ IH]; [done|]. rewrite filter_cons_False; [done|]. by rewrite Hl. }
  rewrite app_nil_r. induction He as [|[w ts] es (Hw & Hts & Hn) _ IH]; [done|].
  unfold cpu_lines in *. rewrite fmap_cons, filter_cons_True by apply proc_line_cpu. rewrite !fmap_cons, IH. f_equal.
  rewrite ReadData_line; [|done|done|unfold is_word; by rewrite all_chars_app|by intros ->|done|by rewrite Hn].
  rewrite Hn, drop_ge, app_nil_r by done. f_equal. unfold stat_label.
  change (String.length (STR_CPU +:+ w)) with (3 + String.length w)%nat. destruct w as [|c w]; [done|].
  rewrite (proj2 (Nat.ltb_lt _ _)) by (unfold LEN_STR_CPU; cbn; lia). unfold LEN_STR_CPU, STR_CPU.
  replace (3 + String.length (String c w) - 3)%nat with (String.length (String c w)) by lia.
  change (String.substring 0 (String.length (String c w)) (String c w) = String c w). generalize (String c w). clear.
  induction s as [|c s IH]; [done|]. cbn [String.length]. exact (f_equal (String c) IH).
Qed.

Lemma add64_wrap a b : wrap 64 a +₆₄ b = wrap 64 (a + b).
Proof. unfold add64, wrap. by rewrite Z.add_mod_idemp_l. Qed.

(** Active and idle time are a partition of the total, also when the sums wrap around. *)
Theorem active_idle_total d : GetActiveTime d +₆₄ GetIdleTime d = GetTotalTime d.
Proof.
  unfold GetActiveTime, GetIdleTime, GetTotalTime. change (time d S_USER +₆₄ time d S_NICE) with (wrap 64 (time d S_USER + time d S_NICE)).
  rewrite !add64_wrap. change (time d S_IDLE +₆₄ time d S_IOWAIT) with (wrap 64 (time d S_IDLE + time d S_IOWAIT)).
  unfold wrap. rewrite Z.add_mod_idemp_r by done. f_equal. ring.
Qed.

(** The usage, when it is defined and when it is not. *)
Lemma usage_cases ACTIVE IDLE : 0 <= ACTIVE -> 0 <= IDLE ->
  match usage ACTIVE IDLE with Some u => 0 <= u <= 100 | None => ACTIVE = 0 /\ IDLE = 0 end.
Proof.
  intros HA HI. unfold usage, fdiv, fmul, fadd, trunc. set (a := of_int FLT ACTIVE). set (i := of_int FLT IDLE).
  change (of_int FLT 100) with (round_half_even (100 * 2 ^ 17) 1, 2 ^ 17).
  assert (pos_frac a /\ (a.1 = 0 <-> ACTIVE = 0)) as [Pa Za] by (split; [by apply of_int_frac|by apply rnd_zero; [|split; cbn; lia]]).
  assert (pos_frac i /\ (i.1 = 0 <-> IDLE = 0)) as [Pi Zi] by (split; [by apply of_int_frac|by apply rnd_zero; [|split; cbn; lia]]).
  change (round_half_even (100 * 2 ^ 17) 1) with (100 * 2 ^ 17). clearbody a i.
  assert (pos_frac (100 * 2 ^ 17, 2 ^ 17)) as Ph by (split; vm_compute; [congruence|done]).
  pose proof (pos_frac_add a i Pa Pi) as Ps. pose proof (pos_frac_mul _ a Ph Pa) as Pm.
  destruct (rnd_error FLT _ ltac:(done) Ps) as [Pt _], (rnd_between FLT _ ltac:(done) Ps) as [_ Et].
  destruct (rnd_error FLT _ ltac:(done) Pm) as [Pp _], (rnd_between FLT _ ltac:(done) Pm) as [Ep _].
  set (t := rnd FLT (a.1 * i.2 + i.1 * a.2, a.2 * i.2)) in *. set (p := rnd FLT (_, _ * a.2)) in *.
  destruct (Z.eqb_spec t.1 0) as [Et0|Et0]; cbn [mbind option_bind].
  - apply rnd_zero in Et0; [|done|done]. cbn [fst] in Et0. destruct Pa, Pi. clear Et Ep Pt Pp t p Ps Pm Ph.
    pose proof (Z.mul_nonneg_nonneg a.1 i.2 ltac:(lia) ltac:(lia)). pose proof (Z.mul_nonneg_nonneg i.1 a.2 ltac:(lia) ltac:(lia)).
    assert (a.1 * i.2 = 0) as [Ea|?]%Z.mul_eq_0 by lia; [|lia]. assert (i.1 * a.2 = 0) as [Ei|?]%Z.mul_eq_0 by lia; [|lia]. tauto.
  - destruct Pa as [Ha1 Ha2], Pi as [Hi1 Hi2], Pt as [Ht1 Ht2], Pp as [Hp1 Hp2].
    clearbody t p. assert (0 < t.1) as Ht0 by lia.
    assert (pos_frac (p.1 * t.2, p.2 * t.1)) as Pr by (split; [apply Z.mul_nonneg_nonneg|apply Z.mul_pos_pos]; cbn; lia).
    destruct (rnd_error FLT _ ltac:(done) Pr) as [[Hr1 Hr2] _], (rnd_between FLT _ ltac:(done) Pr) as [Er _]. set (r := rnd FLT (p.1 * t.2, p.2 * t.1)) in *.
    split; [by apply Z.div_pos|]. apply Z.lt_succ_r, Z.div_lt_upper_bound; [done|]. rewrite Z.mul_comm. change (Z.succ 100) with 101.
    cbn [fst snd] in Et, Ep, Er. change FLT with 24 in Et, Ep, Er.
    apply (percent_below (2 ^ 24) a.1 a.2 p.1 p.2 t.1 t.2 r.1 r.2); try lia.
    apply (Z.mul_le_mono_pos_r _ _ i.2 Hi2). etransitivity; [|etransitivity; [exact Et|apply Z.eq_le_incl; ring]].
    pose proof (Z.mul_nonneg_nonneg (i.1 * a.2) t.2 ltac:(nia) ltac:(lia)). lia.
Qed.

(** C39: The usage stored by the monitor is a percentage: whatever the counters, after rounding to single
    precision it is between 0 and 100 when it is defined, and it is undefined (the conversion of a NaN to an integer) exactly when no
    time passed between the snapshots. *)
Theorem usage_bounds ACTIVE IDLE : 0 <= ACTIVE -> 0 <= IDLE ->
  (forall u, usage ACTIVE IDLE = Some u -> 0 <= u <= 100) /\ (usage ACTIVE IDLE = None <-> ACTIVE = 0 /\ IDLE = 0).
Proof.
  intros HA HI. pose proof (usage_cases ACTIVE IDLE HA HI) as H. destruct (usage ACTIVE IDLE) as [u|] eqn:E.
  - split; [by intros ? [= <-]|]. split; [done|]. intros [-> ->]. by vm_compute in E.
  - by split.
Qed.

(** Without [/proc/stat] the vector of entries is empty and its first element is read all the same. *)
Theorem no_proc_stat prev : MonitorCPUUsage prev (CPUSnapshot None) = Throw "mEntries[INDEX_TOT]".
Proof. done. Qed.

(** The average: a measurement without elapsed time is ignored; with a count of 0, which [CalcUtil] has when it is
    called without [Monitor], the result is not a number, and stays so. *)
Theorem CalcUtil_spec s :
  (cpu_total_time (res s).2 = cpu_total_time (res s).1 -> u_ok 64 (cpu_total_time (res s).1) -> CalcUtil s = s) /\
  (cpu_total_time (res s).2 -₆₄ cpu_total_time (res s).1 <> 0 -> cumm_cnt s = 0 \/ util s = None -> util (CalcUtil s) = None) /\
  cumm_cnt (CalcUtil s) = cumm_cnt s.
Proof.
  unfold CalcUtil. split_and!.
  - intros -> Hu. unfold sub64. by rewrite Z.sub_diag.
  - intros Hd Hc. rewrite (proj2 (Z.eqb_neq _ _) Hd). cbn [util]. unfold calc_avg_filter.
    destruct (util s) as [x|]; [|done]. destruct Hc as [->|?]; [done|done].
  - by case_match.
Qed.

(** ** Witnesses *)

Lemma snapshot_roundtrip_witness :
  CPUSnapshot (Some (unlines (cpu_lines [("", [10; 20; 30; 40; 50; 60; 70; 80; 90; 100]); ("0", [1; 2; 3; 4; 5; 6; 7; 8; 9; 2 ^ 64 - 1])]
    ++ ["intr 5"]))) =
  [MkCPUData "tot" [10; 20; 30; 40; 50; 60; 70; 80; 90; 100]; MkCPUData "0" [1; 2; 3; 4; 5; 6; 7; 8; 9; 2 ^ 64 - 1]].
Proof.
  apply (snapshot_roundtrip [("", [10; 20; 30; 40; 50; 60; 70; 80; 90; 100]); ("0", [1; 2; 3; 4; 5; 6; 7; 8; 9; 2 ^ 64 - 1])] ["intr 5"]).
  - repeat (apply Forall_cons_2; [split_and!; [done|repeat (apply Forall_cons_2; [by apply u_ok_lt|]); apply Forall_nil_2|done]|]).
    apply Forall_nil_2.
  - apply Forall_cons_2; [done|apply Forall_nil_2].
Defined.

Lemma usage_bounds_witness :
  (forall u, usage 30 10 = Some u -> 0 <= u <= 100) /\ (usage 30 10 = None <-> 30 = 0 /\ 10 = 0).
Proof. apply (usage_bounds 30 10); lia. Defined.
