(* ===== verification/Reporting.v ===== *)
(** * Reporting: log lines and time breakdowns

    [daemon/logger.cpp] with the sizes of its buffers, and the accounting of elapsed time of
    [daemon/breakdown.hpp] and [driver/breakdown.h] (with DCC_BREAKDOWN). Neither is used by
    the build as it stands; [printf]'s formatting of the arguments is a parameter. *)
From stdpp Require Import pretty.
From S2P Require Import Prelude.

(** ** breakdown.hpp, breakdown.h *)

Module Breakdown.

Record timespec := Timespec { tv_sec : Z; tv_nsec : Z }.
Definition NSEC_PER_SEC : Z := 1000000000.
Definition nanoseconds (t : timespec) : Z := tv_sec t * NSEC_PER_SEC + tv_nsec t.

(** [size_t] arithmetic in the daemon; [long], added to a [u64], in the driver. *)
Definition daemon_elapsed (start stop : timespec) : Z :=
  (tv_sec stop - tv_sec start) *₆₄ NSEC_PER_SEC +₆₄ (tv_nsec stop - tv_nsec start).
Definition driver_elapsed (start stop : timespec) : Z :=
  (tv_sec stop - tv_sec start) * NSEC_PER_SEC + (tv_nsec stop - tv_nsec start).
Definition dcc_end_ts (elapsed : timespec -> timespec -> Z) (elapseds : list Z) (name : nat) (start stop : timespec) : list Z :=
  alter (fun x => x +₆₄ elapsed start stop) name elapseds.

(** A series of measurements of one operation. *)
Definition measure (elapsed : timespec -> timespec -> Z) (name : nat) (elapseds : list Z) (l : list (timespec * timespec)) : list Z :=
  foldl (fun es '(start, stop) => dcc_end_ts elapsed es name start stop) elapseds l.

Lemma elapsed_mod start stop :
  wrap 64 (daemon_elapsed start stop) = wrap 64 (nanoseconds stop - nanoseconds start) /\
  driver_elapsed start stop = nanoseconds stop - nanoseconds start.
Proof.
  unfold daemon_elapsed, driver_elapsed, nanoseconds. split; [|lia]. unfold add64, mul64, wrap.
  rewrite Zmod_mod, Zplus_mod_idemp_l. f_equal. lia.
Qed.

(** Both accounts are the sum of the intervals modulo 2^64, also when the nanoseconds of an interval's end are smaller than those of
    its start. *)
Theorem measure_sums elapsed name es l x :
  elapsed = daemon_elapsed \/ elapsed = driver_elapsed -> es !! name = Some x ->
  exists y, measure elapsed name es l !! name = Some y /\
    wrap 64 y = wrap 64 (x + sum_with (fun '(start, stop) => nanoseconds stop - nanoseconds start) l).
Proof.
  intros He. revert es x. induction l as [|[start stop] l IH]; intros es x Hx; cbn [measure foldl sum_with].
  - exists x. by rewrite Z.add_0_r.
  - destruct (IH (dcc_end_ts elapsed es name start stop) (x +₆₄ elapsed start stop)) as (y & Hy & E).
    + unfold dcc_end_ts. by rewrite list_lookup_alter_eq, Hx.
    + exists y. split; [done|]. rewrite E. destruct (elapsed_mod start stop) as (E1 & E2).
      assert (wrap 64 (elapsed start stop) = wrap 64 (nanoseconds stop - nanoseconds start)) as E3 by (by destruct He as [->| ->]; rewrite ?E2).
      unfold add64. unfold wrap in *. rewrite Zplus_mod_idemp_l. set (S := sum_with _ l).
      replace (x + elapsed start stop + S) with (elapsed start stop + (x + S)) by lia.
      rewrite <- (Zplus_mod_idemp_l (elapsed start stop)), E3, Zplus_mod_idemp_l. f_equal. unfold S, sum_with. cbn [foldr]. lia.
Qed.
End Breakdown.

(** ** logger.cpp *)

Module Logger.

Definition LOG_LEVEL_ERROR : Z := 2.
Definition LOG_LEVEL_WARN : Z := 3.
Definition LOG_LEVEL_INFO : Z := 4.

(** A character array or block of [size] characters after [strcpy] or [sprintf] of [s], which writes a final NUL. *)
Definition write_buf (size : Z) (s : string) : outcome string :=
  if Z.of_nat (String.length s) + 1 <=? size then Ok s else Throw "buffer overflow".

Definition newline : string := String (Ascii.ascii_of_nat 10) "".

(** [oss << setfill('0') << setw(2) << n]. *)
Definition setw2 (n : Z) : string :=
  let s := pretty n in if (String.length s <? 2)%nat then "0" +:+ s else s.

(** [localtime]. *)
Record tm := Tm { tm_mon : Z; tm_mday : Z; tm_year : Z; tm_hour : Z; tm_min : Z; tm_sec : Z }.
Definition month_names : list string :=
  ["Jan"; "Feb"; "Mar"; "Apr"; "May"; "Jun"; "Jul"; "Aug"; "Sep"; "Oct"; "Nov"; "Dec"]%string.

(** The string ends with a NUL of its own, where [c_str] ends anyway. *)
Definition getTimestamp (t : tm) : string :=
  default "" (month_names !! Z.to_nat (tm_mon t)) +:+ " " +:+ setw2 (tm_mday t) +:+ " " +:+ pretty (tm_year t + 1900) +:+
  " " +:+ setw2 (tm_hour t) +:+ ":" +:+ setw2 (tm_min t) +:+ ":" +:+ setw2 (tm_sec t).

Definition level_names : list string := ["[FATAL]"; "[ERROR]"; "[WARN] "; "[INFO] "; "[DEBUG]"; "[TRACE]"]%string.
(** [char level[10]], left as it is for a level without a name. *)
Definition level_string (lv : Z) (garbage : string) : outcome string :=
  match level_names !! Z.to_nat (lv - 1) with
  | Some s => if 1 <=? lv then write_buf 10 s else Ok garbage
  | None => Ok garbage
  end.

Record Logger := MkLogger { logLevel : Z; simple_log : bool; open_mode : string }.

(** [strncpy] is given the length of the name, [logfile] has 100 characters and [open_mode] one. *)
Definition mkLogger (level : Z) (_logfile : string) (append : bool) (opens : bool) : outcome Logger :=
  if 100 <? Z.of_nat (String.length _logfile) then Throw "buffer overflow" else
  mode ← write_buf 1 (if append then "a" else "w");
  if opens then Ok (MkLogger level true mode) else Throw "assert(0)".

(** The line [writeLog] formats, and what it writes to the file and prints. [vformat] is the
    expansion of the line with the arguments. *)
Definition log_line (lg : Logger) (t : tm) (garbage funcName : string) (line lv : Z) (str : string) : outcome string :=
  if negb (simple_log lg) then
    level ← level_string lv garbage;
    write_buf (21 + Z.of_nat (String.length funcName) + Z.of_nat (String.length str) + 30)
      (level +:+ " " +:+ getTimestamp t +:+ " [" +:+ funcName +:+ ":" +:+ pretty line +:+ "] : " +:+ str +:+ newline)
  else write_buf (Z.of_nat (String.length str)) (str +:+ newline).
Definition writeLog (lg : Logger) (opens : bool) (t : tm) (vformat : string -> string) (garbage funcName : string) (line lv : Z) (str : string)
    : outcome (option string * option string) :=
  if opens then
    result ← log_line lg t garbage funcName line lv str;
    Ok (Some (vformat result), if lv <=? logLevel lg then Some (vformat result) else None)
  else Ok (None, None).

(** *** Lengths *)

Lemma length_append (s1 s2 : string) : String.length (s1 +:+ s2) = (String.length s1 + String.length s2)%nat.
Proof. induction s1 as [|c s1 IH]; [done|]. change (S (String.length (s1 +:+ s2)) = S (String.length s1 + String.length s2)). by rewrite IH. Qed.

Lemma pretty_N_go_length k : forall (x : N) s, (x < 10 ^ N.of_nat k)%N -> (String.length (pretty_N_go x s) <= k + String.length s)%nat.
Proof.
  induction k as [|k IH]; intros x s Hx.
  - assert (x = 0%N) as -> by (change (10 ^ N.of_nat 0)%N with 1%N in Hx; lia). by rewrite pretty_N_go_0.
  - destruct (N.eq_0_gt_0_cases x) as [->|Hp]; [rewrite pretty_N_go_0; lia|]. rewrite pretty_N_go_step by done.
    specialize (IH (x / 10)%N (String (pretty_N_char (x mod 10)) s)). cbn [String.length] in IH. etrans; [apply IH|lia].
    apply N.Div0.div_lt_upper_bound. rewrite Nat2N.inj_succ, N.pow_succ_r' in Hx. lia.
Qed.

Lemma pretty_N_length k (x : N) : (0 < k)%nat -> (x < 10 ^ N.of_nat k)%N -> (String.length (pretty x) <= k)%nat.
Proof.
  intros Hk Hx. unfold pretty, pretty_N. case_decide; [cbn; lia|]. pose proof (pretty_N_go_length k x "" Hx). cbn [String.length] in *. lia.
Qed.

Lemma pretty_Z_length k (x : Z) : (0 < k)%nat -> Z.abs x < 10 ^ Z.of_nat k ->
  (String.length (pretty x) <= S k)%nat /\ (0 <= x -> (String.length (pretty x) <= k)%nat).
Proof.
  intros Hk Hx. assert (forall p, Z.abs x = Z.pos p -> (String.length (pretty (N.pos p)) <= k)%nat) as H.
  { intros p E. apply pretty_N_length; [done|]. apply N2Z.inj_lt. rewrite N2Z.inj_pow, nat_N_Z. cbn. lia. }
  destruct x as [|p|p].
  - cbn. lia.
  - specialize (H p eq_refl). assert (pretty (Z.pos p) = pretty (N.pos p)) as -> by done. split; [lia|done].
  - specialize (H p eq_refl). assert (pretty (Z.neg p) = "-" +:+ pretty (N.pos p)) as -> by done.
    rewrite length_append. cbn [String.length]. split; [lia|lia].
Qed.

Definition tm_ok (t : tm) : Prop :=
  0 <= tm_mon t < 12 /\ 0 <= tm_mday t < 100 /\ 0 <= tm_year t + 1900 < 10000 /\ 0 <= tm_hour t < 100 /\ 0 <= tm_min t < 100 /\ 0 <= tm_sec t < 100.

Lemma setw2_length n : 0 <= n < 100 -> (String.length (setw2 n) <= 2)%nat.
Proof.
  intros Hn. destruct (pretty_Z_length 2 n) as (_ & H); [lia|cbn; lia|]. specialize (H ltac:(lia)). unfold setw2.
  destruct (Nat.ltb_spec (String.length (pretty n)) 2); [rewrite length_append; cbn [String.length]; lia|done].
Qed.

Lemma getTimestamp_length t : tm_ok t -> (String.length (getTimestamp t) <= 20)%nat.
Proof.
  intros (H1 & H2 & H3 & H4 & H5 & H6). unfold getTimestamp. rewrite !length_append. cbn [String.length].
  destruct (pretty_Z_length 4 (tm_year t + 1900)) as (_ & Hy); [lia|cbn; lia|]. specialize (Hy ltac:(lia)).
  pose proof (setw2_length _ H2). pose proof (setw2_length _ H4). pose proof (setw2_length _ H5). pose proof (setw2_length _ H6).
  assert (String.length (default "" (month_names !! Z.to_nat (tm_mon t))) <= 3)%nat; [|lia].
  destruct (month_names !! Z.to_nat (tm_mon t)) as [m|] eqn:E; [|cbn; lia]. cbn [default].
  assert (Forall (fun m => String.length m <= 3)%nat month_names) as Hf by (repeat constructor).
  by apply (proj1 (Forall_lookup _ _) Hf) in E.
Qed.

(** A detailed log line fits the block allocated for it, whatever the function, the message and the
    line number; a simple line, the only kind the constructor selects, overflows its block by two characters, as does
    the constructor's own [strcpy]. *)
Theorem log_line_bounds lg t garbage funcName line lv str (Ht : tm_ok t) (Hl : - 2 ^ 31 <= line < 2 ^ 31) (Hv : 1 <= lv <= 6) :
  (simple_log lg = false -> exists s, log_line lg t garbage funcName line lv str = Ok s) /\
  (simple_log lg = true -> exists msg, log_line lg t garbage funcName line lv str = Throw msg) /\
  forall level name append opens, exists msg, mkLogger level name append opens = Throw msg.
Proof.
  split_and!.
  - intros Hs. unfold log_line. rewrite Hs. cbn [negb].
    assert (exists l, level_string lv garbage = Ok l /\ String.length l = 7%nat) as (l & -> & El).
    { unfold level_string. rewrite (proj2 (Z.leb_le 1 lv)) by lia. assert (lv = 1 \/ lv = 2 \/ lv = 3 \/ lv = 4 \/ lv = 5 \/ lv = 6) as H by lia.
      destruct H as [->|[->|[->|[->|[->| ->]]]]]; by eexists. }
    obind. unfold write_buf, newline. rewrite !length_append. cbn [String.length]. pose proof (getTimestamp_length t Ht).
    destruct (pretty_Z_length 10 line) as (Hp & _); [lia|cbn; lia|]. rewrite El, (proj2 (Z.leb_le _ _)) by lia. by eexists.
  - intros Hs. unfold log_line, write_buf, newline. rewrite Hs, length_append. cbn [negb String.length].
    rewrite (proj2 (Z.leb_gt _ _)) by lia. by eexists.
  - intros level name append opens. unfold mkLogger. by destruct (_ <? _), append; eexists.
Qed.

(** A file that cannot be opened loses the line. *)
Lemma writeLog_closed lg t vformat garbage funcName line lv str :
  writeLog lg false t vformat garbage funcName line lv str = Ok (None, None).
Proof. done. Qed.

Lemma log_line_bounds_witness :
  (simple_log (MkLogger 2 false "a") = false ->
     exists s, log_line (MkLogger 2 false "a") (Tm 11 31 123 23 59 59) "" "main" 42 2 "out of memory" = Ok s) /\
  (simple_log (MkLogger 2 false "a") = true ->
     exists msg, log_line (MkLogger 2 false "a") (Tm 11 31 123 23 59 59) "" "main" 42 2 "out of memory" = Throw msg) /\
  forall level name append opens, exists msg, mkLogger level name append opens = Throw msg.
Proof. apply (log_line_bounds (MkLogger 2 false "a") (Tm 11 31 123 23 59 59)); [unfold tm_ok; cbn; lia|lia|lia]. Defined.
End Logger.
