(* ===== verification/Memory.v ===== *)
(** * Memory: the daemon's memory and its registration with the card

    [daemon/rdma_mem.cpp] allocates, registers and releases the memory of each client
    ([alloc_control], [on_connect_request] and [destroy_device] of [daemon/rdma.cpp] call
    it); [daemon/data_mem.hpp] is a pool of memory blocks. The allocator's addresses and the
    card's refusals are parameters. *)
From S2P Require Import Prelude.

(** ** The card and the heap *)

(** A registered region, with the protection domain it belongs to. *)
Record region := Region { rg_ptr : Z; rg_size : Z; rg_pd : nat }.

(** The regions by number, as [ibv_reg_mr] numbers them, the blocks of the heap and the
    protection domains. *)
Record card := Card { mrs : gmap nat region; next_mr : nat; heap : gset Z; pds : gset nat }.
Implicit Types (c : card).

Definition ibv_reg_mr (ok : bool) c (pd : nat) (ptr size : Z) : option (card * nat) :=
  if ok then Some (Card (<[next_mr c := Region ptr size pd]> (mrs c)) (S (next_mr c)) (heap c) (pds c), next_mr c) else None.
(** A region that is not registered is a dangling pointer. *)
Definition ibv_dereg_mr c (mr : option nat) : outcome card :=
  match mr with
  | Some m => match mrs c !! m with
              | Some _ => Ok (Card (delete m (mrs c)) (next_mr c) (heap c) (pds c))
              | None => Throw "ibv_dereg_mr: dangling"
              end
  | None => Throw "ibv_dereg_mr: uninitialised"
  end.
(** [EBUSY], and no effect, when the domain has regions left. *)
Definition ibv_dealloc_pd c (pd : nat) : card * Z :=
  if decide (map_Exists (fun _ r => rg_pd r = pd) (mrs c)) then (c, 16)
  else (Card (mrs c) (next_mr c) (heap c) (pds c ∖ {[pd]}), 0).
Definition ibv_alloc_pd c (pd : nat) : card := Card (mrs c) (next_mr c) (heap c) (pds c ∪ {[pd]}).
(** [NULL] is 0. *)
Definition malloc c (ptr : Z) : card := if ptr =? 0 then c else Card (mrs c) (next_mr c) (heap c ∪ {[ptr]}) (pds c).
Definition free c (ptr : Z) : outcome card :=
  if ptr =? 0 then Ok c
  else if decide (ptr ∈ heap c) then Ok (Card (mrs c) (next_mr c) (heap c ∖ {[ptr]}) (pds c)) else Throw "free: not allocated".

(** ** [RdmaMem] *)

Module RdmaMem.
Record mm_pool := MmPool { ptr : Z; size : Z; mr : option nat }.
Record rdma_mem := MkRdmaMem { data_mm_pool : mm_pool; meta_mm_pool : mm_pool; filter_mm_pool : mm_pool; client_mr : option nat }.
(** [new RdmaMem()]: the constructor leaves the members as they are. *)
Definition new_rdma_mem : rdma_mem := MkRdmaMem (MmPool 0 0 None) (MmPool 0 0 None) (MmPool 0 0 None) None.

Record state := State { st_card : card; mms : gmap nat rdma_mem }.
Implicit Types (st : state) (cid : nat).

Section rdma_mem.
(** The sizes of the configuration, [sizeof(struct mm_info)], and what the store says of the
    filter of a client: its address and its number of longs. *)
Context (mem_pool_size metadata_mr_size : Z) (filter_addr filter_longs : nat -> Z).
Definition sizeof_mm_info : Z := 32.

(** Two-sided clients share the data pool of client 0. *)
Definition Allocate st cid (a_data a_meta : Z) : outcome state :=
  '(c, data) ← (
    if (0 <? cid)%nat then
      match mms st !! 0%nat with
      | Some m => Ok (st_card st, MmPool (ptr (data_mm_pool m)) (size (data_mm_pool m)) None)
      | None => Throw "clients[0]"
      end
    else Ok (malloc (st_card st) a_data, MmPool a_data mem_pool_size None));
  Ok (State (malloc c a_meta)
        (<[cid := MkRdmaMem data (MmPool a_meta metadata_mr_size None) (MmPool 0 0 None) None]> (mms st))).

(** [TEST_Z (... = ibv_reg_mr(...))]. *)
Definition test_reg (ok : bool) c (pd : nat) (ptr size : Z) : outcome (card * nat) :=
  match ibv_reg_mr ok c pd ptr size with Some x => Ok x | None => Throw "exit: ibv_reg_mr" end.

(** [oks]: which of the four registrations the card accepts; [info_addr]: the address of the
    client's [struct mm_info]. *)
Definition Register st cid (oks : nat -> bool) (info_addr : Z) : outcome state :=
  match mms st !! cid with
  | None => Throw "ctrl->mm"
  | Some m =>
      '(c, m0) ← test_reg (oks 0%nat) (st_card st) cid (ptr (data_mm_pool m)) (size (data_mm_pool m));
      '(c, m1) ← test_reg (oks 1%nat) c cid (ptr (meta_mm_pool m)) (size (meta_mm_pool m));
      '(c, m2) ← test_reg (oks 2%nat) c cid info_addr sizeof_mm_info;
      let fptr := filter_addr cid in let fsize := filter_longs cid * 8 in
      '(c, m3) ← test_reg (oks 3%nat) c cid fptr fsize;
      Ok (State c (<[cid := MkRdmaMem (MmPool (ptr (data_mm_pool m)) (size (data_mm_pool m)) (Some m0))
                                (MmPool (ptr (meta_mm_pool m)) (size (meta_mm_pool m)) (Some m1))
                                (MmPool fptr fsize (Some m3)) (Some m2)]> (mms st)))
  end.

Definition Deregister st cid (last_flag : bool) : outcome state :=
  match mms st !! cid with
  | None => Throw "ctrl->mm"
  | Some m =>
      c ← ibv_dereg_mr (st_card st) (mr (meta_mm_pool m));
      c ← free c (ptr (meta_mm_pool m));
      c ← (if last_flag then c ← ibv_dereg_mr c (mr (data_mm_pool m)); free c (ptr (data_mm_pool m)) else Ok c);
      Ok (State c (mms st))
  end.

(** [destroy_device]; the result of [ibv_dealloc_pd] is ignored. *)
Definition destroy_device st cid (last : bool) : outcome state :=
  st ← Deregister st cid last;
  Ok (State (ibv_dealloc_pd (st_card st) cid).1 (mms st)).

(** ** A run of the daemon with [n] clients *)

(** [init_rdma] for each client, [on_connect_request] for the first queue of each, [exit_rdma]. *)
Fixpoint init_all (n : nat) (a_data : Z) (a_meta : nat -> Z) st : outcome state :=
  match n with O => Ok st | S n => st ← init_all n a_data a_meta st; Allocate st n a_data (a_meta n) end.
Definition get_rdma_device st cid : state := State (ibv_alloc_pd (st_card st) cid) (mms st).
Fixpoint register_all (n : nat) (info_addr : nat -> Z) st : outcome state :=
  match n with
  | O => Ok st
  | S n => st ← register_all n info_addr st; Register (get_rdma_device st n) n (fun _ => true) (info_addr n)
  end.
Fixpoint destroy_all (n client_ctr : nat) st : outcome state :=
  match n with
  | O => Ok st
  | S n => st ← destroy_all n client_ctr st; destroy_device st n (bool_decide (n = client_ctr - 1)%nat)
  end.
Definition empty_state : state := State (Card ∅ 0 ∅ ∅) ∅.
Definition life (n : nat) (a_data : Z) (a_meta info_addr : nat -> Z) : outcome state :=
  st ← init_all n a_data a_meta empty_state; st ← register_all n info_addr st; destroy_all n n st.

(** ** Lemmas *)

Context (a_data : Z) (a_meta info_addr : nat -> Z) (n : nat).
Hypothesis Hdata : a_data <> 0.
Hypothesis Hmeta : forall i, a_meta i <> 0.
Hypothesis Hinj : forall i j, a_meta i = a_meta j -> i = j.
Hypothesis Hdisj : forall i, a_meta i <> a_data.

Definition meta_blocks (l : list nat) : gset Z := list_to_set (a_meta <$> l).
Definition allocated (i : nat) : rdma_mem :=
  MkRdmaMem (MmPool a_data mem_pool_size None) (MmPool (a_meta i) metadata_mr_size None) (MmPool 0 0 None) None.

Lemma meta_blocks_S k : meta_blocks (seq 0 (S k)) = meta_blocks (seq 0 k) ∪ {[a_meta k]}.
Proof. unfold meta_blocks. rewrite seq_S, fmap_app, list_to_set_app_L. cbn [fmap list_fmap list_to_set]. by rewrite union_empty_r_L. Qed.

Lemma malloc_new c p : p <> 0 -> malloc c p = Card (mrs c) (next_mr c) (heap c ∪ {[p]}) (pds c).
Proof. intros Hp. unfold malloc. by rewrite (proj2 (Z.eqb_neq _ _)). Qed.

Lemma init_all_ok k : (0 < k)%nat ->
  exists st, init_all k a_data a_meta empty_state = Ok st /\
    mrs (st_card st) = ∅ /\ next_mr (st_card st) = 0%nat /\
    heap (st_card st) = {[a_data]} ∪ meta_blocks (seq 0 k) /\ pds (st_card st) = ∅ /\
    (forall i, (i < k)%nat -> mms st !! i = Some (allocated i)).
Proof.
  induction k as [|k IH]; [lia|]. intros _. destruct (decide (k = 0%nat)) as [->|Hk].
  - eexists. split; [reflexivity|]. cbn [st_card mms]. rewrite !malloc_new by done. cbn [mrs next_mr heap pds].
    rewrite meta_blocks_S. split_and!; try done; [|intros i Hi; replace i with 0%nat by lia; by rewrite lookup_insert_eq].
    unfold meta_blocks. cbn [seq fmap list_fmap list_to_set]. cbn [st_card empty_state heap]. by rewrite !union_empty_l_L.
  - destruct (IH ltac:(lia)) as (st & E & E1 & E2 & E3 & E4 & Hm). cbn [init_all]. rewrite E. obind.
    unfold Allocate. rewrite (proj2 (Nat.ltb_lt _ _)) by lia. rewrite (Hm 0%nat) by lia. obind. cbn [allocated data_mm_pool ptr size].
    eexists. split; [reflexivity|]. cbn [st_card mms]. rewrite malloc_new by done. cbn [mrs next_mr heap pds].
    rewrite meta_blocks_S, E3. split_and!; try done; [by rewrite union_assoc_L|]. intros i Hi.
    destruct (decide (i = k)) as [->|]; [by rewrite lookup_insert_eq|]. rewrite lookup_insert_ne by done. apply Hm. lia.
Qed.

(** The four regions of a client, by number. *)
Definition client_region (i k : nat) : region :=
  match k with
  | 0 => Region a_data mem_pool_size i
  | 1 => Region (a_meta i) metadata_mr_size i
  | 2 => Region (info_addr i) sizeof_mm_info i
  | _ => Region (filter_addr i) (filter_longs i * 8) i
  end%nat.
Definition registered_mem (i : nat) : rdma_mem :=
  MkRdmaMem (MmPool a_data mem_pool_size (Some (4 * i)%nat)) (MmPool (a_meta i) metadata_mr_size (Some (4 * i + 1)%nat))
    (MmPool (filter_addr i) (filter_longs i * 8) (Some (4 * i + 3)%nat)) (Some (4 * i + 2)%nat).

Record registered (k : nat) st : Prop := {
  rg_mrs m : mrs (st_card st) !! m = if (m <? 4 * k)%nat then Some (client_region (m / 4) (m mod 4)) else None;
  rg_next : next_mr (st_card st) = (4 * k)%nat;
  rg_heap : heap (st_card st) = {[a_data]} ∪ meta_blocks (seq 0 n);
  rg_pds : pds (st_card st) = list_to_set (seq 0 k);
  rg_done i : (i < k)%nat -> mms st !! i = Some (registered_mem i);
  rg_todo i : (k <= i < n)%nat -> mms st !! i = Some (allocated i);
}.

Lemma four_regions k m (x : gmap nat region) : (4 * k <= m)%nat ->
  <[(4 * k + 3)%nat := client_region k 3]> (<[(4 * k + 2)%nat := client_region k 2]> (<[(4 * k + 1)%nat := client_region k 1]>
    (<[(4 * k)%nat := client_region k 0]> x))) !! m =
  if (m <? 4 * S k)%nat then Some (client_region (m / 4) (m mod 4)) else x !! m.
Proof.
  intros Hm. destruct (Nat.ltb_spec m (4 * S k)) as [Hlt|Hge].
  - assert (m = 4 * k + (m mod 4))%nat as E.
    { pose proof (Nat.div_mod m 4 ltac:(lia)). pose proof (Nat.mod_upper_bound m 4 ltac:(lia)). nia. }
    assert (m / 4 = k)%nat as ->.
    { pose proof (Nat.div_mod m 4 ltac:(lia)). lia. }
    pose proof (Nat.mod_upper_bound m 4 ltac:(lia)) as Hb. rewrite E at 1.
    destruct (m mod 4)%nat as [|[|[|[|r]]]]; [..|lia];
      repeat first [rewrite lookup_insert_eq by done | rewrite lookup_insert_ne by lia]; try done.
    rewrite Nat.add_0_r. by rewrite lookup_insert_eq.
  - by rewrite !lookup_insert_ne by lia.
Qed.

Lemma register_all_ok k st0 :
  (k <= n)%nat -> registered 0 st0 -> exists st, register_all k info_addr st0 = Ok st /\ registered k st.
Proof.
  intros Hk H0. induction k as [|k IH]; [by exists st0|]. destruct (IH ltac:(lia)) as (st & E & R).
  cbn [register_all]. rewrite E. obind. unfold Register, get_rdma_device. cbn [mms st_card].
  rewrite (rg_todo _ _ R k) by lia. unfold test_reg, ibv_reg_mr, ibv_alloc_pd. cbn [allocated data_mm_pool meta_mm_pool ptr size st_card]. obind.
  cbn [mrs next_mr heap pds]. rewrite (rg_next _ _ R).
  replace (S (4 * k)) with (4 * k + 1)%nat by lia. replace (S (4 * k + 1)) with (4 * k + 2)%nat by lia.
  replace (S (4 * k + 2)) with (4 * k + 3)%nat by lia.
  eexists. split; [reflexivity|]. split; cbn [st_card mms mrs next_mr heap pds].
  - intros m. destruct (decide (4 * k <= m)%nat) as [Hm|Hm].
    + rewrite (four_regions k m _ Hm), (rg_mrs _ _ R). by rewrite (proj2 (Nat.ltb_ge m (4 * k))) by lia.
    + rewrite !lookup_insert_ne by lia. rewrite (rg_mrs _ _ R). by rewrite !(proj2 (Nat.ltb_lt _ _)) by lia.
  - lia.
  - apply (rg_heap _ _ R).
  - rewrite (rg_pds _ _ R), seq_S, list_to_set_app_L. cbn [list_to_set]. by rewrite union_empty_r_L.
  - intros i Hi. destruct (decide (i = k)) as [->|]; [by rewrite lookup_insert_eq|].
    rewrite lookup_insert_ne by done. apply (rg_done _ _ R). lia.
  - intros i Hi. rewrite lookup_insert_ne by lia. apply (rg_todo _ _ R). lia.
Qed.

(** After the first [k] clients have been destroyed. *)
Definition kept (k m : nat) : bool :=
  (m <? 4 * n)%nat && negb ((m mod 4 =? 1)%nat && (m / 4 <? k)%nat) && negb ((m =? 4 * (n - 1))%nat && (k =? n)%nat).

Record destroyed (k : nat) st : Prop := {
  ds_mrs m : mrs (st_card st) !! m = if kept k m then Some (client_region (m / 4) (m mod 4)) else None;
  ds_heap : heap (st_card st) = if (k =? n)%nat then ∅ else {[a_data]} ∪ meta_blocks (seq k (n - k));
  ds_pds : pds (st_card st) = list_to_set (seq 0 n);
  ds_mms i : (i < n)%nat -> mms st !! i = Some (registered_mem i);
}.

Lemma meta_blocks_elem l x : x ∈ meta_blocks l <-> exists i, x = a_meta i /\ i ∈ l.
Proof. unfold meta_blocks. rewrite elem_of_list_to_set, list_elem_of_fmap. done. Qed.

(** The other regions keep the protection domain. *)
Lemma dealloc_busy c i m r : mrs c !! m = Some r -> rg_pd r = i -> ibv_dealloc_pd c i = (c, 16).
Proof. intros Hm Hr. unfold ibv_dealloc_pd. rewrite decide_True; [done|]. by exists m, r. Qed.

Lemma client_index k j : (j < 4)%nat -> ((4 * k + j) / 4 = k /\ (4 * k + j) mod 4 = j)%nat.
Proof.
  intros Hj. rewrite Nat.mul_comm. rewrite Nat.div_add_l, Nat.div_small by lia. split; [lia|].
  rewrite Nat.add_comm, Nat.Div0.mod_add. by apply Nat.mod_small.
Qed.

Lemma kept_step k m : (k < n)%nat ->
  kept (S k) m = kept k m && negb (m =? 4 * k + 1)%nat && negb ((m =? 4 * k)%nat && (S k =? n)%nat).
Proof.
  intros Hk. unfold kept.
  assert ((m mod 4 =? 1)%nat && (m / 4 <? S k)%nat = (m mod 4 =? 1)%nat && (m / 4 <? k)%nat || (m =? 4 * k + 1)%nat) as ->.
  { apply eq_true_iff_eq. rewrite orb_true_iff, !andb_true_iff, !Nat.eqb_eq, !Nat.ltb_lt.
    pose proof (Nat.div_mod m 4 ltac:(lia)). split; [|intros [?| ->]; [lia|destruct (client_index k 1); lia]].
    intros [H1 H2]. destruct (decide (m / 4 < k)%nat); [by left|right; lia]. }
  assert (((m =? 4 * (n - 1)) && (S k =? n) = (m =? 4 * k) && (S k =? n))%nat) as ->.
  { destruct (Nat.eqb_spec (S k) n) as [<-|]; [|by rewrite !andb_false_r]. by rewrite Nat.sub_succ, Nat.sub_0_r. }
  rewrite (proj2 (Nat.eqb_neq k n)) by lia. rewrite andb_false_r.
  destruct (m <? 4 * n)%nat, ((m mod 4 =? 1)%nat && (m / 4 <? k)%nat), (m =? 4 * k + 1)%nat; cbn; by rewrite ?andb_true_r.
Qed.

Lemma free_block c p : p <> 0 -> p ∈ heap c -> free c p = Ok (Card (mrs c) (next_mr c) (heap c ∖ {[p]}) (pds c)).
Proof. intros Hp Hin. unfold free. rewrite (proj2 (Z.eqb_neq _ _)) by done. by rewrite decide_True. Qed.

Lemma dereg_region c m r : mrs c !! m = Some r -> ibv_dereg_mr c (Some m) = Ok (Card (delete m (mrs c)) (next_mr c) (heap c) (pds c)).
Proof. intros Hm. unfold ibv_dereg_mr. by rewrite Hm. Qed.

Lemma kept_client k j : (k < n)%nat -> (j < 4)%nat -> kept k (4 * k + j) = true.
Proof.
  intros Hk Hj. unfold kept. destruct (client_index k j Hj) as [-> ->]. rewrite (proj2 (Nat.ltb_lt _ _)) by lia.
  rewrite (proj2 (Nat.ltb_ge k k)), (proj2 (Nat.eqb_neq k n)) by lia. by rewrite !andb_false_r.
Qed.

Lemma client_lookup k st j : destroyed k st -> (k < n)%nat -> (j < 4)%nat ->
  mrs (st_card st) !! (4 * k + j)%nat = Some (client_region k j).
Proof. intros D Hk Hj. rewrite (ds_mrs _ _ D), kept_client by done. by destruct (client_index k j Hj) as [-> ->]. Qed.

Lemma heap_rest k : (k < n)%nat ->
  ({[a_data]} ∪ meta_blocks (seq k (n - k))) ∖ {[a_meta k]} = {[a_data]} ∪ meta_blocks (seq (S k) (n - S k)).
Proof.
  intros Hk. replace (n - k)%nat with (S (n - S k)) by lia. apply set_eq. intros x.
  rewrite elem_of_difference, !elem_of_union, !elem_of_singleton, !meta_blocks_elem. split.
  - intros [[->|(i & -> & Hi)] Hne]; [by left|]. right. exists i. split; [done|]. apply elem_of_cons in Hi as [->|Hi]; done.
  - intros [->|(i & -> & Hi)]; [split; [by left|by intros ?%eq_sym%Hdisj]|]. split; [right; exists i; split; [done|by right]|].
    intros E%Hinj. subst i. apply elem_of_seq in Hi. lia.
Qed.

Lemma destroy_step k st : (k < n)%nat -> destroyed k st ->
  exists st', destroy_device st k (bool_decide (k = n - 1)%nat) = Ok st' /\ destroyed (S k) st'.
Proof.
  intros Hk D. unfold destroy_device, Deregister. rewrite (ds_mms _ _ D k Hk). cbn [registered_mem meta_mm_pool data_mm_pool mr ptr].
  pose proof (ds_heap _ _ D) as Hh. rewrite (proj2 (Nat.eqb_neq k n)) in Hh by lia.
  rewrite (dereg_region _ _ _ (client_lookup k st 1 D Hk ltac:(lia))). obind.
  assert (a_meta k ∈ heap (st_card st)) as Hin.
  { rewrite Hh, elem_of_union, meta_blocks_elem. right. exists k. split; [done|]. apply elem_of_seq. lia. }
  rewrite free_block by done. obind. cbn [mrs next_mr heap pds]. rewrite Hh, heap_rest by done.
  pose proof (client_lookup k st 2 D Hk ltac:(lia)) as H2. pose proof (client_lookup k st 0 D Hk ltac:(lia)) as H0.
  rewrite Nat.add_0_r in H0. case_bool_decide as El.
  - rewrite (dereg_region _ (4 * k) (client_region k 0)) by (cbn [mrs]; by rewrite lookup_delete_ne by lia). obind.
    cbn [mrs next_mr heap pds]. rewrite free_block by (done || (cbn [heap]; rewrite elem_of_union, elem_of_singleton; by left)). obind. cbn [st_card mms mrs next_mr heap pds].
    rewrite (dealloc_busy _ k (4 * k + 2) (client_region k 2)) by (done || (cbn [mrs]; by rewrite !lookup_delete_ne by lia)).
    eexists. split; [reflexivity|]. split; cbn [st_card mms mrs heap pds fst]; [|..|apply D|apply D].
    + intros m. rewrite kept_step, (proj2 (Nat.eqb_eq (S k) n)), andb_true_r by lia. rewrite !lookup_delete, (ds_mrs _ _ D).
      destruct (Nat.eqb_spec m (4 * k)) as [->|]; [rewrite decide_True by done; by rewrite andb_false_r|].
      rewrite decide_False by done. destruct (Nat.eqb_spec m (4 * k + 1)) as [->|]; [rewrite decide_True by done; by rewrite andb_false_r|].
      rewrite decide_False by done. by rewrite !andb_true_r.
    + rewrite (proj2 (Nat.eqb_eq (S k) n)) by lia. replace (n - S k)%nat with 0%nat by lia. unfold meta_blocks. cbn [seq fmap list_fmap list_to_set]. by rewrite union_empty_r_L, difference_diag_L.
  - obind. cbn [st_card mms mrs next_mr heap pds].
    rewrite (dealloc_busy _ k (4 * k + 2) (client_region k 2)) by (done || (cbn [mrs]; by rewrite !lookup_delete_ne by lia)).
    eexists. split; [reflexivity|]. split; cbn [st_card mms mrs heap pds fst]; [|..|apply D|apply D].
    + intros m. rewrite kept_step, (proj2 (Nat.eqb_neq (S k) n)), andb_false_r, andb_true_r by lia. rewrite lookup_delete, (ds_mrs _ _ D).
      destruct (Nat.eqb_spec m (4 * k + 1)) as [->|]; [rewrite decide_True by done; by rewrite andb_false_r|].
      rewrite decide_False by done. by rewrite !andb_true_r.
    + by rewrite (proj2 (Nat.eqb_neq (S k) n)) by lia.
Qed.

Lemma destroy_all_ok k st : (k <= n)%nat -> destroyed 0 st -> exists st', destroy_all k n st = Ok st' /\ destroyed k st'.
Proof.
  intros Hk H0. induction k as [|k IH]; [by exists st|]. destruct (IH ltac:(lia)) as (st1 & E & D).
  cbn [destroy_all]. rewrite E. obind. apply destroy_step; [lia|done].
Qed.

Lemma life_ok : (0 < n)%nat -> exists st, life n a_data a_meta info_addr = Ok st /\ destroyed n st.
Proof.
  intros Hn. unfold life. destruct (init_all_ok n Hn) as (s0 & -> & E1 & E2 & E3 & E4 & Hm). obind.
  destruct (register_all_ok n s0 ltac:(lia)) as (s1 & -> & R).
  { split; [intros m; by rewrite E1|done|done|done|intros i; lia|intros i Hi; apply Hm; lia]. }
  obind. apply (destroy_all_ok n s1); [done|]. split.
  - intros m. rewrite (rg_mrs _ _ R). unfold kept. destruct (m <? 4 * n)%nat; [|done]. cbn [andb].
    rewrite (proj2 (Nat.eqb_neq 0 n)) by lia. by rewrite !andb_false_r.
  - rewrite (proj2 (Nat.eqb_neq 0 n)), Nat.sub_0_r by lia. apply R.
  - apply R.
  - intros i Hi. by apply (rg_done _ _ R).
Qed.
End rdma_mem.

(** *** Property *)

(** C33: The daemon's memory from start to exit: for any number of clients that connect and then disconnect in
    that order, nothing is freed twice and nothing stays allocated, although the clients share one data pool;
    but only the metadata regions and one data region are deregistered: the other clients' data
    regions still cover the freed pool, the regions of the client information and of the filters stay
    too, and no protection domain can be released. *)
Theorem memory_life pool_size meta_size filter_addr filter_longs a_data a_meta info_addr n :
  a_data <> 0 -> (forall i, a_meta i <> 0) -> (forall i j, a_meta i = a_meta j -> i = j) -> (forall i, a_meta i <> a_data) ->
  (0 < n)%nat ->
  exists st, life pool_size meta_size filter_addr filter_longs n a_data a_meta info_addr = Ok st /\
    heap (st_card st) = ∅ /\ pds (st_card st) = list_to_set (seq 0 n) /\
    forall m, mrs (st_card st) !! m =
      if (m <? 4 * n)%nat && negb (m mod 4 =? 1)%nat && negb (m =? 4 * (n - 1))%nat
      then Some (client_region pool_size meta_size filter_addr filter_longs a_data a_meta info_addr (m / 4) (m mod 4)) else None.
Proof.
  intros H1 H2 H3 H4 Hn.
  destruct (life_ok pool_size meta_size filter_addr filter_longs a_data a_meta info_addr n H1 H2 H3 H4 Hn) as (st & E & [Hm Hh Hp _]).
  exists st. split; [done|]. split; [by rewrite Hh, Nat.eqb_refl|]. split; [done|]. intros m. rewrite Hm. unfold kept.
  rewrite Nat.eqb_refl, andb_true_r. destruct (Nat.ltb_spec m (4 * n)); [|done].
  rewrite (proj2 (Nat.ltb_lt (m / 4) n)) by (apply Nat.Div0.div_lt_upper_bound; lia). by rewrite andb_true_r.
Qed.

Lemma memory_life_witness :
  exists st, life 131328 65536 (fun i => 900 + Z.of_nat i) (fun _ => 2) 2 8 (fun i => 1000 + Z.of_nat i) (fun i => 500 + Z.of_nat i) = Ok st /\
    heap (st_card st) = ∅ /\ pds (st_card st) = list_to_set (seq 0 2) /\
    forall m, mrs (st_card st) !! m =
      if (m <? 4 * 2)%nat && negb (m mod 4 =? 1)%nat && negb (m =? 4 * (2 - 1))%nat
      then Some (client_region 131328 65536 (fun i => 900 + Z.of_nat i) (fun _ => 2) 8 (fun i => 1000 + Z.of_nat i)
                   (fun i => 500 + Z.of_nat i) (m / 4) (m mod 4)) else None.
Proof.
  apply (memory_life 131328 65536 (fun i => 900 + Z.of_nat i) (fun _ => 2) 8 (fun i => 1000 + Z.of_nat i) (fun i => 500 + Z.of_nat i) 2);
    intros; lia.
Defined.
End RdmaMem.

(** ** [DataMem] *)

Module DataMem.
Record memblock := Memblock { ptr : Z; mr : option nat; is_registered : bool }.
Implicit Types (mbs : list memblock).

(** [4UL * (1 << 30)], [16 * (1 << 20)]. *)
Definition max_mem_size : Z := 4 * 2 ^ 30.
Definition memblock_size : Z := 16 * 2 ^ 20.
Definition max_num_memblocks : nat := Z.to_nat (max_mem_size / memblock_size).

(** [new struct memblock()] zeroes a block; nothing ever assigns its [ptr]. *)
Definition mkDataMem : list memblock := replicate max_num_memblocks (Memblock 0 None false).

(** [ok i]: does the card accept the registration of block [i]? The result is the block [mb] points to. *)
Fixpoint register_from (ok : nat -> bool) (prealloc : bool) (pd : nat) (i : nat) mbs c : card * list memblock * option nat :=
  match mbs with
  | [] => (c, [], None)
  | b :: mbs =>
      if is_registered b then
        let '(c, mbs, mb) := register_from ok prealloc pd (S i) mbs c in (c, b :: mbs, mb)
      else match ibv_reg_mr (ok i) c pd (ptr b) memblock_size with
      | None => (c, Memblock (ptr b) None false :: mbs, Some i)
      | Some (c, m) =>
          let b := Memblock (ptr b) (Some m) true in
          if negb prealloc then (c, b :: mbs, Some i)
          else let '(c, mbs, mb) := register_from ok prealloc pd (S i) mbs c in
               (c, b :: mbs, match mb with Some _ => mb | None => Some i end)
      end
  end.
Definition Register (ok : nat -> bool) (pd : nat) (prealloc : bool) mbs c := register_from ok prealloc pd 0 mbs c.

(** A block that is registered; [fails]: [ibv_dereg_mr] returns an error and does nothing. *)
Definition Deregister (fails : bool) (b : memblock) c : outcome (card * memblock * Z) :=
  c ← (if fails then Ok c else ibv_dereg_mr c (mr b));
  c ← free c (ptr b);
  Ok (c, Memblock (ptr b) (mr b) false, if fails then -1 else 0).

(** The destructor. *)
Fixpoint destroy mbs c : outcome card :=
  match mbs with
  | [] => Ok c
  | b :: mbs => c ← (if is_registered b then '(c, _, _) ← Deregister false b c; Ok c else Ok c); destroy mbs c
  end.

(** *** Invariant *)

Definition live mbs : list nat := omap (fun b => if is_registered b then mr b else None) mbs.

(** The card holds the regions [base] of others and those of the registered blocks. *)
Record blocks_inv (base : gset nat) mbs c : Prop := {
  bi_mr b : b ∈ mbs -> ptr b = 0 /\ (is_registered b = true -> is_Some (mr b));
  bi_nodup : NoDup (live mbs);
  bi_disj m : m ∈ live mbs -> ~ m ∈ base;
  bi_dom : dom (mrs c) = base ∪ list_to_set (live mbs);
  bi_next m : m ∈ dom (mrs c) -> (m < next_mr c)%nat;
}.

Lemma live_unregistered mbs : Forall (fun b => is_registered b = false) mbs -> live mbs = [].
Proof. induction 1 as [|b mbs Hb _ IH]; [done|]. unfold live. cbn. by rewrite Hb. Qed.

(** What one call does to the blocks from block [i] on. *)
Lemma register_from_inv ok prealloc pd base i pre mbs c :
  blocks_inv base (pre ++ mbs) c ->
  let '(c', mbs', _) := register_from ok prealloc pd i mbs c in blocks_inv base (pre ++ mbs') c' /\ length mbs' = length mbs.
Proof.
  revert i pre c. induction mbs as [|b mbs IH]; intros i pre c Hi; cbn [register_from]; [done|].
  destruct (is_registered b) eqn:Eb.
  - specialize (IH (S i) (pre ++ [b]) c). rewrite <- app_assoc in IH. specialize (IH Hi).
    destruct (register_from ok prealloc pd (S i) mbs c) as [[c' mbs'] mb]. rewrite <- app_assoc in IH. destruct IH as [H1 H2].
    split; [done|]. cbn. by rewrite H2.
  - destruct (bi_mr _ _ _ Hi b) as [Hp _]; [apply elem_of_app; right; left|].
    assert (live (pre ++ b :: mbs) = live pre ++ live mbs) as El by (unfold live; rewrite omap_app; cbn; by rewrite Eb).
    unfold ibv_reg_mr. destruct (ok i).
    + assert (blocks_inv base (pre ++ Memblock (ptr b) (Some (next_mr c)) true :: mbs)
        (Card (<[next_mr c := Region (ptr b) memblock_size pd]> (mrs c)) (S (next_mr c)) (heap c) (pds c))) as Hi'.
      { assert (live (pre ++ Memblock (ptr b) (Some (next_mr c)) true :: mbs) ≡ₚ next_mr c :: live (pre ++ b :: mbs)) as El'.
        { rewrite El. unfold live. rewrite omap_app. cbn. solve_Permutation. }
        assert (~ next_mr c ∈ dom (mrs c)) as Hfresh by (intros H%(bi_next _ _ _ Hi); lia).
        rewrite (bi_dom _ _ _ Hi), elem_of_union, elem_of_list_to_set in Hfresh. split.
        - intros x [Hx|[->|Hx]%elem_of_cons]%elem_of_app; [|by (split; [|by eexists])|];
            apply (bi_mr _ _ _ Hi), elem_of_app; [by left|right; by right].
        - rewrite El', NoDup_cons. split; [tauto|apply Hi].
        - intros m. rewrite El'. intros [->|Hm]%elem_of_cons; [tauto|]. by apply (bi_disj _ _ _ Hi).
        - cbn [mrs]. rewrite dom_insert_L, (bi_dom _ _ _ Hi), (list_to_set_perm_L _ _ El'). cbn [list_to_set]. by rewrite !union_assoc_L, (union_comm_L base).
        - cbn [mrs next_mr]. intros m. rewrite dom_insert_L. intros [->%elem_of_singleton|Hm%(bi_next _ _ _ Hi)]%elem_of_union; lia. }
      destruct prealloc; cbn [negb]; [|done].
      specialize (IH (S i) (pre ++ [Memblock (ptr b) (Some (next_mr c)) true])
        (Card (<[next_mr c := Region (ptr b) memblock_size pd]> (mrs c)) (S (next_mr c)) (heap c) (pds c))).
      rewrite <- app_assoc in IH. specialize (IH Hi').
      destruct (register_from ok true pd (S i) mbs _) as [[c' mbs'] mb]. rewrite <- app_assoc in IH. destruct IH as [H1 H2].
      split; [done|]. cbn. by rewrite H2.
    + split; [|done]. assert (live (pre ++ Memblock (ptr b) None false :: mbs) = live (pre ++ b :: mbs)) as El'.
      { rewrite El. unfold live. by rewrite omap_app. }
      split; rewrite ?El'; try apply Hi. intros x [Hx|[->|Hx]%elem_of_cons]%elem_of_app; [|done|];
        apply (bi_mr _ _ _ Hi), elem_of_app; [by left|right; by right].
Qed.

Lemma destroy_inv base mbs c : blocks_inv base mbs c -> exists c', destroy mbs c = Ok c' /\ dom (mrs c') = base.
Proof.
  revert c. induction mbs as [|b mbs IH]; intros c Hi; cbn [destroy].
  - exists c. split; [done|]. rewrite (bi_dom _ _ _ Hi). cbn. by rewrite union_empty_r_L.
  - destruct (bi_mr _ _ _ Hi b ltac:(left)) as [Hp Hm]. destruct (is_registered b) eqn:Eb.
    + destruct (Hm eq_refl) as [m Em].
      assert (live (b :: mbs) = m :: live mbs) as El by (unfold live; cbn; by rewrite Eb, Em).
      pose proof (bi_nodup _ _ _ Hi) as Hn. rewrite El, NoDup_cons in Hn. destruct Hn as [Hno Hn].
      assert (m ∈ dom (mrs c)) as Hd by (rewrite (bi_dom _ _ _ Hi), El, elem_of_union, elem_of_list_to_set; right; left).
      unfold Deregister. rewrite Em, Hp. unfold ibv_dereg_mr. apply elem_of_dom in Hd as [r Hr]. rewrite Hr. obind.
      apply IH. split; cbn [mrs next_mr].
      * intros x Hx. apply (bi_mr _ _ _ Hi). by right.
      * done.
      * intros x Hx. apply (bi_disj _ _ _ Hi). rewrite El. by right.
      * rewrite dom_delete_L, (bi_dom _ _ _ Hi), El. cbn [list_to_set].
        assert (~ m ∈ base) by (apply (bi_disj _ _ _ Hi); rewrite El; left).
        apply set_eq. intros x. rewrite elem_of_difference, !elem_of_union, !elem_of_singleton, !elem_of_list_to_set.
        split; [intros [[?|[->|?]] ?]; tauto|intros [Hx|Hx]; (split; [tauto|by intros ->])].
      * intros x. rewrite dom_delete_L. intros [Hx _]%elem_of_difference. by apply (bi_next _ _ _ Hi).
    + obind. apply IH. assert (live (b :: mbs) = live mbs) as El by (unfold live; cbn; by rewrite Eb).
      destruct Hi as [H1 H2 H3 H4 H5]. rewrite El in *. split; try done. intros x Hx. apply H1. by right.
Qed.

Lemma init_blocks c : (forall m, m ∈ dom (mrs c) -> (m < next_mr c)%nat) -> blocks_inv (dom (mrs c)) mkDataMem c.
Proof.
  intros Hn. assert (live mkDataMem = []) as El.
  { apply live_unregistered. unfold mkDataMem. by apply Forall_replicate. }
  split; rewrite ?El; try done.
  - intros b Hb. unfold mkDataMem in Hb. apply elem_of_replicate in Hb as [-> _]. done.
  - apply NoDup_nil_2.
  - intros m Hm. by apply not_elem_of_nil in Hm.
  - cbn. by rewrite union_empty_r_L.
Qed.

(** Calls of [Register], each with the card's answers. *)
Fixpoint run (calls : list ((nat -> bool) * nat * bool)) mbs c : list memblock * card :=
  match calls with
  | [] => (mbs, c)
  | (ok, pd, prealloc) :: calls => let '(c, mbs, _) := Register ok pd prealloc mbs c in run calls mbs c
  end.

Lemma run_inv base calls mbs c : blocks_inv base mbs c ->
  blocks_inv base (run calls mbs c).1 (run calls mbs c).2 /\ length (run calls mbs c).1 = length mbs.
Proof.
  revert mbs c. induction calls as [|[[ok pd] prealloc] calls IH]; intros mbs c Hi; [done|]. cbn [run].
  pose proof (register_from_inv ok prealloc pd base 0 [] mbs c Hi) as H. unfold Register.
  destruct (register_from ok prealloc pd 0 mbs c) as [[c' mbs'] mb]. destruct H as [H1 <-]. by apply IH.
Qed.

(** *** Properties *)

(** Whatever registrations are asked for, and whichever the card refuses, the destructor releases
    exactly the regions of the blocks: the card is left with those of others. The number of blocks never changes. *)
Theorem data_mem_life calls c :
  (forall m, m ∈ dom (mrs c) -> (m < next_mr c)%nat) ->
  let '(mbs, c1) := run calls mkDataMem c in
  length mbs = max_num_memblocks /\ exists c2, destroy mbs c1 = Ok c2 /\ dom (mrs c2) = dom (mrs c).
Proof.
  intros Hn. destruct (run_inv _ calls _ _ (init_blocks c Hn)) as [H1 H2]. destruct (run calls mkDataMem c) as [mbs c1].
  cbn [fst snd] in H1, H2. split; [rewrite H2; unfold mkDataMem; apply length_replicate|]. by apply (destroy_inv (dom (mrs c))).
Qed.

(** A single registration takes the first free block; when the card refuses, the caller gets that block all
    the same, unregistered and without region; without a free block it gets none. *)
Theorem Register_spec ok pd mbs c pre b post :
  mbs = pre ++ b :: post -> Forall (fun x => is_registered x = true) pre -> is_registered b = false ->
  Register ok pd false mbs c =
    if ok (length pre)
    then (Card (<[next_mr c := Region (ptr b) memblock_size pd]> (mrs c)) (S (next_mr c)) (heap c) (pds c),
          pre ++ Memblock (ptr b) (Some (next_mr c)) true :: post, Some (length pre))
    else (c, pre ++ Memblock (ptr b) None false :: post, Some (length pre)).
Proof.
  intros -> Hpre Hb. unfold Register. assert (forall i, register_from ok false pd i (pre ++ b :: post) c =
    if ok (i + length pre)%nat
    then (Card (<[next_mr c := Region (ptr b) memblock_size pd]> (mrs c)) (S (next_mr c)) (heap c) (pds c),
          pre ++ Memblock (ptr b) (Some (next_mr c)) true :: post, Some (i + length pre)%nat)
    else (c, pre ++ Memblock (ptr b) None false :: post, Some (i + length pre)%nat)) as H; [|apply (H 0%nat)].
  induction Hpre as [|x pre Hx _ IH]; intros i; cbn [register_from app length].
  - rewrite Hb, Nat.add_0_r. unfold ibv_reg_mr. by destruct (ok i).
  - rewrite Hx, IH. rewrite Nat.add_succ_comm. by destruct (ok (i + S (length pre))%nat).
Qed.

Lemma data_mem_life_witness :
  let '(mbs, c1) := run [(fun _ => true, 0%nat, false); (fun i => (i <? 3)%nat, 0%nat, true)] mkDataMem (Card ∅ 0 ∅ ∅) in
  length mbs = max_num_memblocks /\ exists c2, destroy mbs c1 = Ok c2 /\ dom (mrs c2) = dom (mrs (Card ∅ 0 ∅ ∅)).
Proof.
  apply (data_mem_life [(fun _ => true, 0%nat, false); (fun i => (i <? 3)%nat, 0%nat, true)] (Card ∅ 0 ∅ ∅)).
  intros m. cbn [mrs]. rewrite dom_empty_L. set_solver.
Defined.
End DataMem.
