(* ===== verification/Kv.v ===== *)
(** * Kv: the key-value store

    [daemon/kv.hpp] and [kv.cpp]: the shards of the hash table, one counting
    filter per client, the page pool, and the operations that tie them together.
    The store is written against the interface [IHash]; its invariant says that
    every page is in exactly one place (a free list, a table, or the hands of a
    caller) and that every client's filter covers the client's keys. *)
From S2P Require Import Prelude Keys Wire HashFuncs Ihash CountingBloom Config PercpuPool.

Section kv.
Context {T : Type} `{IT : IHash T}.

(** ** State *)

Record KV := MkKV {
  config : daemon_config_t;
  rdma_cfg : rdma_config;
  hashes : list T;
  cbfs : list cbf;
  pool : PerCPUPool;
  victim_shard_id : Z;
  kv_stats : stats;
}.

Definition set_hash (s : KV) (i : nat) (t : T) : KV :=
  MkKV (config s) (rdma_cfg s) (<[i := t]> (hashes s)) (cbfs s) (pool s) (victim_shard_id s) (kv_stats s).
Definition set_cbf (s : KV) (i : nat) (c : cbf) : KV :=
  MkKV (config s) (rdma_cfg s) (hashes s) (<[i := c]> (cbfs s)) (pool s) (victim_shard_id s) (kv_stats s).
Definition set_pool (s : KV) (p : PerCPUPool) : KV :=
  MkKV (config s) (rdma_cfg s) (hashes s) (cbfs s) p (victim_shard_id s) (kv_stats s).
Definition set_victim (s : KV) (v : Z) : KV :=
  MkKV (config s) (rdma_cfg s) (hashes s) (cbfs s) (pool s) v (kv_stats s).
Definition inc_stat (s : KV) (ty : kv_stats_t) (cpu : nat) : KV :=
  MkKV (config s) (rdma_cfg s) (hashes s) (cbfs s) (pool s) (victim_shard_id s) (Inc (kv_stats s) ty cpu).

(** ** Helpers of kv.cpp *)

Definition get_cpu_id (s : KV) (cid qid : nat) : nat :=
  match poller_type (config s) with
  | PER_QP_POLLER => (cid * Z.to_nat (num_data_qps (rdma_cfg s)) + qid)%nat
  | GLOBAL_QP_POLLER => qid
  end.

Definition get_ht_shard_id (s : KV) (key : Z) : nat :=
  if (1 <? num_ht_shards (config s))%nat
  then Z.to_nat (hash_key 0 key mod Z.of_nat (num_ht_shards (config s))) else 0%nat.

(** The capacity of a shard: 110% of the pages, rounded up to a multiple of 8. *)
Definition table_capacity (mem_pool_size : Z) : Z :=
  let cap := ((mem_pool_size / 4096) *₆₄ 110) / 100 in
  if negb (cap mod 8 =? 0) then cap +₆₄ (8 - cap mod 8) else cap.

(** The constructor. [new_table] is the constructor of the table type; the
    filter parameters are the results of [calc_filter_param], which is
    floating-point arithmetic. The evictor threads are [Evictor] below. *)
Definition mkKV (new_table : Z -> T) (cfg : daemon_config_t) (rc : rdma_config) (ptr : Z)
    (num_hash : nat) (num_bits : Z) (uninitialised : kv_stats_t -> list Z) : outcome KV :=
  let cap := table_capacity (mem_pool_size cfg) in
  match ht_type cfg with
  | HT_LP_APPROX =>
      pool ← mkPerCPUPool cfg rc ptr;
      Ok (MkKV cfg rc (replicate (num_ht_shards cfg) (new_table cap))
            (if cbf_on cfg then replicate (num_clients cfg) (CountingBloomFilter num_hash num_bits) else [])
            pool 0 (Stats uninitialised))
  | _ => Throw "hashes[i] is not initialised"
  end.

(** [hashes[i]] and [cbfs[i]]; a number past the array is undefined behaviour. *)
Definition hash_at (s : KV) (i : nat) : outcome T :=
  match hashes s !! i with Some t => Ok t | None => Throw "hashes index out of bounds" end.
Definition cbf_at (s : KV) (i : nat) : outcome cbf :=
  match cbfs s !! i with Some c => Ok c | None => Throw "cbfs index out of bounds" end.

Definition GetCBF (s : KV) (cid : nat) : outcome cbf := cbf_at s cid.

Definition kv_Allocate (s : KV) (cid : nat) (qid : option nat) (r : Z) : outcome (KV * Z) :=
  '(p, a) ← Allocate (pool s) cid qid r;
  Ok (set_pool s p, a).
Definition kv_Free (s : KV) (value : Z) (cid : nat) (qid : option nat) (r : Z) : outcome KV :=
  p ← Free (pool s) value cid qid r;
  Ok (set_pool s p).

(** [if (config.cbf_on) cbfs[cid]->Insert(key)], and [Remove]. *)
Definition cbf_insert (s : KV) (cid : nat) (key : Z) : outcome KV :=
  if cbf_on (config s) then c ← cbf_at s cid; Ok (set_cbf s cid (CountingBloom.Insert c key)) else Ok s.
Definition cbf_remove (s : KV) (cid : nat) (key : Z) : outcome KV :=
  if cbf_on (config s) then c ← cbf_at s cid; Ok (set_cbf s cid (CountingBloom.Remove c key).1) else Ok s.

(** [longkey_to_cid] as an array index. *)
Definition key_cid (key : Z) : nat := Z.to_nat (longkey_to_cid key).

(** ** Operations *)

(** The body of [Insert] after [RETRY]; [inl] is [goto RETRY]. *)
Definition insert_attempt (e : env) (r : Z) (s : KV) (key value : Z) (cid qid : nat) : outcome (KV + KV) :=
  let shard_id := get_ht_shard_id s key in
  let cpu_id := get_cpu_id s cid qid in
  t ← hash_at s shard_id;
  res ← ih_Insert e t key value INVALID;
  let s := set_hash s shard_id (ir_table res) in
  let ret := ir_ret res in
  let ev_key := ir_ev_key res in
  let ev_value := ir_ev_value res in
  if negb (ev_key =? INVALID) && negb (ev_value =? NONE) then
    s ← kv_Free s ev_value (key_cid ev_key) None r;
    s ← (if ret =? 0 then
           s ← cbf_remove s (key_cid ev_key) ev_key;
           Ok (inc_stat s KV_EVICTED_PUT cpu_id)
         else Ok (inc_stat s KV_FAILED_PUT cpu_id));
    (if ret =? 0 then s ← cbf_insert s cid key; Ok (inr (inc_stat s KV_SUCC_PUT cpu_id)) else Ok (inr s))
  else if negb (ev_value =? NONE) then
    (if negb (ret =? 0) then Throw "dup key but ret > 0"
     else s ← kv_Free s ev_value cid None r; Ok (inl (inc_stat s KV_UPDATED_PUT cpu_id)))
  else
    (if ret =? 0 then s ← cbf_insert s cid key; Ok (inr (inc_stat s KV_SUCC_PUT cpu_id)) else Ok (inr s)).

(** Attempt [a] sees the clock and the locks [es a] and draws [rs a]. *)
Fixpoint insert_retry (es : nat -> env) (rs : nat -> Z) (fuel a : nat) (s : KV) (key value : Z) (cid qid : nat)
  : option (outcome KV) :=
  match fuel with
  | O => None
  | S fuel =>
      match insert_attempt (es a) (rs a) s key value cid qid with
      | Throw m => Some (Throw m)
      | Ok (inr s) => Some (Ok s)
      | Ok (inl s) => insert_retry es rs fuel (S a) s key value cid qid
      end
  end.
Definition Insert (es : nat -> env) (rs : nat -> Z) (fuel : nat) (s : KV) (key value : Z) (cid qid : nat)
  : option (outcome KV) := insert_retry es rs fuel 0 s key value cid qid.

Definition Remove (s : KV) (key : Z) (cid qid : nat) : outcome (KV * Z) :=
  let shard_id := get_ht_shard_id s key in
  let cpu_id := get_cpu_id s cid qid in
  t ← hash_at s shard_id;
  let '(t, value) := ih_Delete t key in
  let s := set_hash s shard_id t in
  if negb (value =? NONE) then
    s ← cbf_remove s cid key;
    Ok (inc_stat s KV_SUCC_INV cpu_id, value)
  else Ok (inc_stat s KV_FAILED_INV cpu_id, value).

Definition Get (e : env) (s : KV) (key : Z) (cid qid : nat) : outcome (KV * Z) :=
  let shard_id := get_ht_shard_id s key in
  t ← hash_at s shard_id;
  let '(t, value) := ih_Get e t key in
  Ok (set_hash s shard_id t, value).

Definition GetWithFlag (e : env) (s : KV) (key : Z) (cid qid : nat) (busy : bool) : outcome (KV * Z) :=
  let shard_id := get_ht_shard_id s key in
  let cpu_id := get_cpu_id s cid qid in
  t ← hash_at s shard_id;
  let '(t, value) := ih_GetWithFlag e t key busy in
  let s := set_hash s shard_id t in
  if negb (value =? NONE) then Ok (inc_stat s KV_SUCC_GET cpu_id, value)
  else Ok (inc_stat s KV_FAILED_GET cpu_id, value).

(** [victim_shard_id++ % num_ht_shards] when there are several shards. *)
Definition evict_shard (s : KV) : KV * nat :=
  if (num_ht_shards (config s) =? 1)%nat then (s, 0%nat)
  else (set_victim s (victim_shard_id s +₆₄ 1),
        Z.to_nat (victim_shard_id s mod Z.of_nat (num_ht_shards (config s)))).

(** [None]: the table's eviction is still retrying after [fuel] attempts. *)
Definition Evict (es : nat -> env) (rs : nat -> Z) (fuel : nat) (r : Z) (s : KV) (cid qid : nat)
  : option (outcome KV) :=
  let '(s, shard_id) := evict_shard s in
  match hash_at s shard_id with
  | Throw m => Some (Throw m)
  | Ok t =>
      match ih_Evict es rs fuel t INVALID with
      | None => None
      | Some res => Some (
          '(t, key, value) ← res;
          let s := set_hash s shard_id t in
          s ← kv_Free s value (key_cid key) None r;
          s ← cbf_remove s (key_cid key) key;
          Ok (inc_stat s KV_EVICTED_BG (get_cpu_id s (key_cid key) qid)))
      end
  end.

(** ** The evictor thread *)

(** What one eviction of the inner loop draws. *)
Record evict_env := EvictEnv { ee_envs : nat -> env; ee_rands : nat -> Z; ee_free : Z }.

(** The inner loop of a round, with the threshold read at its start; [es a] is
    what the [a]-th eviction of the round draws. *)
Fixpoint evict_round (es : nat -> evict_env) (tries fuel : nat) (s : KV) (cid qid fl_id : nat)
    (thld_free thld_evict_cnt evict_cnt : Z) (a : nat) : option (outcome (KV * Z)) :=
  match fuel with
  | O => None
  | S fuel =>
      if MB (PercpuPool.GetFree (pool s) fl_id) <? MB thld_free then
        match AllocateFromPeer (pool s) fl_id with
        | Throw m => Some (Throw m)
        | Ok (p, addr) =>
            let s := set_pool s p in
            let again s evict_cnt a :=
              if thld_evict_cnt <? evict_cnt then Some (Ok (s, evict_cnt))
              else evict_round es tries fuel s cid qid fl_id thld_free thld_evict_cnt evict_cnt a in
            if addr =? NO_ADDR then
              match Evict (ee_envs (es a)) (ee_rands (es a)) tries (ee_free (es a)) s cid qid with
              | None => None
              | Some (Throw m) => Some (Throw m)
              | Some (Ok s) => again s (evict_cnt + 1) (S a)
              end
            else again s evict_cnt a
        end
      else Some (Ok (s, evict_cnt))
  end.

(** One round of [while (true)] of [Evictor]; the [usleep] is left out. *)
Definition Evictor (es : nat -> evict_env) (tries fuel : nat) (s : KV) (cid qid : nat) : option (outcome (KV * Z)) :=
  let fl_id := (cid * Z.to_nat (num_data_qps (rdma_cfg s)) + qid)%nat in
  let thld_free := GetThldFree (pool s) fl_id in
  let thld_evict_cnt := to_int (thld_free / 4096) in
  evict_round es tries fuel s cid qid fl_id thld_free thld_evict_cnt 0 0.
End kv.
Arguments KV : clear implicits.
#[global] Arguments key_cid : simpl never.
#[global] Arguments get_ht_shard_id : simpl never.
