(* ===== verification/KvProps.v ===== *)
(** * KvProps: what the store guarantees

    The invariant of [Kv], its preservation by every operation, and the
    functional behaviour of the operations, for any hash table that satisfies
    [IHash]. *)
From S2P Require Import Prelude Keys Wire HashFuncs Ihash CountingBloom Config PercpuPool Kv.

Section kv_props.
Context {T : Type} `{IT : IHash T}.
(** Whether the filters are claimed to cover the keys. Pages are accounted for either way;
    the filters only while no counter has overflowed. *)
Context {exact : bool}.
Implicit Types (s : KV T) (t : T) (key value : Z) (cid qid i : nat).

(** ** What a store holds *)

(** All key/page pairs of all shards. *)
Definition stored s : list (Z * Z) := concat ((fun t => map_to_list (ih_map t)) <$> hashes s).
Definition table_pages s : list Z := (stored s).*2.
Definition client_keys s cid : list Z := filter (fun k => key_cid k = cid) (stored s).*1.

(** The page a key maps to. *)
Definition kv_lookup s key : option Z := hashes s !! get_ht_shard_id s key ≫= (fun t => ih_map t !! key).

(** The part of the invariant about the tables, and the filters. *)
Record tables_ok s : Prop := {
  tk_shards : length (hashes s) = num_ht_shards (config s);
  tk_pos : (0 < num_ht_shards (config s))%nat;
  tk_wf i t : hashes s !! i = Some t -> ih_wf t;
  tk_home i t k v : hashes s !! i = Some t -> ih_map t !! k = Some v ->
    get_ht_shard_id s k = i /\ (key_cid k < num_clients (config s))%nat;
}.

Definition filters_ok (cfg : daemon_config_t) (cs : list cbf) (keys : nat -> list Z) : Prop :=
  cbf_on cfg = true -> length cs = num_clients cfg /\
    (exact = true -> forall c f, cs !! c = Some f -> covers f (keys c)).

Record pool_fits (cfg : daemon_config_t) (rc : rdma_config) (p : PerCPUPool) : Prop := {
  pf_clients : pool_clients p = num_clients cfg;
  pf_queues : per_cli_fl_ p = Z.to_nat (num_data_qps rc);
}.

(** [pages]: the pages of the pool; [held]: the pages in the hands of callers. *)
Record kv_inv (pages held : list Z) s : Prop := {
  ki_tables : tables_ok s;
  ki_pool : pool_inv pages (table_pages s ++ held) (pool s);
  ki_fits : pool_fits (config s) (rdma_cfg s) (pool s);
  ki_filters : filters_ok (config s) (cbfs s) (client_keys s);
}.

(** ** Lemmas: the pool *)

Lemma pick_same p p' cid (qid : option nat) r : per_cli_fl_ p' = per_cli_fl_ p -> pick_fl p' cid qid r = pick_fl p cid qid r.
Proof. intros E. unfold pick_fl. by rewrite E. Qed.

Lemma Free_fits cfg rc p a cid (qid : option nat) r p' : Free p a cid qid r = Ok p' -> pool_fits cfg rc p -> pool_fits cfg rc p'.
Proof.
  unfold Free. intros (fl & _ & (fl' & _ & [= <-])%outcome_bind_Ok)%outcome_bind_Ok [H1 H2]. by split.
Qed.

Lemma allocate_from_fits cfg rc p cid n i p' a :
  allocate_from p cid n i = Ok (p', a) -> pool_fits cfg rc p -> pool_fits cfg rc p'.
Proof.
  revert p i. induction n as [|n IH]; intros p i; cbn [allocate_from]; [by intros [= <- _]|].
  destruct (fl_at p i) as [fl|]; simpl; [|done]. destruct (GetFreeAddr fl) as [fl' b].
  destruct (b =? NO_ADDR); simpl.
  - intros E [H1 H2]. by eapply IH.
  - intros [= <- _] [H1 H2]. by split.
Qed.

Lemma borrow_fits cfg rc p cur next n peer p' a :
  borrow p cur next n peer = Ok (p', a) -> pool_fits cfg rc p -> pool_fits cfg rc p'.
Proof.
  revert p peer. induction n as [|n IH]; intros p peer; cbn [borrow]; [by intros [= <- _]|].
  destruct (_ && _); [|apply IH]. destruct (fl_at p peer) as [fl|]; simpl; [|done].
  destruct (GetFreeAddr fl) as [fl' b]. destruct (b =? NO_ADDR); simpl.
  - intros E [H1 H2]. by eapply IH.
  - intros (cf & _ & (cf' & _ & [= <- _])%outcome_bind_Ok)%outcome_bind_Ok [H1 H2]. by split.
Qed.

Lemma AllocateFromPeer_fits cfg rc p fl_id p' a :
  AllocateFromPeer p fl_id = Ok (p', a) -> pool_fits cfg rc p -> pool_fits cfg rc p'.
Proof. unfold AllocateFromPeer. case_match; [by intros [= <- _]|apply borrow_fits]. Qed.

(** ** Lemmas: shards *)

Lemma shard_lt s key : (0 < num_ht_shards (config s))%nat -> (get_ht_shard_id s key < num_ht_shards (config s))%nat.
Proof.
  intros Hpos. unfold get_ht_shard_id. destruct (Nat.ltb_spec 1 (num_ht_shards (config s))); [|done].
  pose proof (Z.mod_pos_bound (hash_key 0 key) (Z.of_nat (num_ht_shards (config s))) ltac:(lia)). lia.
Qed.

Lemma hash_at_Some s key :
  tables_ok s -> exists t, hashes s !! get_ht_shard_id s key = Some t /\
    hash_at s (get_ht_shard_id s key) = Ok t /\ ih_wf t /\ kv_lookup s key = ih_map t !! key.
Proof.
  intros Hok. pose proof (shard_lt s key (tk_pos s Hok)) as Hlt. rewrite <- (tk_shards s Hok) in Hlt.
  destruct (lookup_lt_is_Some_2 _ _ Hlt) as [t Ht]. exists t. unfold hash_at, kv_lookup. rewrite Ht.
  split; [done|]. split; [done|]. split; [by eapply (tk_wf s Hok)|done].
Qed.

Lemma stored_set s i t t' :
  hashes s !! i = Some t ->
  map_to_list (ih_map t) ++ stored (set_hash s i t') ≡ₚ map_to_list (ih_map t') ++ stored s.
Proof. apply (concat_insert (fun t => map_to_list (ih_map t))). Qed.

(** A shard replaced by a table whose keys belong there. *)
Lemma tables_set s i t t' :
  tables_ok s -> hashes s !! i = Some t -> ih_wf t' ->
  (forall k v, ih_map t' !! k = Some v -> get_ht_shard_id s k = i /\ (key_cid k < num_clients (config s))%nat) ->
  tables_ok (set_hash s i t').
Proof.
  intros Hok Ht Hwf Hk. split; simpl.
  - rewrite length_insert. apply Hok.
  - apply Hok.
  - intros j tj Hj. apply list_lookup_insert_Some in Hj as [(_ & <- & _)|[_ Hj]]; [done|by eapply (tk_wf s Hok)].
  - intros j tj k v Hj Hkv. change (get_ht_shard_id (set_hash s i t') k) with (get_ht_shard_id s k).
    apply list_lookup_insert_Some in Hj as [(<- & <- & _)|[_ Hj]]; [by eapply Hk|by eapply (tk_home s Hok)].
Qed.

Lemma lookup_set s i t t' key :
  tables_ok s -> hashes s !! i = Some t ->
  kv_lookup (set_hash s i t') key = if decide (get_ht_shard_id s key = i) then ih_map t' !! key else kv_lookup s key.
Proof.
  intros Hok Ht. unfold kv_lookup. change (get_ht_shard_id (set_hash s i t') key) with (get_ht_shard_id s key).
  simpl. case_decide as E.
  - rewrite E, list_lookup_insert_eq by (by eapply lookup_lt_Some). done.
  - by rewrite list_lookup_insert_ne.
Qed.

(** Changes of one table, seen as changes of the pairs stored. *)
Lemma stored_delete s i t t' key value :
  hashes s !! i = Some t -> ih_map t !! key = Some value -> ih_map t' = delete key (ih_map t) ->
  stored s ≡ₚ (key, value) :: stored (set_hash s i t').
Proof.
  intros Ht Hk E. pose proof (stored_set s i t t' Ht) as P. rewrite E in P.
  rewrite <- (map_to_list_delete (ih_map t) key value Hk) in P.
  apply (Permutation_app_inv_l (map_to_list (delete key (ih_map t)))).
  etrans; [symmetry; exact P|]. apply Permutation_middle.
Qed.

Lemma stored_insert s i t t' key value :
  hashes s !! i = Some t -> ih_map t !! key = None -> ih_map t' = <[key := value]> (ih_map t) ->
  stored (set_hash s i t') ≡ₚ (key, value) :: stored s.
Proof.
  intros Ht Hk E. pose proof (stored_set s i t t' Ht) as P. rewrite E in P.
  rewrite map_to_list_insert in P by done.
  apply (Permutation_app_inv_l (map_to_list (ih_map t))). etrans; [exact P|]. apply Permutation_middle.
Qed.

Lemma stored_same s i t t' :
  hashes s !! i = Some t -> ih_map t' = ih_map t -> stored (set_hash s i t') ≡ₚ stored s.
Proof.
  intros Ht E. pose proof (stored_set s i t t' Ht) as P. rewrite E in P.
  by apply Permutation_app_inv_l in P.
Qed.

Lemma client_keys_perm s s' cid : stored s ≡ₚ stored s' -> client_keys s cid ≡ₚ client_keys s' cid.
Proof. intros E. unfold client_keys. by rewrite E. Qed.

Lemma client_keys_cons s s' key value cid :
  stored s ≡ₚ (key, value) :: stored s' ->
  client_keys s cid ≡ₚ (if decide (key_cid key = cid) then key :: client_keys s' cid else client_keys s' cid).
Proof. intros E. unfold client_keys. rewrite E, fmap_cons. cbn [fst]. by rewrite filter_cons. Qed.

(** ** Lemmas: filters *)

Lemma filters_perm cfg cs keys keys' :
  (forall c, keys c ≡ₚ keys' c) -> filters_ok cfg cs keys -> filters_ok cfg cs keys'.
Proof.
  intros E Hf Hon. destruct (Hf Hon) as [Hl Hc]. split; [done|]. intros Hx c f Hcf.
  apply (covers_perm f (keys c)); [apply E|by apply Hc].
Qed.

Lemma cbf_at_Some s keys cid :
  filters_ok (config s) (cbfs s) keys -> cbf_on (config s) = true -> (cid < num_clients (config s))%nat ->
  exists c, cbfs s !! cid = Some c /\ cbf_at s cid = Ok c /\ (exact = true -> covers c (keys cid)).
Proof.
  intros Hf Hon Hc. destruct (Hf Hon) as [Hl Hcov]. rewrite <- Hl in Hc.
  destruct (lookup_lt_is_Some_2 _ _ Hc) as [c E]. exists c. unfold cbf_at. rewrite E.
  split; [done|]. split; [done|]. intros Hx. by apply Hcov.
Qed.

Definition with_cbfs s (cs : list cbf) : KV T :=
  MkKV (config s) (rdma_cfg s) (hashes s) cs (pool s) (victim_shard_id s) (kv_stats s).

(** Room in the filter of the key's client, when filters are in use. *)
Definition room_for s key : Prop :=
  cbf_on (config s) = true -> forall c, cbfs s !! key_cid key = Some c -> room c key.
Definition roomy s key : Prop := exact = true -> room_for s key.

Lemma cbf_remove_ok s keys key :
  filters_ok (config s) (cbfs s) (fun c => if decide (key_cid key = c) then key :: keys c else keys c) ->
  (key_cid key < num_clients (config s))%nat ->
  exists cs, cbf_remove s (key_cid key) key = Ok (with_cbfs s cs) /\ filters_ok (config s) cs keys /\
    (forall k, roomy s k -> roomy (with_cbfs s cs) k).
Proof.
  intros Hf Hc. unfold cbf_remove. destruct (cbf_on (config s)) eqn:Hon.
  - destruct (cbf_at_Some s _ _ Hf Hon Hc) as (c & Hcs & -> & Hcov). rewrite decide_True in Hcov by done.
    obind. eexists. split; [done|]. split.
    + intros _. destruct (Hf Hon) as [Hl Hall]. split; [by rewrite length_insert|].
      intros Hx c' f Hcf. apply list_lookup_insert_Some in Hcf as [(<- & <- & _)|[Hne Hcf]].
      * by apply covers_remove, Hcov.
      * specialize (Hall Hx c' f Hcf). by rewrite decide_False in Hall.
    + intros k Hr Hx _ c' Hcf. cbn [with_cbfs cbfs set_cbf] in Hcf.
      apply list_lookup_insert_Some in Hcf as [(E & <- & _)|[Hne Hcf]]; [|by apply (Hr Hx Hon)].
      apply (covers_remove c (keys (key_cid key)) key (Hcov Hx)), (Hr Hx Hon). by rewrite <- E.
  - exists (cbfs s). split; [by destruct s|]. split; [by intros ?; congruence|]. by destruct s.
Qed.

Lemma cbf_insert_ok s keys key :
  filters_ok (config s) (cbfs s) keys -> (key_cid key < num_clients (config s))%nat -> roomy s key ->
  exists cs, cbf_insert s (key_cid key) key = Ok (with_cbfs s cs) /\
    filters_ok (config s) cs (fun c => if decide (key_cid key = c) then key :: keys c else keys c).
Proof.
  intros Hf Hc Hroom. unfold cbf_insert. destruct (cbf_on (config s)) eqn:Hon.
  - destruct (cbf_at_Some s _ _ Hf Hon Hc) as (c & Hcs & -> & Hcov). obind. eexists. split; [done|].
    intros _. destruct (Hf Hon) as [Hl Hall]. split; [by rewrite length_insert|].
    intros Hx c' f Hcf. apply list_lookup_insert_Some in Hcf as [(<- & <- & _)|[Hne Hcf]].
    + rewrite decide_True by done. by apply covers_insert; [apply Hcov|apply (Hroom Hx Hon)].
    + rewrite decide_False by done. by apply Hall.
  - exists (cbfs s). split; [by destruct s|]. intros ?; congruence.
Qed.

(** ** Lemmas: putting a state together *)

(** Two states with the same tables. *)
Record same_tables s1 s2 : Prop := {
  st_config : config s2 = config s1;
  st_rdma : rdma_cfg s2 = rdma_cfg s1;
  st_hashes : hashes s2 = hashes s1;
}.

Lemma kv_inv_make pages held s1 s2 :
  same_tables s1 s2 -> tables_ok s1 ->
  pool_inv pages (table_pages s1 ++ held) (pool s2) -> pool_fits (config s1) (rdma_cfg s1) (pool s2) ->
  filters_ok (config s1) (cbfs s2) (client_keys s1) -> kv_inv pages held s2.
Proof.
  destruct s1, s2. intros [E1 E2 E3]. simpl in *. subst. intros Ht Hp Hf Hc.
  split; [|exact Hp|exact Hf|exact Hc]. destruct Ht. by split.
Qed.

Lemma same_lookup s1 s2 key : same_tables s1 s2 -> kv_lookup s2 key = kv_lookup s1 key.
Proof. intros [E1 E2 E3]. unfold kv_lookup, get_ht_shard_id. by rewrite E1, E3. Qed.

Lemma kv_Free_ok pages rest s a c r :
  pool_inv pages (a :: rest) (pool s) -> pool_fits (config s) (rdma_cfg s) (pool s) ->
  (c < num_clients (config s))%nat ->
  exists p', kv_Free s a c None r = Ok (set_pool s p') /\ pool_inv pages rest p' /\
    pool_fits (config s) (rdma_cfg s) p'.
Proof.
  intros Hp Hf Hc. rewrite <- (pf_clients _ _ _ Hf) in Hc.
  destruct (Free_inv _ _ _ a c None r Hp Hc) as (p' & E & Hp'); [done|].
  exists p'. unfold kv_Free. rewrite E. split; [done|]. split; [done|]. by eapply Free_fits.
Qed.

Lemma table_pages_perm s s' : stored s ≡ₚ stored s' -> table_pages s ≡ₚ table_pages s'.
Proof. intros E. unfold table_pages. by rewrite E. Qed.

Lemma table_pages_cons s s' key value :
  stored s ≡ₚ (key, value) :: stored s' -> table_pages s ≡ₚ value :: table_pages s'.
Proof. intros E. unfold table_pages. by rewrite E. Qed.

Lemma lookup_home s i t key value :
  tables_ok s -> hashes s !! i = Some t -> ih_map t !! key = Some value ->
  get_ht_shard_id s key = i /\ (key_cid key < num_clients (config s))%nat /\ kv_lookup s key = Some value.
Proof.
  intros Hok Ht Hk. destruct (tk_home s Hok i t key value Ht Hk) as [Hi Hc]. split; [done|]. split; [done|].
  unfold kv_lookup. by rewrite Hi, Ht.
Qed.

(** ** One attempt of [Insert] *)

Definition same_tables_config s s' : Prop := config s' = config s /\ rdma_cfg s' = rdma_cfg s.

(** What an attempt may do: give the key's old page back and ask for a retry;
    or store the page, possibly evicting one other key; or refuse it. *)
Inductive attempt_post (pages held : list Z) s key value : KV T + KV T -> Prop :=
| AttemptUpdate s' :
    kv_inv pages (value :: held) s' -> same_tables_config s s' ->
    is_Some (kv_lookup s key) ->
    (forall k, kv_lookup s' k = if decide (k = key) then None else kv_lookup s k) ->
    (forall k, roomy s k -> roomy s' k) ->
    attempt_post pages held s key value (inl s')
| AttemptStore s' evicted :
    kv_inv pages held s' -> kv_lookup s key = None ->
    (forall ek, evicted = Some ek -> ek <> key /\ is_Some (kv_lookup s ek)) ->
    (forall k, kv_lookup s' k = if decide (k = key) then Some value
                                else if decide (evicted = Some k) then None else kv_lookup s k) ->
    attempt_post pages held s key value (inr s')
| AttemptRefuse s' :
    kv_inv pages held s' -> kv_lookup s key = None ->
    (forall k, kv_lookup s' k = kv_lookup s k) ->
    attempt_post pages held s key value (inr s').

Lemma attempt_dup pages held s key value r cid qid i t res old :
  kv_inv pages (value :: held) s -> hashes s !! i = Some t -> i = get_ht_shard_id s key ->
  (cid < num_clients (config s))%nat -> ih_wf (ir_table res) ->
  ih_map t !! key = Some old -> ih_map (ir_table res) = delete key (ih_map t) ->
  exists s', kv_Free (set_hash s i (ir_table res)) old cid None r = Ok s' /\
    attempt_post pages held s key value (inl (inc_stat s' KV_UPDATED_PUT (get_cpu_id s cid qid))).
Proof.
  intros [Htk Hp Hfit Hfil] Ht Hi Hcid Hwf' Hold Hm.
  set (s1 := set_hash s i (ir_table res)).
  pose proof (stored_delete s i t (ir_table res) key old Ht Hold Hm) as Hst. fold s1 in Hst.
  assert (tables_ok s1) as Htk1.
  { apply (tables_set s i t); [done|done|done|]. intros k v. rewrite Hm, lookup_delete_Some.
    intros [_ Hk]. by eapply (tk_home s Htk). }
  destruct (kv_Free_ok pages (table_pages s1 ++ value :: held) s1 old cid r) as (p' & Ef & Hp' & Hfit').
  { unfold s1 at 2. cbn [set_hash pool]. eapply pool_inv_perm; [|exact Hp].
    by rewrite (table_pages_cons s s1 key old Hst). }
  { exact Hfit. }
  { exact Hcid. }
  eexists. split; [exact Ef|]. constructor.
  - apply (kv_inv_make _ _ s1); [done|done|exact Hp'|exact Hfit'|].
    intros Hon. destruct (Hfil Hon) as [Hl Hcov]. split; [exact Hl|]. intros Hx c f Hcf.
    specialize (Hcov Hx c f Hcf). pose proof (client_keys_cons s s1 key old c Hst) as Hck.
    apply (covers_perm _ _ _ Hck) in Hcov. case_decide; [by eapply covers_weaken|done].
  - done.
  - exists old. unfold kv_lookup. by rewrite <- Hi, Ht.
  - intros k. rewrite (same_lookup s1) by done. unfold s1. rewrite (lookup_set s i t) by done.
    rewrite Hm. destruct (decide (k = key)) as [->|Hne].
    + rewrite decide_True by done. apply lookup_delete_eq.
    + rewrite lookup_delete_ne by done. case_decide as E; [|done]. unfold kv_lookup. by rewrite E, Ht.
  - done.
Qed.

Definition keys_of (l : list (Z * Z)) (c : nat) : list Z := filter (fun k => key_cid k = c) l.*1.

Lemma keys_of_cons key value l c :
  keys_of ((key, value) :: l) c = if decide (key_cid key = c) then key :: keys_of l c else keys_of l c.
Proof. unfold keys_of. rewrite fmap_cons. cbn [fst]. by rewrite filter_cons. Qed.

Lemma keys_of_perm l l' c : l ≡ₚ l' -> keys_of l c ≡ₚ keys_of l' c.
Proof. intros E. unfold keys_of. by rewrite E. Qed.

(** The end of a successful attempt: the key enters its client's filter. *)
Lemma finish_store pages held s1 s2 key value cpu mid :
  same_tables s1 s2 -> tables_ok s1 ->
  pool_inv pages (table_pages s1 ++ held) (pool s2) -> pool_fits (config s1) (rdma_cfg s1) (pool s2) ->
  stored s1 ≡ₚ (key, value) :: mid -> filters_ok (config s1) (cbfs s2) (keys_of mid) ->
  (key_cid key < num_clients (config s1))%nat -> roomy s2 key ->
  exists s3, cbf_insert s2 (key_cid key) key = Ok s3 /\ same_tables s1 (inc_stat s3 KV_SUCC_PUT cpu) /\
    kv_inv pages held (inc_stat s3 KV_SUCC_PUT cpu).
Proof.
  intros Hst Htk Hp Hf Hmid Hfil Hc Hroom. destruct Hst as [E1 E2 E3].
  destruct (cbf_insert_ok s2 (keys_of mid) key) as (cs & Hins & Hfil').
  { by rewrite E1. } { by rewrite E1. } { done. }
  exists (with_cbfs s2 cs). split; [done|]. assert (same_tables s1 (inc_stat (with_cbfs s2 cs) KV_SUCC_PUT cpu)) as Hsame.
  { by split. }
  split; [done|]. apply (kv_inv_make _ _ s1); try done.
  rewrite <- E1. eapply filters_perm; [|exact Hfil']. intros c. cbv beta.
  rewrite <- (keys_of_cons key value). by rewrite <- (keys_of_perm _ _ c Hmid).
Qed.

(** A shard after an insertion of a key that was absent. *)
Lemma tables_insert s i t t' key value (m : gmap Z Z) :
  tables_ok s -> hashes s !! i = Some t -> i = get_ht_shard_id s key -> ih_wf t' ->
  (key_cid key < num_clients (config s))%nat ->
  ih_map t' = <[key := value]> m -> m ⊆ ih_map t -> tables_ok (set_hash s i t').
Proof.
  intros Htk Ht Hi Hwf Hc Hm Hsub. apply (tables_set s i t); [done|done|done|].
  intros k v. rewrite Hm, lookup_insert_Some. intros [[<- _]|[_ Hk]]; [done|].
  eapply (tk_home s Htk); [done|]. by eapply lookup_weaken.
Qed.

Lemma attempt_new pages held s key value cpu i t res :
  kv_inv pages (value :: held) s -> hashes s !! i = Some t -> i = get_ht_shard_id s key ->
  (key_cid key < num_clients (config s))%nat -> ih_wf (ir_table res) -> roomy s key ->
  ih_map t !! key = None -> ih_map (ir_table res) = <[key := value]> (ih_map t) ->
  exists s', cbf_insert (set_hash s i (ir_table res)) (key_cid key) key = Ok s' /\
    attempt_post pages held s key value (inr (inc_stat s' KV_SUCC_PUT cpu)).
Proof.
  intros [Htk Hp Hfit Hfil] Ht Hi Hc Hwf' Hroom Hnone Hm.
  set (s1 := set_hash s i (ir_table res)).
  pose proof (stored_insert s i t (ir_table res) key value Ht Hnone Hm) as Hst. fold s1 in Hst.
  assert (tables_ok s1) as Htk1 by (by eapply (tables_insert s i t)).
  destruct (finish_store pages held s1 s1 key value cpu (stored s)) as (s3 & Ei & Hsame & Hinv); try done.
  { eapply pool_inv_perm; [|exact Hp]. rewrite (table_pages_cons s1 s key value Hst). solve_Permutation. }
  exists s3. split; [done|]. apply (AttemptStore _ _ _ _ _ _ None); [done| |done|].
  - unfold kv_lookup. by rewrite <- Hi, Ht.
  - intros k. rewrite (same_lookup s1) by done. unfold s1. rewrite (lookup_set s i t), Hm by done.
    destruct (decide (k = key)) as [->|Hne].
    + rewrite decide_True by done. apply lookup_insert_eq.
    + rewrite (decide_False (P := None = Some k)) by done. rewrite lookup_insert_ne by done.
      case_decide as E; [|done]. unfold kv_lookup. by rewrite E, Ht.
Qed.

Lemma attempt_evict pages held s key value r cpu cpu2 i t res ek ev :
  kv_inv pages (value :: held) s -> hashes s !! i = Some t -> i = get_ht_shard_id s key ->
  (key_cid key < num_clients (config s))%nat -> ih_wf (ir_table res) -> roomy s key ->
  ih_map t !! key = None -> ih_map t !! ek = Some ev ->
  ih_map (ir_table res) = <[key := value]> (delete ek (ih_map t)) ->
  exists s2, kv_Free (set_hash s i (ir_table res)) ev (key_cid ek) None r = Ok s2 /\
    exists s3, cbf_remove s2 (key_cid ek) ek = Ok s3 /\
    exists s4, cbf_insert (inc_stat s3 KV_EVICTED_PUT cpu) (key_cid key) key = Ok s4 /\
      attempt_post pages held s key value (inr (inc_stat s4 KV_SUCC_PUT cpu2)).
Proof.
  intros [Htk Hp Hfit Hfil] Ht Hi Hc Hwf' Hroom Hnone Hek Hm.
  set (s1 := set_hash s i (ir_table res)).
  assert (tables_ok s1) as Htk1 by (eapply (tables_insert s i t); try done; apply delete_subseteq).
  destruct (lookup_home s i t ek ev Htk Ht Hek) as (Hih & Hce & Hlk).
  assert (exists mid, stored s1 ≡ₚ (key, value) :: mid /\ stored s ≡ₚ (ek, ev) :: mid) as (mid & Hmid1 & Hmid).
  { pose proof (stored_set s i t (ir_table res) Ht) as P. fold s1 in P. rewrite Hm in P.
    rewrite <- (map_to_list_delete (ih_map t) ek ev Hek) in P.
    assert (delete ek (ih_map t) !! key = None) as Hd.
    { rewrite lookup_delete_None. by right. }
    rewrite (map_to_list_insert _ _ _ Hd) in P.
    assert ((ek, ev) :: stored s1 ≡ₚ (key, value) :: stored s) as P'.
    { apply (Permutation_app_inv_l (map_to_list (delete ek (ih_map t)))).
      etrans; [symmetry; apply Permutation_middle|]. etrans; [exact P|]. apply Permutation_middle. }
    assert ((key, value) ∈ stored s1) as Hin.
    { assert ((key, value) ∈ (ek, ev) :: stored s1) as Hin by (rewrite P'; left).
      apply elem_of_cons in Hin as [[= -> ->]|]; [congruence|done]. }
    apply elem_of_Permutation in Hin as [mid Hmid]. exists mid. split; [done|].
    apply (Permutation_cons_inv (a := (key, value))). rewrite <- P', Hmid. apply Permutation_swap. }
  destruct (kv_Free_ok pages (table_pages s1 ++ held) s1 ev (key_cid ek) r) as (p' & Ef & Hp' & Hfit').
  { cbn [s1 set_hash pool]. eapply pool_inv_perm; [|exact Hp].
    unfold table_pages. rewrite Hmid, Hmid1. cbn [fmap list_fmap snd]. solve_Permutation. }
  { exact Hfit. }
  { exact Hce. }
  eexists. split; [exact Ef|].
  destruct (cbf_remove_ok (set_pool s1 p') (keys_of mid) ek) as (cs & Er & Hfil' & Hroom').
  { eapply filters_perm; [|exact Hfil]. intros c. cbv beta. rewrite <- (keys_of_cons ek ev). by apply keys_of_perm. }
  { exact Hce. }
  eexists. split; [exact Er|].
  destruct (finish_store pages held s1 (inc_stat (with_cbfs (set_pool s1 p') cs) KV_EVICTED_PUT cpu) key value cpu2 mid)
    as (s3 & Ei & Hsame & Hinv); try done.
  { by apply Hroom'. }
  exists s3. split; [exact Ei|]. apply (AttemptStore _ _ _ _ _ _ (Some ek)); [done| | |].
  - unfold kv_lookup. by rewrite <- Hi, Ht.
  - intros ek' [= <-]. split; [congruence|by exists ev].
  - intros k. rewrite (same_lookup s1) by done. unfold s1. rewrite (lookup_set s i t), Hm by done.
    destruct (decide (k = key)) as [->|Hne].
    + rewrite decide_True by done. apply lookup_insert_eq.
    + rewrite lookup_insert_ne by done. destruct (decide (Some ek = Some k)) as [[= ->]|Hnek].
      * rewrite decide_True by done. apply lookup_delete_eq.
      * rewrite lookup_delete_ne by congruence. case_decide as E; [|done]. unfold kv_lookup. by rewrite E, Ht.
Qed.

Lemma attempt_refuse pages held s key value r cpu i t res :
  kv_inv pages (value :: held) s -> hashes s !! i = Some t -> i = get_ht_shard_id s key ->
  (key_cid key < num_clients (config s))%nat -> ih_wf (ir_table res) ->
  ih_map t !! key = None -> ih_map (ir_table res) = ih_map t ->
  exists s2, kv_Free (set_hash s i (ir_table res)) value (key_cid key) None r = Ok s2 /\
    attempt_post pages held s key value (inr (inc_stat s2 KV_FAILED_PUT cpu)).
Proof.
  intros [Htk Hp Hfit Hfil] Ht Hi Hc Hwf' Hnone Hm.
  set (s1 := set_hash s i (ir_table res)).
  pose proof (stored_same s i t (ir_table res) Ht Hm) as Hst. fold s1 in Hst.
  assert (tables_ok s1) as Htk1.
  { apply (tables_set s i t); [done|done|done|]. intros k v. rewrite Hm. by apply (tk_home s Htk). }
  destruct (kv_Free_ok pages (table_pages s1 ++ held) s1 value (key_cid key) r) as (p' & Ef & Hp' & Hfit').
  { cbn [s1 set_hash pool]. eapply pool_inv_perm; [|exact Hp].
    rewrite (table_pages_perm _ _ Hst). solve_Permutation. }
  { exact Hfit. }
  { exact Hc. }
  eexists. split; [exact Ef|]. apply AttemptRefuse.
  - apply (kv_inv_make _ _ s1); [done|done|exact Hp'|exact Hfit'|].
    eapply filters_perm; [|exact Hfil]. intros c. by apply client_keys_perm.
  - unfold kv_lookup. by rewrite <- Hi, Ht.
  - intros k. rewrite (same_lookup s1) by done. unfold s1. rewrite (lookup_set s i t), Hm by done.
    case_decide as E; [|done]. unfold kv_lookup. by rewrite E, Ht.
Qed.

Lemma insert_attempt_ok e r pages held s key value qid :
  kv_inv pages (value :: held) s -> valid_key key -> value <> NONE ->
  (key_cid key < num_clients (config s))%nat -> roomy s key ->
  exists x, insert_attempt e r s key value (key_cid key) qid = Ok x /\ attempt_post pages held s key value x.
Proof.
  intros Hinv Hk Hv Hc Hroom.
  destruct (hash_at_Some s key (ki_tables _ _ _ Hinv)) as (t & Ht & Hat & Hwf & _).
  destruct (ih_Insert_ok e t key value INVALID Hwf Hk Hv) as (res & Hins & Hwf' & Hspec).
  unfold insert_attempt. rewrite Hat. obind. rewrite Hins. obind.
  destruct res as [t' ret ek ev]. cbn [ir_table ir_ret ir_ev_key ir_ev_value] in *.
  set (i := get_ht_shard_id s key) in *. set (cpu := get_cpu_id s (key_cid key) qid).
  inversion Hspec as [old Hold Em Er Ek Ev|Hnone Em Er Ek Ev|ek' ev' Hnone Hek Em Er Ek Ev|Hnone Em Er Ek Ev]; subst.
  - destruct (ih_map_ok t key ev Hwf Hold) as [_ Hne].
    rewrite Z.eqb_refl, (proj2 (Z.eqb_neq _ _) Hne). cbn [negb andb].
    destruct (attempt_dup pages held s key value r (key_cid key) qid i t (InsRes t' 0 INVALID ev) ev)
      as (s' & Ef & Hpost); try done. cbn [ir_table] in Ef. rewrite Ef. obind.
    eexists. split; [reflexivity|exact Hpost].
  - rewrite !Z.eqb_refl. cbn [negb andb].
    destruct (attempt_new pages held s key value cpu i t (InsRes t' 0 INVALID NONE))
      as (s' & Ei & Hpost); try done. cbn [ir_table] in Ei. rewrite Ei. obind. eexists. split; [reflexivity|exact Hpost].
  - destruct (ih_map_ok t ek ev Hwf Hek) as [(_ & Hki & _) Hne].
    rewrite (proj2 (Z.eqb_neq _ _) Hne), (proj2 (Z.eqb_neq _ _) Hki), Z.eqb_refl. cbn [negb andb].
    destruct (attempt_evict pages held s key value r cpu cpu i t (InsRes t' 0 ek ev) ek ev)
      as (s2 & Ef & s3 & Er2 & s4 & Ei & Hpost); try done. cbn [ir_table] in Ef.
    rewrite Ef. obind. rewrite Er2. obind. rewrite Ei. obind. eexists. split; [reflexivity|exact Hpost].
  - destruct Hk as (Hok & Hki & Hkt).
    rewrite (proj2 (Z.eqb_neq _ _) Hv), (proj2 (Z.eqb_neq _ _) Hki). cbn [negb andb].
    destruct (attempt_refuse pages held s ek ev r cpu i t (InsRes t' (-1) ek ev))
      as (s2 & Ef & Hpost); try done. cbn [ir_table] in Ef.
    rewrite Ef. obind. change (-1 =? 0) with false. cbv iota. obind. eexists. split; [reflexivity|exact Hpost].
Qed.

(** What [Insert] does as a whole: [value] has left the caller's hands; it is
    either the page of [key], or back in the pool. *)
Inductive insert_post (pages held : list Z) s key value s' : Prop :=
| Stored evicted :
    kv_inv pages held s' ->
    (forall ek, evicted = Some ek -> ek <> key /\ is_Some (kv_lookup s ek)) ->
    (forall k, kv_lookup s' k = if decide (k = key) then Some value
                                else if decide (evicted = Some k) then None else kv_lookup s k) ->
    insert_post pages held s key value s'
| Refused :
    kv_inv pages held s' ->
    (forall k, kv_lookup s' k = if decide (k = key) then None else kv_lookup s k) ->
    insert_post pages held s key value s'.

Lemma Insert_lemma es rs fuel pages held s key value qid :
  kv_inv pages (value :: held) s -> valid_key key -> value <> NONE ->
  (key_cid key < num_clients (config s))%nat -> roomy s key -> (2 <= fuel)%nat ->
  exists s', Insert es rs fuel s key value (key_cid key) qid = Some (Ok s') /\
    insert_post pages held s key value s'.
Proof.
  intros Hinv Hk Hv Hc Hroom Hfuel. destruct fuel as [|[|fuel]]; [lia|lia|].
  unfold Insert. cbn [insert_retry].
  destruct (insert_attempt_ok (es 0%nat) (rs 0%nat) pages held s key value qid Hinv Hk Hv Hc Hroom) as (x & -> & Hpost).
  destruct Hpost as [s1 Hinv1 [Ec Er] Hin Hlk Hrm|s' evicted Hinv' Hnone Hev Hlk|s' Hinv' Hnone Hlk].
  - assert (key_cid key < num_clients (config s1))%nat as Hc1 by (by rewrite Ec).
    destruct (insert_attempt_ok (es 1%nat) (rs 1%nat) pages held s1 key value qid Hinv1 Hk Hv Hc1 (Hrm _ Hroom))
      as (y & -> & Hpost).
    destruct Hpost as [s2 _ _ [w Hin1] _ _|s' evicted Hinv' Hnone Hev Hlk'|s' Hinv' Hnone Hlk'].
    + exfalso. rewrite Hlk, decide_True in Hin1 by done. done.
    + exists s'. split; [done|]. apply (Stored _ _ _ _ _ _ evicted); [done| |].
      * intros ek He. destruct (Hev ek He) as [Hne [w Hw]]. split; [done|].
        rewrite Hlk, decide_False in Hw by done. by exists w.
      * intros k. rewrite Hlk', Hlk. by repeat case_decide.
    + exists s'. split; [done|]. apply Refused; [done|]. intros k. by rewrite Hlk', Hlk.
  - exists s'. split; [done|]. by apply (Stored _ _ _ _ _ _ evicted).
  - exists s'. split; [done|]. apply Refused; [done|]. intros k. rewrite Hlk.
    case_decide; [by subst|done].
Qed.

(** ** The other operations *)

Lemma lookup_found s key value :
  tables_ok s -> kv_lookup s key = Some value ->
  exists t, hashes s !! get_ht_shard_id s key = Some t /\ ih_map t !! key = Some value /\
    (key_cid key < num_clients (config s))%nat.
Proof.
  intros Htk Hk. destruct (hash_at_Some s key Htk) as (t & Ht & _ & _ & E). rewrite E in Hk.
  exists t. split; [done|]. split; [done|]. by eapply (tk_home s Htk).
Qed.

(** A shard that loses a key: what is left covers and fits. *)
Lemma tables_delete s i t t' key :
  tables_ok s -> hashes s !! i = Some t -> ih_wf t' -> ih_map t' = delete key (ih_map t) ->
  tables_ok (set_hash s i t').
Proof.
  intros Htk Ht Hwf Hm. apply (tables_set s i t); [done|done|done|].
  intros k v. rewrite Hm, lookup_delete_Some. intros [_ Hk]. by eapply (tk_home s Htk).
Qed.

Lemma lookup_deleted s i t t' key k :
  tables_ok s -> hashes s !! i = Some t -> get_ht_shard_id s key = i -> ih_map t' = delete key (ih_map t) ->
  kv_lookup (set_hash s i t') k = if decide (k = key) then None else kv_lookup s k.
Proof.
  intros Htk Ht Hi Hm. rewrite (lookup_set s i t), Hm by done. destruct (decide (k = key)) as [->|Hne].
  - rewrite decide_True by done. apply lookup_delete_eq.
  - rewrite lookup_delete_ne by done. case_decide as E; [|done]. unfold kv_lookup. by rewrite E, Ht.
Qed.

Lemma Remove_lemma pages held s key qid :
  kv_inv pages held s -> valid_key key ->
  exists s', Remove s key (key_cid key) qid = Ok (s', default NONE (kv_lookup s key)) /\
    kv_inv pages (option_list (kv_lookup s key) ++ held) s' /\
    (forall k, kv_lookup s' k = if decide (k = key) then None else kv_lookup s k) /\
    config s' = config s /\ rdma_cfg s' = rdma_cfg s /\ (forall k, roomy s k -> roomy s' k).
Proof.
  intros [Htk Hp Hfit Hfil] Hk.
  destruct (hash_at_Some s key Htk) as (t & Ht & Hat & Hwf & Hlk).
  destruct (ih_Delete_ok t key Hwf Hk) as (Hwf' & Hm & Hv).
  unfold Remove. rewrite Hat. obind. destruct (ih_Delete t key) as [t' v] eqn:Ed. cbn [fst snd] in *.
  set (i := get_ht_shard_id s key) in *. rewrite Hlk, Hv.
  pose proof (tables_delete s i t t' key Htk Ht Hwf' Hm) as Htk1.
  assert (forall k, kv_lookup (set_hash s i t') k = if decide (k = key) then None else kv_lookup s k) as Hlk'.
  { intros k. by apply (lookup_deleted s i t). }
  destruct (ih_map t !! key) as [old|] eqn:Eo; cbn [default option_list] in *; unfold id in *.
  - destruct (ih_map_ok t key old Hwf Eo) as [_ Hne]. rewrite (proj2 (Z.eqb_neq _ _) Hne). cbn [negb].
    pose proof (stored_delete s i t t' key old Ht Eo Hm) as Hst.
    destruct (cbf_remove_ok (set_hash s i t') (client_keys (set_hash s i t')) key) as (cs & Er & Hfil' & Hroom').
    { eapply filters_perm; [|exact Hfil]. intros c. cbv beta. exact (client_keys_cons s _ key old c Hst). }
    { by eapply (tk_home s Htk). }
    rewrite Er. obind. eexists. split; [done|]. split; [|done].
    apply (kv_inv_make _ _ (set_hash s i t')); [done|done| |done|done].
    eapply pool_inv_perm; [|exact Hp]. rewrite (table_pages_cons _ _ _ _ Hst). simpl. solve_Permutation.
  - rewrite Z.eqb_refl. cbn [negb]. eexists. split; [done|]. split; [|done].
    assert (ih_map t' = ih_map t) as Hsame by (rewrite Hm; by apply delete_id).
    pose proof (stored_same s i t t' Ht Hsame) as Hst.
    apply (kv_inv_make _ _ (set_hash s i t')); [done|done| |done|].
    + eapply pool_inv_perm; [|exact Hp]. by rewrite (table_pages_perm _ _ Hst).
    + eapply filters_perm; [|exact Hfil]. intros c. symmetry. by apply client_keys_perm.
Qed.

(** An operation that changes no table's map and nothing else. *)
Lemma kv_inv_same pages held s i t t' (s' : KV T) :
  kv_inv pages held s -> hashes s !! i = Some t -> ih_wf t' -> ih_map t' = ih_map t ->
  same_tables (set_hash s i t') s' -> pool s' = pool s -> cbfs s' = cbfs s ->
  kv_inv pages held s' /\ (forall k, kv_lookup s' k = kv_lookup s k).
Proof.
  intros [Htk Hp Hfit Hfil] Ht Hwf' Hm Hsame Epool Ecbfs. pose proof (stored_same s i t t' Ht Hm) as Hst. split.
  - apply (kv_inv_make _ _ (set_hash s i t')); [done| | | |]; rewrite ?Epool, ?Ecbfs.
    + apply (tables_set s i t); [done|done|done|]. intros k v. rewrite Hm. by apply (tk_home s Htk).
    + eapply pool_inv_perm; [|exact Hp]. by rewrite (table_pages_perm _ _ Hst).
    + exact Hfit.
    + eapply filters_perm; [|exact Hfil]. intros c. symmetry. by apply client_keys_perm.
  - intros k. rewrite (same_lookup _ _ _ Hsame), (lookup_set s i t), Hm by done.
    case_decide as E; [|done]. unfold kv_lookup. by rewrite E, Ht.
Qed.

Lemma Get_lemma e pages held s key cid qid :
  kv_inv pages held s -> valid_key key ->
  exists s', Get e s key cid qid = Ok (s', default NONE (kv_lookup s key)) /\
    kv_inv pages held s' /\ (forall k, kv_lookup s' k = kv_lookup s k).
Proof.
  intros Hinv Hk. destruct (hash_at_Some s key (ki_tables _ _ _ Hinv)) as (t & Ht & Hat & Hwf & Hlk).
  destruct (ih_Get_ok e t key Hwf Hk) as (Hwf' & Hm & Hv). unfold Get. rewrite Hat. obind.
  destruct (ih_Get e t key) as [t' v]. cbn [fst snd] in *. rewrite Hlk, <- Hv. eexists. split; [done|].
  by apply (kv_inv_same _ _ s (get_ht_shard_id s key) t t').
Qed.

Lemma GetWithFlag_lemma e pages held s key cid qid busy :
  kv_inv pages held s -> valid_key key ->
  exists s', GetWithFlag e s key cid qid busy = Ok (s', if busy then default NONE (kv_lookup s key) else NONE) /\
    kv_inv pages held s' /\ (forall k, kv_lookup s' k = kv_lookup s k) /\
    (forall k, roomy s k -> roomy s' k) /\ config s' = config s /\ rdma_cfg s' = rdma_cfg s.
Proof.
  intros Hinv Hk. destruct (hash_at_Some s key (ki_tables _ _ _ Hinv)) as (t & Ht & Hat & Hwf & Hlk).
  destruct (ih_GetWithFlag_ok e t key busy Hwf Hk) as (Hwf' & Hm & Hv). unfold GetWithFlag. rewrite Hat. obind.
  destruct (ih_GetWithFlag e t key busy) as [t' v]. cbn [fst snd] in *. rewrite Hlk, <- Hv.
  set (s1 := set_hash s (get_ht_shard_id s key) t').
  assert (forall ty cpu, kv_inv pages held (inc_stat s1 ty cpu) /\
    (forall k, kv_lookup (inc_stat s1 ty cpu) k = kv_lookup s k)) as Hall.
  { intros ty cpu. by apply (kv_inv_same _ _ s (get_ht_shard_id s key) t t'). }
  destruct (v =? NONE); cbn [negb]; (eexists; split; [done|]);
    [destruct (Hall KV_FAILED_GET (get_cpu_id s cid qid))|destruct (Hall KV_SUCC_GET (get_cpu_id s cid qid))]; done.
Qed.

(** ** The background eviction *)

Lemma evict_shard_tables s : tables_ok s ->
  same_tables s (evict_shard s).1 /\ pool (evict_shard s).1 = pool s /\ cbfs (evict_shard s).1 = cbfs s /\
  ((evict_shard s).2 < num_ht_shards (config s))%nat.
Proof.
  intros Htk. pose proof (tk_pos s Htk). unfold evict_shard. case_match eqn:E; [done|].
  split; [done|]. split; [done|]. split; [done|]. cbn [snd].
  pose proof (Z.mod_pos_bound (victim_shard_id s) (Z.of_nat (num_ht_shards (config s))) ltac:(lia)). lia.
Qed.

(** No free list got shorter. *)
Definition grown (p p' : PerCPUPool) : Prop :=
  forall i fl, freelist_ p !! i = Some fl ->
    exists fl', freelist_ p' !! i = Some fl' /\ (length (fl_addrs fl) <= length (fl_addrs fl'))%nat.

Lemma Evict_lemma es rs fuel r pages held s cid qid res :
  kv_inv pages held s -> Evict es rs fuel r s cid qid = Some res ->
  exists s' key value, res = Ok s' /\ kv_inv pages held s' /\ kv_lookup s key = Some value /\
    (forall k, kv_lookup s' k = if decide (k = key) then None else kv_lookup s k) /\
    (stored s ≡ₚ (key, value) :: stored s' /\ grown (pool s) (pool s')) /\
    config s' = config s /\ rdma_cfg s' = rdma_cfg s /\ (forall k, roomy s k -> roomy s' k).
Proof.
  intros [Htk Hp Hfit Hfil]. destruct (evict_shard_tables s Htk) as (Hsame & Ep & Ec & Hlt).
  unfold Evict. destruct (evict_shard s) as [s0 i]. cbn [fst snd] in *.
  rewrite <- (tk_shards s Htk) in Hlt. destruct (lookup_lt_is_Some_2 _ _ Hlt) as [t Ht].
  destruct s0 as [c0 r0 h0 cs0 p0 v0 st0]. destruct Hsame as [E1 E2 E3]. cbn [config rdma_cfg hashes pool cbfs] in *.
  subst c0 r0 h0 cs0 p0. unfold hash_at. cbn [hashes]. rewrite Ht.
  destruct (ih_Evict es rs fuel t INVALID) as [ro|] eqn:Eev; [|done]. intros [= <-].
  destruct (ih_Evict_ok _ _ _ _ _ _ (tk_wf s Htk i t Ht) Eev) as (t' & key & value & -> & Hwf' & Hkv & Hm).
  obind. destruct (lookup_home s i t key value Htk Ht Hkv) as (Hih & Hck & Hlk).
  set (s0 := MkKV (config s) (rdma_cfg s) (hashes s) (cbfs s) (pool s) v0 st0).
  assert (tables_ok s0) as Htk0 by (destruct Htk; by split).
  set (s1 := set_hash s0 i t').
  pose proof (tables_delete s0 i t t' key Htk0 Ht Hwf' Hm) as Htk1. fold s1 in Htk1.
  pose proof (stored_delete s0 i t t' key value Ht Hkv Hm) as Hst. fold s1 in Hst.
  destruct (kv_Free_ok pages (table_pages s1 ++ held) s1 value (key_cid key) r) as (p' & Ef & Hp' & Hfit').
  { cbn [s1 set_hash pool s0]. eapply pool_inv_perm; [|exact Hp].
    change (table_pages s) with (table_pages s0). rewrite (table_pages_cons _ _ _ _ Hst). done. }
  { exact Hfit. }
  { exact Hck. }
  rewrite Ef. obind.
  destruct (cbf_remove_ok (set_pool s1 p') (client_keys s1) key) as (cs & Er & Hfil' & Hroom').
  { eapply filters_perm; [|exact Hfil]. intros c. cbv beta. exact (client_keys_cons s0 _ key value c Hst). }
  { exact Hck. }
  rewrite Er. obind. eexists _, key, value. split; [done|]. split; [|split; [done|split; [|split; [|done]]]].
  - by apply (kv_inv_make _ _ s1).
  - intros k. rewrite (same_lookup s1) by done. by apply (lookup_deleted s0 i t).
  - split; [exact Hst|]. unfold kv_Free in Ef. apply outcome_bind_Ok in Ef as (q & Ef & [= <-]).
    intros j fl Hj. by eapply Free_grows.
Qed.

(** ** Executions *)

Lemma with_pool pages held held' s p' :
  kv_inv pages held s -> pool_inv pages (table_pages s ++ held') p' -> pool_fits (config s) (rdma_cfg s) p' ->
  kv_inv pages held' (set_pool s p').
Proof. intros [Htk Hp Hfit Hfil] Hp' Hf'. by apply (kv_inv_make _ _ s). Qed.

Lemma borrow_kv pages held s fl_id p' a :
  kv_inv pages held s -> (fl_id < total_fl_ (pool s))%nat -> AllocateFromPeer (pool s) fl_id = Ok (p', a) ->
  kv_inv pages held (set_pool s p').
Proof.
  intros Hinv Hid E. pose proof Hinv as [Htk Hp Hfit Hfil].
  destruct (AllocateFromPeer_inv _ _ _ fl_id Hp Hid) as (p1 & a1 & E1 & Hres). rewrite E in E1. simplify_eq.
  eapply with_pool; [done| |by eapply AllocateFromPeer_fits]. by destruct Hres as [[_ ->]|[_ ?]].
Qed.

(** One step of a daemon: a call of the store, by a caller that owns the pages
    in [held]. A page is freed or inserted by its owner; keys carry the number of
    their client. The keys a state inserts satisfy [guard]. *)
Inductive kv_step (guard : KV T -> Z -> Prop) s (held : list Z) : KV T -> list Z -> Prop :=
| StepAllocate cid (qid : option nat) r s' a :
    (cid < num_clients (config s))%nat ->
    (forall q, qid = Some q -> (q < Z.to_nat (num_data_qps (rdma_cfg s)))%nat) ->
    kv_Allocate s cid qid r = Ok (s', a) ->
    kv_step guard s held s' (if decide (a = NO_ADDR) then held else a :: held)
| StepFree a held' cid (qid : option nat) r s' :
    held ≡ₚ a :: held' -> (cid < num_clients (config s))%nat ->
    (forall q, qid = Some q -> (q < Z.to_nat (num_data_qps (rdma_cfg s)))%nat) ->
    kv_Free s a cid qid r = Ok s' -> kv_step guard s held s' held'
| StepInsert es rs fuel key value held' qid s' :
    held ≡ₚ value :: held' -> valid_key key -> value <> NONE ->
    (key_cid key < num_clients (config s))%nat -> guard s key -> (2 <= fuel)%nat ->
    Insert es rs fuel s key value (key_cid key) qid = Some (Ok s') -> kv_step guard s held s' held'
| StepRemove key qid s' value :
    valid_key key -> Remove s key (key_cid key) qid = Ok (s', value) ->
    kv_step guard s held s' (if decide (value = NONE) then held else value :: held)
| StepGet e key cid qid s' value :
    valid_key key -> Get e s key cid qid = Ok (s', value) -> kv_step guard s held s' held
| StepGetWithFlag e key cid qid busy s' value :
    valid_key key -> GetWithFlag e s key cid qid busy = Ok (s', value) -> kv_step guard s held s' held
| StepEvict es rs fuel r cid qid s' :
    Evict es rs fuel r s cid qid = Some (Ok s') -> kv_step guard s held s' held
| StepBorrow fl_id p' a :
    (fl_id < total_fl_ (pool s))%nat -> AllocateFromPeer (pool s) fl_id = Ok (p', a) ->
    kv_step guard s held (set_pool s p') held.

Inductive kv_reachable (guard : KV T -> Z -> Prop) s0 : KV T -> list Z -> Prop :=
| ReachStart : kv_reachable guard s0 s0 []
| ReachStep s held s' held' : kv_reachable guard s0 s held -> kv_step guard s held s' held' -> kv_reachable guard s0 s' held'.

Lemma kv_inv_perm pages held held' s : held ≡ₚ held' -> kv_inv pages held s -> kv_inv pages held' s.
Proof. intros E [H1 H2 H3 H4]. split; [done| |done|done]. eapply pool_inv_perm; [|exact H2]. by rewrite E. Qed.

Lemma step_alloc pages held s cid (qid : option nat) r s' a :
  kv_inv pages held s -> (cid < num_clients (config s))%nat ->
  (forall q, qid = Some q -> (q < Z.to_nat (num_data_qps (rdma_cfg s)))%nat) ->
  kv_Allocate s cid qid r = Ok (s', a) ->
  kv_inv pages (if decide (a = NO_ADDR) then held else a :: held) s' /\
  (forall k, kv_lookup s' k = kv_lookup s k) /\ same_tables s s' /\ cbfs s' = cbfs s.
Proof.
  intros Hinv Hc Hq E. pose proof Hinv as [Htk Hp Hfit Hfil].
  rewrite <- (pf_clients _ _ _ Hfit) in Hc. rewrite <- (pf_queues _ _ _ Hfit) in Hq.
  destruct (Allocate_inv _ _ _ cid qid r Hp Hc Hq) as (p1 & a1 & E1 & Hres).
  unfold kv_Allocate in E. rewrite E1 in E. obind. injection E as <- <-. split; [|done].
  eapply with_pool; [exact Hinv| |eapply allocate_from_fits; [exact E1|done]].
  destruct Hres as [[-> ->]|[Hne Hp1]]; case_decide; try done.
  eapply pool_inv_perm; [|exact Hp1]. solve_Permutation.
Qed.

Lemma step_free pages held s a cid (qid : option nat) r :
  kv_inv pages (a :: held) s -> (cid < num_clients (config s))%nat ->
  (forall q, qid = Some q -> (q < Z.to_nat (num_data_qps (rdma_cfg s)))%nat) ->
  exists s', kv_Free s a cid qid r = Ok s' /\ kv_inv pages held s' /\
    (forall k, kv_lookup s' k = kv_lookup s k) /\ same_tables s s' /\ cbfs s' = cbfs s.
Proof.
  intros Hinv Hc Hq. pose proof Hinv as [Htk Hp Hfit Hfil].
  rewrite <- (pf_clients _ _ _ Hfit) in Hc. rewrite <- (pf_queues _ _ _ Hfit) in Hq.
  assert (pool_inv pages (a :: (table_pages s ++ held)) (pool s)) as Hp'.
  { eapply pool_inv_perm; [|exact Hp]. solve_Permutation. }
  destruct (Free_inv _ _ _ a cid qid r Hp' Hc Hq) as (p' & E & Hp1).
  exists (set_pool s p'). unfold kv_Free. rewrite E. split; [done|]. split; [|done].
  eapply with_pool; [exact Hinv|done|]. by eapply Free_fits.
Qed.

Lemma kv_step_inv guard pages s held s' held' :
  (forall s k, guard s k -> roomy s k) -> kv_inv pages held s -> kv_step guard s held s' held' -> kv_inv pages held' s'.
Proof.
  intros Hguard Hinv [cid qid r s1 a Hc Hq E|a h cid qid r s1 Hh Hc Hq E|es rs fuel key value h qid s1 Hh Hk Hv Hc Hr Hf E
    |key qid s1 value Hk E|e key cid qid s1 value Hk E|e key cid qid b s1 value Hk E|es rs fuel r cid qid s1 E|fl_id p' a Hid E].
  - by eapply step_alloc.
  - apply (kv_inv_perm _ _ _ _ Hh) in Hinv.
    destruct (step_free pages h s a cid qid r Hinv Hc Hq) as (s2 & E2 & H2 & _). rewrite E2 in E. injection E as <-. exact H2.
  - apply (kv_inv_perm _ _ _ _ Hh) in Hinv.
    destruct (Insert_lemma es rs fuel pages h s key value qid Hinv Hk Hv Hc (Hguard _ _ Hr) Hf) as (s2 & E2 & Hpost).
    rewrite E2 in E. injection E as <-. by destruct Hpost.
  - destruct (Remove_lemma pages held s key qid Hinv Hk) as (s2 & E2 & H2 & _).
    rewrite E2 in E. injection E as <- <-. destruct (kv_lookup s key) as [v|] eqn:El; cbn [default option_list] in *; [|by rewrite decide_True].
    rewrite decide_False; [done|].
    destruct (hash_at_Some s key (ki_tables _ _ _ Hinv)) as (t & _ & _ & Hwf & E'). rewrite E' in El.
    by apply (ih_map_ok t key v Hwf).
  - destruct (Get_lemma e pages held s key cid qid Hinv Hk) as (s2 & E2 & H2 & _). rewrite E2 in E. injection E as <- <-. exact H2.
  - destruct (GetWithFlag_lemma e pages held s key cid qid b Hinv Hk) as (s2 & E2 & H2 & _). rewrite E2 in E. injection E as <- <-. exact H2.
  - destruct (Evict_lemma es rs fuel r pages held s cid qid _ Hinv E) as (s2 & k & v & E2 & H2 & _). injection E2 as ->. exact H2.
  - by eapply borrow_kv.
Qed.

Lemma kv_reachable_inv guard pages s0 s held :
  (forall s k, guard s k -> roomy s k) -> kv_inv pages [] s0 -> kv_reachable guard s0 s held -> kv_inv pages held s.
Proof. intros Hguard H0. induction 1; [done|]. by eapply kv_step_inv. Qed.

Lemma kv_inv_filter pages held s key value :
  kv_inv pages held s -> kv_lookup s key = Some value -> cbf_on (config s) = true ->
  exists c, GetCBF s (key_cid key) = Ok c /\ (exact = true -> covers c (client_keys s (key_cid key))) /\
    key ∈ client_keys s (key_cid key).
Proof.
  intros [Htk Hp Hfit Hfil] Hk Hon. destruct (lookup_found s key value Htk Hk) as (t & Ht & Hm & Hc).
  destruct (cbf_at_Some s _ _ Hfil Hon Hc) as (c & _ & Hat & Hcov). exists c. split; [done|]. split; [done|].
  unfold client_keys. apply list_elem_of_filter. split; [done|]. apply list_elem_of_fmap. exists (key, value).
  split; [done|]. unfold stored. apply list_elem_of_In, in_concat. exists (map_to_list (ih_map t)).
  split; apply list_elem_of_In; [|by apply elem_of_map_to_list].
  apply list_elem_of_fmap. exists t. split; [done|]. by eapply list_elem_of_lookup_2.
Qed.

(** ** The store at start *)

Lemma stored_new n t : ih_map t = ∅ -> concat ((fun t => map_to_list (ih_map t)) <$> replicate n t) = [].
Proof.
  intros E. induction n as [|n IH]; [done|]. cbn [replicate fmap list_fmap concat].
  rewrite E, map_to_list_empty. exact IH.
Qed.

Lemma mkKV_inv (new_table : Z -> T) cfg rc ptr num_hash num_bits u :
  pool_config_ok cfg rc ptr -> ht_type cfg = HT_LP_APPROX -> (0 < num_ht_shards cfg)%nat ->
  0 < num_bits < 2 ^ 32 ->
  ih_wf (new_table (table_capacity (mem_pool_size cfg))) ->
  ih_map (new_table (table_capacity (mem_pool_size cfg))) = ∅ ->
  exists s0, mkKV new_table cfg rc ptr num_hash num_bits u = Ok s0 /\ kv_inv (init_pages cfg rc ptr) [] s0 /\
    config s0 = cfg /\ rdma_cfg s0 = rc /\ (forall k, kv_lookup s0 k = None).
Proof.
  intros Hok Hty Hsh Hn Hwf Hm. unfold mkKV. rewrite Hty.
  destruct (mkPerCPUPool_inv cfg rc ptr Hok) as (p & -> & Hp & Ec & Eq). obind. eexists. split; [done|].
  set (s0 := MkKV _ _ _ _ _ _ _).
  assert (forall k, kv_lookup s0 k = None) as Hlk.
  { intros k. unfold kv_lookup. cbn [hashes s0]. destruct (_ !! get_ht_shard_id s0 k) as [t|] eqn:E; [|done].
    apply lookup_replicate in E as [-> _]. cbn [mbind option_bind]. by rewrite Hm. }
  split; [split|]; [split| | | |done]; cbn [hashes config rdma_cfg pool cbfs s0].
  - apply length_replicate.
  - done.
  - intros i t Ht. by apply lookup_replicate in Ht as [-> _].
  - intros i t k v Ht Hkv. apply lookup_replicate in Ht as [-> _]. by rewrite Hm in Hkv.
  - unfold table_pages, stored. cbn [hashes s0]. rewrite stored_new by done. exact Hp.
  - by split.
  - intros Hon. rewrite Hon. split; [apply length_replicate|]. intros _ c f Hf.
    apply lookup_replicate in Hf as [-> _]. unfold client_keys, stored. cbn [hashes s0]. rewrite stored_new by done.
    apply tracks_covers, new_tracks. done.
Qed.

(** ** The configuration never changes *)


Lemma cbf_insert_conf s cid key s' : cbf_insert s cid key = Ok s' -> same_tables_config s s'.
Proof. unfold cbf_insert. case_match; [|by intros [= ->]]. by intros (c & _ & [= <-])%outcome_bind_Ok. Qed.

Lemma cbf_remove_conf s cid key s' : cbf_remove s cid key = Ok s' -> same_tables_config s s'.
Proof. unfold cbf_remove. case_match; [|by intros [= ->]]. by intros (c & _ & [= <-])%outcome_bind_Ok. Qed.

Lemma kv_Free_conf s v c q r s' : kv_Free s v c q r = Ok s' -> same_tables_config s s'.
Proof. unfold kv_Free. by intros (p & _ & [= <-])%outcome_bind_Ok. Qed.

Lemma attempt_conf e r s key value cid qid x :
  insert_attempt e r s key value cid qid = Ok x -> match x with inl s' | inr s' => same_tables_config s s' end.
Proof.
  unfold insert_attempt. intros (t & _ & (res & _ & H)%outcome_bind_Ok)%outcome_bind_Ok. revert H.
  destruct (negb (ir_ev_key res =? INVALID) && negb (ir_ev_value res =? NONE)).
  - intros (s1 & [E1 E1']%kv_Free_conf & (s2 & H2 & H)%outcome_bind_Ok)%outcome_bind_Ok.
    assert (same_tables_config s1 s2) as [E2 E2'].
    { revert H2. case_match; [|by intros [= <-]]. intros (s3 & [E3 E3']%cbf_remove_conf & [= <-])%outcome_bind_Ok.
      by split. }
    revert H. case_match.
    + intros (s3 & [E3 E3']%cbf_insert_conf & [= <-])%outcome_bind_Ok. split; cbn [config rdma_cfg inc_stat set_hash] in *; congruence.
    + intros [= <-]. split; cbn [config rdma_cfg set_hash] in *; congruence.
  - destruct (negb (ir_ev_value res =? NONE)).
    + case_match; [done|]. intros (s1 & [E1 E1']%kv_Free_conf & [= <-])%outcome_bind_Ok. by split.
    + case_match; [|by intros [= <-]]. intros (s3 & [E3 E3']%cbf_insert_conf & [= <-])%outcome_bind_Ok. by split.
Qed.

Lemma Insert_conf es rs fuel s key value cid qid s' :
  Insert es rs fuel s key value cid qid = Some (Ok s') -> same_tables_config s s'.
Proof.
  unfold Insert. generalize 0%nat. revert s. induction fuel as [|fuel IH]; intros s a; cbn [insert_retry]; [done|].
  destruct (insert_attempt _ _ s key value cid qid) as [[s1|s1]|m] eqn:E; [|by intros [= <-]; apply attempt_conf in E|done].
  apply attempt_conf in E as [E1 E2]. intros [E3 E4]%IH. split; congruence.
Qed.

Lemma Remove_conf s key cid qid s' v : Remove s key cid qid = Ok (s', v) -> same_tables_config s s'.
Proof.
  unfold Remove. intros (t & _ & H)%outcome_bind_Ok. destruct (ih_Delete t key) as [t1 v1]. revert H. case_match.
  - intros (s1 & [E1 E2]%cbf_remove_conf & [= <- _])%outcome_bind_Ok. by split.
  - by intros [= <- _].
Qed.

Lemma GetWithFlag_conf e s key cid qid busy s' v : GetWithFlag e s key cid qid busy = Ok (s', v) -> same_tables_config s s'.
Proof.
  unfold GetWithFlag. intros (t & _ & H)%outcome_bind_Ok. destruct (ih_GetWithFlag e t key busy) as [t1 v1]. revert H.
  by case_match; intros [= <- _].
Qed.

Lemma kv_Allocate_conf s cid q r s' v : kv_Allocate s cid q r = Ok (s', v) -> same_tables_config s s'.
Proof. unfold kv_Allocate. by intros ([p w] & _ & [= <- _])%outcome_bind_Ok. Qed.

Lemma Evict_conf es rs fuel r s cid qid s' : Evict es rs fuel r s cid qid = Some (Ok s') -> same_tables_config s s'.
Proof.
  unfold Evict. assert (same_tables_config s (evict_shard s).1) as [E1 E2] by (unfold evict_shard; by case_match).
  destruct (evict_shard s) as [s0 i]. cbn [fst] in *. destruct (hash_at s0 i) as [t|]; [|done].
  destruct (ih_Evict es rs fuel t INVALID) as [res|]; [|done].
  intros [= ([[t1 k] v] & _ & (s1 & [E3 E4]%kv_Free_conf & (s2 & [E5 E6]%cbf_remove_conf & [= <-])%outcome_bind_Ok)%outcome_bind_Ok)%outcome_bind_Ok].
  split; cbn [config rdma_cfg inc_stat set_hash] in *; congruence.
Qed.
End kv_props.
#[global] Arguments kv_inv {T IT} exact pages held s : rename.
#[global] Arguments filters_ok exact cfg cs keys : rename.
