(* ===== verification/KvSpec.v ===== *)
(** * KvSpec: the properties of the key-value store

    The statements proved of [Kv] for any table that satisfies [IHash], and
    their instances at the table the daemon uses, [LinearProbingApprox] with
    the hash functions of [HashFuncs]. *)
From S2P Require Import Prelude Keys Wire HashFuncs Ihash LinearProbing CountingBloom Config PercpuPool Kv KvProps.

Section kv_evictor.
Context {T : Type} `{IT : IHash T} {exact : bool}.
Implicit Types (s : KV T) (key value : Z) (cid qid i : nat).

(** ** Lemmas: a round of the evictor *)

Definition own_pages (p : PerCPUPool) i : nat := length (default [] (fl_addrs <$> freelist_ p !! i)).

Lemma own_grown p p' i : grown p p' -> (own_pages p i <= own_pages p' i)%nat.
Proof.
  intros Hg. unfold own_pages. destruct (freelist_ p !! i) as [fl|] eqn:E; [|cbn; lia].
  destruct (Hg i fl E) as (fl' & -> & Hl). exact Hl.
Qed.

Lemma own_bound pages held p i : pool_inv pages held p -> (own_pages p i <= length pages)%nat.
Proof.
  intros Hinv. pose proof (Permutation_length (pi_pages _ _ _ Hinv)) as Hl. rewrite length_app in Hl.
  unfold own_pages. destruct (freelist_ p !! i) as [fl|] eqn:E; [|cbn; lia]. cbn.
  unfold free_pages in Hl. rewrite <- (take_drop_middle _ _ _ E), fmap_app, concat_app in Hl. cbn in Hl.
  rewrite !length_app in Hl. lia.
Qed.

(** Borrowing adds one page to the list that asked. *)
Lemma own_borrow pages held p i p' a :
  pool_inv pages held p -> (i < total_fl_ p)%nat -> AllocateFromPeer p i = Ok (p', a) -> a <> NO_ADDR ->
  own_pages p' i = S (own_pages p i).
Proof.
  intros Hinv Hi E Ha. destruct (borrow_page pages held p i Hinv Hi) as (p1 & a1 & E1 & _ & Hcase).
  rewrite E in E1. injection E1 as <- <-. destruct Hcase as [[? _]|Hcase]; [done|].
  destruct Hcase as (peer & fl & cfl & l & Hp & Hne & Hfl & Hl & Hc & _ & _ & Hfls).
  unfold own_pages. rewrite Hfls, Hc, list_lookup_insert_eq; [done|].
  rewrite length_insert. by eapply lookup_lt_Some.
Qed.

Lemma list_of_queue pages held s cid qid :
  kv_inv exact pages held s -> (cid < num_clients (config s))%nat -> (qid < Z.to_nat (num_data_qps (rdma_cfg s)))%nat ->
  (cid * Z.to_nat (num_data_qps (rdma_cfg s)) + qid < total_fl_ (pool s))%nat.
Proof.
  intros [_ Hp [Ec Eq] _] Hc Hq. rewrite (pw_total _ (pi_wf _ _ _ Hp)), Ec, Eq.
  nia.
Qed.

(** What [n] evictions and any number of borrowings leave of a store. *)
Record shrunk (pages held : list Z) s s' (n : Z) : Prop := {
  sh_inv : kv_inv exact pages held s';
  sh_config : config s' = config s /\ rdma_cfg s' = rdma_cfg s;
  sh_keys k v : kv_lookup s' k = Some v -> kv_lookup s k = Some v;
  sh_evicted : exists evicted, stored s ≡ₚ evicted ++ stored s' /\ Z.of_nat (length evicted) = n;
}.

Lemma shrunk_refl pages held s : kv_inv exact pages held s -> shrunk pages held s s 0.
Proof. intros Hinv. split; [done|done|done|]. by exists []. Qed.

Lemma shrunk_trans pages held s1 s2 s3 n m :
  shrunk pages held s1 s2 n -> shrunk pages held s2 s3 m -> shrunk pages held s1 s3 (n + m).
Proof.
  intros [_ [E1 E2] K1 (l1 & P1 & L1)] [I [F1 F2] K2 (l2 & P2 & L2)].
  split; [done|split; congruence|eauto|]. exists (l1 ++ l2).
  rewrite length_app, P1, P2, app_assoc. split; [done|lia].
Qed.

Lemma shrunk_borrow pages held s i p' a :
  kv_inv exact pages held s -> (i < total_fl_ (pool s))%nat -> AllocateFromPeer (pool s) i = Ok (p', a) ->
  shrunk pages held s (set_pool s p') 0.
Proof. intros Hinv Hi E. split; [by eapply borrow_kv|done|done|]. by exists []. Qed.

Lemma shrunk_evict es rs fuel r pages held s cid qid res :
  kv_inv exact pages held s -> Evict es rs fuel r s cid qid = Some res ->
  exists s', res = Ok s' /\ shrunk pages held s s' 1 /\ grown (pool s) (pool s').
Proof.
  intros Hinv E. destruct (Evict_lemma _ _ _ _ _ _ _ _ _ _ Hinv E)
    as (s' & k & v & -> & Hinv' & Hk & Hlk & [Hst Hg] & E1 & E2 & _).
  exists s'. split; [done|]. split; [|done]. split; [done|done| |by exists [(k, v)]].
  intros k' v'. rewrite Hlk. by case_decide.
Qed.

(** A round ends, with a bounded number of evictions, or is stuck in an eviction. *)
Lemma evict_round_lemma es tries pages held cid qid fl_id thld_free cnt_max fuel :
  forall s cnt a,
  kv_inv exact pages held s -> (cid < num_clients (config s))%nat ->
  (qid < Z.to_nat (num_data_qps (rdma_cfg s)))%nat ->
  fl_id = (cid * Z.to_nat (num_data_qps (rdma_cfg s)) + qid)%nat ->
  (length pages - own_pages (pool s) fl_id + Z.to_nat (cnt_max + 1 - cnt) < fuel)%nat ->
  (exists s' n, evict_round es tries fuel s cid qid fl_id thld_free cnt_max cnt a = Some (Ok (s', n)) /\
     shrunk pages held s s' (n - cnt) /\ n <= Z.max cnt (Z.max (cnt + 1) (cnt_max + 1)) /\
     (MB thld_free <= MB (PercpuPool.GetFree (pool s') fl_id) \/ cnt_max < n)) \/
  (exists s' n i, shrunk pages held s s' n /\
     Evict (ee_envs (es i)) (ee_rands (es i)) tries (ee_free (es i)) s' cid qid = None).
Proof.
  induction fuel as [|fuel IH]; intros s cnt a Hinv Hc Hq Hid Hf; [lia|]. cbn [evict_round].
  assert (fl_id < total_fl_ (pool s))%nat as Hlt by (subst; by eapply list_of_queue).
  destruct (Z.ltb_spec (MB (PercpuPool.GetFree (pool s) fl_id)) (MB thld_free)) as [Hlow|Henough].
  2:{ left. exists s, cnt. rewrite Z.sub_diag. split; [done|]. split; [by apply shrunk_refl|]. split; [lia|by left]. }
  destruct (AllocateFromPeer_inv pages _ (pool s) fl_id (ki_pool _ _ _ Hinv) Hlt) as (p' & addr & E & _). rewrite E.
  pose proof (shrunk_borrow pages held s fl_id p' addr Hinv Hlt E) as Hs1.
  pose proof (sh_inv _ _ _ _ _ Hs1) as Hinv1. destruct (sh_config _ _ _ _ _ Hs1) as [Ec1 Er1].
  destruct (Z.eqb_spec addr NO_ADDR) as [Hnone|Hsome].
  - destruct (Evict _ _ tries _ (set_pool s p') cid qid) as [res|] eqn:Ee.
    2:{ right. exists (set_pool s p'), 0, a. by split. }
    destruct (shrunk_evict _ _ _ _ _ _ _ _ _ _ Hinv1 Ee) as (s2 & -> & Hs2 & Hg).
    pose proof (shrunk_trans _ _ _ _ _ _ _ Hs1 Hs2) as Hs. rewrite Z.add_0_l in Hs.
    destruct (Z.ltb_spec cnt_max (cnt + 1)).
    { left. exists s2, (cnt + 1). split; [done|]. replace (cnt + 1 - cnt) with 1 by lia. split; [done|]. split; [lia|by right]. }
    destruct (IH s2 (cnt + 1) (S a)) as [(s3 & n & -> & Hs3 & Hn & Hend)|(s3 & n & i & Hs3 & He)].
    + apply Hs2.
    + destruct (sh_config _ _ _ _ _ Hs) as [-> _]. done.
    + destruct (sh_config _ _ _ _ _ Hs) as [_ ->]. done.
    + destruct (sh_config _ _ _ _ _ Hs) as [_ ->]. done.
    + pose proof (own_grown _ _ fl_id Hg) as Ho. cbn [pool set_pool] in Ho.
      assert (own_pages (pool s) fl_id <= own_pages p' fl_id)%nat; [|lia].
      destruct (AllocateFromPeer_inv pages _ (pool s) fl_id (ki_pool _ _ _ Hinv) Hlt) as (p1 & a1 & E1 & Hres).
      rewrite E in E1. injection E1 as <- <-. destruct Hres as [[_ ->]|[? _]]; [done|congruence].
    + left. exists s3, n. split; [done|]. split; [|split; [lia|done]].
      replace (n - cnt) with (1 + (n - (cnt + 1))) by lia. by eapply shrunk_trans.
    + right. exists s3, (1 + n), i. split; [by eapply shrunk_trans|done].
  - pose proof (own_borrow _ _ _ _ _ _ (ki_pool _ _ _ Hinv) Hlt E Hsome) as Ho.
    destruct (Z.ltb_spec cnt_max cnt).
    { left. exists (set_pool s p'), cnt. rewrite Z.sub_diag. split; [done|]. split; [done|]. split; [lia|by right]. }
    destruct (IH (set_pool s p') cnt a) as [(s3 & n & -> & Hs3 & Hn & Hend)|(s3 & n & i & Hs3 & He)]; try done.
    + cbn [pool set_pool] in *. pose proof (own_bound _ _ _ fl_id (ki_pool _ _ _ Hinv1)) as Hb.
      cbn [pool set_pool] in Hb. lia.
    + left. exists s3, n. split; [done|]. split; [|split; [lia|done]].
      replace (n - cnt) with (0 + (n - cnt)) by lia. by eapply shrunk_trans.
    + right. exists s3, (0 + n), i. split; [by eapply shrunk_trans|done].
Qed.
End kv_evictor.

(** ** Properties *)

Section kv_theorems.
Context {T : Type} `{IT : IHash T} {exact : bool}.
Implicit Types (s : KV T) (key value : Z) (cid qid : nat).

(** C1: Conservation: in every state a daemon reaches from its start, each page of the pool is
    in exactly one place, a free list, a table, or the hands of a caller. Keys stored sit in the
    shard their hash selects, and no page is lost or duplicated by insertions that evict, update or
    are refused, by removals, by background evictions or by borrowing between clients. *)
Theorem kv_pages_conserved (new_table : Z -> T) cfg rc ptr num_hash num_bits u s0 s held :
  pool_config_ok cfg rc ptr -> ht_type cfg = HT_LP_APPROX -> (0 < num_ht_shards cfg)%nat ->
  0 < num_bits < 2 ^ 32 ->
  ih_wf (new_table (table_capacity (mem_pool_size cfg))) ->
  ih_map (new_table (table_capacity (mem_pool_size cfg))) = ∅ ->
  mkKV new_table cfg rc ptr num_hash num_bits u = Ok s0 -> kv_reachable (fun _ _ => True) s0 s held ->
  free_pages (pool s) ++ table_pages s ++ held ≡ₚ init_pages cfg rc ptr /\
  NoDup (free_pages (pool s) ++ table_pages s ++ held) /\
  (forall i t k v, hashes s !! i = Some t -> ih_map t !! k = Some v -> get_ht_shard_id s k = i).
Proof.
  intros H1 H2 H3 H4 H5 H6 E Hr.
  destruct (mkKV_inv (exact := false) new_table cfg rc ptr num_hash num_bits u H1 H2 H3 H4 H5 H6) as (s1 & E1 & Hinv & _).
  rewrite E in E1. injection E1 as <-.
  pose proof (kv_reachable_inv (exact := false) _ _ _ _ _ (fun _ _ _ (H : false = true) => match diff_false_true H with end) Hinv Hr) as [Htk Hp _ _].
  pose proof (pi_pages _ _ _ Hp) as P. split; [done|]. split; [rewrite P; apply slots_nodup|].
  intros i t k v Ht Hk. by destruct (tk_home s Htk i t k v Ht Hk).
Qed.

(** C4: No false negatives while no counter overflows: in every state reached by insertions that found
    room in their client's filter ([room_for]: none of the key's counters passes 255; an update counts as a further
    insertion), a key the store can return is reported as possibly present by its client's counting filter, and by
    the ordinary filter derived from it that the daemon ships to the client. *)
Theorem kv_no_false_negative (new_table : Z -> T) cfg rc ptr num_hash num_bits u s0 s held key value :
  pool_config_ok cfg rc ptr -> ht_type cfg = HT_LP_APPROX -> (0 < num_ht_shards cfg)%nat ->
  0 < num_bits < 2 ^ 32 ->
  ih_wf (new_table (table_capacity (mem_pool_size cfg))) ->
  ih_map (new_table (table_capacity (mem_pool_size cfg))) = ∅ ->
  mkKV new_table cfg rc ptr num_hash num_bits u = Ok s0 -> kv_reachable room_for s0 s held ->
  kv_lookup s key = Some value -> cbf_on (config s) = true ->
  exists c, GetCBF s (key_cid key) = Ok c /\ MightContain c key = true /\
    BFMightContain (ToOrdinaryBF c) key = true.
Proof.
  intros H1 H2 H3 H4 H5 H6 E Hr Hk Hon.
  destruct (mkKV_inv (exact := true) new_table cfg rc ptr num_hash num_bits u H1 H2 H3 H4 H5 H6) as (s1 & E1 & Hinv & _).
  rewrite E in E1. injection E1 as <-. pose proof (kv_reachable_inv (exact := true) _ _ _ _ _ (fun _ _ H _ => H) Hinv Hr) as Hinv'.
  destruct (kv_inv_filter _ _ _ _ _ Hinv' Hk Hon) as (c & Hc & Hcov & Hin). exists c. split; [done|].
  specialize (Hcov eq_refl). pose proof (covers_mem _ _ _ Hcov Hin) as Hm. split; [done|].
  rewrite ToOrdinaryBF_query; [done|apply Hcov].
Qed.

(** C17: [Insert] returns after at most two attempts and consumes the caller's page: either the
    key maps to the new page, at the expense of at most one other key, or the insertion is
    refused and the key is absent; a page displaced or refused is back on a free list (the pages held
    no longer include [value], and the invariant accounts for every page). *)
Theorem kv_Insert_spec es rs fuel pages held s key value qid :
  kv_inv exact pages (value :: held) s -> valid_key key -> value <> NONE ->
  (key_cid key < num_clients (config s))%nat -> (exact = true -> room_for s key) -> (2 <= fuel)%nat ->
  exists s', Insert es rs fuel s key value (key_cid key) qid = Some (Ok s') /\ kv_inv exact pages held s' /\
    ((exists evicted, (forall ek, evicted = Some ek -> ek <> key /\ is_Some (kv_lookup s ek)) /\
        forall k, kv_lookup s' k = if decide (k = key) then Some value
                                   else if decide (evicted = Some k) then None else kv_lookup s k) \/
     (forall k, kv_lookup s' k = if decide (k = key) then None else kv_lookup s k)).
Proof.
  intros H1 H2 H3 H4 H5 H6. destruct (Insert_lemma (exact := exact) es rs fuel pages held s key value qid) as (s' & E & Hpost); try done.
  exists s'. split; [done|]. destruct Hpost as [ev Hinv Hev Hlk|Hinv Hlk]; (split; [done|]); [left; by exists ev|by right].
Qed.

(** [Remove] hands the page of the key to the caller and forgets the key, or returns the null
    page when the key is absent; no other key is affected. *)
Theorem kv_Remove_spec pages held s key qid :
  kv_inv exact pages held s -> valid_key key ->
  exists s', Remove s key (key_cid key) qid = Ok (s', default NONE (kv_lookup s key)) /\
    kv_inv exact pages (option_list (kv_lookup s key) ++ held) s' /\
    (forall k, kv_lookup s' k = if decide (k = key) then None else kv_lookup s k).
Proof. intros H1 H2. destruct (Remove_lemma pages held s key qid H1 H2) as (s' & ? & ? & ? & _). by exists s'. Qed.

(** Lookups: [Get] and [GetWithFlag] (pinning) return the page of the key, [GetWithFlag]
    (unpinning) returns the null page; none of them changes what any key maps to. *)
Theorem kv_Get_spec e pages held s key cid qid busy :
  kv_inv exact pages held s -> valid_key key ->
  (exists s', Get e s key cid qid = Ok (s', default NONE (kv_lookup s key)) /\
     kv_inv exact pages held s' /\ (forall k, kv_lookup s' k = kv_lookup s k)) /\
  (exists s', GetWithFlag e s key cid qid busy = Ok (s', if busy then default NONE (kv_lookup s key) else NONE) /\
     kv_inv exact pages held s' /\ (forall k, kv_lookup s' k = kv_lookup s k)).
Proof.
  intros H1 H2. split; [by apply Get_lemma|].
  destruct (GetWithFlag_lemma e pages held s key cid qid busy H1 H2) as (s' & ? & ? & ? & _). by exists s'.
Qed.

(** A background eviction that finds a victim removes exactly one stored pair from the store
    and gives its page back to the pool. *)
Theorem kv_Evict_spec es rs fuel r pages held s cid qid res :
  kv_inv exact pages held s -> Evict es rs fuel r s cid qid = Some res ->
  exists s' key value, res = Ok s' /\ kv_inv exact pages held s' /\ kv_lookup s key = Some value /\
    stored s ≡ₚ (key, value) :: stored s' /\
    (forall k, kv_lookup s' k = if decide (k = key) then None else kv_lookup s k).
Proof.
  intros H1 E. destruct (Evict_lemma _ _ _ _ _ _ _ _ _ _ H1 E) as (s' & k & v & ? & ? & ? & ? & [? _] & _).
  by exists s', k, v.
Qed.

(** C18: A round of the evictor thread ends. Unless one of its evictions never finds a victim, a
    round returns after at most [thld_evict_cnt + 1] evictions (one, when the threshold is not positive);
    it leaves either enough free memory on its list or has used up its evictions; it removes exactly
    as many pairs as it reports, and changes no surviving key. *)
Theorem Evictor_round es tries fuel pages held s cid qid :
  kv_inv exact pages held s -> (cid < num_clients (config s))%nat ->
  (qid < Z.to_nat (num_data_qps (rdma_cfg s)))%nat ->
  let fl_id := (cid * Z.to_nat (num_data_qps (rdma_cfg s)) + qid)%nat in
  let thld_free := GetThldFree (pool s) fl_id in
  let thld_evict_cnt := to_int (thld_free / 4096) in
  (length pages + Z.to_nat (thld_evict_cnt + 1) < fuel)%nat ->
  (exists s' n evicted, Evictor es tries fuel s cid qid = Some (Ok (s', n)) /\ kv_inv exact pages held s' /\
     n <= Z.max 1 (thld_evict_cnt + 1) /\
     (MB thld_free <= MB (PercpuPool.GetFree (pool s') fl_id) \/ thld_evict_cnt < n) /\
     stored s ≡ₚ evicted ++ stored s' /\ Z.of_nat (length evicted) = n /\
     (forall k v, kv_lookup s' k = Some v -> kv_lookup s k = Some v)) \/
  (exists s' i, kv_inv exact pages held s' /\
     Evict (ee_envs (es i)) (ee_rands (es i)) tries (ee_free (es i)) s' cid qid = None).
Proof.
  intros Hinv Hc Hq fl_id thld cmax Hf.
  destruct (evict_round_lemma es tries pages held cid qid fl_id thld cmax fuel s 0 0 Hinv Hc Hq eq_refl)
    as [(s' & n & E & Hs & Hn & Hend)|(s' & n & i & Hs & He)].
  - rewrite Z.sub_0_r. lia.
  - left. destruct Hs as [Hi _ Hk (l & Hl & Hlen)]. rewrite Z.sub_0_r in Hlen.
    exists s', n, l. split; [exact E|]. split; [done|]. split; [lia|]. done.
  - right. exists s', i. split; [apply Hs|done].
Qed.
End kv_theorems.

(** ** Witnesses: two clients, pages and one key of client 1 *)

Definition demo_table (cap : Z) : lpa := LinearProbingApprox (Z.to_nat cap).
Definition demo_start : KV lpa :=
  match mkKV demo_table demo_config demo_rdma 4096 4 97 (fun _ => replicate 16 0) with
  | Ok s => s
  | Throw _ => MkKV demo_config demo_rdma [] [] demo_pool 0 (fun _ => [])
  end.
Definition demo_pages : list Z := init_pages demo_config demo_rdma 4096.
Definition demo_key : Z := make_longkey 1 7 3.
Definition demo_env : env := Env 10 (fun _ => true).

Definition demo_alloc_kv : KV lpa :=
  match kv_Allocate demo_start 1 (Some 3%nat) 0 with Ok (s, _) => s | Throw _ => demo_start end.
Definition demo_addr : Z :=
  match kv_Allocate demo_start 1 (Some 3%nat) 0 with Ok (_, a) => a | Throw _ => 0 end.
Definition demo_stored : KV lpa :=
  match Insert (fun _ => demo_env) (fun _ => 5) 2 demo_alloc_kv demo_key demo_addr 1 3 with
  | Some (Ok s) => s
  | _ => demo_start
  end.

Lemma demo_key_valid : valid_key demo_key.
Proof. unfold valid_key, u_ok. vm_compute. split; [split; congruence|split; congruence]. Qed.

Lemma demo_start_eq : mkKV demo_table demo_config demo_rdma 4096 4 97 (fun _ => replicate 16 0) = Ok demo_start.
Proof. vm_compute. reflexivity. Qed.

Lemma demo_alloc_eq : kv_Allocate demo_start 1 (Some 3%nat) 0 = Ok (demo_alloc_kv, demo_addr).
Proof. vm_compute. reflexivity. Qed.

Lemma demo_insert_eq :
  Insert (fun _ => demo_env) (fun _ => 5) 2 demo_alloc_kv demo_key demo_addr 1 3 = Some (Ok demo_stored).
Proof. vm_compute. reflexivity. Qed.

Lemma demo_table_wf : ih_wf (demo_table (table_capacity (mem_pool_size demo_config))).
Proof. apply new_wf. vm_compute. lia. Qed.

Lemma demo_table_empty : ih_map (demo_table (table_capacity (mem_pool_size demo_config))) = ∅.
Proof. apply new_contents. Qed.

Lemma demo_start_inv : kv_inv true demo_pages [] demo_start.
Proof.
  destruct (mkKV_inv (exact := true) demo_table demo_config demo_rdma 4096 4 97 (fun _ => replicate 16 0) demo_ok eq_refl
    ltac:(vm_compute; lia) ltac:(lia) demo_table_wf demo_table_empty) as (s & E & Hinv & _).
  rewrite demo_start_eq in E. injection E as <-. exact Hinv.
Qed.

Lemma demo_room : room_for demo_alloc_kv demo_key.
Proof.
  intros _ c Hc. assert (cbfs demo_alloc_kv !! key_cid demo_key = Some (CountingBloomFilter 4 97)) as E by (vm_compute; reflexivity).
  rewrite E in Hc. injection Hc as <-. intros i Hi. change (num_hash_ (CountingBloomFilter 4 97)) with 4%nat in Hi.
  do 4 (destruct i as [|i]; [vm_compute; congruence|]). lia.
Qed.

Lemma demo_reach_alloc guard : kv_reachable guard demo_start demo_alloc_kv [demo_addr].
Proof.
  apply (ReachStep guard demo_start demo_start [] demo_alloc_kv [demo_addr]); [constructor|].
  change [demo_addr] with (if decide (demo_addr = NO_ADDR) then [] else [demo_addr]).
  apply (StepAllocate guard demo_start [] 1 (Some 3%nat) 0); [vm_compute; lia| |apply demo_alloc_eq].
  intros q [= <-]. vm_compute. lia.
Qed.

Lemma demo_reach_stored (guard : KV lpa -> Z -> Prop) : guard demo_alloc_kv demo_key -> kv_reachable guard demo_start demo_stored [].
Proof.
  intros Hg. apply (ReachStep guard demo_start demo_alloc_kv [demo_addr] demo_stored []); [apply demo_reach_alloc|].
  apply (StepInsert guard demo_alloc_kv [demo_addr] (fun _ => demo_env) (fun _ => 5) 2 demo_key demo_addr [] 3).
  - done.
  - apply demo_key_valid.
  - vm_compute. congruence.
  - vm_compute. lia.
  - exact Hg.
  - lia.
  - apply demo_insert_eq.
Qed.

Lemma demo_alloc_inv : kv_inv true demo_pages [demo_addr] demo_alloc_kv.
Proof. eapply (kv_reachable_inv room_for); [by intros s k H _|apply demo_start_inv|apply demo_reach_alloc]. Qed.
Lemma demo_stored_inv : kv_inv true demo_pages [] demo_stored.
Proof. eapply (kv_reachable_inv room_for); [by intros s k H _|apply demo_start_inv|apply demo_reach_stored, demo_room]. Qed.

Example demo_lookup : kv_lookup demo_stored demo_key = Some demo_addr.
Proof. vm_compute. reflexivity. Qed.

Lemma kv_pages_conserved_witness :
  free_pages (pool demo_stored) ++ table_pages demo_stored ++ [] ≡ₚ demo_pages /\
  NoDup (free_pages (pool demo_stored) ++ table_pages demo_stored ++ []) /\
  (forall i t k v, hashes demo_stored !! i = Some t -> ih_map t !! k = Some v -> get_ht_shard_id demo_stored k = i).
Proof.
  apply (kv_pages_conserved demo_table demo_config demo_rdma 4096 4 97 (fun _ => replicate 16 0) demo_start).
  - apply demo_ok.
  - reflexivity.
  - vm_compute. lia.
  - lia.
  - apply demo_table_wf.
  - apply demo_table_empty.
  - apply demo_start_eq.
  - by apply demo_reach_stored.
Defined.

Lemma kv_no_false_negative_witness :
  exists c, GetCBF demo_stored (key_cid demo_key) = Ok c /\ MightContain c demo_key = true /\
    BFMightContain (ToOrdinaryBF c) demo_key = true.
Proof.
  apply (kv_no_false_negative demo_table demo_config demo_rdma 4096 4 97 (fun _ => replicate 16 0) demo_start
           demo_stored [] demo_key demo_addr).
  - apply demo_ok.
  - reflexivity.
  - vm_compute. lia.
  - lia.
  - apply demo_table_wf.
  - apply demo_table_empty.
  - apply demo_start_eq.
  - apply demo_reach_stored, demo_room.
  - apply demo_lookup.
  - vm_compute. reflexivity.
Defined.

Lemma kv_Insert_spec_witness :
  exists s', Insert (fun _ => demo_env) (fun _ => 5) 2 demo_alloc_kv demo_key demo_addr (key_cid demo_key) 3 = Some (Ok s') /\
    kv_inv true demo_pages [] s' /\
    ((exists evicted, (forall ek, evicted = Some ek -> ek <> demo_key /\ is_Some (kv_lookup demo_alloc_kv ek)) /\
        forall k, kv_lookup s' k = if decide (k = demo_key) then Some demo_addr
                                   else if decide (evicted = Some k) then None else kv_lookup demo_alloc_kv k) \/
     (forall k, kv_lookup s' k = if decide (k = demo_key) then None else kv_lookup demo_alloc_kv k)).
Proof.
  apply (kv_Insert_spec (fun _ => demo_env) (fun _ => 5) 2 demo_pages [] demo_alloc_kv demo_key demo_addr 3).
  - apply demo_alloc_inv.
  - apply demo_key_valid.
  - vm_compute. congruence.
  - vm_compute. lia.
  - intros _. apply demo_room.
  - lia.
Defined.

Lemma kv_Remove_spec_witness :
  exists s', Remove demo_stored demo_key (key_cid demo_key) 3 = Ok (s', default NONE (kv_lookup demo_stored demo_key)) /\
    kv_inv true demo_pages (option_list (kv_lookup demo_stored demo_key) ++ []) s' /\
    (forall k, kv_lookup s' k = if decide (k = demo_key) then None else kv_lookup demo_stored k).
Proof. apply (kv_Remove_spec demo_pages [] demo_stored demo_key 3); [apply demo_stored_inv|apply demo_key_valid]. Defined.

Lemma kv_Get_spec_witness :
  (exists s', Get demo_env demo_stored demo_key 1 3 = Ok (s', default NONE (kv_lookup demo_stored demo_key)) /\
     kv_inv true demo_pages [] s' /\ (forall k, kv_lookup s' k = kv_lookup demo_stored k)) /\
  (exists s', GetWithFlag demo_env demo_stored demo_key 1 3 true =
       Ok (s', if true then default NONE (kv_lookup demo_stored demo_key) else NONE) /\
     kv_inv true demo_pages [] s' /\ (forall k, kv_lookup s' k = kv_lookup demo_stored k)).
Proof.
  apply (kv_Get_spec demo_env demo_pages [] demo_stored demo_key 1 3 true); [apply demo_stored_inv|apply demo_key_valid].
Defined.

Definition demo_evicted : option (outcome (KV lpa)) := Evict (fun _ => demo_env) Z.of_nat 60 5 demo_stored 0 0.

Lemma demo_evicted_eq : demo_evicted = Some (default (Throw "retrying") demo_evicted).
Proof.
  assert (bool_decide (is_Some demo_evicted) = true) as H by (vm_compute; reflexivity).
  apply bool_decide_eq_true in H as [x Hx]. by rewrite Hx.
Qed.

Lemma kv_Evict_spec_witness :
  exists s' key value, default (Throw "retrying") demo_evicted = Ok s' /\ kv_inv true demo_pages [] s' /\
    kv_lookup demo_stored key = Some value /\ stored demo_stored ≡ₚ (key, value) :: stored s' /\
    (forall k, kv_lookup s' k = if decide (k = key) then None else kv_lookup demo_stored k).
Proof.
  apply (kv_Evict_spec (fun _ => demo_env) Z.of_nat 60 5 demo_pages [] demo_stored 0 0); [apply demo_stored_inv|].
  apply demo_evicted_eq.
Defined.

Lemma Evictor_round_witness :
  (exists s' n evicted,
     Evictor (fun _ => EvictEnv (fun _ => demo_env) Z.of_nat 5) 60 100 demo_stored 1 3 = Some (Ok (s', n)) /\
     kv_inv true demo_pages [] s' /\ n <= Z.max 1 (to_int (GetThldFree (pool demo_stored) 11 / 4096) + 1) /\
     (MB (GetThldFree (pool demo_stored) 11) <= MB (PercpuPool.GetFree (pool s') 11) \/
      to_int (GetThldFree (pool demo_stored) 11 / 4096) < n) /\
     stored demo_stored ≡ₚ evicted ++ stored s' /\ Z.of_nat (length evicted) = n /\
     (forall k v, kv_lookup s' k = Some v -> kv_lookup demo_stored k = Some v)) \/
  (exists s' (i : nat), kv_inv true demo_pages [] s' /\
     Evict (fun _ => demo_env) Z.of_nat 60 5 s' 1 3 = None).
Proof.
  apply (Evictor_round (fun _ => EvictEnv (fun _ => demo_env) Z.of_nat 5) 60 100 demo_pages [] demo_stored 1 3).
  - apply demo_stored_inv.
  - vm_compute. lia.
  - vm_compute. lia.
  - vm_compute. lia.
Defined.
