(* ===== verification/Server.v ===== *)
(** * Server: the daemon's request handlers

    [daemon/rdma.cpp]: posted receives, the handlers of put, get and invalidation
    requests, the dispatch of completions, and the order in which the global
    poller visits the clients. The network card is modelled by what the code
    relies on: a SEND or a write with immediate consumes the receive at the front
    of the queue, a SEND is written into the buffer of that receive, and the page of
    a posted reply is read from its slot when the card gets to it, not when the
    reply is posted ([card_read]; the reads of a page in pieces are steps of
    ServerProps). *)
From S2P Require Import Prelude Keys Wire Crc HashFuncs Ihash CountingBloom Config PercpuPool Kv KvProps.

Section server.
Context {T : Type} `{IT : IHash T}.

(** ** State *)

(** [struct slot] of the data pool: a page followed by its key. *)
Record slot := Slot { s_data : list Z; s_key : Z }.

(** [recvs]: the receives posted on each queue of each client, by [wr_id]: 0 for
    a receive without buffer, else the address of a page slot. [meta]: the 64-bit
    words of the metadata regions, whose base addresses are [meta_base]. *)
Record server := Server {
  store : KV T;
  slots : gmap Z slot;
  meta : gmap Z Z;
  meta_base : nat -> Z;
  recvs : gmap (nat * nat) (list Z);
}.

Definition set_store (sv : server) (s : KV T) : server :=
  Server s (slots sv) (meta sv) (meta_base sv) (recvs sv).
Definition set_slot (sv : server) (a : Z) (x : slot) : server :=
  Server (store sv) (<[a := x]> (slots sv)) (meta sv) (meta_base sv) (recvs sv).
Definition set_meta (sv : server) (m : gmap Z Z) : server :=
  Server (store sv) (slots sv) m (meta_base sv) (recvs sv).
Definition set_recvs (sv : server) (cid qid : nat) (l : list Z) : server :=
  Server (store sv) (slots sv) (meta sv) (meta_base sv) (<[(cid, qid) := l]> (recvs sv)).

Definition posted (sv : server) (cid qid : nat) : list Z := default [] (recvs sv !! (cid, qid)).
Definition slot_at (sv : server) (a : Z) : slot := default (Slot [] 0) (slots sv !! a).
Definition load64 (sv : server) (a : Z) : Z := default 0 (meta sv !! a).

(** A message of the daemon: the immediate word (network order), the address it is
    written to, and the page or filter it carries. *)
Inductive payload := NoPayload | PagePayload (d : list Z) | FilterPayload (words : list Z).
Record reply := Reply { r_imm : Z; r_data : payload; r_raddr : Z }.

(** A work request of [send_reply]: the immediate word, the address of the slot whose
    page goes out, if any, and the remote address. *)
Record send_wr := SendWr { w_imm : Z; w_addr : option Z; w_raddr : Z }.
Definition send_reply (imm value raddr : Z) : send_wr :=
  SendWr imm (if value =? NONE then None else Some value) raddr.

(** The card reading a whole page at once. *)
Definition card_read (sv : server) (wr : send_wr) : reply :=
  Reply (w_imm wr) (match w_addr wr with Some a => PagePayload (s_data (slot_at sv a)) | None => NoPayload end)
    (w_raddr wr).

(** ** Posting receives *)

(** [ibv_post_recv] refuses a receive when [max_recv_wr] are outstanding; the
    return value of [post_recv] is ignored by every caller. *)
Definition post_recv (sv : server) (cid qid : nat) (addr : Z) : server :=
  let l := posted sv cid qid in
  if Z.of_nat (length l) <? QP_MAX_RECV_WR then set_recvs sv cid qid (l ++ [addr]) else sv.

(** [for (i < MAX_QPS_RECVS) post_recv(q, qid < num_data_qps ? kv->Allocate(cid, qid) : NULL)];
    the [n]-th allocation of the loop draws [rs n]. *)
Fixpoint pre_post (rs : nat -> Z) (n : nat) (sv : server) (cid qid : nat) : outcome server :=
  match n with
  | O => Ok sv
  | S n =>
      if Z.of_nat qid <? num_data_qps (rdma_cfg (store sv)) then
        '(s, a) ← kv_Allocate (store sv) cid (Some qid) (rs n);
        pre_post rs n (post_recv (set_store sv s) cid qid a) cid qid
      else pre_post rs n (post_recv sv cid qid 0) cid qid
  end.
Definition pre_post_recvs (rs : nat -> Z) (sv : server) (cid qid : nat) : outcome server :=
  pre_post rs (Z.to_nat MAX_QPS_RECVS) sv cid qid.

(** ** Handlers *)

(** What a put draws from its surroundings: the table's environments, the pool's
    random numbers and the CPU usage in percent. *)
Record put_env := PutEnv { pe_envs : nat -> env; pe_rands : nat -> Z; pe_alloc : Z; pe_cpu : Z }.

(** The reply of a put: one per round of [num_msgs] messages. *)
Definition put_replies (sv : server) (e : put_env) (mid : Z) : list reply :=
  if mid =? num_msgs (rdma_cfg (store sv)) - 1 then
    let etc := if 50 <? pe_cpu e then 1 else 0 in
    [Reply (htonl (bit_mask mid MSG_WRITE_REPLY TX_WRITE_COMMITTED etc 0)) NoPayload 0]
  else [].

Definition process_put (e : put_env) (fuel : nat) (sv : server) (cid qid : nat) (mid recv_addr : Z)
  : option (outcome (server * list reply)) :=
  let key := s_key (slot_at sv recv_addr) in
  match kv_Allocate (store sv) cid None (pe_alloc e) with
  | Throw m => Some (Throw m)
  | Ok (s, value) =>
      let sv := set_store sv s in
      if value =? INVALID then
        let sv := post_recv sv cid qid recv_addr in Some (Ok (sv, put_replies sv e mid))
      else
        let sv := post_recv sv cid qid value in
        match Insert (pe_envs e) (pe_rands e) fuel (store sv) key recv_addr cid qid with
        | None => None
        | Some (Throw m) => Some (Throw m)
        | Some (Ok s) => let sv := set_store sv s in Some (Ok (sv, put_replies sv e mid))
        end
  end.

(** A get, up to [poll_send_cq]: the lookup, the checksum of the page as it is now,
    and the work request posted. [crc_on] is [DCC_CRC_CHECK]. *)
Definition process_get_begin (crc_on : bool) (e : env) (sv : server) (cid qid : nat) (mid : Z)
  : outcome (server * send_wr * Z * Z) :=
  let c := rdma_cfg (store sv) in
  let key := load64 sv (KEY_META_REGION c (meta_base sv cid) (Z.of_nat qid) mid MSG_READ) in
  let raddr := load64 sv (ADDR_META_REGION c (meta_base sv cid) (Z.of_nat qid) mid) in
  '(s, value) ← (if exclusive_policy (config (store sv)) then Remove (store sv) key cid qid
                 else GetWithFlag e (store sv) key cid qid true);
  let sv := set_store sv s in
  let imm :=
    htonl (bit_mask mid MSG_READ_REPLY (if negb (value =? NONE) then TX_READ_COMMITTED else TX_READ_ABORTED)
             0 (if negb (value =? NONE) then CRC8 crc_on (s_data (slot_at sv value)) else 0)) in
  Ok (sv, send_reply imm value raddr, key, value).

(** The rest of a get, once the page has been sent. *)
Definition process_get_end (e : env) (r : Z) (sv : server) (cid qid : nat) (key value : Z) : outcome server :=
  if negb (value =? NONE) then
    if exclusive_policy (config (store sv)) then
      s ← kv_Free (store sv) value cid None r; Ok (set_store sv s)
    else '(s, _) ← GetWithFlag e (store sv) key cid qid false; Ok (set_store sv s)
  else Ok sv.

(** The whole handler, when no other thread of the daemon runs meanwhile. *)
Definition process_get (crc_on : bool) (e : env) (r : Z) (sv : server) (cid qid : nat) (mid : Z)
  : outcome (server * reply) :=
  '(sv, wr, key, value) ← process_get_begin crc_on e sv cid qid mid;
  let rep := card_read sv wr in
  sv ← process_get_end e r sv cid qid key value;
  Ok (sv, rep).

Definition process_invalidate_page (r : Z) (sv : server) (cid qid : nat) (mid : Z)
  : outcome (server * list reply) :=
  let c := rdma_cfg (store sv) in
  let key := load64 sv (KEY_META_REGION c (meta_base sv cid) (Z.of_nat qid) mid MSG_INV_PAGE) in
  '(s, value) ← Remove (store sv) key cid qid;
  s ← (if negb (value =? NONE) then kv_Free s value cid None r else Ok s);
  Ok (set_store sv s,
      if mid =? num_msgs c - 1 then
        [Reply (htonl (bit_mask mid MSG_INV_PAGE_REPLY
                         (if negb (value =? NONE) then TX_INV_PAGE_COMMITED else TX_INV_PAGE_ABORTED) 0 0)) NoPayload 0]
      else []).

(** [send_bf]: the words of the client's ordinary filter, written to the base of
    its region ([client_base], learned when the client connected). *)
Definition send_bf (client_base : Z) (c : cbf) : reply :=
  Reply FILTER_UPDATE_END (FilterPayload (bf_long_bitarr_ c)) client_base.

(** ** Completions *)

(** The receive at the front of the queue; [None] when there is none, and the
    sender waits. *)
Definition take_recv (sv : server) (cid qid : nat) : option (server * Z) :=
  match posted sv cid qid with
  | [] => None
  | a :: l => Some (set_recvs sv cid qid l, a)
  end.

(** A page and its key arriving in the buffer [a]: a receive without buffer or
    with the address of a failed allocation completes with an error, which
    [__poll_cq] asserts against. *)
Definition recv_page (sv : server) (a : Z) (d : list Z) (key : Z) : outcome server :=
  if (a =? 0) || (a =? NO_ADDR) then Throw "wc.status" else Ok (set_slot sv a (Slot d key)).

Definition process_imm (crc_on : bool) (e : env) (r : Z) (sv : server) (cid qid : nat) (imm_data : Z)
  : outcome (server * list reply) :=
  let u := bit_unmask (ntohl imm_data) in
  if i_msg u =? MSG_WRITE then Throw "assert(0)"
  else if i_msg u =? MSG_READ then
    '(sv, rep) ← process_get crc_on e r (post_recv sv cid qid 0) cid qid (i_mid u); Ok (sv, [rep])
  else if i_msg u =? MSG_INV_PAGE then process_invalidate_page r (post_recv sv cid qid 0) cid qid (i_mid u)
  else Ok (sv, []).

Definition process_recv (e : put_env) (fuel : nat) (client_base : nat -> Z) (sv : server) (cid qid : nat)
    (wr_id imm_data : Z) : option (outcome (server * list reply)) :=
  if (Z.of_nat qid =? num_data_qps (rdma_cfg (store sv))) && (imm_data =? FILTER_UPDATE_BEGIN) then
    Some (c ← GetCBF (store sv) cid;
          let c := ToOrdinaryBF c in
          let sv := set_store sv (set_cbf (store sv) cid c) in
          Ok (post_recv sv cid qid 0, [send_bf (client_base cid) c]))
  else if wr_id =? 0 then Some (Ok (sv, []))
  else process_put e fuel sv cid qid (i_mid (bit_unmask (ntohl imm_data))) wr_id.

(** [GLOBAL_QP_POLLER]: starting at [idx], poll the clients in turn; [None]: no
    client had a completion in [fuel] polls. *)
Fixpoint global_poll (ready : nat -> bool) (client_ctr fuel idx : nat) : option (nat * nat) :=
  match fuel with
  | O => None
  | S fuel =>
      let next := (S idx mod client_ctr)%nat in
      if ready idx then Some (idx, next) else global_poll ready client_ctr fuel next
  end.
End server.
Arguments server : clear implicits.
