(* ===== verification/ServerProps.v ===== *)
(** * ServerProps: what the daemon guarantees to its clients

    Reachable states of the daemon as its pollers, its evictors and the network
    card interleave: where each page is, what a get returns, and what the handlers
    answer. *)
From S2P Require Import Prelude Keys Wire Crc HashFuncs Ihash CountingBloom Config PercpuPool Kv KvProps Server.

Section server_props.
Context {T : Type} `{IT : IHash T}.
Implicit Types (sv : server T) (s : KV T) (key value a : Z) (cid qid : nat).

(** ** States of the daemon and its history

    A get whose reply has been posted: the work request, the page as it was when it
    was posted ([f_data], a ghost), what the card has read of it, and whether
    [poll_send_cq] has seen the completion. Besides, the pages consumed by messages
    that carry no page, and the data of the last put accepted for each key. *)
Record flight := Flight {
  f_cid : nat; f_qid : nat; f_key : Z; f_value : Z; f_wr : send_wr; f_data : list Z; f_buf : list Z; f_sent : bool }.

(** The card reads [n] further bytes of the page, from the slot as it is now; it is
    done when no byte is left. *)
Definition read_more sv (n : nat) (f : flight) : flight :=
  Flight (f_cid f) (f_qid f) (f_key f) (f_value f) (f_wr f) (f_data f)
    (f_buf f ++ take n (drop (length (f_buf f)) (s_data (slot_at sv (f_value f))))) (f_sent f).
Definition all_read sv (f : flight) : Prop := drop (length (f_buf f)) (s_data (slot_at sv (f_value f))) = [].
Definition mark_sent (f : flight) : flight :=
  Flight (f_cid f) (f_qid f) (f_key f) (f_value f) (f_wr f) (f_data f) (f_buf f) true.
(** What the client receives. *)
Definition sent_reply (f : flight) : reply := Reply (w_imm (f_wr f)) (PagePayload (f_buf f)) (w_raddr (f_wr f)).
Definition new_flight sv cid qid key value (wr : send_wr) : flight :=
  Flight cid qid key value wr (s_data (slot_at sv value)) [] false.

Record sys := Sys { sys_sv : server T; flights : list flight; lost : list Z; last : gmap Z (list Z) }.
Implicit Types st : sys.

Definition is_slot a : bool := negb (a =? 0) && negb (a =? NO_ADDR).
Definition slots_in (l : list Z) : list Z := filter (fun a => is_slot a = true) l.

(** The page slots in the receive queues. *)
Definition posted_pages sv : list Z := slots_in (concat (map_to_list (recvs sv)).*2).
(** With the exclusive policy the pages being sent belong to their handlers; with
    the inclusive one they stay in the table. *)
Definition flying st : list Z :=
  if exclusive_policy (config (store (sys_sv st))) then f_value <$> flights st else [].
Definition held st : list Z := posted_pages (sys_sv st) ++ flying st ++ lost st.

(** A put is accepted when the pool has a page to replace the one received. *)
Definition accepted sv cid (e : put_env) : bool :=
  match kv_Allocate (store sv) cid None (pe_alloc e) with Ok (_, v) => negb (v =? INVALID) | Throw _ => false end.

Definition data_queue sv cid qid : Prop :=
  (cid < num_clients (config (store sv)))%nat /\ (qid < Z.to_nat (num_data_qps (rdma_cfg (store sv))))%nat.

(** The keys a client sends: longkeys with its own number. *)
Definition client_key cid key : Prop := valid_key key /\ key_cid key = cid.

(** The state once the reply of a get has been posted. *)
Definition after_get st sv2 a cid qid key value (wr : send_wr) : sys :=
  Sys sv2 (if decide (value = NONE) then flights st else new_flight sv2 cid qid key value wr :: flights st)
    (slots_in [a] ++ lost st) (last st).

Inductive srv_step st : list reply -> sys -> Prop :=
| SPut cid qid imm d key e fuel cb sv1 a sv2 sv3 reps :
    data_queue (sys_sv st) cid qid -> client_key cid key -> (2 <= fuel)%nat ->
    take_recv (sys_sv st) cid qid = Some (sv1, a) -> recv_page sv1 a d key = Ok sv2 ->
    process_recv e fuel cb sv2 cid qid a imm = Some (Ok (sv3, reps)) ->
    srv_step st reps
      (Sys sv3 (flights st) (lost st) (if accepted sv2 cid e then <[key := d]> (last st) else last st))
| SGet cid qid mid words crc_on e sv1 a sv2 wr key value :
    data_queue (sys_sv st) cid qid ->
    take_recv (set_meta (sys_sv st) words) cid qid = Some (sv1, a) ->
    process_get_begin crc_on e (post_recv sv1 cid qid 0) cid qid mid = Ok (sv2, wr, key, value) ->
    client_key cid key ->
    srv_step st (if decide (value = NONE) then [card_read sv2 wr] else []) (after_get st sv2 a cid qid key value wr)
| SRead f rest n :
    flights st ≡ₚ f :: rest -> f_sent f = false ->
    srv_step st [] (Sys (sys_sv st) (read_more (sys_sv st) n f :: rest) (lost st) (last st))
| SSent f rest :
    flights st ≡ₚ f :: rest -> f_sent f = false -> all_read (sys_sv st) f ->
    srv_step st [sent_reply f] (Sys (sys_sv st) (mark_sent f :: rest) (lost st) (last st))
| SGetEnd f rest e r sv' :
    flights st ≡ₚ f :: rest -> f_sent f = true ->
    process_get_end e r (sys_sv st) (f_cid f) (f_qid f) (f_key f) (f_value f) = Ok sv' ->
    srv_step st [] (Sys sv' rest (lost st) (last st))
| SInv cid qid words mid r sv1 a sv2 reps :
    data_queue (sys_sv st) cid qid ->
    take_recv (set_meta (sys_sv st) words) cid qid = Some (sv1, a) ->
    client_key cid (load64 (set_meta (sys_sv st) words)
      (KEY_META_REGION (rdma_cfg (store (sys_sv st))) (meta_base (sys_sv st) cid) (Z.of_nat qid) mid MSG_INV_PAGE)) ->
    process_invalidate_page r (post_recv sv1 cid qid 0) cid qid mid = Ok (sv2, reps) ->
    srv_step st reps (Sys sv2 (flights st) (slots_in [a] ++ lost st) (last st))
| SFilter cid e fuel cb sv1 a sv2 reps :
    take_recv (sys_sv st) cid (Z.to_nat (num_data_qps (rdma_cfg (store (sys_sv st))))) = Some (sv1, a) ->
    process_recv e fuel cb sv1 cid (Z.to_nat (num_data_qps (rdma_cfg (store (sys_sv st))))) a FILTER_UPDATE_BEGIN
      = Some (Ok (sv2, reps)) ->
    srv_step st reps (Sys sv2 (flights st) (slots_in [a] ++ lost st) (last st))
| SExchange cid qid :
    srv_step st [] (Sys (post_recv (sys_sv st) cid qid 0) (flights st) (lost st) (last st))
| SClientInfo cid qid sv1 a :
    take_recv (sys_sv st) cid qid = Some (sv1, a) ->
    srv_step st [] (Sys sv1 (flights st) (slots_in [a] ++ lost st) (last st))
| SConnect cid qid rs sv' :
    (cid < num_clients (config (store (sys_sv st))))%nat -> (length (posted (sys_sv st) cid qid) <= 1)%nat ->
    pre_post_recvs rs (sys_sv st) cid qid = Ok sv' ->
    srv_step st [] (Sys sv' (flights st) (lost st) (last st))
| SEvict es rs fuel r cid qid s' :
    Evict es rs fuel r (store (sys_sv st)) cid qid = Some (Ok s') ->
    srv_step st [] (Sys (set_store (sys_sv st) s') (flights st) (lost st) (last st))
| SBorrow fl_id p' a :
    (fl_id < total_fl_ (pool (store (sys_sv st))))%nat ->
    AllocateFromPeer (pool (store (sys_sv st))) fl_id = Ok (p', a) ->
    srv_step st [] (Sys (set_store (sys_sv st) (set_pool (store (sys_sv st)) p')) (flights st) (lost st) (last st)).

Inductive srv_reachable st0 : sys -> Prop :=
| SrvStart : srv_reachable st0 st0
| SrvStep st reps st' : srv_reachable st0 st -> srv_step st reps st' -> srv_reachable st0 st'.

(** The reply a client receives for the get [f0] posted in the state [st1]: at once when there is
    no page; else what the card has read when it is done, after any further steps of the daemon. *)
Definition same_get (f0 f : flight) : Prop :=
  f_cid f = f_cid f0 /\ f_qid f = f_qid f0 /\ f_key f = f_key f0 /\ f_value f = f_value f0 /\
  f_wr f = f_wr f0 /\ f_data f = f_data f0.
Inductive get_answer st1 (f0 : flight) : reply -> Prop :=
| AnswerMiss : f_value f0 = NONE -> get_answer st1 f0 (card_read (sys_sv st1) (f_wr f0))
| AnswerHit st2 f :
    f_value f0 <> NONE -> srv_reachable st1 st2 -> f ∈ flights st2 -> same_get f0 f -> f_sent f = false ->
    all_read (sys_sv st2) f -> get_answer st1 f0 (sent_reply f).

(** ** The invariant *)

Record srv_inv (pages : list Z) st : Prop := {
  vi_kv : kv_inv false pages (held st) (store (sys_sv st));
  vi_data k a : kv_lookup (store (sys_sv st)) k = Some a ->
    exists d, slots (sys_sv st) !! a = Some (Slot d k) /\ last st !! k = Some d;
  vi_flights f : f ∈ flights st ->
    valid_key (f_key f) /\ key_cid (f_key f) = f_cid f /\
    (f_cid f < num_clients (config (store (sys_sv st))))%nat /\ f_value f <> NONE /\
    (exclusive_policy (config (store (sys_sv st))) = true ->
       slots (sys_sv st) !! f_value f = Some (Slot (f_data f) (f_key f)) /\
       f_buf f = take (length (f_buf f)) (f_data f) /\ (f_sent f = true -> f_buf f = f_data f));
  vi_len cid qid : Z.of_nat (length (posted (sys_sv st) cid qid)) <= QP_MAX_RECV_WR;
}.

(** ** Lemmas: receive queues *)

#[local] Instance slots_in_perm : Proper ((≡ₚ) ==> (≡ₚ)) slots_in.
Proof. intros l1 l2 E. unfold slots_in. by rewrite E. Qed.

Lemma slots_in_app l1 l2 : slots_in (l1 ++ l2) = slots_in l1 ++ slots_in l2.
Proof. apply filter_app. Qed.

Lemma slots_in_slot a l : is_slot a = true -> slots_in (a :: l) = a :: slots_in l.
Proof. intros H. unfold slots_in. by rewrite filter_cons_True. Qed.

Lemma slots_in_none a l : is_slot a = false -> slots_in (a :: l) = slots_in l.
Proof. intros H. unfold slots_in. rewrite filter_cons_False; [done|]. by rewrite H. Qed.

Lemma posted_set sv cid qid l :
  slots_in (posted sv cid qid) ++ posted_pages (set_recvs sv cid qid l) ≡ₚ slots_in l ++ posted_pages sv.
Proof.
  unfold posted_pages, posted. cbn [recvs set_recvs]. rewrite <- insert_delete_eq.
  rewrite map_to_list_insert by apply lookup_delete_eq. cbn [fmap list_fmap concat].
  rewrite slots_in_app.
  destruct (recvs sv !! (cid, qid)) as [l0|] eqn:E; cbn [default].
  - rewrite <- (insert_id _ _ _ E) at 2. rewrite <- insert_delete_eq.
    rewrite map_to_list_insert by apply lookup_delete_eq. cbn [fmap list_fmap concat]. rewrite slots_in_app.
    unfold id. solve_Permutation.
  - rewrite (delete_id _ _ E). done.
Qed.

Lemma posted_set_eq sv cid qid l : posted (set_recvs sv cid qid l) cid qid = l.
Proof. unfold posted. cbn [recvs set_recvs]. by rewrite lookup_insert_eq. Qed.

Lemma take_recv_Some sv cid qid sv1 a :
  take_recv sv cid qid = Some (sv1, a) ->
  exists l, posted sv cid qid = a :: l /\ sv1 = set_recvs sv cid qid l /\
    posted_pages sv ≡ₚ slots_in [a] ++ posted_pages sv1.
Proof.
  unfold take_recv. destruct (posted sv cid qid) as [|x l] eqn:E; [done|]. intros [= <- ->].
  exists l. split; [done|]. split; [done|].
  pose proof (posted_set sv cid qid l) as P. rewrite E in P. change (a :: l) with ([a] ++ l) in P.
  rewrite slots_in_app in P. apply (Permutation_app_inv_l (slots_in l)). rewrite <- P. solve_Permutation.
Qed.

Lemma post_recv_pages sv cid qid a :
  Z.of_nat (length (posted sv cid qid)) < QP_MAX_RECV_WR ->
  posted_pages (post_recv sv cid qid a) ≡ₚ slots_in [a] ++ posted_pages sv.
Proof.
  intros Hl. unfold post_recv. rewrite (proj2 (Z.ltb_lt _ _) Hl).
  pose proof (posted_set sv cid qid (posted sv cid qid ++ [a])) as P. rewrite slots_in_app, <- app_assoc in P.
  by apply Permutation_app_inv_l in P.
Qed.

Lemma post_recv_zero sv cid qid : posted_pages (post_recv sv cid qid 0) ≡ₚ posted_pages sv.
Proof.
  unfold post_recv. case_match; [|done].
  pose proof (posted_set sv cid qid (posted sv cid qid ++ [0])) as P. rewrite slots_in_app, <- app_assoc in P.
  by apply Permutation_app_inv_l in P.
Qed.

Lemma post_recv_same sv cid qid a :
  store (post_recv sv cid qid a) = store sv /\ slots (post_recv sv cid qid a) = slots sv /\
  meta (post_recv sv cid qid a) = meta sv /\ meta_base (post_recv sv cid qid a) = meta_base sv.
Proof. unfold post_recv. by case_match. Qed.

Lemma posted_pages_store sv s : posted_pages (set_store sv s) = posted_pages sv.
Proof. done. Qed.

(** ** Lemmas: pages of the store *)

Lemma lookup_page pages held0 s key a :
  kv_inv false pages held0 s -> kv_lookup s key = Some a -> a ∈ table_pages s /\ a <> NONE /\ valid_key key /\
    (key_cid key < num_clients (config s))%nat.
Proof.
  intros [Htk _ _ _] Hk. destruct (lookup_found s key a Htk Hk) as (t & Ht & Hm & Hc).
  pose proof (tk_wf s Htk _ _ Ht) as Hwf. destruct (ih_map_ok t key a Hwf Hm) as [Hv Hn].
  split; [|done]. unfold table_pages. apply list_elem_of_fmap. exists (key, a). split; [done|].
  unfold stored. apply list_elem_of_In, in_concat. exists (map_to_list (ih_map t)).
  split; apply list_elem_of_In; [|by apply elem_of_map_to_list].
  apply list_elem_of_fmap. exists t. split; [done|]. by eapply list_elem_of_lookup_2.
Qed.

(** A page held by the daemon's own code is in no table. *)
Lemma held_not_stored pages held0 s key a :
  NoDup pages -> kv_inv false pages held0 s -> a ∈ held0 -> kv_lookup s key <> Some a.
Proof.
  intros Hnd Hinv Ha Hk. destruct (lookup_page _ _ _ _ _ Hinv Hk) as (Ht & _).
  pose proof (pi_pages _ _ _ (ki_pool _ _ _ Hinv)) as P. rewrite <- P in Hnd.
  apply NoDup_app in Hnd as (_ & _ & Hnd). apply NoDup_app in Hnd as (_ & Hno & _). by apply (Hno a).
Qed.

Lemma held_nodup pages held0 s : NoDup pages -> kv_inv false pages held0 s -> NoDup held0.
Proof.
  intros Hnd Hinv. pose proof (pi_pages _ _ _ (ki_pool _ _ _ Hinv)) as P. rewrite <- P in Hnd.
  apply NoDup_app in Hnd as (_ & _ & Hnd). by apply NoDup_app in Hnd as (_ & _ & Hnd).
Qed.

Lemma held_in_pages pages held0 s a : kv_inv false pages held0 s -> a ∈ held0 -> a ∈ pages.
Proof.
  intros Hinv Ha. rewrite <- (pi_pages _ _ _ (ki_pool _ _ _ Hinv)), !elem_of_app. auto.
Qed.

(** ** Lemmas: length of the receive queues *)

Definition short sv : Prop := forall cid qid, Z.of_nat (length (posted sv cid qid)) <= QP_MAX_RECV_WR.

Lemma short_set sv cid qid l : short sv -> Z.of_nat (length l) <= QP_MAX_RECV_WR -> short (set_recvs sv cid qid l).
Proof.
  intros Hs Hl c q. unfold posted. cbn [recvs set_recvs].
  destruct (decide ((c, q) = (cid, qid))) as [->|Hne]; [by rewrite lookup_insert_eq|].
  rewrite lookup_insert_ne by congruence. apply Hs.
Qed.

Lemma short_post sv cid qid a : short sv -> short (post_recv sv cid qid a).
Proof.
  intros Hs. unfold post_recv. case_match eqn:E; [|done]. apply short_set; [done|].
  apply Z.ltb_lt in E. rewrite length_app. cbn [length]. lia.
Qed.

Lemma short_take sv cid qid sv1 a : short sv -> take_recv sv cid qid = Some (sv1, a) -> short sv1.
Proof.
  intros Hs (l & El & -> & _)%take_recv_Some. apply short_set; [done|].
  specialize (Hs cid qid). rewrite El in Hs. cbn [length] in Hs. lia.
Qed.

Lemma room_after_take sv cid qid sv1 a :
  short sv -> take_recv sv cid qid = Some (sv1, a) -> Z.of_nat (length (posted sv1 cid qid)) < QP_MAX_RECV_WR.
Proof.
  intros Hs (l & El & -> & _)%take_recv_Some. rewrite posted_set_eq.
  specialize (Hs cid qid). rewrite El in Hs. cbn [length] in Hs. lia.
Qed.

(** ** Lemmas: how steps change the invariant *)

(** A step that only forgets keys and leaves the slots alone. *)
Lemma inv_forget pages st st' :
  srv_inv pages st -> kv_inv false pages (held st') (store (sys_sv st')) ->
  (forall k a, kv_lookup (store (sys_sv st')) k = Some a -> kv_lookup (store (sys_sv st)) k = Some a) ->
  slots (sys_sv st') = slots (sys_sv st) -> last st' = last st ->
  (forall f, f ∈ flights st' -> f ∈ flights st) ->
  config (store (sys_sv st')) = config (store (sys_sv st)) -> short (sys_sv st') -> srv_inv pages st'.
Proof.
  intros [_ Hd Hf _] Hkv Hlk Es El Hfl Ec Hlen. split; [done| | |done].
  - intros k a Hk. rewrite Es, El. by apply Hd, Hlk.
  - intros f Hin. rewrite Es, Ec. by apply Hf, Hfl.
Qed.

Lemma held_perm pages held0 held1 s : held0 ≡ₚ held1 -> kv_inv false pages held0 s -> kv_inv false pages held1 s.
Proof. apply kv_inv_perm. Qed.

(** A page that was posted is not being sent. *)
Lemma posted_not_flying pages st a rest :
  NoDup pages -> kv_inv false pages (held st) (store (sys_sv st)) -> posted_pages (sys_sv st) ≡ₚ a :: rest ->
  a ∉ flying st.
Proof.
  intros Hnd Hinv Hp Hfl. pose proof (held_nodup _ _ _ Hnd Hinv) as Hn. unfold held in Hn. rewrite Hp in Hn.
  cbn [app] in Hn. apply NoDup_cons in Hn as [Hn _]. apply Hn. rewrite !elem_of_app. auto.
Qed.

(** ** Lemmas: puts *)

(** The outcome of a put that found the pair [d], [key] in the slot [a]. *)
Record put_done (pages rest : list Z) sv cid qid key a (ok : bool) sv3 : Prop := {
  pd_kv : exists v, kv_inv false pages (v :: rest) (store sv3) /\ is_slot v = true /\
            sv3 = set_store (post_recv sv cid qid v) (store sv3) /\ (ok = false -> v = a);
  pd_config : same_tables_config (store sv) (store sv3);
  pd_other k v : k <> key -> kv_lookup (store sv3) k = Some v -> kv_lookup (store sv) k = Some v;
  pd_key v : kv_lookup (store sv3) key = Some v -> if ok then v = a else kv_lookup (store sv) key = Some v;
}.

Lemma set_store_twice sv s1 s2 : set_store (set_store sv s1) s2 = set_store sv s2.
Proof. done. Qed.

Lemma post_recv_store sv cid qid v s : post_recv (set_store sv s) cid qid v = set_store (post_recv sv cid qid v) s.
Proof. unfold post_recv, posted. cbn [recvs set_store]. by case_match. Qed.

Lemma process_put_ok pages rest sv cid qid mid e fuel a d key :
  (~ 0 ∈ pages) -> kv_inv false pages (a :: rest) (store sv) -> slot_at sv a = Slot d key ->
  data_queue sv cid qid -> client_key cid key -> (2 <= fuel)%nat ->
  exists sv3, process_put e fuel sv cid qid mid a = Some (Ok (sv3, put_replies sv e mid)) /\
    put_done pages rest sv cid qid key a (accepted sv cid e) sv3.
Proof.
  intros H0 Hinv Ha [Hc Hq] [Hk Hkc] Hf. unfold process_put, accepted. rewrite Ha. cbn [s_key].
  assert (forall v h s, kv_inv false pages (v :: h) s -> is_slot v = true) as Hslot.
  { intros v h s Hi. pose proof (held_in_pages _ _ _ v Hi ltac:(left)) as Hin. unfold is_slot.
    rewrite (proj2 (Z.eqb_neq v 0)), (proj2 (Z.eqb_neq v NO_ADDR)); [done|intros ->|intros ->; done].
    by apply (pi_addr _ _ _ (ki_pool _ _ _ Hi)). }
  pose proof Hinv as [_ Hp Hfit _]. pose proof Hc as Hc'. rewrite <- (pf_clients _ _ _ Hfit) in Hc'.
  destruct (Allocate_inv _ _ _ cid None (pe_alloc e) Hp Hc') as (p & v & E & _); [done|].
  assert (kv_Allocate (store sv) cid None (pe_alloc e) = Ok (set_pool (store sv) p, v)) as Ea.
  { unfold kv_Allocate. by rewrite E. }
  destruct (step_alloc _ _ _ cid None (pe_alloc e) _ v Hinv Hc ltac:(done) Ea) as (Hi1 & Hlk1 & [Ec Er _] & Ecb).
  rewrite Ea. destruct (Z.eqb_spec v INVALID) as [->|Hv]; cbn [negb].
  - rewrite decide_True in Hi1 by done. eexists. split.
    { unfold put_replies. destruct (post_recv_same (set_store sv (set_pool (store sv) p)) cid qid a) as (-> & _).
      cbn [store set_store]. rewrite Er. done. }
    rewrite post_recv_store. split; cbn [store set_store].
    + exists a. split; [done|]. split; [by eapply Hslot|]. done.
    + by split.
    + intros k w _. by rewrite Hlk1.
    + intros w. by rewrite Hlk1.
  - rewrite decide_False in Hi1 by done. rewrite post_recv_store. cbn [store set_store].
    apply (kv_inv_perm _ _ (a :: v :: rest)) in Hi1; [|apply Permutation_swap].
    destruct (Insert_lemma (exact := false) (pe_envs e) (pe_rands e) fuel pages (v :: rest) (set_pool (store sv) p) key a qid)
      as (s2 & E2 & Hpost); [done|done| |by rewrite Hkc|done|done|].
    { intros ->. apply H0. by eapply held_in_pages; [exact Hinv|left]. }
    rewrite Hkc in E2. rewrite E2. destruct (Insert_conf _ _ _ _ _ _ _ _ _ E2) as [Ec2 Er2].
    eexists. split.
    { unfold put_replies. cbn [store set_store]. rewrite Er2, Er. done. }
    assert (kv_inv false pages (v :: rest) s2) as Hi2 by (by destruct Hpost).
    split; cbn [store set_store].
    + exists v. split; [done|]. split; [by eapply Hslot|]. done.
    + split; congruence.
    + intros k w Hne. destruct Hpost as [ev _ _ Hlk2|_ Hlk2]; rewrite Hlk2, decide_False by done; [case_decide; [done|]|];
        by rewrite Hlk1.
    + intros w. destruct Hpost as [ev _ _ Hlk2|_ Hlk2]; rewrite Hlk2, decide_True by done; congruence.
Qed.

Lemma recv_page_Ok sv a d key sv2 :
  recv_page sv a d key = Ok sv2 -> is_slot a = true /\ sv2 = set_slot sv a (Slot d key).
Proof.
  unfold recv_page, is_slot. destruct (a =? 0), (a =? NO_ADDR); cbn [orb negb andb]; try done. by intros [= <-].
Qed.

Lemma data_queue_not_filter sv cid qid : data_queue sv cid qid ->
  (Z.of_nat qid =? num_data_qps (rdma_cfg (store sv))) = false.
Proof. intros [_ Hq]. apply Z.eqb_neq. lia. Qed.

(** A put that reaches a posted page always completes. *)
Lemma put_receive pages st cid qid imm d key e fuel cb sv1 a sv2 :
  (~ 0 ∈ pages) -> NoDup pages -> srv_inv pages st ->
  data_queue (sys_sv st) cid qid -> client_key cid key -> (2 <= fuel)%nat ->
  take_recv (sys_sv st) cid qid = Some (sv1, a) -> recv_page sv1 a d key = Ok sv2 ->
  exists sv3, process_recv e fuel cb sv2 cid qid a imm =
      Some (Ok (sv3, put_replies sv2 e (i_mid (bit_unmask (ntohl imm))))) /\
    srv_inv pages
      (Sys sv3 (flights st) (lost st) (if accepted sv2 cid e then <[key := d]> (last st) else last st)) /\
    (accepted sv2 cid e = true -> kv_lookup (store sv3) key = Some a \/ kv_lookup (store sv3) key = None) /\
    (accepted sv2 cid e = false -> forall v, kv_lookup (store sv3) key = Some v -> kv_lookup (store (sys_sv st)) key = Some v).
Proof.
  intros H0 Hnd Hinv Hq Hck Hf Ht Hr. destruct Hinv as [Hkv Hd Hfl Hlen].
  pose proof (room_after_take _ _ _ _ _ Hlen Ht) as Hlt. pose proof (short_take _ _ _ _ _ Hlen Ht) as Hs1.
  destruct (take_recv_Some _ _ _ _ _ Ht) as (l & _ & E1 & P1).
  destruct (recv_page_Ok _ _ _ _ _ Hr) as [Ha E2].
  rewrite slots_in_slot in P1 by done. cbn [slots_in app] in P1.
  assert (store sv2 = store (sys_sv st)) as Es by (by subst).
  set (rest := posted_pages sv1 ++ flying st ++ lost st).
  assert (held st ≡ₚ a :: rest) as Ph by (unfold held; rewrite P1; done).
  pose proof (posted_not_flying _ _ _ _ Hnd Hkv P1) as Hafl.
  assert (forall k, kv_lookup (store (sys_sv st)) k <> Some a) as Hast.
  { intros k. eapply held_not_stored; [done|exact Hkv|]. rewrite Ph. left. }
  destruct (process_put_ok pages rest sv2 cid qid (i_mid (bit_unmask (ntohl imm))) e fuel a d key)
    as (sv3 & Ep & [(v & Hi3 & Hv & E3 & Hva) [Ec Er] Ho Hk]); try (by rewrite ?Es); try done.
  { rewrite Es. by apply (kv_inv_perm _ _ _ _ Ph). }
  { subst sv2. unfold slot_at. cbn [slots set_slot]. by rewrite lookup_insert_eq. }
  { unfold data_queue. rewrite Es. done. }
  exists sv3. split; [|split; [|split]].
  - unfold process_recv. rewrite Es, (data_queue_not_filter _ _ _ Hq). cbn [andb].
    destruct (Z.eqb_spec a 0) as [->|_]; [done|]. exact Ep.
  - assert (posted_pages sv3 ≡ₚ v :: posted_pages sv1) as P3.
    { rewrite E3, posted_pages_store, post_recv_pages; [|by subst sv2]. rewrite slots_in_slot by done. by subst sv2. }
    assert (slots sv3 = <[a := Slot d key]> (slots (sys_sv st))) as Esl.
    { rewrite E3. cbn [slots set_store]. destruct (post_recv_same sv2 cid qid v) as (_ & -> & _). by subst. }
    split; cbn [sys_sv flights lost last].
    + eapply kv_inv_perm; [|exact Hi3]. unfold held, flying. cbn [sys_sv flights lost]. rewrite P3, Ec, Es. done.
    + intros k b Hk3. rewrite Esl. destruct (decide (k = key)) as [->|Hne].
      * specialize (Hk b Hk3). destruct (accepted sv2 cid e).
        -- subst b. exists d. rewrite !lookup_insert_eq. done.
        -- rewrite Es in Hk. rewrite lookup_insert_ne by (intros <-; by apply (Hast key)). by apply Hd.
      * apply Ho in Hk3; [|done]. rewrite Es in Hk3. rewrite lookup_insert_ne by (intros <-; by apply (Hast k)).
        destruct (Hd k b Hk3) as (d' & Hs' & Hl'). exists d'. split; [done|].
        destruct (accepted sv2 cid e); [|done]. by rewrite lookup_insert_ne.
    + intros f Hin. rewrite Ec, Es. destruct (Hfl f Hin) as (F1 & F2 & F3 & F4 & F5). split_and!; try done.
      intros Hx. rewrite Esl, lookup_insert_ne; [by apply F5|]. intros Ea. apply Hafl. unfold flying. rewrite Hx.
      apply list_elem_of_fmap. by exists f.
    + rewrite E3. intros c q. unfold posted. cbn [recvs set_store]. apply short_post. by subst sv2.
  - intros Hacc. rewrite Hacc in Hk. destruct (kv_lookup (store sv3) key) as [w|]; [left; f_equal; by apply Hk|by right].
  - intros Hacc w Hw. specialize (Hk w Hw). rewrite Hacc, Es in Hk. exact Hk.
Qed.

(** ** Lemmas: gets and invalidations *)

Definition get_key sv cid qid (mid : Z) : Z :=
  load64 sv (KEY_META_REGION (rdma_cfg (store sv)) (meta_base sv cid) (Z.of_nat qid) mid MSG_READ).
Definition get_raddr sv cid qid (mid : Z) : Z :=
  load64 sv (ADDR_META_REGION (rdma_cfg (store sv)) (meta_base sv cid) (Z.of_nat qid) mid).
Definition inv_key sv cid qid (mid : Z) : Z :=
  load64 sv (KEY_META_REGION (rdma_cfg (store sv)) (meta_base sv cid) (Z.of_nat qid) mid MSG_INV_PAGE).

(** The reply to a get of a stored and of an absent key. *)
Definition committed (crc_on : bool) (mid : Z) (d : list Z) : Z :=
  htonl (bit_mask mid MSG_READ_REPLY TX_READ_COMMITTED 0 (CRC8 crc_on d)).
Definition aborted (mid : Z) : Z := htonl (bit_mask mid MSG_READ_REPLY TX_READ_ABORTED 0 0).
Definition get_wr (crc_on : bool) sv (found : option Z) (mid raddr : Z) : send_wr :=
  match found with
  | Some a => SendWr (committed crc_on mid (s_data (slot_at sv a))) (Some a) raddr
  | None => SendWr (aborted mid) None raddr
  end.

Lemma process_get_begin_ok pages rest crc_on e sv cid qid mid :
  kv_inv false pages rest (store sv) -> client_key cid (get_key sv cid qid mid) ->
  exists s2, process_get_begin crc_on e sv cid qid mid =
      Ok (set_store sv s2, get_wr crc_on sv (kv_lookup (store sv) (get_key sv cid qid mid)) mid (get_raddr sv cid qid mid),
          get_key sv cid qid mid, default NONE (kv_lookup (store sv) (get_key sv cid qid mid))) /\
    kv_inv false pages ((if exclusive_policy (config (store sv))
                   then option_list (kv_lookup (store sv) (get_key sv cid qid mid)) else []) ++ rest) s2 /\
    (forall k v, kv_lookup s2 k = Some v -> kv_lookup (store sv) k = Some v) /\
    (exclusive_policy (config (store sv)) = true -> kv_lookup s2 (get_key sv cid qid mid) = None) /\
    same_tables_config (store sv) s2.
Proof.
  intros Hinv [Hk Hkc]. unfold process_get_begin. fold (get_key sv cid qid mid) (get_raddr sv cid qid mid).
  set (key := get_key sv cid qid mid) in *. set (raddr := get_raddr sv cid qid mid).
  assert (forall v, kv_lookup (store sv) key = Some v -> (v =? NONE) = false) as Hv.
  { intros v Hl. destruct (lookup_page _ _ _ _ _ Hinv Hl) as (_ & Hn & _). by apply Z.eqb_neq. }
  destruct (exclusive_policy (config (store sv))).
  - destruct (Remove_lemma pages rest (store sv) key qid Hinv Hk) as (s2 & E & Hi & Hlk & Ec & Er & _).
    rewrite Hkc in E. rewrite E. obind. exists s2.
    split; [|split; [done|split; [|split; [|done]]]].
    + unfold send_reply. destruct (kv_lookup (store sv) key) as [v|] eqn:El; cbn [from_option id]; [by rewrite (Hv v eq_refl)|done].
    + intros k v. rewrite Hlk. by case_decide.
    + intros _. by rewrite Hlk, decide_True.
  - destruct (GetWithFlag_lemma e pages rest (store sv) key cid qid true Hinv Hk) as (s2 & E & Hi & Hlk & _ & Ec & Er).
    rewrite E. obind. exists s2. split; [|split; [done|split; [|done]]].
    + unfold send_reply. destruct (kv_lookup (store sv) key) as [v|] eqn:El; cbn [from_option id]; [by rewrite (Hv v eq_refl)|done].
    + intros k v. by rewrite Hlk.
Qed.

Lemma process_get_end_ok pages rest e r sv cid qid key value :
  kv_inv false pages ((if exclusive_policy (config (store sv)) then [value] else []) ++ rest) (store sv) ->
  value <> NONE -> valid_key key -> (cid < num_clients (config (store sv)))%nat ->
  exists s2, process_get_end e r sv cid qid key value = Ok (set_store sv s2) /\ kv_inv false pages rest s2 /\
    (forall k, kv_lookup s2 k = kv_lookup (store sv) k) /\ same_tables_config (store sv) s2.
Proof.
  intros Hinv Hv Hk Hc. unfold process_get_end. rewrite (proj2 (Z.eqb_neq _ _) Hv). cbn [negb].
  destruct (exclusive_policy (config (store sv))).
  - destruct (step_free pages rest (store sv) value cid None r Hinv Hc) as (s2 & E & Hi & Hlk & [Ec Er _] & _); [done|].
    rewrite E. obind. exists s2. by split.
  - destruct (GetWithFlag_lemma e pages rest (store sv) key cid qid false Hinv Hk) as (s2 & E & Hi & Hlk & _ & Ec & Er).
    rewrite E. obind. exists s2. by split.
Qed.

Definition inv_replies sv (mid : Z) (found : bool) : list reply :=
  if mid =? num_msgs (rdma_cfg (store sv)) - 1 then
    [Reply (htonl (bit_mask mid MSG_INV_PAGE_REPLY (if found then TX_INV_PAGE_COMMITED else TX_INV_PAGE_ABORTED) 0 0))
       NoPayload 0]
  else [].

Lemma process_invalidate_ok pages rest r sv cid qid mid :
  kv_inv false pages rest (store sv) -> client_key cid (inv_key sv cid qid mid) -> (cid < num_clients (config (store sv)))%nat ->
  exists s2, process_invalidate_page r sv cid qid mid =
      Ok (set_store sv s2, inv_replies sv mid (bool_decide (is_Some (kv_lookup (store sv) (inv_key sv cid qid mid))))) /\
    kv_inv false pages rest s2 /\
    (forall k, kv_lookup s2 k = if decide (k = inv_key sv cid qid mid) then None else kv_lookup (store sv) k) /\
    same_tables_config (store sv) s2.
Proof.
  intros Hinv [Hk Hkc] Hc. unfold process_invalidate_page. fold (inv_key sv cid qid mid).
  set (key := inv_key sv cid qid mid) in *.
  destruct (Remove_lemma pages rest (store sv) key qid Hinv Hk) as (s1 & E & Hi & Hlk & Ec & Er & _).
  rewrite Hkc in E. rewrite E. obind.
  destruct (kv_lookup (store sv) key) as [v|] eqn:El; cbn [from_option id option_list app] in *.
  - destruct (lookup_page _ _ _ _ _ Hinv El) as (_ & Hn & _). rewrite (proj2 (Z.eqb_neq _ _) Hn). cbn [negb].
    assert (cid < num_clients (config s1))%nat as Hc1 by (by rewrite Ec).
    destruct (step_free pages rest s1 v cid None r Hi Hc1) as (s2 & E2 & Hi2 & Hlk2 & [Ec2 Er2 _] & _); [done|].
    rewrite E2. obind. exists s2. split; [|split; [done|split; [|split; congruence]]].
    + unfold inv_replies. rewrite bool_decide_true by (by exists v). done.
    + intros k. by rewrite Hlk2, Hlk.
  - rewrite (proj2 (Z.eqb_eq NONE NONE) eq_refl). cbn [negb]. obind. exists s1. split; [|by split].
    unfold inv_replies. rewrite bool_decide_false by (by intros [? ?]). done.
Qed.

(** ** Lemmas: the invariant along executions *)

Lemma take_meta sv words cid qid : take_recv (set_meta sv words) cid qid =
  (fun p => (set_meta p.1 words, p.2)) <$> take_recv sv cid qid.
Proof. unfold take_recv, posted. cbn [recvs set_meta]. by case_match. Qed.

(** Consuming a receive and posting one without buffer, as every message
    without a page does. *)
Lemma consume_recv st words cid qid sv1 a :
  short (sys_sv st) -> take_recv (set_meta (sys_sv st) words) cid qid = Some (sv1, a) ->
  let sv2 := post_recv sv1 cid qid 0 in
  store sv2 = store (sys_sv st) /\ slots sv2 = slots (sys_sv st) /\ short sv2 /\ meta sv2 = words /\
  meta_base sv2 = meta_base (sys_sv st) /\ posted_pages (sys_sv st) ≡ₚ slots_in [a] ++ posted_pages sv2.
Proof.
  intros Hs Ht sv2. rewrite take_meta in Ht. destruct (take_recv (sys_sv st) cid qid) as [[sv0 b]|] eqn:Et; [|done].
  injection Ht as <- <-. cbn [fst snd] in *. pose proof (short_take _ _ _ _ _ Hs Et) as Hs0.
  destruct (take_recv_Some _ _ _ _ _ Et) as (l & _ & E & P).
  destruct (post_recv_same (set_meta sv0 words) cid qid 0) as (E1 & E2 & E3 & E4).
  unfold sv2. rewrite E1, E2, E3, E4. subst sv0. split; [done|]. split; [done|]. split; [by apply short_post|].
  split; [done|]. split; [done|]. rewrite P, post_recv_zero. done.
Qed.

Lemma held_consume pages st sv2 a s2 extra :
  kv_inv false pages (extra ++ held st) s2 -> posted_pages (sys_sv st) ≡ₚ slots_in [a] ++ posted_pages sv2 ->
  kv_inv false pages (posted_pages sv2 ++ (extra ++ flying st) ++ slots_in [a] ++ lost st) s2.
Proof. intros Hi P. eapply kv_inv_perm; [|exact Hi]. unfold held. rewrite P. solve_Permutation. Qed.

Lemma get_inv pages st cid qid mid words crc_on e sv1 a sv2 wr key value :
  srv_inv pages st -> (cid < num_clients (config (store (sys_sv st))))%nat ->
  take_recv (set_meta (sys_sv st) words) cid qid = Some (sv1, a) ->
  process_get_begin crc_on e (post_recv sv1 cid qid 0) cid qid mid = Ok (sv2, wr, key, value) ->
  client_key cid key -> srv_inv pages (after_get st sv2 a cid qid key value wr).
Proof.
  intros Hinv Hc Ht Hg Hck. pose proof Hinv as [Hkv Hd Hfl Hlen].
  destruct (consume_recv st words cid qid sv1 a Hlen Ht) as (Es & Esl & Hsh & _ & _ & P).
  set (sv0 := post_recv sv1 cid qid 0) in *.
  assert (client_key cid (get_key sv0 cid qid mid)) as Hck0.
  { revert Hg. unfold process_get_begin. fold (get_key sv0 cid qid mid).
    intros ([s x] & _ & [= _ _ <- _])%outcome_bind_Ok. exact Hck. }
  assert (kv_inv false pages (held st) (store sv0)) as Hkv0 by (by rewrite Es).
  destruct (process_get_begin_ok pages (held st) crc_on e sv0 cid qid mid Hkv0 Hck0) as (s2 & E & Hi & Hsub & _ & Ec & Er).
  rewrite E in Hg. injection Hg as <- <- <- <-. clear E. set (k0 := get_key sv0 cid qid mid) in *. rewrite Es in *.
  pose proof (held_consume _ _ sv0 a _ _ Hi P) as Hi2.
  unfold after_get. split; cbn [sys_sv flights lost last store set_store slots].
  - eapply kv_inv_perm; [|exact Hi2]. unfold held, flying. cbn [sys_sv flights lost store set_store].
    rewrite posted_pages_store, Ec.
    destruct (exclusive_policy (config (store (sys_sv st)))); [|done].
    destruct (kv_lookup (store (sys_sv st)) k0) as [v|] eqn:El; cbn [from_option id option_list]; [|done].
    destruct (lookup_page _ _ _ _ _ Hkv El) as (_ & Hn & _). by rewrite decide_False.
  - intros k b Hk. rewrite Esl. by apply Hd, Hsub.
  - intros f Hin. rewrite Ec, Esl. case_decide as Hv; [by apply Hfl|].
    apply elem_of_cons in Hin as [->|Hin]; [|by apply Hfl]. cbn [f_key f_cid f_value f_data f_buf f_sent new_flight].
    destruct Hck0 as [Hk1 Hk2]. split_and!; try done. intros _. split; [|done].
    destruct (kv_lookup (store (sys_sv st)) k0) as [v|] eqn:El; [|done]. cbn [from_option id] in *.
    destruct (Hd k0 v El) as (d & Hs & _). unfold slot_at. cbn [slots set_store]. by rewrite Esl, Hs.
  - intros c q. unfold posted. cbn [recvs set_store]. apply Hsh.
Qed.

Lemma get_end_inv pages st f rest e r sv' :
  srv_inv pages st -> flights st ≡ₚ f :: rest ->
  process_get_end e r (sys_sv st) (f_cid f) (f_qid f) (f_key f) (f_value f) = Ok sv' ->
  srv_inv pages (Sys sv' rest (lost st) (last st)).
Proof.
  intros Hinv Hf Hg. pose proof Hinv as [Hkv Hd Hfl Hlen].
  assert (f ∈ flights st) as Hin by (rewrite Hf; left).
  destruct (Hfl f Hin) as (Hk & Hkc & Hc & Hv & _).
  set (rest' := posted_pages (sys_sv st) ++
     (if exclusive_policy (config (store (sys_sv st))) then f_value <$> rest else []) ++ lost st).
  assert (kv_inv false pages ((if exclusive_policy (config (store (sys_sv st))) then [f_value f] else []) ++ rest')
            (store (sys_sv st))) as Hi.
  { eapply kv_inv_perm; [|exact Hkv]. unfold held, flying, rest'. case_match; [|done]. rewrite Hf. cbn [fmap list_fmap].
    solve_Permutation. }
  destruct (process_get_end_ok pages rest' e r (sys_sv st) (f_cid f) (f_qid f) (f_key f) (f_value f) Hi Hv Hk Hc)
    as (s2 & E & Hi2 & Hlk & Ec & Er).
  rewrite E in Hg. injection Hg as <-. apply (inv_forget pages st); try done.
  - cbn [sys_sv store set_store]. unfold held, flying. cbn [sys_sv flights lost store set_store]. rewrite Ec. exact Hi2.
  - intros k b. cbn [sys_sv store set_store]. by rewrite Hlk.
  - intros g Hg. cbn [flights] in Hg. rewrite Hf. by right.
Qed.

(** A step that changes the progress of one get only. *)
Lemma flight_inv pages st f g rest :
  srv_inv pages st -> flights st ≡ₚ f :: rest ->
  f_cid g = f_cid f -> f_key g = f_key f -> f_value g = f_value f -> f_data g = f_data f ->
  (exclusive_policy (config (store (sys_sv st))) = true ->
   f_buf g = take (length (f_buf g)) (f_data g) /\ (f_sent g = true -> f_buf g = f_data g)) ->
  srv_inv pages (Sys (sys_sv st) (g :: rest) (lost st) (last st)).
Proof.
  intros [Hkv Hd Hfl Hlen] Hf Ec Ek Ev Ed Hb. split; cbn [sys_sv flights lost last]; [|done| |done].
  - eapply kv_inv_perm; [|exact Hkv]. unfold held, flying. cbn [sys_sv flights lost].
    case_match; [|done]. rewrite Hf. cbn [fmap list_fmap]. by rewrite Ev.
  - intros h [->|Hh]%elem_of_cons; [|apply Hfl; rewrite Hf; by right].
    destruct (Hfl f) as (F1 & F2 & F3 & F4 & F5); [rewrite Hf; left|]. rewrite Ec, Ek, Ev, Ed. split_and!; try done.
    intros Hx. split; [by apply F5|]. rewrite <- Ed. by apply Hb.
Qed.

Lemma flight_page pages st f :
  srv_inv pages st -> f ∈ flights st -> exclusive_policy (config (store (sys_sv st))) = true ->
  s_data (slot_at (sys_sv st) (f_value f)) = f_data f /\ f_buf f = take (length (f_buf f)) (f_data f) /\
  (f_sent f = true -> f_buf f = f_data f).
Proof.
  intros Hi Hf Hx. destruct (vi_flights _ _ Hi f Hf) as (_ & _ & _ & _ & H). destruct (H Hx) as (Es & Eb & Ee).
  split; [|done]. unfold slot_at. by rewrite Es.
Qed.

Lemma read_inv pages st f rest n :
  srv_inv pages st -> flights st ≡ₚ f :: rest -> f_sent f = false ->
  srv_inv pages (Sys (sys_sv st) (read_more (sys_sv st) n f :: rest) (lost st) (last st)).
Proof.
  intros Hi Hf Hs. eapply flight_inv; [done|exact Hf|done..|]. intros Hx. cbn [f_buf f_data f_sent read_more]. split; [|congruence].
  destruct (flight_page pages st f Hi) as (Ep & Eb & _); [rewrite Hf; left|done|]. rewrite Ep.
  set (d := f_data f) in *. set (k := length (f_buf f)) in *.
  assert (f_buf f ++ take n (drop k d) = take (k + n) d) as ->.
  { rewrite Eb. by rewrite <- take_take_drop. }
  rewrite length_take. symmetry. destruct (decide (k + n <= length d)%nat).
  - by rewrite Nat.min_l.
  - rewrite Nat.min_r by lia. by rewrite !take_ge by lia.
Qed.

Lemma all_read_data pages st f :
  srv_inv pages st -> f ∈ flights st -> exclusive_policy (config (store (sys_sv st))) = true ->
  all_read (sys_sv st) f -> f_buf f = f_data f.
Proof.
  intros Hi Hf Hx Ha. destruct (flight_page pages st f Hi Hf Hx) as (Ep & Eb & _). unfold all_read in Ha. rewrite Ep in Ha.
  pose proof (take_drop (length (f_buf f)) (f_data f)) as E. rewrite Ha, app_nil_r in E. by rewrite Eb, E.
Qed.

Lemma sent_inv pages st f rest :
  srv_inv pages st -> flights st ≡ₚ f :: rest -> all_read (sys_sv st) f ->
  srv_inv pages (Sys (sys_sv st) (mark_sent f :: rest) (lost st) (last st)).
Proof.
  intros Hi Hf Ha. eapply flight_inv; [done|exact Hf|done..|]. intros Hx. cbn [f_buf f_data f_sent mark_sent].
  assert (f ∈ flights st) as Hin by (rewrite Hf; left).
  split; [by apply (flight_page pages st f)|]. intros _. by apply (all_read_data pages st f).
Qed.

Lemma invalidate_inv pages st cid qid words mid r sv1 a sv2 reps :
  srv_inv pages st -> (cid < num_clients (config (store (sys_sv st))))%nat ->
  take_recv (set_meta (sys_sv st) words) cid qid = Some (sv1, a) ->
  client_key cid (load64 (set_meta (sys_sv st) words)
    (KEY_META_REGION (rdma_cfg (store (sys_sv st))) (meta_base (sys_sv st) cid) (Z.of_nat qid) mid MSG_INV_PAGE)) ->
  process_invalidate_page r (post_recv sv1 cid qid 0) cid qid mid = Ok (sv2, reps) ->
  srv_inv pages (Sys sv2 (flights st) (slots_in [a] ++ lost st) (last st)).
Proof.
  intros Hinv Hc Ht Hck Hg. pose proof Hinv as [Hkv Hd Hfl Hlen].
  destruct (consume_recv st words cid qid sv1 a Hlen Ht) as (Es & Esl & Hsh & Em & Eb & P).
  set (sv0 := post_recv sv1 cid qid 0) in *.
  assert (client_key cid (inv_key sv0 cid qid mid)) as Hck0.
  { unfold inv_key, load64. rewrite Es, Em, Eb. exact Hck. }
  assert (kv_inv false pages (held st) (store sv0)) as Hkv0 by (by rewrite Es).
  destruct (process_invalidate_ok pages (held st) r sv0 cid qid mid Hkv0 Hck0) as (s2 & E & Hi & Hlk & Ec & Er); [by rewrite Es|].
  rewrite E in Hg. injection Hg as <- _. rewrite Es in Ec.
  apply (inv_forget pages st); try done; cbn [sys_sv store set_store slots recvs].
  - pose proof (held_consume _ _ sv0 a _ [] Hi P) as Hi2. cbn [app] in Hi2. eapply kv_inv_perm; [|exact Hi2].
    unfold held, flying. cbn [sys_sv flights lost store set_store]. by rewrite posted_pages_store, Ec.
  - intros k b. rewrite Hlk, Es. by case_decide.
Qed.

(** A step of the store alone. *)
Lemma store_inv pages st s' :
  srv_inv pages st -> kv_inv false pages (held st) s' ->
  (forall k v, kv_lookup s' k = Some v -> kv_lookup (store (sys_sv st)) k = Some v) ->
  config s' = config (store (sys_sv st)) ->
  srv_inv pages (Sys (set_store (sys_sv st) s') (flights st) (lost st) (last st)).
Proof.
  intros Hinv Hi Hlk Ec. apply (inv_forget pages st); try done; [|exact (vi_len _ _ Hinv)].
  cbn [sys_sv store set_store]. unfold held, flying. cbn [sys_sv flights lost store set_store].
  rewrite posted_pages_store, Ec. exact Hi.
Qed.

Lemma set_cbf_inv pages held0 s cid c0 c :
  kv_inv false pages held0 s -> GetCBF s cid = Ok c0 -> kv_inv false pages held0 (set_cbf s cid c).
Proof.
  intros [Htk Hp Hfit Hfil] Hg. apply (kv_inv_make pages held0 s); try done.
  cbn [cbfs set_cbf]. intros Hon. destruct (Hfil Hon) as [Hl _]. split; [by rewrite length_insert|done].
Qed.

Lemma filter_inv pages st cid e fuel cb sv1 a sv2 reps :
  srv_inv pages st ->
  take_recv (sys_sv st) cid (Z.to_nat (num_data_qps (rdma_cfg (store (sys_sv st))))) = Some (sv1, a) ->
  process_recv e fuel cb sv1 cid (Z.to_nat (num_data_qps (rdma_cfg (store (sys_sv st))))) a FILTER_UPDATE_BEGIN
    = Some (Ok (sv2, reps)) ->
  srv_inv pages (Sys sv2 (flights st) (slots_in [a] ++ lost st) (last st)).
Proof.
  intros Hinv Ht Hr. pose proof Hinv as [Hkv Hd Hfl Hlen].
  pose proof (short_take _ _ _ _ _ Hlen Ht) as Hs1. destruct (take_recv_Some _ _ _ _ _ Ht) as (l & _ & E1 & P).
  assert (store sv1 = store (sys_sv st)) as Es by (by subst).
  pose proof (pw_per _ (pi_wf _ _ _ (ki_pool _ _ _ Hkv))) as Hpos.
  rewrite (pf_queues _ _ _ (ki_fits _ _ _ Hkv)) in Hpos.
  unfold process_recv in Hr. rewrite Es, Z2Nat.id, Z.eqb_refl in Hr by lia. cbn [andb] in Hr.
  rewrite Z.eqb_refl in Hr. injection Hr as Hr. apply outcome_bind_Ok in Hr as (c & Hc & [= <- _]).
  set (s' := set_cbf (store (sys_sv st)) cid (ToOrdinaryBF c)).
  assert (kv_inv false pages (held st) s') as Hi.
  { by eapply set_cbf_inv. }
  destruct (post_recv_same (set_store sv1 s') cid (Z.to_nat (num_data_qps (rdma_cfg (store (sys_sv st))))) 0) as (F1 & F2 & _).
  apply (inv_forget pages st); try done; cbn [sys_sv flights lost].
  - rewrite F1. cbn [store set_store]. eapply kv_inv_perm; [|exact Hi]. unfold held, flying. cbn [sys_sv flights lost].
    rewrite F1. cbn [store set_store]. rewrite P, post_recv_zero, posted_pages_store. unfold s'. cbn [config set_cbf].
    solve_Permutation.
  - intros k b. by rewrite F1.
  - rewrite F2. by subst sv1.
  - by rewrite F1.
  - apply short_post. exact Hs1.
Qed.

Lemma take_recv_inv pages st cid qid sv1 a :
  srv_inv pages st -> take_recv (sys_sv st) cid qid = Some (sv1, a) ->
  srv_inv pages (Sys sv1 (flights st) (slots_in [a] ++ lost st) (last st)).
Proof.
  intros Hinv Ht. pose proof (short_take _ _ _ _ _ (vi_len _ _ Hinv) Ht) as Hs1.
  destruct (take_recv_Some _ _ _ _ _ Ht) as (l & _ & E1 & P).
  apply (inv_forget pages st); cbn [sys_sv flights lost]; try done; try (by subst sv1).
  eapply kv_inv_perm; [|subst sv1; exact (vi_kv _ _ Hinv)]. unfold held, flying. cbn [sys_sv flights lost].
  rewrite P. subst sv1. solve_Permutation.
Qed.

Lemma exchange_inv pages st cid qid :
  srv_inv pages st -> srv_inv pages (Sys (post_recv (sys_sv st) cid qid 0) (flights st) (lost st) (last st)).
Proof.
  intros Hinv. destruct (post_recv_same (sys_sv st) cid qid 0) as (F1 & F2 & _).
  apply (inv_forget pages st); cbn [sys_sv flights lost]; rewrite ?F1; try done.
  - eapply kv_inv_perm; [|exact (vi_kv _ _ Hinv)]. unfold held, flying. cbn [sys_sv flights lost].
    by rewrite post_recv_zero, F1.
  - apply short_post. exact (vi_len _ _ Hinv).
Qed.

Lemma post_recv_len sv cid qid a :
  Z.of_nat (length (posted sv cid qid)) < QP_MAX_RECV_WR ->
  Z.of_nat (length (posted (post_recv sv cid qid a) cid qid)) = Z.of_nat (length (posted sv cid qid)) + 1.
Proof.
  intros Hl. unfold post_recv. rewrite (proj2 (Z.ltb_lt _ _) Hl), posted_set_eq, length_app. cbn [length]. lia.
Qed.

(** The loop that posts the first receives of a queue. *)
Lemma pre_post_inv pages cid qid rs n : ~ 0 ∈ pages -> forall st,
  srv_inv pages st -> (cid < num_clients (config (store (sys_sv st))))%nat ->
  Z.of_nat (length (posted (sys_sv st) cid qid)) + Z.of_nat n <= QP_MAX_RECV_WR ->
  exists sv', pre_post rs n (sys_sv st) cid qid = Ok sv' /\
    srv_inv pages (Sys sv' (flights st) (lost st) (last st)) /\
    Z.of_nat (length (posted sv' cid qid)) = Z.of_nat (length (posted (sys_sv st) cid qid)) + Z.of_nat n /\
    (forall k, kv_lookup (store sv') k = kv_lookup (store (sys_sv st)) k).
Proof.
  intros H0. induction n as [|n IH]; intros [sv fl lo la] Hinv Hc Hl; cbn [sys_sv flights lost last] in *; cbn [pre_post].
  { exists sv. split; [done|]. split; [done|]. split; [lia|done]. }
  assert (forall s x, Z.of_nat (length (posted (post_recv (set_store sv s) cid qid x) cid qid))
                      = Z.of_nat (length (posted sv cid qid)) + 1) as Hpost.
  { intros s x. rewrite post_recv_len; [done|]. change (posted (set_store sv s) cid qid) with (posted sv cid qid). lia. }
  destruct (Z.ltb_spec (Z.of_nat qid) (num_data_qps (rdma_cfg (store sv)))) as [Hq|Hq].
  - pose proof (vi_kv _ _ Hinv) as Hkv. cbn [sys_sv] in Hkv.
    pose proof Hkv as [_ Hp Hfit _]. pose proof Hc as Hc'. rewrite <- (pf_clients _ _ _ Hfit) in Hc'.
    assert (forall q, Some qid = Some q -> (q < per_cli_fl_ (pool (store sv)))%nat) as Hq'.
    { intros q [= <-]. rewrite (pf_queues _ _ _ Hfit). lia. }
    destruct (Allocate_inv _ _ _ cid (Some qid) (rs n) Hp Hc' Hq') as (p & v & E & _).
    assert (kv_Allocate (store sv) cid (Some qid) (rs n) = Ok (set_pool (store sv) p, v)) as Ea.
    { unfold kv_Allocate. by rewrite E. }
    assert (forall q, Some qid = Some q -> (q < Z.to_nat (num_data_qps (rdma_cfg (store sv))))%nat) as Hq''.
    { intros q [= <-]. lia. }
    destruct (step_alloc _ _ _ cid (Some qid) (rs n) _ v Hkv Hc Hq'' Ea) as (Hi1 & Hlk1 & [Ec Er _] & _).
    rewrite Ea. obind. set (s1 := set_pool (store sv) p) in *. set (sv1 := post_recv (set_store sv s1) cid qid v).
    destruct (post_recv_same (set_store sv s1) cid qid v) as (F1 & F2 & _).
    destruct (IH (Sys sv1 fl lo la)) as (sv' & E' & Hinv' & Hlen' & Hlk'); cbn [sys_sv flights lost last] in *.
    + apply (inv_forget pages (Sys sv fl lo la)); cbn [sys_sv flights lost last]; unfold sv1; rewrite ?F1; try done.
      * eapply kv_inv_perm; [|exact Hi1]. unfold held, flying. cbn [sys_sv flights lost].
        rewrite F1. cbn [store set_store]. rewrite Ec, post_recv_pages.
        2:{ change (posted (set_store sv s1) cid qid) with (posted sv cid qid). lia. }
        rewrite posted_pages_store. case_decide as Hv.
        -- subst v. done.
        -- rewrite slots_in_slot; [done|]. unfold is_slot. rewrite (proj2 (Z.eqb_neq v NO_ADDR)) by done.
           rewrite (proj2 (Z.eqb_neq v 0)); [done|]. intros ->. apply H0. eapply held_in_pages; [exact Hi1|]. left.
      * apply short_post. exact (vi_len _ _ Hinv).
    + unfold sv1. rewrite F1. cbn [store set_store]. by rewrite Ec.
    + unfold sv1. rewrite Hpost. lia.
    + exists sv'. split; [done|]. split; [done|]. split.
      * rewrite Hlen'. unfold sv1. rewrite Hpost. lia.
      * intros k. rewrite Hlk'. unfold sv1. rewrite F1. cbn [store set_store]. by rewrite Hlk1.
  - destruct (post_recv_same sv cid qid 0) as (F1 & F2 & _).
    destruct (IH (Sys (post_recv sv cid qid 0) fl lo la)) as (sv' & E' & Hinv' & Hlen' & Hlk'); cbn [sys_sv flights lost last] in *.
    + exact (exchange_inv pages (Sys sv fl lo la) cid qid Hinv).
    + by rewrite F1.
    + rewrite post_recv_len by lia. lia.
    + exists sv'. split; [done|]. split; [done|]. split.
      * rewrite Hlen', post_recv_len by lia. lia.
      * intros k. rewrite Hlk'. by rewrite F1.
Qed.

Lemma srv_step_inv pages st reps st' :
  ~ 0 ∈ pages -> NoDup pages -> srv_inv pages st -> srv_step st reps st' -> srv_inv pages st'.
Proof.
  intros H0 Hnd Hinv [cid qid imm d key e fuel cb sv1 a sv2 sv3 reps0 Hq Hk Hf Ht Hr Hp
    |cid qid mid words crc_on e sv1 a sv2 wr key value [Hc _] Ht Hg Hk
    |f rest n Hf Hs|f rest Hf Hs Ha|f rest e r sv' Hf _ Hg|cid qid words mid r sv1 a sv2 reps0 [Hc _] Ht Hk Hg|cid e fuel cb sv1 a sv2 reps0 Ht Hr
    |cid qid|cid qid sv1 a Ht|cid qid rs sv' Hc Hl Hp|es rs fuel r cid qid s' He|fl_id p' a Hid Ha].
  - destruct (put_receive pages st cid qid imm d key e fuel cb sv1 a sv2) as (sv4 & E & Hi & _); try done.
    rewrite E in Hp. injection Hp as <- _. exact Hi.
  - by eapply get_inv.
  - by apply read_inv.
  - by apply sent_inv.
  - by eapply get_end_inv.
  - by eapply invalidate_inv.
  - by eapply filter_inv.
  - by apply exchange_inv.
  - by eapply take_recv_inv.
  - destruct (pre_post_inv pages cid qid rs (Z.to_nat MAX_QPS_RECVS) H0 st Hinv Hc) as (sv1 & E & Hi & _).
    { unfold MAX_QPS_RECVS, QP_MAX_RECV_WR, QP_MAX_SEND_WR. lia. }
    unfold pre_post_recvs in Hp. rewrite E in Hp. by injection Hp as <-.
  - destruct (Evict_lemma _ _ _ _ _ _ _ _ _ _ (vi_kv _ _ Hinv) He) as (s2 & k & v & E & Hi & _ & Hlk & _ & Ec & _).
    injection E as <-. apply store_inv; try done. intros k0 w. rewrite Hlk. by case_decide.
  - apply store_inv; try done. by eapply borrow_kv; [exact (vi_kv _ _ Hinv)| |].
Qed.

Lemma srv_reachable_inv pages st0 st :
  ~ 0 ∈ pages -> NoDup pages -> srv_inv pages st0 -> srv_reachable st0 st -> srv_inv pages st.
Proof. intros H0 Hnd Hi. induction 1; [done|]. by eapply srv_step_inv. Qed.

(** The configuration never changes. *)
Lemma take_recv_store sv cid qid sv1 a : take_recv sv cid qid = Some (sv1, a) -> store sv1 = store sv.
Proof. unfold take_recv. by case_match; [|intros [= <- _]]. Qed.

Lemma post_recv_conf sv cid qid a : store (post_recv sv cid qid a) = store sv.
Proof. apply post_recv_same. Qed.

Lemma process_put_conf e fuel sv cid qid mid a sv' reps :
  process_put e fuel sv cid qid mid a = Some (Ok (sv', reps)) -> same_tables_config (store sv) (store sv').
Proof.
  unfold process_put. destruct (kv_Allocate _ _ _ _) as [[s v]|] eqn:E; [|done]. apply kv_Allocate_conf in E as [E1 E2].
  case_match; [intros [= <- _]; by rewrite post_recv_conf|].
  destruct (Insert _ _ _ _ _ _ _ _) as [[s2|]|] eqn:Ei; [|done..]. intros [= <- _]. rewrite post_recv_conf in Ei.
  apply Insert_conf in Ei as [E3 E4]. split; cbn [store set_store] in *; congruence.
Qed.

Lemma process_recv_conf e fuel cb sv cid qid a imm sv' reps :
  process_recv e fuel cb sv cid qid a imm = Some (Ok (sv', reps)) -> same_tables_config (store sv) (store sv').
Proof.
  unfold process_recv. case_match.
  - intros [= (c & _ & [= <- _])%outcome_bind_Ok]. by rewrite post_recv_conf.
  - case_match; [by intros [= <- _]|]. apply process_put_conf.
Qed.

Lemma pre_post_conf rs n : forall sv cid qid sv', pre_post rs n sv cid qid = Ok sv' ->
  same_tables_config (store sv) (store sv').
Proof.
  induction n as [|n IH]; intros sv cid qid sv'; cbn [pre_post]; [by intros [= <-]|]. case_match.
  - intros ([s a] & [E1 E2]%kv_Allocate_conf & [E3 E4]%IH)%outcome_bind_Ok. rewrite post_recv_conf in *.
    split; cbn [store set_store] in *; congruence.
  - intros [E3 E4]%IH. by rewrite post_recv_conf in *.
Qed.

Lemma srv_step_config st reps st' : srv_step st reps st' -> config (store (sys_sv st')) = config (store (sys_sv st)).
Proof.
  intros [cid qid imm d key e fuel cb sv1 a sv2 sv3 reps0 Hq Hk Hf Ht Hr Hp
    |cid qid mid words crc_on e sv1 a sv2 wr key value [Hc _] Ht Hg Hk
    |f rest n Hf Hs|f rest Hf Hs Ha|f rest e r sv' Hf _ Hg|cid qid words mid r sv1 a sv2 reps0 [Hc _] Ht Hk Hg
    |cid e fuel cb sv1 a sv2 reps0 Ht Hr|cid qid|cid qid sv1 a Ht|cid qid rs sv' Hc Hl Hp|es rs fuel r cid qid s' He
    |fl_id p' a Hid Ha]; unfold after_get; cbn [sys_sv]; try done; try apply take_recv_store in Ht as Et.
  - apply recv_page_Ok in Hr as [_ E2]. rewrite <- Et. apply process_recv_conf in Hp as [-> _]. by rewrite E2.
  - cbn [store set_meta] in Et. rewrite <- Et, <- (post_recv_conf sv1 cid qid 0). revert Hg. unfold process_get_begin.
    intros ([s x] & H & [= <- _ _ _])%outcome_bind_Ok. cbn [store set_store].
    revert H. by case_match; [intros [-> _]%Remove_conf|intros [-> _]%GetWithFlag_conf].
  - revert Hg. unfold process_get_end. case_match; [|by intros [= <-]]. case_match.
    + intros (s & [E _]%kv_Free_conf & [= <-])%outcome_bind_Ok. done.
    + intros ([s v] & [E _]%GetWithFlag_conf & [= <-])%outcome_bind_Ok. done.
  - cbn [store set_meta] in Et. rewrite <- Et, <- (post_recv_conf sv1 cid qid 0). revert Hg. unfold process_invalidate_page.
    intros ([s v] & [E1 _]%Remove_conf & (s2 & H & [= <- _])%outcome_bind_Ok)%outcome_bind_Ok. cbn [store set_store].
    rewrite <- E1. revert H. case_match; [by intros [-> _]%kv_Free_conf|by intros [= ->]].
  - rewrite <- Et. by apply process_recv_conf in Hr as [-> _].
  - by rewrite post_recv_conf.
  - by rewrite Et.
  - by apply pre_post_conf in Hp as [-> _].
  - cbn [store set_store]. by apply Evict_conf in He as [-> _].
Qed.

Lemma srv_reachable_config st0 st : srv_reachable st0 st -> config (store (sys_sv st)) = config (store (sys_sv st0)).
Proof. induction 1 as [|st1 reps st2 _ IH Hs]; [done|]. apply srv_step_config in Hs. congruence. Qed.

(** A lost page stays lost. *)
Lemma lost_grows st reps st' a : srv_step st reps st' -> a ∈ lost st -> a ∈ lost st'.
Proof. intros [] Ha; unfold after_get; cbn [lost]; rewrite ?elem_of_app; auto. Qed.

Lemma lost_reachable st st' a : srv_reachable st st' -> a ∈ lost st -> a ∈ lost st'.
Proof. induction 1 as [|st1 reps st2 _ IH Hs]; [done|]. intros Ha. eapply lost_grows; [exact Hs|auto]. Qed.

(** ** The daemon at start *)

Definition srv_start s0 (base : nat -> Z) : sys := Sys (Server s0 ∅ ∅ base ∅) [] [] ∅.

Lemma srv_start_inv pages s0 base :
  kv_inv false pages [] s0 -> (forall k, kv_lookup s0 k = None) -> srv_inv pages (srv_start s0 base).
Proof.
  intros Hi Hn. split; cbn [sys_sv flights lost last srv_start store slots].
  - eapply kv_inv_perm; [|exact Hi]. unfold held, flying, posted_pages.
    cbn [sys_sv flights lost srv_start store recvs]. rewrite map_to_list_empty. by case_match.
  - intros k a. by rewrite Hn.
  - by intros f ?%not_elem_of_nil.
  - intros c q. unfold posted. cbn [recvs]. rewrite lookup_empty. cbn. done.
Qed.
End server_props.
