(* ===== verification/ServerSpec.v ===== *)
(** * ServerSpec: the properties of the daemon

    The statements proved of the daemon's handlers and pollers, for any table that
    satisfies [IHash], with instances at the daemon's own table. *)
From S2P Require Import Prelude Keys Wire Crc HashFuncs Ihash LinearProbing CountingBloom Config PercpuPool Kv KvProps KvSpec Server ServerProps.

Section server_theorems.
Context {T : Type} `{IT : IHash T}.
Implicit Types (sv : server T) (s : KV T) (st : sys (T := T)) (key value a : Z) (cid qid : nat).

(** A daemon that has started: its store is built and no queue is connected. The
    memory pool does not begin at address 0. *)
Record daemon_start (new_table : Z -> T) cfg rc ptr num_hash num_bits u base st : Prop := {
  ds_ok : pool_config_ok cfg rc ptr;
  ds_ptr : 0 < ptr;
  ds_type : ht_type cfg = HT_LP_APPROX;
  ds_shards : (0 < num_ht_shards cfg)%nat;
  ds_bits : 0 < num_bits < 2 ^ 32;
  ds_wf : ih_wf (new_table (table_capacity (mem_pool_size cfg)));
  ds_empty : ih_map (new_table (table_capacity (mem_pool_size cfg))) = ∅;
  ds_make : exists s0, mkKV new_table cfg rc ptr num_hash num_bits u = Ok s0 /\ st = srv_start s0 base;
}.

Lemma init_pages_pos cfg rc ptr : 0 < ptr -> ~ 0 ∈ init_pages cfg rc ptr.
Proof. intros Hp. unfold init_pages. intros (k & _ & E)%slots_elem. unfold SLOT_SIZE in E. lia. Qed.

Lemma init_pages_nodup cfg rc ptr : NoDup (init_pages cfg rc ptr).
Proof. apply slots_nodup. Qed.

Lemma daemon_start_inv new_table cfg rc ptr nh nb u base st :
  daemon_start new_table cfg rc ptr nh nb u base st -> srv_inv (init_pages cfg rc ptr) st.
Proof.
  intros [H1 H2 H3 H4 H5 H6 H7 (s0 & E & ->)].
  destruct (mkKV_inv (exact := false) new_table cfg rc ptr nh nb u H1 H3 H4 H5 H6 H7) as (s1 & E1 & Hi & _ & _ & Hn).
  rewrite E in E1. injection E1 as <-. by apply srv_start_inv.
Qed.

Lemma daemon_inv new_table cfg rc ptr nh nb u base st0 st :
  daemon_start new_table cfg rc ptr nh nb u base st0 -> srv_reachable st0 st -> srv_inv (init_pages cfg rc ptr) st.
Proof.
  intros Hs. apply srv_reachable_inv; [|apply init_pages_nodup|by eapply daemon_start_inv].
  apply init_pages_pos, Hs.
Qed.

(** ** Lemmas: what a get and an invalidation do *)

Lemma get_begin_posts pages st cid qid mid words crc_on e sv1 a sv2 wr key value :
  srv_inv pages st ->
  take_recv (set_meta (sys_sv st) words) cid qid = Some (sv1, a) ->
  process_get_begin crc_on e (post_recv sv1 cid qid 0) cid qid mid = Ok (sv2, wr, key, value) ->
  client_key cid key ->
  key = get_key (set_meta (sys_sv st) words) cid qid mid /\ slots sv2 = slots (sys_sv st) /\
  config (store sv2) = config (store (sys_sv st)) /\
  let raddr := get_raddr (set_meta (sys_sv st) words) cid qid mid in
  (exists d, kv_lookup (store (sys_sv st)) key = Some value /\ value <> NONE /\ last st !! key = Some d /\
     slot_at (sys_sv st) value = Slot d key /\ wr = SendWr (committed crc_on mid d) (Some value) raddr) \/
  (kv_lookup (store (sys_sv st)) key = None /\ value = NONE /\ wr = SendWr (aborted mid) None raddr).
Proof.
  intros Hi Ht Hg Hck.
  destruct (consume_recv st words cid qid sv1 a (vi_len _ _ Hi) Ht) as (Es & Esl & _ & Em & Eb & _).
  set (sv0 := post_recv sv1 cid qid 0) in *.
  assert (get_key sv0 cid qid mid = get_key (set_meta (sys_sv st) words) cid qid mid) as Ek.
  { unfold get_key, load64. by rewrite Es, Em, Eb. }
  assert (get_raddr sv0 cid qid mid = get_raddr (set_meta (sys_sv st) words) cid qid mid) as Era.
  { unfold get_raddr, load64. by rewrite Es, Em, Eb. }
  assert (get_key sv0 cid qid mid = key) as Ekey.
  { revert Hg. unfold process_get_begin. fold (get_key sv0 cid qid mid).
    by intros ([s x] & _ & [= _ _ <- _])%outcome_bind_Ok. }
  assert (kv_inv false pages (held st) (store sv0)) as Hkv by (rewrite Es; apply Hi).
  destruct (process_get_begin_ok _ _ crc_on e sv0 cid qid mid Hkv) as (s2 & E & _ & _ & _ & Ec & _); [by rewrite Ekey|].
  rewrite E in Hg. injection Hg as Esv Ewr _ Evalue. subst wr value sv2. rewrite Ekey, Es, Era.
  split; [congruence|]. split; [done|]. split; [cbn [store set_store]; congruence|]. cbv zeta.
  destruct (kv_lookup (store (sys_sv st)) key) as [v|] eqn:El; [left|by right].
  destruct (vi_data _ _ Hi key v El) as (d & Hsl & Hla). exists d. cbn [default from_option id].
  rewrite Es in Hkv. destruct (lookup_page _ _ _ _ _ Hkv El) as (_ & Hn & _).
  assert (slot_at (sys_sv st) v = Slot d key) as Esa by (unfold slot_at; by rewrite Hsl).
  split_and!; try done. unfold get_wr, slot_at. by rewrite Esl, Hsl.
Qed.

(** The reply to a get, with the exclusive policy. *)
Lemma get_begin_last pages st cid qid mid words crc_on e sv1 a sv2 wr key value rep :
  ~ 0 ∈ pages -> NoDup pages -> srv_inv pages st -> exclusive_policy (config (store (sys_sv st))) = true ->
  take_recv (set_meta (sys_sv st) words) cid qid = Some (sv1, a) ->
  process_get_begin crc_on e (post_recv sv1 cid qid 0) cid qid mid = Ok (sv2, wr, key, value) ->
  client_key cid key ->
  get_answer (after_get st sv2 a cid qid key value wr) (new_flight sv2 cid qid key value wr) rep ->
  key = get_key (set_meta (sys_sv st) words) cid qid mid /\
  let raddr := get_raddr (set_meta (sys_sv st) words) cid qid mid in
  (exists d, kv_lookup (store (sys_sv st)) key = Some value /\ last st !! key = Some d /\
     rep = Reply (committed crc_on mid d) (PagePayload d) raddr) \/
  (kv_lookup (store (sys_sv st)) key = None /\ value = NONE /\ rep = Reply (aborted mid) NoPayload raddr).
Proof.
  intros H0 Hnd Hi Hx Ht Hg Hck Hans.
  destruct (get_begin_posts _ _ _ _ _ _ _ _ _ _ _ _ _ _ Hi Ht Hg Hck) as (Ek & Esl & Ec & Hor). split; [done|].
  cbv zeta in Hor |- *. destruct Hor as [(d & Hlk & Hn & Hla & Hsl & ->)|(Hlk & -> & ->)].
  - left. exists d. split; [done|]. split; [done|]. inversion Hans as [Hv|st2 f _ Hr Hf Hsame Hsf Hall]; [done|]. subst rep.
    assert (cid < num_clients (config (store (sys_sv st))))%nat as Hc.
    { destruct (lookup_page _ _ _ _ _ (vi_kv _ _ Hi) Hlk) as (_ & _ & _ & H). destruct Hck as [_ <-]. done. }
    pose proof (get_inv _ _ _ _ _ _ _ _ _ _ _ _ _ _ Hi Hc Ht Hg Hck) as Hi1.
    pose proof (srv_reachable_inv _ _ _ H0 Hnd Hi1 Hr) as Hi2.
    destruct Hsame as (_ & _ & _ & _ & Ew & Ed). cbn [f_wr f_data new_flight] in Ew, Ed.
    unfold sent_reply. rewrite Ew, (all_read_data pages st2 f), Ed; try done.
    + unfold slot_at in *. by rewrite Esl, Hsl.
    + rewrite (srv_reachable_config _ _ Hr). unfold after_get. cbn [sys_sv]. by rewrite Ec.
  - right. by inversion Hans.
Qed.

Lemma invalidate_last pages st crc_on e r words sv1 a cid qid mid :
  srv_inv pages st ->
  data_queue (sys_sv st) cid qid -> u_ok 12 mid ->
  take_recv (set_meta (sys_sv st) words) cid qid = Some (sv1, a) ->
  let key := inv_key (set_meta (sys_sv st) words) cid qid mid in
  client_key cid key ->
  exists sv2, process_imm crc_on e r sv1 cid qid (htonl (Driver.bit_mask mid MSG_INV_PAGE TX_INV_PAGE_BEGIN 0 0)) =
      Ok (sv2, inv_replies (sys_sv st) mid (bool_decide (is_Some (kv_lookup (store (sys_sv st)) key)))) /\
    forall k, kv_lookup (store sv2) k = if decide (k = key) then None else kv_lookup (store (sys_sv st)) k.
Proof.
  intros Hi [Hc _] Hm Ht key Hk.
  destruct (consume_recv st words cid qid sv1 a (vi_len _ _ Hi) Ht) as (Es & _ & _ & Em & Eb & _).
  set (sv0 := post_recv sv1 cid qid 0) in *.
  assert (inv_key sv0 cid qid mid = key) as Ek by (unfold key, inv_key, load64; by rewrite Es, Em, Eb).
  assert (kv_inv false pages (held st) (store sv0)) as Hkv by (rewrite Es; apply Hi).
  destruct (process_invalidate_ok _ _ r sv0 cid qid mid Hkv) as (s2 & E & _ & Hlk & _); [by rewrite Ek|by rewrite Es|].
  unfold process_imm.
  destruct (unmask_sent mid MSG_INV_PAGE TX_INV_PAGE_BEGIN 0 0) as [-> _]; [done|done|done|by apply u_ok_lt|by apply u_ok_lt|].
  cbn [i_msg i_mid]. fold sv0. exists (set_store sv0 s2). rewrite Ek in *. unfold inv_replies in *. rewrite Es in *.
  split; [exact E|exact Hlk].
Qed.

(** ** Lemmas: the order of the global poller *)

Lemma global_poll_reaches ready n d : forall fuel idx,
  (0 < n)%nat -> (idx < n)%nat -> (d < fuel)%nat -> ready ((idx + d) mod n)%nat = true ->
  exists j, (j <= d)%nat /\
    global_poll ready n fuel idx = Some (((idx + j) mod n)%nat, (S (idx + j) mod n)%nat).
Proof.
  induction d as [|d IH]; intros fuel idx Hn Hi Hf Hr; (destruct fuel as [|fuel]; [lia|]); cbn [global_poll].
  - rewrite Nat.add_0_r, Nat.mod_small in Hr by done. exists 0%nat. rewrite Hr, Nat.add_0_r, (Nat.mod_small idx) by done.
    by split.
  - destruct (ready idx) eqn:E.
    { exists 0%nat. rewrite Nat.add_0_r, (Nat.mod_small idx) by done. split; [lia|done]. }
    assert (forall k, ((S idx mod n + k) mod n = (idx + S k) mod n)%nat) as Em.
    { intros k. rewrite Nat.Div0.add_mod_idemp_l. f_equal. lia. }
    destruct (IH fuel (S idx mod n)%nat) as (j & Hj & Ep); [done|apply Nat.mod_upper_bound; lia|lia|by rewrite Em|].
    exists (S j). split; [lia|]. rewrite Ep, Em. do 2 f_equal.
    rewrite <- (Nat.add_1_r (S idx mod n + j)), <- Nat.add_assoc, Em. f_equal. lia.
Qed.

(** The clients served by [k] successive polls that find a completion; [readys j]
    tells who has one at the [j]-th poll. *)
Fixpoint served (readys : nat -> nat -> bool) (n k idx : nat) : list nat :=
  match k with
  | O => []
  | S k =>
      match global_poll (readys 0%nat) n n idx with
      | None => []
      | Some (c, next) => c :: served (fun j => readys (S j)) n k next
      end
  end.

Lemma served_reaches c n d : forall readys k idx,
  (0 < n)%nat -> (idx < n)%nat -> (d < k)%nat -> (d < n)%nat -> ((idx + d) mod n = c)%nat ->
  (forall j, readys j c = true) -> c ∈ served readys n k idx.
Proof.
  induction d as [d IH] using lt_wf_ind. intros readys k idx Hn Hi Hk Hd Hc Hr.
  destruct k as [|k]; [lia|]. cbn [served].
  destruct (global_poll_reaches (readys 0%nat) n d n idx Hn Hi Hd) as (j & Hj & ->); [by rewrite Hc|].
  destruct (decide (j = d)) as [->|Hne]; [rewrite Hc; left|]. right.
  apply (IH (d - j - 1)%nat); [lia|done|apply Nat.mod_upper_bound; lia|lia|lia| |intros i; apply Hr].
  rewrite Nat.Div0.add_mod_idemp_l, <- Hc. f_equal. lia.
Qed.

(** ** Properties *)

(** C7: Each page of the pool is in exactly one place at any time: a free list, a table, a posted
    receive, the hands of a handler that is sending it (exclusive policy), or lost with a receive that a
    message without page consumed. The card can write into posted pages only, so no stored page can be
    overwritten by an incoming put; and with the exclusive policy, the default, no page being sent either: its
    slot holds the pair it held when its reply was posted. (With the inclusive policy a page being sent stays in
    the table and is protected only as long as nobody removes its key, see [inclusive_sent_page_freed].) *)
Theorem server_pages_partitioned new_table cfg rc ptr nh nb u base st0 st :
  daemon_start new_table cfg rc ptr nh nb u base st0 -> srv_reachable st0 st ->
  let s := store (sys_sv st) in
  let all := free_pages (pool s) ++ table_pages s ++ posted_pages (sys_sv st) ++ flying st ++ lost st in
  all ≡ₚ init_pages cfg rc ptr /\ NoDup all /\
  (exclusive_policy (config s) = true ->
   flying st = f_value <$> flights st /\
   forall f, f ∈ flights st -> slots (sys_sv st) !! f_value f = Some (Slot (f_data f) (f_key f))).
Proof.
  intros Hs Hr s all. pose proof (daemon_inv _ _ _ _ _ _ _ _ _ _ Hs Hr) as Hi.
  pose proof (pi_pages _ _ _ (ki_pool _ _ _ (vi_kv _ _ Hi))) as P. unfold held in P. split; [exact P|]. split.
  - unfold all, s. rewrite P. apply init_pages_nodup.
  - intros Hx. split; [unfold flying; subst s; by rewrite Hx|]. intros f Hf. by apply (vi_flights _ _ Hi f Hf).
Qed.

(** C8: With the exclusive policy, the default, a get returns the page of the last put accepted for its
    key: in every reachable state, whatever puts, gets, invalidations, evictions and borrowings have happened on all
    queues before and happen while the card is still reading the page, what the client receives either is the
    data of that put (the last one when the request was served) and its checksum, with the state COMMITTED, at the
    address of the request, or the key is not stored and the reply is ABORTED without data. *)
Theorem get_returns_last_put new_table cfg rc ptr nh nb u base st0 st cid qid mid words crc_on e sv1 a sv2 wr key value rep :
  daemon_start new_table cfg rc ptr nh nb u base st0 -> srv_reachable st0 st ->
  exclusive_policy (config (store (sys_sv st))) = true ->
  take_recv (set_meta (sys_sv st) words) cid qid = Some (sv1, a) ->
  process_get_begin crc_on e (post_recv sv1 cid qid 0) cid qid mid = Ok (sv2, wr, key, value) ->
  client_key cid key ->
  get_answer (after_get st sv2 a cid qid key value wr) (new_flight sv2 cid qid key value wr) rep ->
  key = get_key (set_meta (sys_sv st) words) cid qid mid /\
  let raddr := get_raddr (set_meta (sys_sv st) words) cid qid mid in
  (exists d, kv_lookup (store (sys_sv st)) key = Some value /\ last st !! key = Some d /\
     rep = Reply (committed crc_on mid d) (PagePayload d) raddr) \/
  (kv_lookup (store (sys_sv st)) key = None /\ value = NONE /\ rep = Reply (aborted mid) NoPayload raddr).
Proof.
  intros Hs Hr. apply (get_begin_last (init_pages cfg rc ptr)); [|apply init_pages_nodup|by eapply daemon_inv].
  apply init_pages_pos, Hs.
Qed.

(** The daemon can always finish a get with the exclusive policy: the card reads the rest of the page, the
    completion arrives, and the reply is the one of [get_returns_last_put]. *)
Theorem get_answered new_table cfg rc ptr nh nb u base st0 st f :
  daemon_start new_table cfg rc ptr nh nb u base st0 -> srv_reachable st0 st -> f ∈ flights st -> f_sent f = false ->
  exists st1 f1 st2, srv_step st [] st1 /\ f1 ∈ flights st1 /\ same_get f f1 /\ all_read (sys_sv st1) f1 /\
    srv_step st1 [sent_reply f1] st2.
Proof.
  intros _ _ Hf Hs. apply elem_of_Permutation in Hf as [rest Hf].
  pose (n := length (s_data (slot_at (sys_sv st) (f_value f)))). set (f1 := read_more (sys_sv st) n f).
  assert (all_read (sys_sv st) f1) as Ha.
  { unfold all_read, f1, read_more. cbn [f_buf f_value]. apply drop_ge. rewrite length_app, length_take, length_drop. lia. }
  exists (Sys (sys_sv st) (f1 :: rest) (lost st) (last st)), f1, (Sys (sys_sv st) (mark_sent f1 :: rest) (lost st) (last st)).
  split; [by apply SRead|]. split; [left|]. split; [done|]. split; [done|].
  by apply (SSent (Sys (sys_sv st) (f1 :: rest) (lost st) (last st)) f1 rest).
Qed.

(** With the exclusive policy the page of a get stays intact until the reply has been sent: the
    slot still holds the pair that was read, and it is neither posted, stored nor free. *)
Theorem sent_page_stable new_table cfg rc ptr nh nb u base st0 st f :
  daemon_start new_table cfg rc ptr nh nb u base st0 -> srv_reachable st0 st ->
  exclusive_policy (config (store (sys_sv st))) = true -> f ∈ flights st ->
  slots (sys_sv st) !! f_value f = Some (Slot (f_data f) (f_key f)) /\
  ~ f_value f ∈ free_pages (pool (store (sys_sv st))) /\ ~ f_value f ∈ table_pages (store (sys_sv st)) /\
  ~ f_value f ∈ posted_pages (sys_sv st).
Proof.
  intros Hs Hr Hx Hf. pose proof (daemon_inv _ _ _ _ _ _ _ _ _ _ Hs Hr) as Hi.
  split; [by apply (vi_flights _ _ Hi f Hf)|].
  assert (f_value f ∈ flying st) as Hin by (unfold flying; rewrite Hx; apply list_elem_of_fmap; by exists f).
  pose proof (init_pages_nodup cfg rc ptr) as Hn. rewrite <- (pi_pages _ _ _ (ki_pool _ _ _ (vi_kv _ _ Hi))) in Hn.
  unfold held in Hn. apply NoDup_app in Hn as (_ & N1 & Hn). apply NoDup_app in Hn as (_ & N2 & Hn).
  apply NoDup_app in Hn as (_ & N3 & _).
  split; [|split]; intros Hc; [apply (N1 _ Hc)|apply (N2 _ Hc)|apply (N3 _ Hc)]; rewrite !elem_of_app; auto.
Qed.

(** With the inclusive policy it does not: an invalidation of the key from any queue, or thread, puts
    the page back on a free list while its reply is still being sent, from where a put can receive into it. *)
Theorem inclusive_sent_page_freed new_table cfg rc ptr nh nb u base st0 st f r cid qid mid :
  daemon_start new_table cfg rc ptr nh nb u base st0 -> srv_reachable st0 st ->
  exclusive_policy (config (store (sys_sv st))) = false -> f ∈ flights st ->
  kv_lookup (store (sys_sv st)) (f_key f) = Some (f_value f) ->
  (cid < num_clients (config (store (sys_sv st))))%nat -> client_key cid (f_key f) ->
  inv_key (sys_sv st) cid qid mid = f_key f ->
  exists sv2 reps, process_invalidate_page r (sys_sv st) cid qid mid = Ok (sv2, reps) /\
    f_value f ∈ free_pages (pool (store sv2)).
Proof.
  intros Hs Hr Hx Hf Hlk Hc [Hv Hk] Ek. pose proof (daemon_inv _ _ _ _ _ _ _ _ _ _ Hs Hr) as Hi.
  pose proof (vi_kv _ _ Hi) as Hkv. destruct (lookup_page _ _ _ _ _ Hkv Hlk) as (Ht & Hn & _).
  pose proof (init_pages_nodup cfg rc ptr) as Hnd. set (s := store (sys_sv st)) in *.
  destruct (Remove_lemma _ _ s (f_key f) qid Hkv Hv) as (s1 & E & Hi1 & _ & Ec & _). rewrite Hk, Hlk in E.
  cbn [default from_option id] in E. rewrite Hlk in Hi1. cbn [option_list app] in Hi1.
  destruct (step_free _ _ s1 (f_value f) cid None r Hi1) as (s2 & E2 & Hi2 & _ & [_ _ Eh] & _); [by rewrite Ec|done|].
  unfold process_invalidate_page. fold (inv_key (sys_sv st) cid qid mid) s. rewrite Ek, E. obind.
  rewrite (proj2 (Z.eqb_neq _ _) Hn). cbn [negb]. rewrite E2. obind. eexists _, _. split; [done|]. cbn [store set_store].
  assert (table_pages s2 = table_pages s1) as Et by (unfold table_pages, stored; by rewrite Eh).
  pose proof (pi_pages _ _ _ (ki_pool _ _ _ Hi1)) as P1. pose proof (pi_pages _ _ _ (ki_pool _ _ _ Hi2)) as P2.
  rewrite Et in P2. assert (f_value f ∈ init_pages cfg rc ptr) as Hin by (eapply held_in_pages; [exact Hi1|left]).
  rewrite <- P1 in Hnd. apply NoDup_app in Hnd as (_ & _ & (_ & N2 & (N3 & _)%NoDup_cons)%NoDup_app).
  rewrite <- P2, !elem_of_app in Hin. destruct Hin as [Hin|[Hin|Hin]]; [done| |done].
  exfalso. apply (N2 _ Hin). left.
Qed.

(** A put that reaches a posted page always completes: no exception, no endless loop; the
    acknowledgement is sent exactly for the last message of a round. If the pool had a replacement page, the key now
    maps to the received page or is absent (refused); if not, the page is posted again and the key keeps its old page,
    if it has one. *)
Theorem put_completes new_table cfg rc ptr nh nb u base st0 st cid qid imm d key e fuel cb sv1 a sv2 :
  daemon_start new_table cfg rc ptr nh nb u base st0 -> srv_reachable st0 st ->
  data_queue (sys_sv st) cid qid -> client_key cid key -> (2 <= fuel)%nat ->
  take_recv (sys_sv st) cid qid = Some (sv1, a) -> recv_page sv1 a d key = Ok sv2 ->
  exists sv3, process_recv e fuel cb sv2 cid qid a imm =
      Some (Ok (sv3, put_replies sv2 e (i_mid (bit_unmask (ntohl imm))))) /\
    (accepted sv2 cid e = true -> kv_lookup (store sv3) key = Some a \/ kv_lookup (store sv3) key = None) /\
    (accepted sv2 cid e = false ->
       forall v, kv_lookup (store sv3) key = Some v -> kv_lookup (store (sys_sv st)) key = Some v).
Proof.
  intros Hs Hr H1 H2 H3 H4 H5. pose proof (daemon_inv _ _ _ _ _ _ _ _ _ _ Hs Hr) as Hi.
  destruct (put_receive _ st cid qid imm d key e fuel cb sv1 a sv2 (init_pages_pos cfg rc ptr (ds_ptr _ _ _ _ _ _ _ _ _ Hs))
    (init_pages_nodup cfg rc ptr) Hi H1 H2 H3 H4 H5) as (sv3 & E & _ & Ha & Hb). by exists sv3.
Qed.

(** A put that finds the pool empty is acknowledged like any other, but its page is dropped: every key, its own
    too, keeps the page it had, so a later get returns the older version. *)
Theorem refused_put_keeps_older e fuel sv cid qid mid a sv' reps :
  process_put e fuel sv cid qid mid a = Some (Ok (sv', reps)) -> accepted sv cid e = false ->
  (forall k, kv_lookup (store sv') k = kv_lookup (store sv) k) /\ slots sv' = slots sv /\ reps = put_replies sv e mid.
Proof.
  unfold process_put, accepted, kv_Allocate. destruct (Allocate (pool (store sv)) cid None (pe_alloc e)) as [[p v]|m]; obind; [|done].
  destruct (v =? INVALID); [|done]. intros [= <- <-] _.
  destruct (post_recv_same (set_store sv (set_pool (store sv) p)) cid qid a) as (Es & El & _). rewrite El.
  unfold put_replies. rewrite Es. by split_and!.
Qed.

(** After an invalidation request the key maps to nothing, whether it was stored or not, every other
    key is as before, and the reply, sent for the last message of a round only, tells whether the key was stored. The
    request is the one the driver builds: the key in its slot of the metadata region, and an immediate word with the
    message number. *)
Theorem invalidate_forgets new_table cfg rc ptr nh nb u base st0 st crc_on e r words sv1 a cid qid mid :
  daemon_start new_table cfg rc ptr nh nb u base st0 -> srv_reachable st0 st ->
  data_queue (sys_sv st) cid qid -> u_ok 12 mid ->
  take_recv (set_meta (sys_sv st) words) cid qid = Some (sv1, a) ->
  let key := inv_key (set_meta (sys_sv st) words) cid qid mid in
  client_key cid key ->
  exists sv2, process_imm crc_on e r sv1 cid qid (htonl (Driver.bit_mask mid MSG_INV_PAGE TX_INV_PAGE_BEGIN 0 0)) =
      Ok (sv2, inv_replies (sys_sv st) mid (bool_decide (is_Some (kv_lookup (store (sys_sv st)) key)))) /\
    forall k, kv_lookup (store sv2) k = if decide (k = key) then None else kv_lookup (store (sys_sv st)) k.
Proof. intros Hs Hr. apply (invalidate_last (init_pages cfg rc ptr)). by eapply daemon_inv. Qed.

(** A page posted on a queue that then receives a get is lost for good: the receive that carried it
    is consumed by a message without page and replaced by a receive without buffer, so in no later state is the
    page free, stored or posted. The daemon posts its pages on all data queues, although clients send pages on the
    first one only. *)
Theorem get_loses_posted_page new_table cfg rc ptr nh nb u base st0 st st1 st2 cid qid mid words crc_on e sv1 a sv2 wr key value :
  daemon_start new_table cfg rc ptr nh nb u base st0 -> srv_reachable st0 st ->
  data_queue (sys_sv st) cid qid ->
  take_recv (set_meta (sys_sv st) words) cid qid = Some (sv1, a) -> is_slot a = true ->
  process_get_begin crc_on e (post_recv sv1 cid qid 0) cid qid mid = Ok (sv2, wr, key, value) ->
  client_key cid key -> st1 = after_get st sv2 a cid qid key value wr ->
  srv_reachable st1 st2 ->
  ~ a ∈ free_pages (pool (store (sys_sv st2))) /\ ~ a ∈ table_pages (store (sys_sv st2)) /\
  ~ a ∈ posted_pages (sys_sv st2).
Proof.
  intros Hs Hr Hq Ht Ha Hg Hck E1 Hr2.
  pose proof (daemon_inv _ _ _ _ _ _ _ _ _ _ Hs Hr) as Hi.
  assert (srv_inv (init_pages cfg rc ptr) st1) as Hi1 by (subst st1; eapply get_inv; [exact Hi|apply Hq|done..]).
  assert (srv_inv (init_pages cfg rc ptr) st2) as Hi2.
  { eapply srv_reachable_inv; [|apply init_pages_nodup|exact Hi1|exact Hr2]. apply init_pages_pos, Hs. }
  assert (a ∈ lost st2) as Hl.
  { eapply lost_reachable; [exact Hr2|]. subst st1. unfold after_get. cbn [lost]. rewrite slots_in_slot by done. left. }
  pose proof (init_pages_nodup cfg rc ptr) as Hn. rewrite <- (pi_pages _ _ _ (ki_pool _ _ _ (vi_kv _ _ Hi2))) in Hn.
  unfold held in Hn. apply NoDup_app in Hn as (_ & N1 & Hn). apply NoDup_app in Hn as (_ & N2 & Hn).
  apply NoDup_app in Hn as (_ & N3 & _).
  split; [|split]; intros Hc; [apply (N1 _ Hc)|apply (N2 _ Hc)|apply (N3 _ Hc)]; rewrite !elem_of_app; auto.
Qed.

(** When a queue is connected, exactly 4095 receives are posted on it, with whatever the pool gives;
    nothing that is stored changes. *)
Theorem connect_posts new_table cfg rc ptr nh nb u base st0 st cid qid rs :
  daemon_start new_table cfg rc ptr nh nb u base st0 -> srv_reachable st0 st ->
  (cid < num_clients (config (store (sys_sv st))))%nat -> (length (posted (sys_sv st) cid qid) <= 1)%nat ->
  exists sv', pre_post_recvs rs (sys_sv st) cid qid = Ok sv' /\
    Z.of_nat (length (posted sv' cid qid)) = Z.of_nat (length (posted (sys_sv st) cid qid)) + 4095 /\
    (forall k, kv_lookup (store sv') k = kv_lookup (store (sys_sv st)) k).
Proof.
  intros Hs Hr Hc Hl. pose proof (daemon_inv _ _ _ _ _ _ _ _ _ _ Hs Hr) as Hi.
  destruct (pre_post_inv (init_pages cfg rc ptr) cid qid rs (Z.to_nat MAX_QPS_RECVS)
    (init_pages_pos cfg rc ptr (ds_ptr _ _ _ _ _ _ _ _ _ Hs)) st Hi Hc) as (sv' & E & _ & Hlen & Hlk).
  { unfold MAX_QPS_RECVS, QP_MAX_RECV_WR, QP_MAX_SEND_WR. lia. }
  exists sv'. split; [exact E|]. split; [|done]. rewrite Hlen. unfold MAX_QPS_RECVS, QP_MAX_RECV_WR, QP_MAX_SEND_WR. lia.
Qed.

(** Fairness of the global poller: wherever the poller stands and whoever else has completions, a client
    that has one is among the next [client_ctr] clients served. *)
Theorem global_poll_fair c n idx (readys : nat -> nat -> bool) :
  (c < n)%nat -> (idx < n)%nat -> (forall j, readys j c = true) -> c ∈ served readys n n idx.
Proof.
  intros Hc Hi Hr. apply (served_reaches c n ((c + n - idx) mod n)%nat); try done; try lia.
  - apply Nat.mod_upper_bound. lia.
  - apply Nat.mod_upper_bound. lia.
  - rewrite Nat.Div0.add_mod_idemp_r. replace (idx + (c + n - idx))%nat with (c + 1 * n)%nat by lia.
    rewrite Nat.Div0.mod_add. by apply Nat.mod_small.
Qed.
End server_theorems.

(** ** Witnesses: client 1 connects its queue 0, puts a page and gets it back *)

Section defaults.
Context {A : Type}.
Definition from_ok (d : A) (o : outcome A) : A := match o with Ok x => x | Throw _ => d end.
Definition is_ok (o : outcome A) : bool := match o with Ok _ => true | Throw _ => false end.
Definition from_done (d : A) (o : option (outcome A)) : A := match o with Some (Ok x) => x | _ => d end.
Definition is_done (o : option (outcome A)) : bool := match o with Some (Ok _) => true | _ => false end.
Lemma from_ok_eq d o : is_ok o = true -> o = Ok (from_ok d o).
Proof. by destruct o. Qed.
Lemma from_done_eq d o : is_done o = true -> o = Some (Ok (from_done d o)).
Proof. by destruct o as [[|]|]. Qed.
Lemma default_eq (d : A) o : bool_decide (is_Some o) = true -> o = Some (default d o).
Proof. intros [x ->]%bool_decide_eq_true. done. Qed.
End defaults.

Definition w_base (_ : nat) : Z := 65536.
Definition w_st0 : sys := srv_start demo_start w_base.
Definition w_conn : server lpa := Eval vm_compute in from_ok (sys_sv w_st0) (pre_post_recvs (fun _ => 0) (sys_sv w_st0) 1 0).
Definition w_st1 : sys := Sys w_conn [] [] ∅.
Definition w_env : put_env := PutEnv (fun _ => demo_env) (fun _ => 5) 5 10.
Definition w_take : server lpa * Z := Eval vm_compute in default (w_conn, 0) (take_recv w_conn 1 0).
Definition w_page : list Z := [1; 2; 3].
Definition w_recv : server lpa := Eval vm_compute in from_ok w_conn (recv_page w_take.1 w_take.2 w_page demo_key).
Definition w_imm : Z := htonl (Driver.bit_mask 0 MSG_WRITE TX_WRITE_BEGIN 0 0).
Definition w_put : server lpa * list reply := Eval vm_compute in from_done (w_recv, []) (process_recv w_env 2 w_base w_recv 1 0 w_take.2 w_imm).
Definition w_st2 : sys := Sys w_put.1 [] [] (if accepted w_recv 1 w_env then <[demo_key := w_page]> ∅ else ∅).

Lemma w_start : daemon_start demo_table demo_config demo_rdma 4096 4 97 (fun _ => replicate 16 0) w_base w_st0.
Proof.
  split.
  - apply demo_ok.
  - lia.
  - reflexivity.
  - vm_compute. lia.
  - lia.
  - apply demo_table_wf.
  - apply demo_table_empty.
  - exists demo_start. split; [apply demo_start_eq|reflexivity].
Qed.

Lemma w_conn_eq : pre_post_recvs (fun _ => 0) (sys_sv w_st0) 1 0 = Ok w_conn.
Proof. vm_compute. reflexivity. Qed.
Lemma w_take_eq : take_recv w_conn 1 0 = Some (w_take.1, w_take.2).
Proof. vm_compute. reflexivity. Qed.
Lemma w_recv_eq : recv_page w_take.1 w_take.2 w_page demo_key = Ok w_recv.
Proof. vm_compute. reflexivity. Qed.
Lemma w_put_eq : process_recv w_env 2 w_base w_recv 1 0 w_take.2 w_imm = Some (Ok (w_put.1, w_put.2)).
Proof. vm_compute. reflexivity. Qed.

Lemma w_reach1 : srv_reachable w_st0 w_st1.
Proof.
  apply (SrvStep w_st0 w_st0 [] w_st1); [constructor|].
  apply (SConnect w_st0 1 0 (fun _ => 0) w_conn); [vm_compute; lia|vm_compute; lia|apply w_conn_eq].
Qed.

Lemma w_queue1 : data_queue (sys_sv w_st1) 1 0.
Proof. split; vm_compute; lia. Qed.
Lemma w_client : client_key 1 demo_key.
Proof. split; [apply demo_key_valid|vm_compute; reflexivity]. Qed.
Lemma w_reach2 : srv_reachable w_st0 w_st2.
Proof.
  apply (SrvStep w_st0 w_st1 w_put.2 w_st2); [apply w_reach1|].
  apply (SPut w_st1 1 0 w_imm w_page demo_key w_env 2 w_base w_take.1 w_take.2 w_recv w_put.1 w_put.2).
  - apply w_queue1.
  - apply w_client.
  - lia.
  - apply w_take_eq.
  - apply w_recv_eq.
  - apply w_put_eq.
Qed.

Example w_stored : kv_lookup (store (sys_sv w_st2)) demo_key = Some w_take.2.
Proof. vm_compute. reflexivity. Qed.

(** The get of that key, and the state in which its page is being sent. *)
Definition w_words : gmap Z Z := <[65536 := demo_key]> (<[65544 := 99]> (<[65552 := demo_key]> ∅)).
Definition w_take2 : server lpa * Z := Eval vm_compute in default (w_conn, 0) (take_recv (set_meta (sys_sv w_st2) w_words) 1 0).
Definition w_get : server lpa * send_wr * Z * Z :=
  from_ok (w_conn, SendWr 0 None 0, 0, 0) (process_get_begin true demo_env (post_recv w_take2.1 1 0 0) 1 0 0).
Definition w_flight : flight := new_flight w_get.1.1.1 1 0 w_get.1.2 w_get.2 w_get.1.1.2.
Definition w_st3 : sys := after_get w_st2 w_get.1.1.1 w_take2.2 1 0 w_get.1.2 w_get.2 w_get.1.1.2.
(** The card reads two bytes of the page, then the rest. *)
Definition w_flight1 : flight := read_more w_get.1.1.1 2 w_flight.
Definition w_flight2 : flight := read_more w_get.1.1.1 2 w_flight1.
Definition w_st4 : sys := Sys (sys_sv w_st3) (w_flight1 :: flights w_st2) (lost w_st3) (last w_st3).
Definition w_st5 : sys := Sys (sys_sv w_st3) (w_flight2 :: flights w_st2) (lost w_st3) (last w_st3).

Lemma w_take2_eq : take_recv (set_meta (sys_sv w_st2) w_words) 1 0 = Some (w_take2.1, w_take2.2).
Proof. vm_compute. reflexivity. Qed.
Lemma w_get_eq : process_get_begin true demo_env (post_recv w_take2.1 1 0 0) 1 0 0 =
  Ok (w_get.1.1.1, w_get.1.1.2, w_get.1.2, w_get.2).
Proof.
  assert (forall p : server lpa * send_wr * Z * Z, (p.1.1.1, p.1.1.2, p.1.2, p.2) = p) as -> by (by intros [[[? ?] ?] ?]).
  apply from_ok_eq. vm_compute. reflexivity.
Qed.
Lemma w_get_key : w_get.1.2 = demo_key.
Proof. vm_compute. reflexivity. Qed.
Lemma w_get_client : client_key 1 w_get.1.2.
Proof. rewrite w_get_key. apply w_client. Qed.
Lemma w_get_found : w_get.2 <> NONE.
Proof. vm_compute. congruence. Qed.
Lemma w_queue2 : data_queue (sys_sv w_st2) 1 0.
Proof. split; vm_compute; lia. Qed.

Lemma w_flights3 : flights w_st3 = w_flight :: flights w_st2.
Proof. unfold w_st3, after_get. cbn [flights]. by rewrite decide_False by apply w_get_found. Qed.

Lemma w_reach3 : srv_reachable w_st0 w_st3.
Proof.
  eapply SrvStep; [apply w_reach2|].
  exact (SGet w_st2 1 0 0 w_words true demo_env w_take2.1 w_take2.2 w_get.1.1.1 w_get.1.1.2 w_get.1.2 w_get.2
    w_queue2 w_take2_eq w_get_eq w_get_client).
Qed.

Lemma w_answer : get_answer w_st3 w_flight (sent_reply w_flight2).
Proof.
  apply (AnswerHit w_st3 w_flight w_st5 w_flight2).
  - apply w_get_found.
  - apply (SrvStep w_st3 w_st4 []).
    + apply (SrvStep w_st3 w_st3 []); [constructor|].
      apply (SRead w_st3 w_flight (flights w_st2) 2); [by rewrite w_flights3|done].
    + by apply (SRead w_st4 w_flight1 (flights w_st2) 2).
  - left.
  - done.
  - done.
  - vm_compute. reflexivity.
Qed.
Example w_received : sent_reply w_flight2 = Reply (committed true 0 w_page) (PagePayload w_page) 99.
Proof. vm_compute. reflexivity. Qed.

Lemma server_pages_partitioned_witness :
  let s := store (sys_sv w_st3) in
  let all := free_pages (pool s) ++ table_pages s ++ posted_pages (sys_sv w_st3) ++ flying w_st3 ++ lost w_st3 in
  all ≡ₚ init_pages demo_config demo_rdma 4096 /\ NoDup all /\
  (exclusive_policy (config s) = true ->
   flying w_st3 = f_value <$> flights w_st3 /\
   forall f, f ∈ flights w_st3 -> slots (sys_sv w_st3) !! f_value f = Some (Slot (f_data f) (f_key f))).
Proof.
  apply (server_pages_partitioned demo_table demo_config demo_rdma 4096 4 97 (fun _ => replicate 16 0) w_base w_st0).
  - apply w_start.
  - apply w_reach3.
Defined.

Lemma get_returns_last_put_witness :
  w_get.1.2 = get_key (set_meta (sys_sv w_st2) w_words) 1 0 0 /\
  let raddr := get_raddr (set_meta (sys_sv w_st2) w_words) 1 0 0 in
  (exists d, kv_lookup (store (sys_sv w_st2)) w_get.1.2 = Some w_get.2 /\ last w_st2 !! w_get.1.2 = Some d /\
     sent_reply w_flight2 = Reply (committed true 0 d) (PagePayload d) raddr) \/
  (kv_lookup (store (sys_sv w_st2)) w_get.1.2 = None /\ w_get.2 = NONE /\
     sent_reply w_flight2 = Reply (aborted 0) NoPayload raddr).
Proof.
  apply (get_returns_last_put demo_table demo_config demo_rdma 4096 4 97 (fun _ => replicate 16 0) w_base w_st0 w_st2
           1 0 0 w_words true demo_env w_take2.1 w_take2.2 w_get.1.1.1 w_get.1.1.2 w_get.1.2 w_get.2).
  - apply w_start.
  - apply w_reach2.
  - vm_compute. reflexivity.
  - apply w_take2_eq.
  - apply w_get_eq.
  - apply w_get_client.
  - apply w_answer.
Defined.

Lemma w_flight_in : w_flight ∈ flights w_st3.
Proof. rewrite w_flights3. left. Qed.

Lemma sent_page_stable_witness :
  slots (sys_sv w_st3) !! f_value w_flight = Some (Slot (f_data w_flight) (f_key w_flight)) /\
  ~ f_value w_flight ∈ free_pages (pool (store (sys_sv w_st3))) /\ ~ f_value w_flight ∈ table_pages (store (sys_sv w_st3)) /\
  ~ f_value w_flight ∈ posted_pages (sys_sv w_st3).
Proof.
  apply (sent_page_stable demo_table demo_config demo_rdma 4096 4 97 (fun _ => replicate 16 0) w_base w_st0 w_st3 w_flight).
  - apply w_start.
  - apply w_reach3.
  - vm_compute. reflexivity.
  - apply w_flight_in.
Defined.

Lemma put_completes_witness :
  exists sv3, process_recv w_env 2 w_base w_recv 1 0 w_take.2 w_imm =
      Some (Ok (sv3, put_replies w_recv w_env (i_mid (bit_unmask (ntohl w_imm))))) /\
    (accepted w_recv 1 w_env = true -> kv_lookup (store sv3) demo_key = Some w_take.2 \/ kv_lookup (store sv3) demo_key = None) /\
    (accepted w_recv 1 w_env = false ->
       forall v, kv_lookup (store sv3) demo_key = Some v -> kv_lookup (store (sys_sv w_st1)) demo_key = Some v).
Proof.
  apply (put_completes demo_table demo_config demo_rdma 4096 4 97 (fun _ => replicate 16 0) w_base w_st0 w_st1
           1 0 w_imm w_page demo_key w_env 2 w_base w_take.1 w_take.2 w_recv).
  - apply w_start.
  - apply w_reach1.
  - apply w_queue1.
  - apply w_client.
  - lia.
  - apply w_take_eq.
  - apply w_recv_eq.
Defined.

Lemma connect_posts_witness :
  exists sv', pre_post_recvs (fun _ => 0) (sys_sv w_st0) 1 0 = Ok sv' /\
    Z.of_nat (length (posted sv' 1 0)) = Z.of_nat (length (posted (sys_sv w_st0) 1 0)) + 4095 /\
    (forall k, kv_lookup (store sv') k = kv_lookup (store (sys_sv w_st0)) k).
Proof.
  apply (connect_posts demo_table demo_config demo_rdma 4096 4 97 (fun _ => replicate 16 0) w_base w_st0 w_st0 1 0 (fun _ => 0)).
  - apply w_start.
  - constructor.
  - vm_compute. lia.
  - vm_compute. lia.
Defined.

Lemma global_poll_fair_witness : 1%nat ∈ served (fun _ i => (i =? 0)%nat || (i =? 1)%nat) 3 3 2.
Proof. apply (global_poll_fair 1 3 2 (fun _ i => (i =? 0)%nat || (i =? 1)%nat)); [lia|lia|done]. Defined.

Lemma w_inv_client : client_key 1 (inv_key (set_meta (sys_sv w_st2) w_words) 1 0 0).
Proof.
  assert (inv_key (set_meta (sys_sv w_st2) w_words) 1 0 0 = demo_key) as -> by (vm_compute; reflexivity).
  apply w_client.
Qed.

Lemma invalidate_forgets_witness :
  exists sv2, process_imm true demo_env 5 w_take2.1 1 0 (htonl (Driver.bit_mask 0 MSG_INV_PAGE TX_INV_PAGE_BEGIN 0 0)) =
      Ok (sv2, inv_replies (sys_sv w_st2) 0 (bool_decide (is_Some (kv_lookup (store (sys_sv w_st2))
                  (inv_key (set_meta (sys_sv w_st2) w_words) 1 0 0))))) /\
    forall k, kv_lookup (store sv2) k = if decide (k = inv_key (set_meta (sys_sv w_st2) w_words) 1 0 0) then None
                                        else kv_lookup (store (sys_sv w_st2)) k.
Proof.
  apply (invalidate_forgets demo_table demo_config demo_rdma 4096 4 97 (fun _ => replicate 16 0) w_base w_st0 w_st2
           true demo_env 5 w_words w_take2.1 w_take2.2 1 0 0).
  - apply w_start.
  - apply w_reach2.
  - apply w_queue2.
  - by apply u_ok_lt.
  - apply w_take2_eq.
  - apply w_inv_client.
Defined.

Lemma w_lost_slot : is_slot w_take2.2 = true.
Proof. vm_compute. reflexivity. Qed.

Lemma get_loses_posted_page_witness :
  ~ w_take2.2 ∈ free_pages (pool (store (sys_sv w_st3))) /\ ~ w_take2.2 ∈ table_pages (store (sys_sv w_st3)) /\
  ~ w_take2.2 ∈ posted_pages (sys_sv w_st3).
Proof.
  apply (get_loses_posted_page demo_table demo_config demo_rdma 4096 4 97 (fun _ => replicate 16 0) w_base w_st0 w_st2
           w_st3 w_st3 1 0 0 w_words true demo_env w_take2.1 w_take2.2 w_get.1.1.1 w_get.1.1.2 w_get.1.2 w_get.2).
  - apply w_start.
  - apply w_reach2.
  - apply w_queue2.
  - apply w_take2_eq.
  - apply w_lost_slot.
  - apply w_get_eq.
  - apply w_get_client.
  - reflexivity.
  - constructor.
Defined.
