(* ===== verification/ClientFilter.v ===== *)
(** * ClientFilter: what a client knows about its remote pages

    [driver/filter/bloom_filter.{h,c}], [driver/filter/counting_bloom_filter.c],
    [driver/hashtable.c] and the dispatch of [driver/metadata.h]. The client's
    ordinary filter is overwritten by the daemon; while that happens it is in
    merging mode and additions go to a second bitmap. That filter has no lock: an
    addition is a sequence of loads and stores ([add_step]), and [bf_add] is what it does
    when nothing else touches the filter meanwhile. The counting filter and the
    hash table hold a lock during each operation. *)
From S2P Require Import Prelude HashFuncs CountingBloom.

(** ** Allocation

    [ok n]: whether the [n]-th allocation of a function succeeds; [vzalloc] of nothing
    is NULL in any case. *)
Definition vzalloc (ok : bool) (size : Z) : bool := ok && (0 <? size).

(** ** bloom_filter.h, bloom_filter.c *)

Record bf := Bf {
  is_ordinary_bf : bool;
  bf_num_hash : nat;
  bf_num_bits : Z;
  bitmap : list Z;
  tmp_bitmap : list Z;
  merging : bool;
}.

(** [ptr]: the bitmap lies in memory registered for the daemon's writes. Memory
    comes zeroed in both cases. *)
Definition bf_new (num_hash : nat) (num_bits : Z) (ptr : bool) : bf :=
  let zeros := replicate (Z.to_nat (BITS_TO_LONGS num_bits)) 0 in
  Bf (negb ptr) num_hash num_bits zeros zeros false.

(** [None]: NULL. The allocation of the bitmap of an ordinary filter is not tested: the model
    leaves out the case in which it fails and that of [tmp_bitmap], which has the same size, does not. *)
Definition bf_init (ok : nat -> bool) (num_hash : nat) (num_bits : Z) (ptr : bool) : option bf :=
  if ok 0%nat && vzalloc (ok 1%nat) (BITS_TO_LONGS num_bits * 8) then Some (bf_new num_hash num_bits ptr) else None.

Definition compute_hash (f : bf) (i : nat) (data : Z) : Z := hash_key i data mod bf_num_bits f.

(** [calc_bitidx], and the test and the setting of that bit. *)
Definition calc_bitidx (key_hash : Z) : Z * Z := (key_hash / 64, check_bit key_hash).
Definition has_bit (bm : list Z) (key_hash : Z) : bool :=
  let '(long_idx, bit) := calc_bitidx key_hash in
  negb ((default 0 (bm !! Z.to_nat long_idx) .& bit) =? 0).
Definition set_bit (bm : list Z) (key_hash : Z) : list Z :=
  let '(long_idx, bit) := calc_bitidx key_hash in
  <[Z.to_nat long_idx := default 0 (bm !! Z.to_nat long_idx) .| bit]> bm.

Definition check_merging (f : bf) : bool := merging f.

Definition key_hashes (f : bf) (data : Z) : list Z := (fun i => compute_hash f i data) <$> seq 0 (bf_num_hash f).

Definition with_bitmaps (f : bf) (bm tmp : list Z) (m : bool) : bf :=
  Bf (is_ordinary_bf f) (bf_num_hash f) (bf_num_bits f) bm tmp m.

Definition bf_add (f : bf) (data : Z) : bf :=
  if check_merging f then with_bitmaps f (bitmap f) (foldl set_bit (tmp_bitmap f) (key_hashes f data)) (merging f)
  else with_bitmaps f (foldl set_bit (bitmap f) (key_hashes f data)) (tmp_bitmap f) (merging f).

(** *** An addition step by step

    Whether the filter was merging when it began, the hashes still to set, and the word loaded for the
    first of them: [bitmap[long_idx] |= check_bit] is a load and a store. *)
Record adding := Adding { a_tmp : bool; a_todo : list Z; a_word : option Z }.
Definition add_begin (f : bf) (data : Z) : adding := Adding (check_merging f) (key_hashes f data) None.

Definition target (f : bf) (tmp : bool) : list Z := if tmp then tmp_bitmap f else bitmap f.
Definition set_target (f : bf) (tmp : bool) (bm : list Z) : bf :=
  if tmp then with_bitmaps f (bitmap f) bm (merging f) else with_bitmaps f bm (tmp_bitmap f) (merging f).

(** [None]: it is over. *)
Definition add_step (f : bf) (a : adding) : option (bf * adding) :=
  match a_todo a with
  | [] => None
  | h :: todo =>
      let '(long_idx, bit) := calc_bitidx h in
      match a_word a with
      | None => Some (f, Adding (a_tmp a) (h :: todo) (Some (default 0 (target f (a_tmp a) !! Z.to_nat long_idx))))
      | Some w => Some (set_target f (a_tmp a) (<[Z.to_nat long_idx := w .| bit]> (target f (a_tmp a))), Adding (a_tmp a) todo None)
      end
  end.

Fixpoint add_steps (n : nat) (f : bf) (a : adding) : option (bf * adding) :=
  match n with
  | O => Some (f, a)
  | S n => '(f, a) ← add_step f a; add_steps n f a
  end.

Definition bf_might_contain (f : bf) (data : Z) : bool :=
  if check_merging f && forallb (has_bit (tmp_bitmap f)) (key_hashes f data) then true
  else forallb (has_bit (bitmap f)) (key_hashes f data).

(** [bitmap[i] |= tmp_bitmap[i]] for each of the [BITS_TO_LONGS(num_bits)] words. *)
Definition bf_merge (f : bf) : bf :=
  with_bitmaps f
    (imap (fun i w => if Z.of_nat i <? BITS_TO_LONGS (bf_num_bits f)
                      then w .| default 0 (tmp_bitmap f !! i) else w) (bitmap f))
    (tmp_bitmap f) (merging f).

Definition bf_blocking (f : bf) : bf :=
  with_bitmaps f (bitmap f)
    (imap (fun i w => if Z.of_nat i <? BITS_TO_LONGS (bf_num_bits f) then 0 else w) (tmp_bitmap f)) true.

(** [bf_unblocking] leaves merging mode first and merges afterwards. *)
Definition bf_clear_merging (f : bf) : bf := with_bitmaps f (bitmap f) (tmp_bitmap f) false.
Definition bf_unblocking (f : bf) : bf := bf_merge (bf_clear_merging f).

(** The daemon's write of its filter over the client's bitmap ([send_bf]). *)
Definition bf_remote_write (f : bf) (words : list Z) : bf := with_bitmaps f words (tmp_bitmap f) (merging f).

(** *** An update round step by step

    Between [bf_blocking] and [bf_unblocking]: the filter, the addition under way, the keys whose additions are over, and
    the words of the daemon's filter that the card has still to write; they arrive in any order, while the client
    goes on adding. *)
Record round := Round { r_bf : bf; r_adding : option (Z * adding); r_added : list Z; r_left : list nat }.
Inductive round_step (words : list Z) : relation round :=
| RoundBegin k f ks left : round_step words (Round f None ks left) (Round f (Some (k, add_begin f k)) ks left)
| RoundAdd k a a' f f' ks left :
    add_step f a = Some (f', a') -> round_step words (Round f (Some (k, a)) ks left) (Round f' (Some (k, a')) ks left)
| RoundDone k a f ks left :
    a_todo a = [] -> round_step words (Round f (Some (k, a)) ks left) (Round f None (k :: ks) left)
| RoundWord i w f adding ks left1 left2 :
    words !! i = Some w ->
    round_step words (Round f adding ks (left1 ++ i :: left2))
      (Round (with_bitmaps f (<[i := w]> (bitmap f)) (tmp_bitmap f) (merging f)) adding ks (left1 ++ left2)).
Definition round_start (f : bf) (words : list Z) : round := Round (bf_blocking f) None [] (seq 0 (length words)).

(** ** counting_bloom_filter.c

    One counter per byte of a bitmap of [num_bits * sizeof(unsigned long)] bytes. *)

Record client_cbf := ClientCbf {
  ccbf_num_hash : nat;
  ccbf_num_bits : Z;
  bitmap_size : Z;
  byte_bitmap : list Z;
}.

Definition cbf_new (num_hash : nat) (num_bits : Z) : client_cbf :=
  ClientCbf num_hash num_bits (num_bits * 8) (replicate (Z.to_nat (num_bits * 8)) 0).
Definition cbf_init (ok : nat -> bool) (num_hash : nat) (num_bits : Z) : option client_cbf :=
  if ok 0%nat && vzalloc (ok 1%nat) (num_bits * 8) then Some (cbf_new num_hash num_bits) else None.

(** The remainder by the 64-bit [bitmap_size] is returned as an [unsigned int]. *)
Definition cbf_compute_hash (c : client_cbf) (o : Z) (i : nat) : Z := wrap 32 (hash_key i o mod bitmap_size c).

Definition client_byte (c : client_cbf) (index : Z) : Z := default 0 (byte_bitmap c !! Z.to_nat index).
Definition set_client_byte (c : client_cbf) (index b : Z) : client_cbf :=
  ClientCbf (ccbf_num_hash c) (ccbf_num_bits c) (bitmap_size c) (<[Z.to_nat index := b]> (byte_bitmap c)).

(** A saturated counter stays at 255. *)
Definition cbf_add1 (o : Z) (c : client_cbf) (i : nat) : client_cbf :=
  let index := cbf_compute_hash c o i in
  if client_byte c index <? 255 then set_client_byte c index (client_byte c index + 1) else c.
Definition cbf_add (c : client_cbf) (o : Z) : client_cbf := foldl (cbf_add1 o) c (seq 0 (ccbf_num_hash c)).

Definition cbf_might_contain (c : client_cbf) (o : Z) : bool :=
  forallb (fun i => negb (client_byte c (cbf_compute_hash c o i) =? 0)) (seq 0 (ccbf_num_hash c)).

(** The test [byte_bitmap[index] >= 0] on an unsigned byte always holds. *)
Definition cbf_remove1 (o : Z) (c : client_cbf) (i : nat) : client_cbf :=
  let index := cbf_compute_hash c o i in
  if 0 <=? client_byte c index then set_client_byte c index (wrap 8 (client_byte c index - 1)) else c.
Definition cbf_remove (c : client_cbf) (o : Z) : client_cbf * bool :=
  if cbf_might_contain c o then (foldl (cbf_remove1 o) c (seq 0 (ccbf_num_hash c)), true) else (c, false).

(** ** hashtable.c: chained buckets, newest node first *)

Record hashtable := Hashtable { num_buckets : nat; hlistheads : list (list (Z * Z)) }.

Definition hashtable_new (n : nat) : hashtable := Hashtable n (replicate n []).

(** [num_entries * 75 / 100] buckets of eight bytes, and their locks; on an error what was allocated is freed
    again and the result is NULL. *)
Definition hashtable_init (ok : nat -> bool) (num_entries : Z) : option hashtable :=
  let num_buckets := (num_entries *₆₄ 75) / 100 in
  if ok 0%nat && vzalloc (ok 1%nat) (num_buckets * 8) && ok 2%nat then Some (hashtable_new (Z.to_nat num_buckets)) else None.

(** The remainder is returned as a [u32]. A table without buckets would divide by zero, but [hashtable_init] does
    not return one. *)
Definition get_bkt_id (ht : hashtable) (key : Z) : outcome nat :=
  if (num_buckets ht =? 0)%nat then Throw "divide error"
  else Ok (Z.to_nat (wrap 32 (hash_key 0 key mod Z.of_nat (num_buckets ht)))).

Definition bucket (ht : hashtable) (b : nat) : list (Z * Z) := default [] (hlistheads ht !! b).
Definition set_bucket (ht : hashtable) (b : nat) (l : list (Z * Z)) : hashtable :=
  Hashtable (num_buckets ht) (<[b := l]> (hlistheads ht)).

Fixpoint chain_find (l : list (Z * Z)) (key : Z) : option Z :=
  match l with
  | [] => None
  | (k, v) :: l => if k =? key then Some v else chain_find l key
  end.
(** The first node with the key is unlinked. *)
Fixpoint chain_del (l : list (Z * Z)) (key : Z) : list (Z * Z) :=
  match l with
  | [] => []
  | (k, v) :: l => if k =? key then l else (k, v) :: chain_del l key
  end.

Definition no_value : Z := wrap 64 (-1).

Definition hashtable_get (ht : hashtable) (key : Z) : outcome Z :=
  b ← get_bkt_id ht key; Ok (default no_value (chain_find (bucket ht b) key)).
Definition hashtable_remove (ht : hashtable) (key : Z) : outcome (hashtable * Z) :=
  b ← get_bkt_id ht key;
  Ok (set_bucket ht b (chain_del (bucket ht b) key), default no_value (chain_find (bucket ht b) key)).
(** A node is always allocated: the code does not test it ([allocate_node]). *)
Definition hashtable_insert (ht : hashtable) (key value : Z) : outcome hashtable :=
  '(ht, _) ← hashtable_remove ht key;
  b ← get_bkt_id ht key;
  Ok (set_bucket ht b ((key, value) :: bucket ht b)).

(** ** metadata.h *)

Inductive metadata_type_t := FILTER_OFF | COOP_BF | ORDINARY_BF | COUNTING_BF | HASH_TABLE.
#[export] Instance metadata_type_eq : EqDecision metadata_type_t.
Proof. solve_decision. Defined.

(** The structure in use; [COOP_BF] and [ORDINARY_BF] both use a [bf]. [MetaNone]: no filter is wanted;
    [MetaEmpty]: the pointer to the filter or table is NULL; [MetaNull]: that to the metadata is. *)
Inductive metadata :=
| MetaBf (coop : bool) (f : bf)
| MetaCbf (c : client_cbf)
| MetaHt (ht : hashtable)
| MetaNone
| MetaEmpty (type : metadata_type_t)
| MetaNull.

(** [ptr]: the filter memory is registered ([COOP_BF] only). [ok 0] is the allocation of the metadata, the
    others are those of its part. *)
Definition metadata_init (ok : nat -> bool) (num_hash : nat) (num_bits : Z) (ptr : bool) (num_rmem_pages : Z)
    (type : metadata_type_t) : metadata :=
  let inner n := ok (S n) in
  if ok 0%nat then
    match type with
    | COOP_BF => from_option (MetaBf true) (MetaEmpty type) (bf_init inner num_hash num_bits ptr)
    | ORDINARY_BF => from_option (MetaBf false) (MetaEmpty type) (bf_init inner num_hash num_bits ptr)
    | COUNTING_BF => from_option MetaCbf (MetaEmpty type) (cbf_init inner num_hash num_bits)
    | HASH_TABLE => from_option MetaHt (MetaEmpty type) (hashtable_init inner num_rmem_pages)
    | FILTER_OFF => MetaNone
    end
  else MetaNull.

Definition metadata_add (m : metadata) (key : Z) : outcome metadata :=
  match m with
  | MetaBf b f => Ok (MetaBf b (bf_add f key))
  | MetaCbf c => Ok (MetaCbf (cbf_add c key))
  | MetaHt ht => ht ← hashtable_insert ht key 0; Ok (MetaHt ht)
  | MetaNone => Ok MetaNone
  | MetaEmpty _ | MetaNull => Throw "null dereference: meta"
  end.

Definition metadata_contain (m : metadata) (key : Z) : outcome bool :=
  match m with
  | MetaBf _ f => Ok (bf_might_contain f key)
  | MetaCbf c => Ok (cbf_might_contain c key)
  | MetaHt ht => v ← hashtable_get ht key; Ok (negb (v =? no_value))
  | MetaNone => Ok false
  | MetaEmpty _ | MetaNull => Throw "null dereference: meta"
  end.

Definition metadata_remove (m : metadata) (key : Z) : outcome (metadata * bool) :=
  match m with
  | MetaBf b f => Ok (m, true)
  | MetaCbf c => let '(c, r) := cbf_remove c key in Ok (MetaCbf c, r)
  | MetaHt ht => '(ht, v) ← hashtable_remove ht key; Ok (MetaHt ht, negb (v =? no_value))
  | MetaNone => Ok (MetaNone, false)
  | MetaEmpty COOP_BF | MetaEmpty ORDINARY_BF => Ok (m, true)
  | MetaEmpty _ | MetaNull => Throw "null dereference: meta"
  end.

Definition metadata_blocking (m : metadata) : outcome metadata :=
  match m with
  | MetaBf true f => Ok (MetaBf true (bf_blocking f))
  | MetaEmpty COOP_BF | MetaNull => Throw "null dereference: meta"
  | _ => Ok m
  end.
Definition metadata_unblocking (m : metadata) : outcome metadata :=
  match m with
  | MetaBf true f => Ok (MetaBf true (bf_unblocking f))
  | MetaEmpty COOP_BF | MetaNull => Throw "null dereference: meta"
  | _ => Ok m
  end.
