(* ===== verification/ClientFilterSpec.v ===== *)
(** * ClientFilterSpec: the properties of the client's page metadata

    The cooperation of the client's ordinary filter with the daemon's counting
    filter, the client's own counting filter, and the hash table of exact keys. *)
From S2P Require Import Prelude HashFuncs CountingBloom ClientFilter.

(** ** Lemmas: bits of a bitmap *)

Definition bitv (bm : list Z) (idx : Z) : bool := Z.testbit (default 0 (bm !! Z.to_nat (idx / 64))) (idx mod 64).

Lemma has_bit_spec bm idx : 0 <= idx -> has_bit bm idx = bitv bm idx.
Proof. intros Hi. unfold has_bit, calc_bitidx. by rewrite land_check_bit, negb_involutive. Qed.

Lemma set_bit_spec bm i idx :
  0 <= i -> 0 <= idx -> (Z.to_nat (i / 64) < length bm)%nat ->
  bitv (set_bit bm i) idx = bitv bm idx || (idx =? i).
Proof.
  intros Hi Hidx Hl. pose proof (Z.mod_pos_bound idx 64 eq_refl) as Hm.
  assert (0 <= idx / 64) by (apply Z.div_pos; lia). assert (0 <= i / 64) by (apply Z.div_pos; lia).
  pose proof (Z.div_mod idx 64 ltac:(lia)) as Ei. pose proof (Z.div_mod i 64 ltac:(lia)) as Ei'.
  unfold bitv, set_bit, calc_bitidx. destruct (decide (idx / 64 = i / 64)) as [E|E].
  - rewrite E, list_lookup_insert_eq by done. cbn [from_option id]. rewrite Z.lor_spec, check_bit_bit by lia. f_equal.
    destruct (Z.eqb_spec (idx mod 64) (i mod 64)), (Z.eqb_spec idx i); lia || congruence.
  - rewrite list_lookup_insert_ne by lia. rewrite (proj2 (Z.eqb_neq idx i)); [by rewrite orb_false_r|congruence].
Qed.

Lemma set_bit_length bm i : length (set_bit bm i) = length bm.
Proof. unfold set_bit, calc_bitidx. apply length_insert. Qed.

Lemma set_bits_length l bm : length (foldl set_bit bm l) = length bm.
Proof. revert bm. induction l as [|i l IH]; intros bm; [done|]. cbn [foldl]. by rewrite IH, set_bit_length. Qed.

Lemma set_bits_spec l bm idx :
  Forall (fun i => 0 <= i /\ (Z.to_nat (i / 64) < length bm)%nat) l -> 0 <= idx ->
  bitv (foldl set_bit bm l) idx = bitv bm idx || existsb (Z.eqb idx) l.
Proof.
  revert bm. induction l as [|i l IH]; intros bm Hl Hidx; cbn [foldl existsb]; [by rewrite orb_false_r|].
  apply Forall_cons in Hl as [[Hi Hlen] Hl]. rewrite IH; [|by rewrite set_bit_length|done].
  rewrite set_bit_spec by done. by rewrite orb_assoc.
Qed.

(** ** Lemmas: the ordinary filter *)

Record bf_wf (f : bf) : Prop := {
  bw_bits : 0 < bf_num_bits f < 2 ^ 32;
  bw_bitmap : length (bitmap f) = Z.to_nat (BITS_TO_LONGS (bf_num_bits f));
  bw_tmp : length (tmp_bitmap f) = Z.to_nat (BITS_TO_LONGS (bf_num_bits f));
}.

(** All bits of a key are set. *)
Definition all_bits (f : bf) (bm : list Z) (k : Z) : Prop := forall h, h ∈ key_hashes f k -> bitv bm h = true.

Lemma key_hashes_range f k h : 0 < bf_num_bits f -> h ∈ key_hashes f k -> 0 <= h < bf_num_bits f.
Proof. intros Hb. unfold key_hashes. intros (i & -> & _)%list_elem_of_fmap. by apply Z.mod_pos_bound. Qed.

Lemma range_word f h : 0 <= h < bf_num_bits f -> (Z.to_nat (h / 64) < Z.to_nat (BITS_TO_LONGS (bf_num_bits f)))%nat.
Proof. intros Hh. pose proof (longs_enough _ _ Hh). assert (0 <= h / 64) by (apply Z.div_pos; lia). lia. Qed.

Lemma forallb_bits f bm k :
  0 < bf_num_bits f -> forallb (has_bit bm) (key_hashes f k) = true <-> all_bits f bm k.
Proof.
  intros Hb. rewrite forallb_forall. unfold all_bits. split; intros H h Hh.
  - rewrite <- has_bit_spec by (apply key_hashes_range in Hh; [lia|done]). apply H. by apply list_elem_of_In.
  - apply list_elem_of_In in Hh. rewrite has_bit_spec by (apply key_hashes_range in Hh; [lia|done]). by apply H.
Qed.

Lemma might_contain_iff f k : bf_wf f ->
  bf_might_contain f k = true <-> (merging f = true /\ all_bits f (tmp_bitmap f) k) \/ all_bits f (bitmap f) k.
Proof.
  intros [Hb _ _]. unfold bf_might_contain, check_merging. rewrite <- !(forallb_bits f) by lia.
  destruct (merging f); cbn [andb].
  - destruct (forallb (has_bit (tmp_bitmap f)) (key_hashes f k)); intuition congruence.
  - intuition congruence.
Qed.

Lemma set_key_bits f bm k idx : 0 < bf_num_bits f -> length bm = Z.to_nat (BITS_TO_LONGS (bf_num_bits f)) -> 0 <= idx ->
  bitv (foldl set_bit bm (key_hashes f k)) idx = bitv bm idx || existsb (Z.eqb idx) (key_hashes f k).
Proof.
  intros Hb Hl Hidx. apply set_bits_spec; [|done]. apply Forall_forall. intros h Hh.
  apply key_hashes_range in Hh; [|done]. split; [lia|]. rewrite Hl. by apply range_word.
Qed.

Lemma set_key_all f bm k k' : 0 < bf_num_bits f -> length bm = Z.to_nat (BITS_TO_LONGS (bf_num_bits f)) ->
  all_bits f bm k' \/ k' = k -> all_bits f (foldl set_bit bm (key_hashes f k)) k'.
Proof.
  intros Hb Hl Hor h Hh. pose proof (key_hashes_range f k' h Hb Hh) as Hr. rewrite set_key_bits by (done || lia).
  apply orb_true_iff. destruct Hor as [H| ->]; [left; by apply H|right].
  apply existsb_exists. exists h. split; [by apply list_elem_of_In|apply Z.eqb_refl].
Qed.

Lemma bf_add_wf f k : bf_wf f -> bf_wf (bf_add f k).
Proof. intros [H1 H2 H3]. unfold bf_add. case_match; split; cbn; rewrite ?set_bits_length; done. Qed.

Lemma bf_add_all f k k' : bf_wf f -> bf_might_contain f k' = true \/ k' = k -> bf_might_contain (bf_add f k) k' = true.
Proof.
  intros Hwf Hor. apply might_contain_iff; [by apply bf_add_wf|]. rewrite might_contain_iff in Hor by done.
  destruct Hwf as [H1 H2 H3]. unfold bf_add, check_merging. destruct (merging f) eqn:Em; cbn.
  - destruct Hor as [[[_ H]|H]|H]; [left|by right|left]; (split; [done|]); apply (set_key_all f); auto; lia.
  - right. apply (set_key_all f); [lia|done|]. destruct Hor as [[[? _]|H]|H]; [done|by left|by right].
Qed.

Lemma bitv_imap_zero bm idx : 0 <= idx -> bitv (imap (fun i w => if Z.of_nat i <? Z.of_nat (length bm) then 0 else w) bm) idx = false.
Proof.
  intros Hi. unfold bitv. rewrite list_lookup_imap. destruct (bm !! Z.to_nat (idx / 64)) as [w|] eqn:E; cbn.
  - apply lookup_lt_Some in E. rewrite (proj2 (Z.ltb_lt _ _)) by lia. apply Z.bits_0.
  - apply Z.bits_0.
Qed.

Lemma length_longs_pos n : 0 < n -> Z.of_nat (Z.to_nat (BITS_TO_LONGS n)) = BITS_TO_LONGS n.
Proof. intros Hn. pose proof (longs_enough n 0 ltac:(lia)). rewrite Z.div_0_l in H by done. lia. Qed.

Lemma bf_blocking_wf f : bf_wf f -> bf_wf (bf_blocking f).
Proof. intros [H1 H2 H3]. split; cbn; [done|done|]. by rewrite length_imap. Qed.

Lemma bf_blocking_empty f idx : bf_wf f -> 0 <= idx -> bitv (tmp_bitmap (bf_blocking f)) idx = false.
Proof.
  intros [H1 H2 H3] Hi. cbn. rewrite <- (length_longs_pos (bf_num_bits f)) by lia. rewrite <- H3. by apply bitv_imap_zero.
Qed.

Lemma bf_merge_bits f idx : bf_wf f -> 0 <= idx < bf_num_bits f ->
  bitv (bitmap (bf_merge f)) idx = bitv (bitmap f) idx || bitv (tmp_bitmap f) idx.
Proof.
  intros [H1 H2 H3] Hi. unfold bitv. cbn. rewrite list_lookup_imap.
  pose proof (range_word f idx Hi) as Hw. pose proof (longs_enough _ _ Hi) as Hlt.
  destruct (lookup_lt_is_Some_2 (bitmap f) (Z.to_nat (idx / 64))) as [w Ew]; [by rewrite H2|].
  rewrite Ew. cbn. assert (0 <= idx / 64) by (apply Z.div_pos; lia).
  rewrite (proj2 (Z.ltb_lt _ _)) by lia. by rewrite Z.lor_spec.
Qed.

Lemma bf_unblocking_wf f : bf_wf f -> bf_wf (bf_unblocking f).
Proof. intros [H1 H2 H3]. split; cbn; [done|by rewrite length_imap|done]. Qed.

Lemma bf_unblocking_contain f k : bf_wf f ->
  all_bits f (bitmap f) k \/ all_bits f (tmp_bitmap f) k -> bf_might_contain (bf_unblocking f) k = true.
Proof.
  intros Hwf Hor. apply might_contain_iff; [by apply bf_unblocking_wf|]. right. intros h Hh.
  pose proof (key_hashes_range f k h (proj1 (bw_bits f Hwf)) Hh) as Hr.
  change (bitmap (bf_unblocking f)) with (bitmap (bf_merge (bf_clear_merging f))).
  rewrite bf_merge_bits; [|by destruct Hwf|done]. cbn [bitmap tmp_bitmap bf_clear_merging with_bitmaps].
  apply orb_true_iff. destruct Hor as [H|H]; [left|right]; by apply H.
Qed.

(** What the daemon ships: a filter of the same parameters. *)
Definition matches (f : bf) (c : cbf) : Prop := num_hash_ c = bf_num_hash f /\ num_bits_ c = bf_num_bits f.

Lemma shipped_bits f c k : CountingBloom.wf c -> matches f c ->
  all_bits f (bf_long_bitarr_ (ToOrdinaryBF c)) k <-> MightContain c k = true.
Proof.
  intros Hwf [Eh En]. rewrite <- ToOrdinaryBF_query by done. destruct (ToOrdinaryBF_bits c Hwf) as (_ & Eh' & En' & _).
  rewrite BFMightContain_spec by (rewrite En'; apply Hwf). rewrite forallb_forall. unfold all_bits, key_hashes.
  rewrite Eh', Eh. split; intros H x Hx.
  - specialize (H (compute_hash f x k)). unfold computeHash. rewrite En', En. apply H.
    apply list_elem_of_fmap. exists x. split; [done|]. by apply list_elem_of_In.
  - apply list_elem_of_fmap in Hx as (i & -> & Hi). specialize (H i). unfold computeHash in H. rewrite En', En in H.
    apply H. by apply list_elem_of_In.
Qed.

Lemma shipped_wf f c : bf_wf f -> CountingBloom.wf c -> matches f c ->
  bf_wf (bf_remote_write f (bf_long_bitarr_ (ToOrdinaryBF c))).
Proof.
  intros [H1 H2 H3] Hwf [Eh En]. split; cbn; [done| |done].
  destruct (ToOrdinaryBF_prefix c (Z.to_nat (num_bits_ c)) Hwf) as (_ & _ & _ & E4 & _); [lia|].
  unfold ToOrdinaryBF. rewrite E4, (wf_longs_len c Hwf), (wf_longs c Hwf), En. done.
Qed.

(** ** Lemmas: additions while a remote write is under way *)

Definition same_params (f g : bf) : Prop := bf_num_hash g = bf_num_hash f /\ bf_num_bits g = bf_num_bits f.

Lemma all_bits_params f g bm k : same_params f g -> all_bits g bm k <-> all_bits f bm k.
Proof. intros [E1 E2]. unfold all_bits, key_hashes, compute_hash. by rewrite E1, E2. Qed.

(** The filter is in merging mode and its second bitmap covers [ks]. *)
Record merging_covers (f0 f : bf) (ks : list Z) : Prop := {
  mc_wf : bf_wf f;
  mc_params : same_params f0 f;
  mc_merging : merging f = true;
  mc_tmp k : k ∈ ks -> all_bits f0 (tmp_bitmap f) k;
}.

Lemma merging_add f0 f ks k :
  merging_covers f0 f ks -> merging_covers f0 (bf_add f k) (k :: ks) /\ bitmap (bf_add f k) = bitmap f.
Proof.
  intros [H1 H2 H3 H4]. pose proof (bf_add_wf f k H1) as Hw. unfold bf_add, check_merging in *. rewrite H3 in *.
  split; [|done]. split; [done|done|done|]. intros k' Hk'. cbn. apply (all_bits_params f0 f); [done|].
  apply set_key_all; [apply H1|apply H1|]. apply elem_of_cons in Hk' as [->|Hk']; [by right|left].
  apply (all_bits_params f0 f); [done|]. by apply H4.
Qed.

Lemma merging_adds f0 f ks ks' :
  merging_covers f0 f ks ->
  exists ks'', merging_covers f0 (foldl bf_add f ks') ks'' /\ (forall k, k ∈ ks ++ ks' -> k ∈ ks'') /\
    bitmap (foldl bf_add f ks') = bitmap f.
Proof.
  revert f ks. induction ks' as [|k ks' IH]; intros f ks H; cbn [foldl].
  { exists ks. split; [done|]. split; [|done]. intros k. by rewrite app_nil_r. }
  destruct (merging_add f0 f ks k H) as [Hk Eb]. destruct (IH _ _ Hk) as (ks'' & H1 & H2 & H3).
  exists ks''. split; [done|]. split; [|congruence]. intros k' Hin. apply H2.
  rewrite elem_of_app, elem_of_cons in *. tauto.
Qed.

Lemma blocking_covers f : bf_wf f -> merging_covers f (bf_blocking f) [].
Proof. intros H. split; [by apply bf_blocking_wf|done|done|]. intros k Hk. by apply not_elem_of_nil in Hk. Qed.

Lemma remote_write_covers f0 f ks c :
  CountingBloom.wf c -> matches f0 c -> merging_covers f0 f ks ->
  merging_covers f0 (bf_remote_write f (bf_long_bitarr_ (ToOrdinaryBF c))) ks.
Proof.
  intros Hc [E1 E2] [H1 H2 H3 H4]. destruct H2 as [E3 E4].
  split; [|done|done|done]. apply shipped_wf; [done|done|]. split; congruence.
Qed.

(** One update round of the client's filter: [bf_blocking], additions of [ks1]
    before and [ks2] after the daemon's write, then [bf_unblocking]. *)
Definition update_during (f : bf) (c : cbf) (ks1 ks2 : list Z) : bf :=
  foldl bf_add (bf_remote_write (foldl bf_add (bf_blocking f) ks1) (bf_long_bitarr_ (ToOrdinaryBF c))) ks2.

Lemma update_during_covers f c ks1 ks2 :
  bf_wf f -> CountingBloom.wf c -> matches f c ->
  exists ks, merging_covers f (update_during f c ks1 ks2) ks /\ (forall k, k ∈ ks1 ++ ks2 -> k ∈ ks) /\
    bitmap (update_during f c ks1 ks2) = bf_long_bitarr_ (ToOrdinaryBF c).
Proof.
  intros Hwf Hc Hm. destruct (merging_adds f _ [] ks1 (blocking_covers f Hwf)) as (l1 & H1 & H1' & _).
  destruct (merging_adds f _ l1 ks2 (remote_write_covers f _ l1 c Hc Hm H1)) as (l2 & H2 & H2' & E).
  exists l2. split; [done|]. split; [|exact E]. intros k Hk. apply H2'. apply elem_of_app in Hk as [Hk|Hk]; apply elem_of_app; [left; by apply H1'|by right].
Qed.

(** *** The round step by step *)

Record round_inv (f0 : bf) (words : list Z) (r : round) : Prop := {
  ro_wf : bf_wf (r_bf r);
  ro_params : same_params f0 (r_bf r);
  ro_merging : merging (r_bf r) = true;
  ro_added k : k ∈ r_added r -> all_bits f0 (tmp_bitmap (r_bf r)) k;
  ro_adding k a : r_adding r = Some (k, a) -> a_tmp a = true /\
    (exists pre, key_hashes f0 k = pre ++ a_todo a /\ forall h, h ∈ pre -> bitv (tmp_bitmap (r_bf r)) h = true) /\
    (forall w, a_word a = Some w -> exists h todo, a_todo a = h :: todo /\ w = default 0 (tmp_bitmap (r_bf r) !! Z.to_nat (h / 64)));
  ro_words i w : words !! i = Some w -> i ∈ r_left r \/ bitmap (r_bf r) !! i = Some w;
  ro_len : length (bitmap (r_bf r)) = length words;
}.

Lemma round_step_inv f0 words r r' : round_inv f0 words r -> round_step words r r' -> round_inv f0 words r'.
Proof.
  intros Hi Hs. revert Hi. destruct Hs as [k f ks left|k a a' f f' ks left E|k a f ks left E|i w f ad ks left1 left2 Hw];
    intros [Hwf Hp Hm Hadd Had Hwo Hl]; cbn [r_bf r_adding r_added r_left] in *.
  - split; cbn [r_bf r_adding r_added r_left]; try done. intros k' a [= <- <-]. unfold add_begin. cbn [a_tmp a_todo a_word].
    split; [done|]. split; [|done]. exists []. split; [|by intros h ?%not_elem_of_nil].
    destruct Hp as [E1 E2]. unfold key_hashes, compute_hash. by rewrite E1, E2.
  - destruct (Had k a eq_refl) as (Ht & (pre & Ek & Hpre) & Hwd). destruct a as [tmp [|h todo] wd]; [done|].
    cbn [a_tmp a_todo a_word] in *. subst tmp. unfold add_step in E. cbn [a_todo calc_bitidx a_word a_tmp] in E.
    assert (0 <= h < bf_num_bits f) as Hh.
    { destruct Hp as [_ Ep]. rewrite Ep. apply (key_hashes_range f0 k); [rewrite <- Ep; apply Hwf|]. rewrite Ek. set_solver. }
    destruct wd as [w|].
    + destruct (Hwd w eq_refl) as (h' & todo' & [= <- <-] & ->). injection E as <- <-.
      pose proof (range_word f h Hh) as Hlt.
      assert (forall j, 0 <= j -> bitv (tmp_bitmap f) j = true \/ j = h -> bitv (set_bit (tmp_bitmap f) h) j = true) as Hset.
      { intros j Hj Hor. rewrite set_bit_spec; [|lia|done|by rewrite (bw_tmp f Hwf)]. apply orb_true_iff.
        destruct Hor as [->| ->]; [by left|right; apply Z.eqb_refl]. }
      assert (forall k' j, j ∈ key_hashes f0 k' -> 0 <= j) as Hpos.
      { intros k' j Hj. destruct Hp as [_ Ep]. apply key_hashes_range in Hj; [lia|]. rewrite <- Ep. apply Hwf. }
      split; cbn [r_bf r_adding r_added r_left tmp_bitmap bitmap merging with_bitmaps]; try done.
      * destruct Hwf. split; cbn [bf_num_bits bitmap tmp_bitmap with_bitmaps]; [done|done|by rewrite length_insert].
      * intros k' Hk' j Hj. apply Hset; [by eapply Hpos|left; by apply (Hadd k')].
      * intros k' a [= <- <-]. cbn [a_tmp a_todo a_word]. split; [done|]. split; [|done]. exists (pre ++ [h]).
        split; [by rewrite <- app_assoc|]. intros j Hj. apply Hset; [apply (Hpos k); rewrite Ek; set_solver|].
        apply elem_of_app in Hj as [Hj|Hj]; [left; by apply Hpre|right; by apply list_elem_of_singleton].
    + injection E as <- <-. split; cbn [r_bf r_adding r_added r_left]; try done. intros k' a [= <- <-]. cbn [a_tmp a_todo a_word target].
      split; [done|]. split; [by exists pre|]. intros w [= <-]. by exists h, todo.
  - destruct (Had k a eq_refl) as (_ & (pre & Ek & Hpre) & _). rewrite E, app_nil_r in Ek.
    split; cbn [r_bf r_adding r_added r_left]; try done. intros k' [->|Hk']%elem_of_cons; [|by apply Hadd].
    intros h Hh. apply Hpre. by rewrite <- Ek.
  - split; cbn [r_bf r_adding r_added r_left bitmap tmp_bitmap merging with_bitmaps]; try done.
    + destruct Hwf. split; cbn; [done|by rewrite length_insert|done].
    + intros j v Hj. destruct (decide (j = i)) as [->|Hne].
      * right. rewrite list_lookup_insert_eq; [congruence|]. rewrite Hl. by eapply lookup_lt_Some.
      * destruct (Hwo j v Hj) as [Hin|Hv]; [left|right; by rewrite list_lookup_insert_ne].
        rewrite elem_of_app, elem_of_cons in Hin. rewrite elem_of_app. tauto.
    + by rewrite length_insert.
Qed.

Lemma round_reach_inv f c r : bf_wf f -> CountingBloom.wf c -> matches f c ->
  let words := bf_long_bitarr_ (ToOrdinaryBF c) in
  rtc (round_step words) (round_start f words) r -> round_inv f words r.
Proof.
  intros Hwf Hc Hm words. apply (rtc_invariant _ (round_inv f words) (round_start f words) r).
  - intros x y. apply round_step_inv.
  - pose proof (bf_blocking_wf f Hwf) as Hb. pose proof (shipped_wf f c Hwf Hc Hm) as [_ Hl _]. cbn in Hl. fold words in Hl.
    split; cbn [r_bf r_adding r_added r_left round_start]; try done.
    + by intros k ?%not_elem_of_nil.
    + intros i w Hi. left. apply elem_of_seq. apply lookup_lt_Some in Hi. lia.
    + rewrite Hl. apply Hb.
Qed.

(** The window inside [bf_unblocking]: merging mode is left, the second bitmap not merged yet. *)
Lemma clear_merging_contain f k : bf_wf f ->
  bf_might_contain (bf_clear_merging f) k = true <-> all_bits f (bitmap f) k.
Proof.
  intros Hwf. rewrite might_contain_iff by (by destruct Hwf). cbn [merging bf_clear_merging with_bitmaps bitmap].
  rewrite (all_bits_params f (bf_clear_merging f)) by done. split; [by intros [[? _]|]|by right].
Qed.

(** ** Lemmas: the client's counting filter

    [as_daemon] is the daemon's filter with the same counters. *)

Definition as_daemon (c : client_cbf) : cbf :=
  Cbf (ccbf_num_hash c) (bitmap_size c) (BITS_TO_LONGS (bitmap_size c)) (byte_bitmap c)
    (replicate (Z.to_nat (BITS_TO_LONGS (bitmap_size c))) 0).

Lemma cbf_compute_hash_daemon c o i :
  0 < bitmap_size c < 2 ^ 32 -> cbf_compute_hash c o i = computeHash (as_daemon c) o i.
Proof.
  intros Hb. unfold cbf_compute_hash, computeHash. cbn [as_daemon num_bits_]. apply wrap_small. unfold u_ok.
  pose proof (Z.mod_pos_bound (hash_key i o) (bitmap_size c)). lia.
Qed.

(** A pass over the hash functions that acts on the counters as a daemon-side pass does. *)
Lemma as_daemon_pass (f : client_cbf -> nat -> client_cbf) (g : cbf -> nat -> cbf) c (l : list nat) :
  0 < bitmap_size c < 2 ^ 32 ->
  (forall c' i, bitmap_size c' = bitmap_size c -> as_daemon (f c' i) = g (as_daemon c') i /\ bitmap_size (f c' i) = bitmap_size c) ->
  as_daemon (foldl f c l) = foldl g (as_daemon c) l.
Proof.
  intros Hb Hf. assert (forall c', bitmap_size c' = bitmap_size c -> as_daemon (foldl f c' l) = foldl g (as_daemon c') l) as H; [|by apply H].
  induction l as [|i l IH]; intros c' Ec; [done|]. cbn [foldl]. destruct (Hf c' i Ec) as [E1 E2].
  by rewrite IH, E1.
Qed.

(** Passes that agree while the counters stay in range. *)
Lemma pass_agree (f g : cbf -> nat -> cbf) (d : Z) c o :
  CountingBloom.wf c ->
  (forall c' i, CountingBloom.wf c' -> same_shape c c' -> (i < num_hash_ c)%nat ->
     u_ok 8 (byte c' (computeHash c o i) + d) ->
     f c' i = set_byte c' (computeHash c o i) (byte c' (computeHash c o i) + d) /\
     g c' i = set_byte c' (computeHash c o i) (byte c' (computeHash c o i) + d)) ->
  (forall i m, (i < num_hash_ c)%nat -> (m <= num_hash_ c)%nat ->
     u_ok 8 (byte c (computeHash c o i) + d * hits c o m (computeHash c o i))) ->
  foldl f c (seq 0 (num_hash_ c)) = foldl g c (seq 0 (num_hash_ c)).
Proof.
  intros Hwf Hfg Hok. assert (forall n, (n <= num_hash_ c)%nat -> foldl f c (seq 0 n) = foldl g c (seq 0 n)) as H; [|by apply H].
  induction n as [|n IH]; intros Hn; [done|]. rewrite seq_S, !foldl_app. cbn [foldl Nat.add]. rewrite <- IH by lia.
  destruct (bump_pass f d c o n Hwf) as (H1 & H2 & H3).
  - intros c' i Hw Hs Hi Hu. apply Hfg; [done|done|lia|done].
  - intros i Hi m Hm. apply Hok; lia.
  - set (c' := foldl f c (seq 0 n)) in *.
    assert (u_ok 8 (byte c' (computeHash c o n) + d)) as Hu.
    { pose proof (computeHash_range c o n (proj1 (wf_bits c Hwf))). rewrite H3 by lia.
      specialize (Hok n (S n) ltac:(lia) Hn). rewrite hits_S in Hok. rewrite decide_True in Hok by done.
      replace (_ + _ + d) with (byte c (computeHash c o n) + d * (hits c o n (computeHash c o n) + 1)); [done|lia]. }
    destruct (Hfg c' n H1 H2 ltac:(lia) Hu) as [-> ->]. done.
Qed.

Lemma tally_cons c S o idx : tally c (o :: S) idx = hits c o (num_hash_ c) idx + tally c S idx.
Proof. reflexivity. Qed.

Lemma hits_mono c o m n idx : (m <= n)%nat -> hits c o m idx <= hits c o n idx.
Proof. intros Hm. induction Hm as [|n Hm IH]; [lia|]. rewrite hits_S. case_decide; lia. Qed.

Definition in_size (c : client_cbf) : Prop := 0 < bitmap_size c < 2 ^ 32.

Lemma cbf_add_Insert c o :
  in_size c -> CountingBloom.wf (as_daemon c) -> room (as_daemon c) o -> as_daemon (cbf_add c o) = Insert (as_daemon c) o.
Proof.
  intros Hb Hwf Hr. unfold cbf_add.
  rewrite (as_daemon_pass _ (fun c' i => let index := computeHash c' o i in
             if byte c' index <? 255 then set_byte c' index (byte c' index + 1) else c')); [|done|].
  - unfold Insert. change (ccbf_num_hash c) with (num_hash_ (as_daemon c)). apply (pass_agree _ _ 1 _ o); [done| |].
    + intros c' i Hw Hs Hi Hu. cbv zeta. unfold Insert1. rewrite (computeHash_shape _ c') by done. unfold u_ok in Hu.
      by rewrite (proj2 (Z.ltb_lt _ _)) by lia.
    + intros i m Hi Hm. specialize (Hr i Hi). pose proof (hits_mono (as_daemon c) o m _ (computeHash (as_daemon c) o i) Hm).
      pose proof (wf_byte _ Hwf (computeHash (as_daemon c) o i)).
      pose proof (hits_nonneg (as_daemon c) o m (computeHash (as_daemon c) o i)). unfold u_ok in *. lia.
  - intros c' i Ec. unfold cbf_add1. rewrite cbf_compute_hash_daemon by (by rewrite Ec). cbv zeta.
    change (client_byte c' ?x) with (byte (as_daemon c') x). case_match; [|done].
    unfold set_client_byte, set_byte. by rewrite <- Ec.
Qed.

Lemma cbf_might_contain_daemon c o : in_size c -> cbf_might_contain c o = MightContain (as_daemon c) o.
Proof.
  intros Hb. unfold cbf_might_contain, MightContain. cbn [as_daemon num_hash_].
  induction (seq 0 (ccbf_num_hash c)) as [|i l IH]; [done|]. cbn [forallb]. rewrite IH.
  by rewrite cbf_compute_hash_daemon.
Qed.

Lemma cbf_remove_Remove c S o :
  in_size c -> tracks (as_daemon c) (o :: S) ->
  (as_daemon (cbf_remove c o).1, (cbf_remove c o).2) = Remove (as_daemon c) o.
Proof.
  intros Hb Ht. pose proof (tracks_mem _ _ o Ht ltac:(left)) as Hm. destruct Ht as [Hwf Hc].
  unfold Remove. set (d := as_daemon c) in *.
  destruct (MightContain_idx_spec d o (replicate (num_hash_ d) (wrap 32 (-1)))) as [H1 H2]; [apply length_replicate|].
  destruct (MightContain_idx d o _) as [b res]. cbn [fst snd] in *. rewrite H1, Hm. specialize (H2 Hm).
  unfold cbf_remove. rewrite cbf_might_contain_daemon by done. fold d. rewrite Hm. cbn [fst snd]. f_equal.
  rewrite (as_daemon_pass _ (fun c' i => let index := computeHash c' o i in
             if 0 <=? byte c' index then set_byte c' index (wrap 8 (byte c' index - 1)) else c')); [|done|].
  - fold d. change (ccbf_num_hash c) with (num_hash_ d). apply (pass_agree _ _ (-1) d o); [done| |].
    + intros c' i Hw Hs Hi Hu. cbv zeta. unfold Remove1. rewrite H2, (computeHash_shape d c') by done.
      assert ((if negb (computeHash d o i =? wrap 32 (-1)) then computeHash d o i else computeHash d o i) = computeHash d o i) as ->
        by (by case_match).
      unfold u_ok in Hu. rewrite (proj2 (Z.leb_le _ _)) by lia. rewrite wrap_small by (unfold u_ok; lia). done.
    + intros i m Hi Hm'. pose proof (computeHash_range d o i (proj1 (wf_bits d Hwf))) as Hr.
      specialize (Hc _ Hr). rewrite tally_cons in Hc. pose proof (tally_nonneg d S (computeHash d o i)).
      pose proof (hits_mono d o m _ (computeHash d o i) Hm'). pose proof (hits_nonneg d o m (computeHash d o i)).
      pose proof (wf_byte d Hwf (computeHash d o i)). unfold u_ok in *. lia.
  - intros c' i Ec. unfold cbf_remove1. rewrite cbf_compute_hash_daemon by (by rewrite Ec). cbv zeta.
    change (client_byte c' ?x) with (byte (as_daemon c') x). case_match; [|done].
    unfold set_client_byte, set_byte. by rewrite <- Ec.
Qed.

Definition client_cbf_step (c : client_cbf) (x : cbf_op) : client_cbf :=
  match x with CInsert o => cbf_add c o | CRemove o => (cbf_remove c o).1 end.
Definition client_cbf_run (c : client_cbf) (xs : list cbf_op) : client_cbf := foldl client_cbf_step c xs.

Lemma client_run_size c c' : same_shape (as_daemon c) (as_daemon c') -> in_size c -> in_size c'.
Proof. intros (_ & E & _). cbn in E. unfold in_size. by rewrite E. Qed.

Lemma client_run_daemon c0 xs S :
  in_size c0 -> tracks (as_daemon c0) [] -> history (as_daemon c0) xs S ->
  as_daemon (client_cbf_run c0 xs) = cbf_run (as_daemon c0) xs.
Proof.
  intros Hb H0. induction 1 as [|xs S o Hh IH Hno|xs S S' o Hh IH HS]; [done|..];
    destruct (history_tracks _ _ _ H0 Hh) as [Ht Hs]; unfold client_cbf_run, cbf_run in *;
    rewrite !foldl_app; cbn [foldl client_cbf_step cbf_step]; rewrite <- IH in *;
    set (c := foldl client_cbf_step c0 xs) in *; pose proof (client_run_size c0 c Hs Hb) as Hc.
  - apply cbf_add_Insert; [done|apply Ht|]. intros i Hi. destruct Ht as [Hwf Hcs].
    pose proof (computeHash_range (as_daemon c) o i (proj1 (wf_bits _ Hwf))) as Hr.
    specialize (Hcs _ Hr). apply (no_overflow_shape _ (as_daemon c) _ Hs) in Hno. specialize (Hno _ Hr).
    rewrite tally_cons in Hno. lia.
  - rewrite <- (cbf_remove_Remove c S' o); [done|done|]. by eapply tracks_perm.
Qed.

(** ** Lemmas: the hash table *)

Lemma chain_del_keys l k k' : k' ∈ (chain_del l k).*1 -> k' ∈ l.*1.
Proof.
  induction l as [|[k0 v0] l IH]; cbn [chain_del]; [done|]. case_match; cbn; rewrite !elem_of_cons; tauto.
Qed.

Lemma chain_del_nodup l k : NoDup l.*1 -> NoDup (chain_del l k).*1 /\ ~ k ∈ (chain_del l k).*1.
Proof.
  induction l as [|[k0 v0] l IH]; cbn [chain_del fmap list_fmap fst]; intros Hn.
  { split; [done|]. apply not_elem_of_nil. }
  apply NoDup_cons in Hn as [H0 Hn]. destruct (Z.eqb_spec k0 k) as [->|E]; [done|].
  destruct (IH Hn) as [H1 H2]. cbn. rewrite NoDup_cons, elem_of_cons. split.
  - split; [|done]. intros H. by apply H0, (chain_del_keys _ k).
  - intros [->|H]; [done|]. by apply H2.
Qed.

Lemma chain_find_none l k : ~ k ∈ l.*1 -> chain_find l k = None.
Proof.
  induction l as [|[k0 v0] l IH]; cbn; [done|]. rewrite elem_of_cons. intros H.
  destruct (Z.eqb_spec k0 k); [subst; tauto|]. apply IH. tauto.
Qed.

Lemma chain_find_del l k k' : NoDup l.*1 ->
  chain_find (chain_del l k) k' = if decide (k = k') then None else chain_find l k'.
Proof.
  intros Hn. case_decide as E.
  { subst. apply chain_find_none. by apply chain_del_nodup. }
  clear Hn. induction l as [|[k0 v0] l IH]; cbn [chain_del chain_find]; [done|].
  destruct (Z.eqb_spec k0 k) as [->|E0]; cbn [chain_find].
  - by rewrite (proj2 (Z.eqb_neq k k')).
  - by rewrite IH.
Qed.

(** The table holds the map [m]: every key at most once, in the bucket its hash selects. *)
Definition bkt (ht : hashtable) (k : Z) : nat := Z.to_nat (wrap 32 (hash_key 0 k mod Z.of_nat (num_buckets ht))).
Record ht_rep (ht : hashtable) (m : gmap Z Z) : Prop := {
  hr_pos : (0 < num_buckets ht)%nat;
  hr_len : length (hlistheads ht) = num_buckets ht;
  hr_nodup b : NoDup (bucket ht b).*1;
  hr_find k : chain_find (bucket ht (bkt ht k)) k = m !! k;
}.

Lemma get_bkt_id_ok ht k : (0 < num_buckets ht)%nat -> get_bkt_id ht k = Ok (bkt ht k).
Proof. intros H. unfold get_bkt_id. rewrite (proj2 (Nat.eqb_neq _ _)) by lia. unfold bkt. reflexivity. Qed.

Lemma bkt_lt ht k : (0 < num_buckets ht)%nat -> (bkt ht k < num_buckets ht)%nat.
Proof. intros H. 
  unfold bkt. pose proof (Z.mod_pos_bound (hash_key 0 k) (Z.of_nat (num_buckets ht))) as Hb. set (x := hash_key 0 k mod _) in *.
  assert (0 <= wrap 32 x <= x) by (unfold wrap; split; [apply Z.mod_pos_bound; lia|apply Z.mod_le; lia]). lia.
Qed.

Lemma bkt_set ht b l k : bkt (set_bucket ht b l) k = bkt ht k.
Proof. unfold bkt, set_bucket. cbn [num_buckets]. reflexivity. Qed.

Lemma bucket_set ht b b' l : (b < length (hlistheads ht))%nat ->
  bucket (set_bucket ht b l) b' = if decide (b = b') then l else bucket ht b'.
Proof.
  intros Hb. unfold bucket, set_bucket. cbn. case_decide as E.
  - subst. by rewrite list_lookup_insert_eq.
  - by rewrite list_lookup_insert_ne.
Qed.

Lemma ht_rep_new n : (0 < n)%nat -> ht_rep (hashtable_new n) ∅.
Proof.
  intros Hn. assert (forall b, bucket (hashtable_new n) b = []) as Hb.
  { intros b. unfold bucket, hashtable_new. cbn [hlistheads]. destruct (replicate n [] !! b) eqn:E; [|done].
    apply lookup_replicate in E as [-> _]. done. }
  split; [done|apply length_replicate| |].
  - intros b. rewrite Hb. apply NoDup_nil_2.
  - intros k. rewrite Hb. by rewrite lookup_empty.
Qed.

(** When a table is there. *)
Lemma hashtable_init_spec ok num_entries : 0 <= num_entries * 75 < 2 ^ 64 ->
  hashtable_init ok num_entries =
  if ok 0%nat && ok 1%nat && ok 2%nat && (2 <=? num_entries) then Some (hashtable_new (Z.to_nat (num_entries * 75 / 100))) else None.
Proof.
  intros Hn. unfold hashtable_init, vzalloc. rewrite (mul64_small num_entries 75 Hn).
  assert ((0 <? num_entries * 75 / 100 * 8) = (2 <=? num_entries)) as ->.
  { apply eq_true_iff_eq. rewrite Z.ltb_lt, Z.leb_le. split; intros H; dlia. }
  by destruct (ok 0%nat), (ok 1%nat), (ok 2%nat), (2 <=? num_entries).
Qed.

Lemma ht_get ht m k : ht_rep ht m -> hashtable_get ht k = Ok (default no_value (m !! k)).
Proof. intros [H1 H2 H3 H4]. unfold hashtable_get. rewrite get_bkt_id_ok by done. obind. by rewrite H4. Qed.

Lemma ht_remove ht m k : ht_rep ht m ->
  exists ht', hashtable_remove ht k = Ok (ht', default no_value (m !! k)) /\ ht_rep ht' (delete k m) /\
    num_buckets ht' = num_buckets ht.
Proof.
  intros [H1 H2 H3 H4]. unfold hashtable_remove. rewrite get_bkt_id_ok by done. obind. rewrite H4.
  eexists. split; [done|]. split; [|done]. pose proof (bkt_lt ht k H1) as Hl. split; [done| | |].
  - cbn. by rewrite length_insert.
  - intros b. rewrite bucket_set by lia. case_decide; [|done]. by apply chain_del_nodup.
  - intros k'. rewrite bkt_set, bucket_set by lia.
    destruct (decide (k = k')) as [->|E].
    + rewrite decide_True by done. rewrite chain_find_del by done. by rewrite decide_True, lookup_delete_eq.
    + rewrite lookup_delete_ne by done. rewrite <- H4. case_decide as Eb; [|done].
      rewrite chain_find_del by done. rewrite decide_False by done. by rewrite Eb.
Qed.

Lemma ht_remove_nokey ht m k ht' v : ht_rep ht m ->
  hashtable_remove ht k = Ok (ht', v) -> ~ k ∈ (bucket ht' (bkt ht' k)).*1.
Proof.
  intros [H1 H2 H3 H4]. unfold hashtable_remove. rewrite get_bkt_id_ok by done. obind. intros [= <- _].
  pose proof (bkt_lt ht k H1). rewrite bkt_set, bucket_set by lia. rewrite decide_True by done. by apply chain_del_nodup.
Qed.

Lemma ht_insert ht m k v : ht_rep ht m ->
  exists ht', hashtable_insert ht k v = Ok ht' /\ ht_rep ht' (<[k := v]> m).
Proof.
  intros Hr. unfold hashtable_insert. destruct (ht_remove ht m k Hr) as (ht1 & E1 & [H1 H2 H3 H4] & En).
  pose proof (ht_remove_nokey ht m k ht1 _ Hr E1) as Hno. rewrite E1. obind. rewrite get_bkt_id_ok by done. obind.
  eexists. split; [done|]. pose proof (bkt_lt ht1 k H1) as Hl. split; [done| | |].
  - cbn. by rewrite length_insert.
  - intros b. rewrite bucket_set by lia. case_decide; [|done]. cbn. by apply NoDup_cons.
  - intros k'. rewrite bkt_set, bucket_set by lia.
    destruct (decide (k = k')) as [->|E].
    + rewrite decide_True by done. cbn. by rewrite Z.eqb_refl, lookup_insert_eq.
    + rewrite lookup_insert_ne by done. specialize (H4 k'). rewrite lookup_delete_ne in H4 by done. rewrite <- H4.
      case_decide as Eb; [|done]. cbn. rewrite (proj2 (Z.eqb_neq k k')) by done. by rewrite Eb.
Qed.

(** Sequences of calls, and the map they implement. *)
Inductive ht_op := HInsert (k v : Z) | HRemove (k : Z) | HGet (k : Z).

Fixpoint ht_run (ht : hashtable) (ops : list ht_op) : outcome (hashtable * list Z) :=
  match ops with
  | [] => Ok (ht, [])
  | HInsert k v :: ops => ht ← hashtable_insert ht k v; ht_run ht ops
  | HRemove k :: ops => '(ht, r) ← hashtable_remove ht k; '(ht, rs) ← ht_run ht ops; Ok (ht, r :: rs)
  | HGet k :: ops => r ← hashtable_get ht k; '(ht, rs) ← ht_run ht ops; Ok (ht, r :: rs)
  end.
Fixpoint map_run (m : gmap Z Z) (ops : list ht_op) : gmap Z Z * list Z :=
  match ops with
  | [] => (m, [])
  | HInsert k v :: ops => map_run (<[k := v]> m) ops
  | HRemove k :: ops => let '(m', rs) := map_run (delete k m) ops in (m', default no_value (m !! k) :: rs)
  | HGet k :: ops => let '(m', rs) := map_run m ops in (m', default no_value (m !! k) :: rs)
  end.

Lemma ht_run_map ht m ops : ht_rep ht m ->
  exists ht', ht_run ht ops = Ok (ht', (map_run m ops).2) /\ ht_rep ht' (map_run m ops).1.
Proof.
  revert ht m. induction ops as [|[k v|k|k] ops IH]; intros ht m Hr; cbn [ht_run map_run].
  - by exists ht.
  - destruct (ht_insert ht m k v Hr) as (ht1 & E & H1). rewrite E. obind. by apply IH.
  - destruct (ht_remove ht m k Hr) as (ht1 & E & H1 & _). rewrite E. obind.
    destruct (IH _ _ H1) as (ht' & E2 & H2). rewrite E2. obind. destruct (map_run _ _). by exists ht'.
  - rewrite (ht_get ht m k Hr). obind. destruct (IH _ _ Hr) as (ht' & E2 & H2). rewrite E2. obind.
    destruct (map_run _ _). by exists ht'.
Qed.

(** ** Properties *)


(** An addition that nothing interrupts is [bf_add]. *)
Theorem add_alone f k :
  add_steps (2 * bf_num_hash f) f (add_begin f k) = Some (bf_add f k, Adding (check_merging f) [] None).
Proof.
  assert (forall todo g tmp, add_steps (2 * length todo) g (Adding tmp todo None) =
    Some (set_target g tmp (foldl set_bit (target g tmp) todo), Adding tmp [] None)) as H.
  { induction todo as [|h todo IH]; intros g tmp.
    - cbn. do 2 f_equal. by destruct g as [o nh nb b t m], tmp.
    - cbn [length]. replace (2 * S (length todo))%nat with (S (S (2 * length todo))) by lia.
      cbn [add_steps add_step a_todo a_word a_tmp calc_bitidx mbind option_bind]. rewrite IH. do 2 f_equal.
      by destruct g as [o nh nb b t m], tmp. }
  unfold add_begin. specialize (H (key_hashes f k) f (check_merging f)). unfold key_hashes in H at 1. rewrite length_fmap, length_seq in H.
  rewrite H. do 2 f_equal. unfold bf_add, target, set_target. by destruct (check_merging f).
Qed.

(** Nothing makes the load and the store of a word one: of two additions that overlap the first can lose its bit, and
    its key with it. *)
Theorem concurrent_adds_lose_bit f tmp h1 h2 t1 t2 :
  bf_wf f -> 0 <= h1 < bf_num_bits f -> 0 <= h2 < bf_num_bits f -> h1 <> h2 -> h1 / 64 = h2 / 64 ->
  bitv (target f tmp) h1 = false ->
  exists a1 a2 f1 f2,
    add_step f (Adding tmp (h1 :: t1) None) = Some (f, a1) /\ add_step f (Adding tmp (h2 :: t2) None) = Some (f, a2) /\
    add_step f a1 = Some (f1, Adding tmp t1 None) /\ add_step f1 a2 = Some (f2, Adding tmp t2 None) /\
    bitv (target f1 tmp) h1 = true /\ bitv (target f2 tmp) h1 = false.
Proof.
  intros Hwf H1 H2 Hne Hw Hb.
  assert (length (target f tmp) = Z.to_nat (BITS_TO_LONGS (bf_num_bits f))) as Hl by (by destruct Hwf, tmp).
  pose proof (range_word f h1 H1) as Hr1. pose proof (range_word f h2 H2) as Hr2. rewrite <- Hl in Hr1, Hr2.
  assert (forall g bm, target (set_target g tmp bm) tmp = bm) as Et by (intros g bm; by destruct tmp).
  eexists _, _, _, _. split_and!; [reflexivity..| |].
  - cbn [target]. rewrite Et. change (<[_ := _]> _) with (set_bit (target f tmp) h1). rewrite set_bit_spec by (done || lia). by rewrite Z.eqb_refl, orb_true_r.
  - rewrite !Et. change (bitv (<[Z.to_nat (h2 / 64) := default 0 (target f tmp !! Z.to_nat (h2 / 64)) .| check_bit h2]>
      (<[Z.to_nat (h1 / 64) := default 0 (target f tmp !! Z.to_nat (h1 / 64)) .| check_bit h1]> (target f tmp))) h1 = false).
    rewrite Hw, list_insert_insert_eq. change (bitv (set_bit (target f tmp) h2) h1 = false).
    rewrite set_bit_spec by (done || lia). rewrite Hb. by apply Z.eqb_neq.
Qed.

(** [bf_unblocking] leaves merging mode before it merges: in between, a key put during the round
    and unknown to the daemon's filter is reported absent, although it is reported present before and after. *)
Theorem unblocking_window f c ks1 ks2 k :
  bf_wf f -> CountingBloom.wf c -> matches f c -> k ∈ ks1 ++ ks2 -> MightContain c k = false ->
  let f' := update_during f c ks1 ks2 in
  bf_might_contain f' k = true /\ bf_might_contain (bf_clear_merging f') k = false /\
  bf_might_contain (bf_unblocking f') k = true.
Proof.
  intros Hwf Hc Hm Hk Hno f'. destruct (update_during_covers f c ks1 ks2 Hwf Hc Hm) as (ks & H & Hks & Eb).
  fold f' in H, Eb. assert (all_bits f' (tmp_bitmap f') k) as Ht.
  { apply (all_bits_params f f'); [apply H|]. apply H. by apply Hks. }
  split_and!.
  - apply might_contain_iff; [apply H|]. left. split; [apply H|done].
  - apply not_true_is_false. rewrite clear_merging_contain by apply H.
    rewrite (all_bits_params f f') by apply H. rewrite Eb, shipped_bits by done. by rewrite Hno.
  - apply bf_unblocking_contain; [apply H|by right].
Qed.

(** A put the daemon has not stored when it builds its filter (it is still in the batch of
    the client, or on the wire) is forgotten by the round: the key was reported present, and is
    reported absent afterwards. *)
Theorem update_forgets_unsent_put f c k :
  bf_wf f -> CountingBloom.wf c -> matches f c -> merging f = false -> MightContain c k = false ->
  let f' := bf_add f k in
  bf_might_contain f' k = true /\ bf_might_contain (bf_unblocking (update_during f' c [] [])) k = false.
Proof.
  intros Hwf Hc Hm Em Hno f'. assert (same_params f f') as Hp by (unfold f', bf_add; by case_match).
  assert (matches f' c) as Hm' by (destruct Hm, Hp; split; congruence).
  pose proof (bf_add_wf f k Hwf) as Hwf'. fold f' in Hwf'. split; [apply bf_add_all; auto|].
  pose proof (shipped_wf _ c (bf_blocking_wf f' Hwf') Hc Hm') as Hs.
  apply not_true_is_false. unfold update_during. cbn [foldl]. rewrite might_contain_iff by (by apply bf_unblocking_wf).
  intros [[? _]|Hb]; [done|]. apply Bool.diff_false_true. rewrite <- Hno. apply (shipped_bits f' c k Hc Hm').
  intros h Hh. specialize (Hb h Hh). pose proof (key_hashes_range f' k h (proj1 (bw_bits f' Hwf')) Hh).
  change (bitmap (bf_unblocking ?g)) with (bitmap (bf_merge (bf_clear_merging g))) in Hb.
  rewrite bf_merge_bits in Hb; [|by destruct Hs|done]. apply orb_true_iff in Hb as [Hb|Hb]; [done|].
  change (bitv (tmp_bitmap (bf_blocking f')) h = true) in Hb. by rewrite bf_blocking_empty in Hb by (done || lia).
Qed.

(** The client's own counting filter counts exactly as the daemon's does as long as only present
    keys are removed and no counter would pass 255, and then reports every present key; but a
    counter at 255 is not incremented while every removal decrements it, so that after 256
    additions and 255 removals of a key the remaining copy is not reported. *)
Theorem client_cbf_tracks num_hash num_bits xs S o :
  0 < num_bits * 8 < 2 ^ 32 -> history (CountingBloomFilter num_hash (num_bits * 8)) xs S ->
  let c := client_cbf_run (cbf_new num_hash num_bits) xs in
  as_daemon c = cbf_run (CountingBloomFilter num_hash (num_bits * 8)) xs /\
  (o ∈ S -> cbf_might_contain c o = true) /\
  cbf_might_contain (client_cbf_run (cbf_new 1 11) (replicate 256 (CInsert 5) ++ replicate 255 (CRemove 5))) 5 = false.
Proof.
  intros Hn Hh c. change (CountingBloomFilter num_hash (num_bits * 8)) with (as_daemon (cbf_new num_hash num_bits)) in *.
  assert (tracks (as_daemon (cbf_new num_hash num_bits)) []) as H0 by (by apply new_tracks).
  pose proof (client_run_daemon (cbf_new num_hash num_bits) xs S Hn H0 Hh) as E. fold c in E. split; [done|].
  destruct (history_tracks _ xs S H0 Hh) as [Ht Hs]. rewrite <- E in Ht, Hs. split; [|by vm_compute].
  intros Ho. rewrite cbf_might_contain_daemon by (by eapply client_run_size). by apply (tracks_mem _ S).
Qed.

(** C38: The hash table of exact keys is there exactly when its allocations succeed and there are at least two remote pages
    (with fewer it would have no buckets, and [vzalloc] of nothing gives NULL); when it is there it
    answers every sequence of insertions, removals and lookups as a map does. *)
Theorem hashtable_refines_map ok num_entries ops :
  0 <= num_entries * 75 < 2 ^ 64 ->
  (is_Some (hashtable_init ok num_entries) <-> 2 <= num_entries /\ ok 0%nat = true /\ ok 1%nat = true /\ ok 2%nat = true) /\
  (forall ht, hashtable_init ok num_entries = Some ht ->
    exists ht', ht_run ht ops = Ok (ht', (map_run ∅ ops).2) /\ ht_rep ht' (map_run ∅ ops).1).
Proof.
  intros Hn. rewrite hashtable_init_spec by done. split.
  - destruct (ok 0%nat), (ok 1%nat), (ok 2%nat), (Z.leb_spec 2 num_entries); cbn [andb]; split; try (by intros [? ?]); try (by eexists);
      intros (? & ? & ? & ?); done || lia.
  - intros ht. destruct (_ && (2 <=? num_entries)) eqn:E; [|done]. apply andb_true_iff in E as [_ E%Z.leb_le]. intros [= <-].
    apply ht_run_map, ht_rep_new. assert (1 <= num_entries * 75 / 100) by dlia. lia.
Qed.

(** ** Witnesses *)

(** A filter of 97 bits that has seen the key 5, and a daemon that stores the key 9. *)
Definition demo_bf : bf := bf_add (bf_new 4 97 true) 5.
Definition demo_cbf : cbf := Insert (CountingBloomFilter 4 97) 9.

Lemma demo_bf_wf : bf_wf demo_bf.
Proof. apply bf_add_wf. split; [done|apply length_replicate|apply length_replicate]. Qed.

Lemma demo_cbf_covers : covers demo_cbf [9].
Proof.
  apply tracks_covers, (tracks_insert (CountingBloomFilter 4 97) [] 9); [by apply new_tracks|].
  intros idx _. apply tally_small. simpl. lia.
Qed.

(** The key 7 is added while the two words of the daemon's filter arrive, the second first. *)
Definition demo_words : list Z := bf_long_bitarr_ (ToOrdinaryBF demo_cbf).
Definition demo_add : bf * adding := default (bf_blocking demo_bf, Adding true [] None)
  (add_steps 3 (bf_blocking demo_bf) (add_begin (bf_blocking demo_bf) 7)).
Definition put_word (f : bf) (i : nat) : bf := with_bitmaps f (<[i := default 0 (demo_words !! i)]> (bitmap f)) (tmp_bitmap f) (merging f).
Definition demo_add2 : bf * adding := default demo_add (add_steps 5 (put_word demo_add.1 1) demo_add.2).
Definition demo_round : round := Round (put_word demo_add2.1 0) None [7] [].

Lemma round_adds words n : forall f a f' a' k ks left, add_steps n f a = Some (f', a') ->
  rtc (round_step words) (Round f (Some (k, a)) ks left) (Round f' (Some (k, a')) ks left).
Proof.
  induction n as [|n IH]; intros f a f' a' k ks left; cbn [add_steps]; [by intros [= -> ->]|].
  destruct (add_step f a) as [[f1 a1]|] eqn:E; [|done]. intros H. eapply rtc_l; [by apply RoundAdd|]. by apply IH.
Qed.

Lemma demo_round_runs : rtc (round_step demo_words) (round_start demo_bf demo_words) demo_round.
Proof.
  eapply rtc_l; [apply (RoundBegin _ 7)|]. change (seq 0 (length demo_words)) with [0; 1]%nat.
  etrans; [apply (round_adds _ 3 _ _ demo_add.1 demo_add.2); vm_compute; reflexivity|].
  eapply rtc_l; [apply (RoundWord _ 1 (default 0 (demo_words !! 1%nat)) _ _ _ [0%nat] []); vm_compute; reflexivity|].
  etrans; [apply (round_adds _ 5 _ _ demo_add2.1 demo_add2.2); vm_compute; reflexivity|].
  eapply rtc_l; [apply RoundDone; vm_compute; reflexivity|].
  eapply rtc_l; [apply (RoundWord _ 0 (default 0 (demo_words !! 0%nat)) _ _ _ [] []); vm_compute; reflexivity|]. apply rtc_refl.
Qed.


Lemma unblocking_window_witness :
  let f' := update_during demo_bf demo_cbf [7] [3] in
  bf_might_contain f' 7 = true /\ bf_might_contain (bf_clear_merging f') 7 = false /\
  bf_might_contain (bf_unblocking f') 7 = true.
Proof.
  apply (unblocking_window demo_bf demo_cbf [7] [3] 7); [apply demo_bf_wf|apply demo_cbf_covers|done| |].
  - left.
  - by vm_compute.
Defined.

Lemma update_forgets_unsent_put_witness :
  let f' := bf_add demo_bf 7 in
  bf_might_contain f' 7 = true /\ bf_might_contain (bf_unblocking (update_during f' demo_cbf [] [])) 7 = false.
Proof.
  apply (update_forgets_unsent_put demo_bf demo_cbf 7); [apply demo_bf_wf|apply demo_cbf_covers|done|done|by vm_compute].
Defined.

Lemma client_cbf_tracks_witness :
  let c := client_cbf_run (cbf_new 4 97) [CInsert 5] in
  as_daemon c = cbf_run (CountingBloomFilter 4 (97 * 8)) [CInsert 5] /\
  (5 ∈ [5] -> cbf_might_contain c 5 = true) /\
  cbf_might_contain (client_cbf_run (cbf_new 1 11) (replicate 256 (CInsert 5) ++ replicate 255 (CRemove 5))) 5 = false.
Proof.
  apply (client_cbf_tracks 4 97 [CInsert 5] [5] 5); [lia|].
  apply (HistInsert _ [] [] 5); [constructor|]. intros idx _. apply tally_small. simpl. lia.
Defined.

Lemma hashtable_refines_map_witness :
  let ops := [HInsert 5 0; HInsert 9 1; HGet 5; HRemove 5; HGet 5] in
  (is_Some (hashtable_init (fun _ => true) 4) <-> 2 <= 4 /\ true = true /\ true = true /\ true = true) /\
  (forall ht, hashtable_init (fun _ => true) 4 = Some ht ->
    exists ht', ht_run ht ops = Ok (ht', (map_run ∅ ops).2) /\ ht_rep ht' (map_run ∅ ops).1).
Proof. apply (hashtable_refines_map (fun _ => true) 4 [HInsert 5 0; HInsert 9 1; HGet 5; HRemove 5; HGet 5]). lia. Defined.
