(* ===== verification/Client.v ===== *)
(** * Client: the driver's data path over RDMA

    [driver/rdma.c]: puts are copied into slots of a registered buffer and sent in
    batches by a work item ([send_page_work_handler]); gets and invalidations are
    written with an immediate word into the daemon's metadata region. The card is
    modelled by what the code relies on: posted requests are read in order, some
    time before their completion is polled. *)
From S2P Require Import Prelude Wire Crc.

(** ** State *)

(** A slot of [keypage_mm_pool]: a page followed by its key. *)
Record keypage := Keypage { kp_page : list Z; kp_key : Z }.
#[export] Instance keypage_inhabited : Inhabited keypage := populate (Keypage [] 0).

(** A send request of a put: the slot it reads and its immediate word. *)
Record put_wr := PutWr { wr_slot : Z; wr_imm : Z }.

(** A message that has left the client for the daemon. *)
Inductive message :=
| MPut (imm : Z) (kp : keypage)
| MWrite (qid : Z) (offset : Z) (words : list Z) (imm : Z).

(** The work item that holds [q->mtx]: sending, with the requests the card has not
    read yet, or past [clear_bit]. *)
Inductive phase := Sending (wrs : list put_wr) | Cleared.

(** [q0_msg_id], [q1_msg_id]: the [int] counters of the put and the invalidation
    queue; [wait]: a bit per batch, an [unsigned long]; [works]: the scheduled work
    items, by message number; [mtx]: the item that holds the mutex; [wire]: what has
    left the client, oldest first. *)
Record ctrl := Ctrl {
  q0_msg_id : Z;
  q1_msg_id : Z;
  wait : Z;
  keypages : list keypage;
  works : list Z;
  mtx : option (Z * phase);
  wire : list message;
}.

Definition cfg : Driver.driver_config := Driver.dcc_rdma_set_default_config.
Definition NUM_MSGS : Z := num_msgs (Driver.d_rdma cfg).
Definition NUM_PUT_BATCH : Z := Driver.num_put_batch cfg.

(** A new connection: [kzalloc]ed control block, zeroed buffer. *)
Definition alloc_ctrl : ctrl :=
  Ctrl 0 0 0 (replicate (Z.to_nat NUM_MSGS) (Keypage (replicate (Z.to_nat PAGE_SIZE) 0) 0)) [] None [].

Definition set_q0 (c : ctrl) (m : Z) : ctrl := Ctrl m (q1_msg_id c) (wait c) (keypages c) (works c) (mtx c) (wire c).
Definition set_q1 (c : ctrl) (m : Z) : ctrl := Ctrl (q0_msg_id c) m (wait c) (keypages c) (works c) (mtx c) (wire c).
Definition set_wait (c : ctrl) (w : Z) : ctrl := Ctrl (q0_msg_id c) (q1_msg_id c) w (keypages c) (works c) (mtx c) (wire c).
Definition set_keypages (c : ctrl) (l : list keypage) : ctrl :=
  Ctrl (q0_msg_id c) (q1_msg_id c) (wait c) l (works c) (mtx c) (wire c).
Definition set_works (c : ctrl) (l : list Z) : ctrl :=
  Ctrl (q0_msg_id c) (q1_msg_id c) (wait c) (keypages c) l (mtx c) (wire c).
Definition set_mtx (c : ctrl) (m : option (Z * phase)) : ctrl :=
  Ctrl (q0_msg_id c) (q1_msg_id c) (wait c) (keypages c) (works c) m (wire c).
Definition send (c : ctrl) (m : message) : ctrl :=
  Ctrl (q0_msg_id c) (q1_msg_id c) (wait c) (keypages c) (works c) (mtx c) (wire c ++ [m]).

(** ** Puts *)

(** [memcpy] of the page and the key to slot [msg_id]; a negative number would
    write in front of the buffer. *)
Definition copy_to_send_buffer (c : ctrl) (key : Z) (page : list Z) (msg_id : Z) : outcome ctrl :=
  if (0 <=? msg_id) && (msg_id <? NUM_MSGS) then
    Ok (set_keypages c (<[Z.to_nat msg_id := Keypage page key]> (keypages c)))
  else Throw "keypage_mm_pool".

(** The loop on [test_bit]: [w i] is the value of [ctrl->wait] at the [i]-th test.
    [Some i]: the bit was clear at test [i]; [None]: still set when [num_retry]
    exceeded 5. *)
Fixpoint wait_batch (w : nat -> Z) (nr : Z) (fuel num_retry : nat) : option nat :=
  match fuel with
  | O => None
  | S fuel =>
      if Z.testbit (w num_retry) nr then
        if (5 <? num_retry)%nat then None else wait_batch w nr fuel (S num_retry)
      else Some num_retry
  end.

(** [q->msg_id++ % num_msgs] on [int]s, with the kernel's wrapping increment; a
    bit number outside the word would address memory next to [ctrl->wait]. *)
Definition dcc_rdma_send_page (w : nat -> Z) (c : ctrl) (page : list Z) (key : Z) : outcome (ctrl * Z) :=
  let msg_id := Z.rem (q0_msg_id c) NUM_MSGS in
  let c := set_q0 c (to_int (q0_msg_id c + 1)) in
  let nr := Z.quot msg_id NUM_PUT_BATCH in
  if negb ((0 <=? nr) && (nr <? 64)) then Throw "ctrl->wait"
  else match wait_batch w nr 7 0 with
  | None => Ok (set_q0 c (to_int (q0_msg_id c - 1)), -6)
  | Some _ =>
      c ← copy_to_send_buffer c key page msg_id;
      if negb (Z.rem msg_id NUM_PUT_BATCH =? NUM_PUT_BATCH - 1) then Ok (c, 0)
      else
        let c := set_wait c (wait c .| (1 <<₆₄ nr)) in
        Ok (set_works c (works c ++ [msg_id]), 0)
  end.

(** ** The work item that sends a batch *)

Definition batch_wrs (msg_id : Z) : list put_wr :=
  (fun i => let sending_msg_id := msg_id - (NUM_PUT_BATCH - 1) + Z.of_nat i in
            PutWr sending_msg_id (htonl (Driver.bit_mask sending_msg_id MSG_WRITE TX_WRITE_BEGIN 0 0)))
    <$> seq 0 (Z.to_nat NUM_PUT_BATCH).

(** [mutex_lock], [ib_post_send]: the [k]-th scheduled item, when the mutex is free. *)
Definition work_post (c : ctrl) (k : nat) : option ctrl :=
  match mtx c, works c !! k with
  | None, Some msg_id => Some (set_mtx (set_works c (delete k (works c))) (Some (msg_id, Sending (batch_wrs msg_id))))
  | _, _ => None
  end.

(** The card reads the slot of the next posted request and sends it. *)
Definition card_send (c : ctrl) : option ctrl :=
  match mtx c with
  | Some (msg_id, Sending (wr :: wrs)) =>
      Some (send (set_mtx c (Some (msg_id, Sending wrs))) (MPut (wr_imm wr) (keypages c !!! Z.to_nat (wr_slot wr))))
  | _ => None
  end.

(** [poll_send_cq] has seen the completion of the last request; [clear_bit]. *)
Definition work_clear (c : ctrl) : option ctrl :=
  match mtx c with
  | Some (msg_id, Sending []) =>
      Some (set_mtx (set_wait c (Z.ldiff (wait c) (1 <<₆₄ Z.quot msg_id NUM_PUT_BATCH))) (Some (msg_id, Cleared)))
  | _ => None
  end.

(** The last item of a round spins in [poll_recv_cq] until the daemon has replied, before it unlocks the mutex.
    [replied]: a completion is there to be polled; its contents are ignored. *)
Definition awaits_reply (msg_id : Z) : bool := msg_id =? NUM_MSGS - 1.
Definition work_unlock (replied : bool) (c : ctrl) : option ctrl :=
  match mtx c with
  | Some (msg_id, Cleared) => if awaits_reply msg_id && negb replied then None else Some (set_mtx c None)
  | _ => None
  end.

(** ** Replies *)

Record recv_result := RecvResult { rr_ret : Z; rr_etc : Z; rr_crc : Z }.

(** [poll_recv_cq] on a completion with immediate word [imm_data]; [etc0] and
    [crc0]: what the caller's variables hold before. *)
Definition poll_recv_cq (imm_data etc0 crc0 : Z) : recv_result :=
  if imm_data =? 0 then RecvResult 0 etc0 crc0
  else
    let u := Driver.bit_unmask (ntohl imm_data) in
    let tx_state := i_tx u in
    RecvResult
      (if (tx_state =? TX_WRITE_COMMITTED) || (tx_state =? TX_INV_PAGE_COMMITED) then 0
       else if tx_state =? TX_READ_COMMITTED then 0
       else if (tx_state =? TX_READ_ABORTED) || (tx_state =? TX_INV_PAGE_ABORTED) then 1
       else -1)
      (i_etc u) (i_crc u).

(** ** Gets and invalidations *)

(** [smp_processor_id() % num_get_qps + 2]: queue 0 is for puts, 1 for invalidations. *)
Definition get_queue (cpu : Z) : Z := cpu mod num_get_qps (Driver.d_rdma cfg) + 2.

(** [dcc_rdma_write_msg], up to the reply: the key and the DMA address of the page
    to fill. *)
Definition dcc_rdma_write_msg_request (cpu key dma : Z) : message :=
  let qid := get_queue cpu in
  let msg_id := 0 in
  MWrite qid (Driver.GET_METADATA_OFFSET (Driver.d_rdma cfg) qid msg_id MSG_READ) [key; dma]
    (htonl (Driver.bit_mask msg_id MSG_READ TX_READ_BEGIN 0 0)).

(** From the reply on: [page] is what the page holds then. [crc0]: the
    uninitialised variable [crc]. *)
Definition dcc_rdma_write_msg_result (DCC_CRC_CHECK : bool) (crc0 : Z) (page : list Z) (imm_data : Z) : Z :=
  let r := poll_recv_cq imm_data 0 crc0 in
  if (rr_ret r =? 0) && negb (wrap 8 (rr_crc r) =? CRC8 DCC_CRC_CHECK page) then -4 else rr_ret r.

(** [dcc_rdma_write_msg2]: only the last message of a round waits for a reply,
    whose word is [imm_data]. [post_ret]: the result of [ib_post_send]. *)
Definition dcc_rdma_write_msg2 (post_ret imm_data : Z) (c : ctrl) (key : Z) : ctrl * Z :=
  let qid := 1 in
  let msg_id := Z.rem (q1_msg_id c) NUM_MSGS in
  let c := set_q1 c (to_int (q1_msg_id c + 1)) in
  let imm := htonl (Driver.bit_mask msg_id MSG_INV_PAGE TX_INV_PAGE_BEGIN 0 0) in
  let c := send c (MWrite qid (Driver.GET_METADATA_OFFSET (Driver.d_rdma cfg) qid msg_id MSG_INV_PAGE) [key] imm) in
  if msg_id <? NUM_MSGS - 1 then (c, post_ret)
  else (c, rr_ret (poll_recv_cq imm_data 0 0)).
