(* ===== verification/ClientSpec.v ===== *)
(** * ClientSpec: the properties of the driver's data path

    The put buffer as a ring of batches shared by callers and work items: what was
    accepted is on the wire or still in its slot; blocked puts, overflow of the
    message counter, reordering of batches and of invalidations. *)
From S2P Require Import Prelude Wire Crc Client.

(** ** The runs of the client *)

(** A step of a work item or of the card; a reply of the daemon may be there or not. *)
Inductive handler_step (c c' : ctrl) : Prop :=
| HPost k : work_post c k = Some c' -> handler_step c c'
| HCard : card_send c = Some c' -> handler_step c c'
| HClear : work_clear c = Some c' -> handler_step c c'
| HUnlock replied : work_unlock replied c = Some c' -> handler_step c c'.

(** A step that needs no reply, and an item that waits for one. *)
Definition own_step (c c' : ctrl) : Prop :=
  (exists k, work_post c k = Some c') \/ card_send c = Some c' \/ work_clear c = Some c' \/ work_unlock false c = Some c'.
Definition waits_for_reply (c : ctrl) : Prop := mtx c = Some (NUM_MSGS - 1, Cleared).

(** The bit a put tests; its last test reads [ctrl->wait] as it is when the put goes on. *)
Definition cur_batch (c : ctrl) : Z := Z.quot (Z.rem (q0_msg_id c) NUM_MSGS) NUM_PUT_BATCH.
Definition reads_wait (w : nat -> Z) (c : ctrl) : Prop :=
  forall i, wait_batch w (cur_batch c) 7 0 = Some i -> w i = wait c.

(** The states the client can reach, with the puts it accepted (those that returned 0). *)
Inductive client_reach : list keypage -> ctrl -> Prop :=
| CRInit : client_reach [] alloc_ctrl
| CRPut acc c w page key c' r :
    client_reach acc c -> reads_wait w c -> dcc_rdma_send_page w c page key = Ok (c', r) ->
    client_reach (if r =? 0 then acc ++ [Keypage page key] else acc) c'
| CRHandler acc c c' : client_reach acc c -> handler_step c c' -> client_reach acc c'
| CRGet acc c cpu key dma : client_reach acc c -> client_reach acc (send c (dcc_rdma_write_msg_request cpu key dma))
| CRInv acc c post_ret imm key : client_reach acc c -> client_reach acc (dcc_rdma_write_msg2 post_ret imm c key).1.

(** ** What has not been sent *)

Definition batch_ids (m : Z) : list Z := seqZ (m - 31) 32.
Definition partial_ids (n : Z) : list Z := seqZ (n - n mod 32) (n mod 32).
Definition phase_ids (p : phase) : list Z := match p with Sending wrs => wr_slot <$> wrs | Cleared => [] end.
Definition mtx_ids (c : ctrl) : list Z := match mtx c with Some (_, p) => phase_ids p | None => [] end.

(** The slots of the batch being filled, of the scheduled batches and of the batch being sent. *)
Definition unsent_ids (c : ctrl) : list Z :=
  partial_ids (q0_msg_id c mod 512) ++ (works c ≫= batch_ids) ++ mtx_ids c.
Definition held (c : ctrl) (ids : list Z) : list keypage := (fun id => keypages c !!! Z.to_nat id) <$> ids.
Definition put_of (m : message) : option keypage := match m with MPut _ kp => Some kp | MWrite _ _ _ _ => None end.
Definition sent_puts (c : ctrl) : list keypage := omap put_of (wire c).

(** The batches whose bit is set. *)
Definition busy (c : ctrl) : list Z := works c ++ match mtx c with Some (m, Sending _) => [m] | _ => [] end.

Record client_inv (acc : list keypage) (c : ctrl) : Prop := {
  ci_count : q0_msg_id c = Z.of_nat (length acc);
  ci_len : length (keypages c) = 512%nat;
  ci_nodup : NoDup (busy c);
  ci_busy m : m ∈ busy c -> m mod 32 = 31 /\ 0 <= m < 512;
  ci_wait b : 0 <= b < 64 -> Z.testbit (wait c) b = true <-> 32 * b + 31 ∈ busy c;
  ci_partial : q0_msg_id c mod 32 <> 0 ->
    ~ (q0_msg_id c mod 512 - q0_msg_id c mod 32 + 31) ∈ busy c;
  ci_sending m wrs : mtx c = Some (m, Sending wrs) -> wrs `suffix_of` batch_wrs m;
  ci_wire imm kp : MPut imm kp ∈ wire c ->
    exists mid, 0 <= mid < 512 /\ imm = htonl (Driver.bit_mask mid MSG_WRITE TX_WRITE_BEGIN 0 0);
  ci_conserve : acc ≡ₚ sent_puts c ++ held c (unsent_ids c);
}.

(** ** Lemmas *)

Lemma wait_batch_spec w nr fuel k : (fuel + k = 7)%nat ->
  match wait_batch w nr fuel k with
  | Some i => (k <= i <= 6)%nat /\ Z.testbit (w i) nr = false
  | None => forall j, (k <= j <= 6)%nat -> Z.testbit (w j) nr = true
  end.
Proof.
  revert k. induction fuel as [|fuel IH]; intros k Hk; cbn [wait_batch]; [lia|].
  destruct (Z.testbit (w k) nr) eqn:E; [|split; [lia|done]]. destruct (Nat.ltb_spec 5 k) as [Hlt|Hlt].
  - intros j Hj. by replace j with k by lia.
  - specialize (IH (S k) ltac:(lia)). destruct (wait_batch w nr fuel (S k)) as [i|].
    + split; [lia|apply IH].
    + intros j Hj. destruct (decide (j = k)) as [->|]; [done|]. apply IH. lia.
Qed.

Lemma rem_msgs N : 0 <= N -> Z.rem N NUM_MSGS = N mod 512.
Proof. intros H. change NUM_MSGS with 512. by apply Z.rem_mod_nonneg. Qed.

Lemma cur_batch_eq c : 0 <= q0_msg_id c -> cur_batch c = (q0_msg_id c mod 512) / 32.
Proof.
  intros H. unfold cur_batch. rewrite rem_msgs by done. change NUM_PUT_BATCH with 32.
  apply Z.quot_div_nonneg; [|lia]. apply Z.mod_pos_bound. lia.
Qed.

Lemma elem_batch m id : id ∈ batch_ids m <-> m - 31 <= id <= m.
Proof. unfold batch_ids. rewrite elem_of_seqZ. lia. Qed.

Lemma partial_S n : 0 <= n -> n mod 32 <> 31 -> partial_ids (n + 1) = partial_ids n ++ [n].
Proof.
  intros H0 H. unfold partial_ids. replace ((n + 1) mod 32) with (n mod 32 + 1) by dlia.
  rewrite seqZ_app by dlia. replace (n + 1 - (n mod 32 + 1)) with (n - n mod 32) by lia. f_equal.
  replace (n - n mod 32 + n mod 32) with n by lia. done.
Qed.

Lemma partial_full n : 0 <= n -> n mod 32 = 31 -> batch_ids n = partial_ids n ++ [n].
Proof.
  intros H0 H. unfold partial_ids, batch_ids. rewrite H. change 32 with (31 + 1). rewrite seqZ_app by lia.
  f_equal. replace (n - 31 + 31) with n by lia. done.
Qed.

Lemma partial_nil n : n mod 32 = 0 -> partial_ids n = [].
Proof. intros H. unfold partial_ids. by rewrite H. Qed.

Lemma held_insert c n kp ids : 0 <= n -> Forall (fun id => 0 <= id /\ id <> n) ids ->
  held (set_keypages c (<[Z.to_nat n := kp]> (keypages c))) ids = held c ids.
Proof.
  intros Hn Hf. unfold held. apply list_fmap_ext. intros i id Hi. cbn [keypages set_keypages].
  pose proof (Forall_lookup_1 _ _ _ _ Hf Hi) as [? ?]. apply list_lookup_total_insert_ne. lia.
Qed.

Lemma batch_wrs_slots m : wr_slot <$> batch_wrs m = batch_ids m.
Proof.
  unfold batch_wrs, batch_ids, seqZ. rewrite <- list_fmap_compose. change (Z.to_nat NUM_PUT_BATCH) with 32%nat.
  change (Z.to_nat 32) with 32%nat. apply list_fmap_ext. intros i x _. cbn. change NUM_PUT_BATCH with 32. lia.
Qed.

Lemma batch_wrs_imm m wr : m mod 32 = 31 /\ 0 <= m < 512 -> wr ∈ batch_wrs m ->
  exists mid, 0 <= mid < 512 /\ wr_imm wr = htonl (Driver.bit_mask mid MSG_WRITE TX_WRITE_BEGIN 0 0).
Proof.
  intros Hm. unfold batch_wrs. intros (i & -> & Hi)%list_elem_of_fmap. apply elem_of_seq in Hi.
  change (Z.to_nat NUM_PUT_BATCH) with 32%nat in Hi. eexists. split; [|done]. change NUM_PUT_BATCH with 32. dlia.
Qed.

(** Bits of [ctrl->wait]. *)
Lemma shl1_bit b i : 0 <= b < 64 -> Z.testbit (1 <<₆₄ b) i = (i =? b).
Proof.
  intros Hb. unfold shl64. rewrite wrap_small.
  - rewrite Z.shiftl_1_l, Z.pow2_bits_eqb by lia. apply Z.eqb_sym.
  - rewrite Z.shiftl_1_l. split; [by apply Z.pow_nonneg|]. apply Z.pow_lt_mono_r; lia.
Qed.

Lemma set_bit_wait w b i : 0 <= b < 64 -> Z.testbit (w .| (1 <<₆₄ b)) i = Z.testbit w i || (i =? b).
Proof. intros Hb. by rewrite Z.lor_spec, shl1_bit. Qed.

Lemma clear_bit_wait w b i : 0 <= b < 64 -> Z.testbit (Z.ldiff w (1 <<₆₄ b)) i = Z.testbit w i && negb (i =? b).
Proof. intros Hb. by rewrite Z.ldiff_spec, shl1_bit. Qed.

(** ** The invariant *)

Lemma client_inv_init : client_inv [] alloc_ctrl.
Proof.
  split; cbn; try done.
  - apply NoDup_nil_2.
  - intros m Hm. by apply not_elem_of_nil in Hm.
  - intros b Hb. rewrite Z.bits_0, elem_of_nil. done.
  - intros imm kp Hm. by apply not_elem_of_nil in Hm.
Qed.

(** Unsent slots are slots of the buffer, and belong to a busy batch or to the batch being filled. *)
Lemma unsent_elem acc c id : client_inv acc c -> id ∈ unsent_ids c ->
  0 <= id < 512 /\
  (q0_msg_id c mod 512 - q0_msg_id c mod 32 <= id < q0_msg_id c mod 512 \/
   exists m, m ∈ busy c /\ m - 31 <= id <= m).
Proof.
  intros Hi Hid. unfold unsent_ids in Hid. rewrite !elem_of_app in Hid. destruct Hid as [Hid|[Hid|Hid]].
  - unfold partial_ids in Hid. rewrite elem_of_seqZ in Hid.
    replace ((q0_msg_id c mod 512) mod 32) with (q0_msg_id c mod 32) in Hid by dlia. split; [dlia|left; lia].
  - apply list_elem_of_bind in Hid as (m & Hid & Hm).
    apply elem_batch in Hid. assert (m ∈ busy c) as Hb by (apply elem_of_app; by left).
    pose proof (ci_busy _ _ Hi m Hb) as [? ?]. split; [dlia|]. right. by exists m.
  - unfold mtx_ids in Hid. destruct (mtx c) as [[m [wrs|]]|] eqn:E; cbn [phase_ids] in Hid; try by apply not_elem_of_nil in Hid.
    assert (m ∈ busy c) as Hb by (unfold busy; rewrite E; apply elem_of_app; right; left).
    assert (id ∈ batch_ids m) as Hm.
    { destruct (ci_sending _ _ Hi m wrs E) as [l El]. rewrite <- batch_wrs_slots, El, fmap_app. apply elem_of_app. by right. }
    apply elem_batch in Hm. pose proof (ci_busy _ _ Hi m Hb) as [? ?]. split; [dlia|]. right. by exists m.
Qed.

(** The slot of the next put is not among them when the bit of its batch is clear. *)
Lemma slot_free acc c : client_inv acc c -> 0 <= q0_msg_id c ->
  Z.testbit (wait c) ((q0_msg_id c mod 512) / 32) = false ->
  ~ (q0_msg_id c mod 512 - q0_msg_id c mod 32 + 31) ∈ busy c /\
  Forall (fun id => 0 <= id /\ id <> q0_msg_id c mod 512) (unsent_ids c).
Proof.
  intros Hi H0 Hb. set (n := q0_msg_id c mod 512) in *.
  assert (~ (n - q0_msg_id c mod 32 + 31) ∈ busy c) as Hno.
  { intros Hin. replace (n - q0_msg_id c mod 32 + 31) with (32 * (n / 32) + 31) in Hin by (unfold n; dlia).
    rewrite <- (ci_wait _ _ Hi) in Hin by (unfold n; dlia). congruence. }
  split; [done|]. apply Forall_forall. intros id Hid. pose proof (unsent_elem acc c id Hi Hid) as [Hr Ho].
  split; [lia|]. intros ->. fold n in Ho. destruct Ho as [Ho|(m & Hm & Hlt)]; [lia|].
  pose proof (ci_busy _ _ Hi m Hm) as [Hm31 Hm0]. apply Hno.
  replace (n - q0_msg_id c mod 32 + 31) with m; [done|]. unfold n in *. dlia.
Qed.

(** What an accepted put does. *)
Lemma send_page_ok w c page key : 0 <= q0_msg_id c < 2 ^ 31 ->
  let n := q0_msg_id c mod 512 in
  dcc_rdma_send_page w c page key =
    match wait_batch w (cur_batch c) 7 0 with
    | None => Ok (c, -6)
    | Some _ =>
        let c' := set_keypages (set_q0 c (to_int (q0_msg_id c + 1))) (<[Z.to_nat n := Keypage page key]> (keypages c)) in
        if q0_msg_id c mod 32 =? 31 then
          Ok (set_works (set_wait c' (wait c .| (1 <<₆₄ (n / 32)))) (works c ++ [n]), 0)
        else Ok (c', 0)
    end.
Proof.
  intros HN n. pose proof (cur_batch_eq c ltac:(lia)) as Eb. unfold dcc_rdma_send_page.
  fold (cur_batch c). rewrite rem_msgs, Eb by lia. fold n.
  assert (0 <= n < 512) as Hn by (apply Z.mod_pos_bound; lia).
  assert (0 <= n / 32 < 64) by dlia. rewrite (proj2 (Z.leb_le 0 (n / 32))), (proj2 (Z.ltb_lt (n / 32) 64)) by lia. cbn [andb negb].
  replace (Z.quot n NUM_PUT_BATCH) with (n / 32) by (symmetry; change NUM_PUT_BATCH with 32; apply Z.quot_div_nonneg; lia).
  destruct (wait_batch w (n / 32) 7 0) as [i|].
  - unfold copy_to_send_buffer. change NUM_MSGS with 512. rewrite (proj2 (Z.leb_le 0 n)), (proj2 (Z.ltb_lt n 512)) by lia.
    cbn [andb]. obind. change NUM_PUT_BATCH with 32. rewrite Z.rem_mod_nonneg by lia.
    replace (n mod 32) with (q0_msg_id c mod 32) by (unfold n; dlia). change (32 - 1) with 31.
    cbn [keypages set_q0].
    destruct (q0_msg_id c mod 32 =? 31); done.
  - cbn [q0_msg_id set_q0]. rewrite to_int_pred by lia. by destruct c.
Qed.

Lemma held_keypages c c' ids : keypages c' = keypages c -> held c' ids = held c ids.
Proof. unfold held. by intros ->. Qed.

Lemma held_app c ids ids' : held c (ids ++ ids') = held c ids ++ held c ids'.
Proof. apply fmap_app. Qed.

#[local] Instance held_perm c : Proper ((≡ₚ) ==> (≡ₚ)) (held c).
Proof. intros l l' E. unfold held. by rewrite E. Qed.

(** The put's page joins the unsent ones, which stay what they were. *)
Lemma put_conserve acc c c' kp n :
  client_inv acc c -> 0 <= n < 512 -> Forall (fun id => 0 <= id /\ id <> n) (unsent_ids c) ->
  keypages c' = <[Z.to_nat n := kp]> (keypages c) -> wire c' = wire c ->
  unsent_ids c' ≡ₚ unsent_ids c ++ [n] ->
  acc ++ [kp] ≡ₚ sent_puts c' ++ held c' (unsent_ids c').
Proof.
  intros Hi Hn Hf Ek Ew Eu. rewrite Eu, held_app. rewrite (ci_conserve _ _ Hi).
  unfold sent_puts. rewrite Ew, <- app_assoc. f_equiv.
  rewrite <- (held_insert c n kp _ ltac:(lia) Hf).
  rewrite (held_keypages (set_keypages c (<[Z.to_nat n := kp]> (keypages c))) c') by done.
  f_equiv. unfold held. cbn [fmap list_fmap]. rewrite Ek, list_lookup_total_insert_eq; [done|].
  rewrite (ci_len _ _ Hi). lia.
Qed.

Lemma send_page_inv acc c w page key c' r :
  client_inv acc c -> Z.of_nat (length acc) < 2 ^ 31 -> (r = 0 -> Z.of_nat (length acc) < 2 ^ 31 - 1) -> reads_wait w c ->
  dcc_rdma_send_page w c page key = Ok (c', r) ->
  client_inv (if r =? 0 then acc ++ [Keypage page key] else acc) c'.
Proof.
  intros Hi HN HN' Hw. rewrite send_page_ok by (rewrite (ci_count _ _ Hi); lia).
  pose proof (wait_batch_spec w (cur_batch c) 7 0 eq_refl) as Hspec. unfold reads_wait in Hw.
  destruct (wait_batch w (cur_batch c) 7 0) as [i|]; [|by intros [= <- <-]].
  destruct Hspec as [_ Hb]. rewrite (Hw i eq_refl) in Hb. intros Hok. cbv zeta in Hok.
  assert (r = 0) as Er by (by destruct (q0_msg_id c mod 32 =? 31); injection Hok as _ <-). specialize (HN' Er). subst r.
  rewrite (to_int_small (q0_msg_id c + 1)) in Hok by (rewrite (ci_count _ _ Hi); lia).
  assert (0 <= q0_msg_id c) as HN0 by (rewrite (ci_count _ _ Hi); lia). rewrite cur_batch_eq in Hb by done.
  destruct (slot_free acc c Hi HN0 Hb) as [Hno Hf]. set (N := q0_msg_id c) in *. set (n := N mod 512) in *.
  assert (0 <= n < 512) as Hn by (apply Z.mod_pos_bound; lia).
  assert (n mod 32 = N mod 32) as Emod by (unfold n; dlia).
  cbn [Z.eqb]. destruct (Z.eqb_spec (N mod 32) 31) as [E|E]; injection Hok as <-.
  - replace (n - N mod 32 + 31) with n in Hno by lia. pose proof (ci_nodup _ _ Hi) as Hnd.
    assert (forall m, m ∈ busy (set_works (set_wait (set_keypages (set_q0 c (N + 1)) (<[Z.to_nat n := Keypage page key]> (keypages c)))
      (wait c .| (1 <<₆₄ (n / 32)))) (works c ++ [n])) <-> m ∈ busy c \/ m = n) as Hbusy.
    { intros m. unfold busy. cbn. rewrite !elem_of_app, list_elem_of_singleton. tauto. }
    split.
    + cbn. rewrite length_app. cbn. pose proof (ci_count _ _ Hi). fold N in H. lia.
    + cbn. rewrite length_insert. apply Hi.
    + unfold busy in Hnd |- *. cbn. rewrite <- app_assoc, (Permutation_app_comm [n]), app_assoc.
      apply NoDup_app. split; [done|]. split; [|apply NoDup_singleton]. intros x Hx ->%list_elem_of_singleton. by apply Hno.
    + intros m Hm. apply Hbusy in Hm as [Hm| ->]; [by apply Hi|]. split; [lia|done].
    + intros b Hb'. rewrite Hbusy, <- (ci_wait _ _ Hi) by done. cbn. rewrite set_bit_wait by dlia.
      rewrite orb_true_iff, Z.eqb_eq. assert (b = n / 32 <-> 32 * b + 31 = n) by dlia. tauto.
    + cbn. intros Hx. exfalso. apply Hx. clear -E. dlia.
    + cbn. apply Hi.
    + cbn. apply Hi.
    + apply (put_conserve acc c _ _ n); [done|done|done|done|done|]. unfold unsent_ids. cbn.
      rewrite (partial_nil ((N + 1) mod 512)) by (clear -E; dlia). rewrite bind_app. cbn. rewrite app_nil_r.
      fold N n. rewrite (partial_full n) by lia. change (mtx_ids (set_works _ _)) with (mtx_ids c). solve_Permutation.
  - split.
    + cbn. rewrite length_app. cbn. pose proof (ci_count _ _ Hi). fold N in H. lia.
    + cbn. rewrite length_insert. apply Hi.
    + apply (ci_nodup _ _ Hi).
    + apply (ci_busy _ _ Hi).
    + apply (ci_wait _ _ Hi).
    + cbn. intros _. change (busy (set_keypages _ _)) with (busy c).
      replace ((N + 1) mod 512 - (N + 1) mod 32 + 31) with (n - N mod 32 + 31); [done|]. unfold n. clear -E. dlia.
    + cbn. apply Hi.
    + cbn. apply Hi.
    + apply (put_conserve acc c _ _ n); [done|done|done|done|done|]. unfold unsent_ids. cbn.
      replace ((N + 1) mod 512) with (n + 1) by (unfold n; clear -E; dlia). rewrite partial_S by lia.
      fold N n. change (mtx_ids (set_keypages _ _)) with (mtx_ids c). solve_Permutation.
Qed.

Lemma post_inv acc c c' k : client_inv acc c -> work_post c k = Some c' -> client_inv acc c'.
Proof.
  intros Hi. unfold work_post. destruct (mtx c) eqn:Em; [done|]. destruct (works c !! k) as [m|] eqn:Ek; [|done].
  intros [= <-]. pose proof (delete_Permutation _ _ _ Ek) as Ed.
  set (c' := set_mtx _ _). set (l := delete k (works c)) in *.
  assert (busy c' ≡ₚ busy c) as Eb.
  { unfold busy, c'. cbn. rewrite Em, app_nil_r, Ed. solve_Permutation. }
  assert (forall x, x ∈ busy c' <-> x ∈ busy c) as Ex by (intros x; by rewrite Eb).
  split; try apply Hi.
  - rewrite Eb. apply Hi.
  - intros x Hx. apply Hi. by apply Ex.
  - intros b Hb. rewrite Ex. by apply Hi.
  - rewrite Ex. apply Hi.
  - cbn. by intros m' wrs [= <- <-].
  - rewrite (ci_conserve _ _ Hi). change (sent_puts c') with (sent_puts c). f_equiv.
    rewrite (held_keypages c c') by done. f_equiv. unfold unsent_ids, mtx_ids, c'. cbn [mtx set_mtx works set_works q0_msg_id].
    rewrite Em, Ed. cbn [phase_ids]. rewrite batch_wrs_slots. cbn. solve_Permutation.
Qed.

Lemma card_inv acc c c' : client_inv acc c -> card_send c = Some c' -> client_inv acc c'.
Proof.
  intros Hi. unfold card_send. destruct (mtx c) as [[m [[|wr wrs]|]]|] eqn:Em; try done. intros [= <-].
  set (c' := send _ _). assert (busy c' = busy c) as Eb by (unfold busy, c'; cbn; by rewrite Em).
  split; rewrite ?Eb; try apply Hi.
  - cbn. intros m' wrs' [= <- <-]. eapply suffix_cons_l, (ci_sending _ _ Hi m _ Em).
  - intros imm kp Hin. unfold c' in Hin. cbn [wire send set_mtx] in Hin.
    apply elem_of_app in Hin as [Hin|Hin%list_elem_of_singleton]; [by apply (ci_wire _ _ Hi imm kp)|].
    injection Hin as -> _. assert (m ∈ busy c) as Hm by (unfold busy; rewrite Em; apply elem_of_app; right; left).
    pose proof (ci_busy _ _ Hi m Hm). apply (batch_wrs_imm m); [lia|]. destruct (ci_sending _ _ Hi m _ Em) as [l ->].
    apply elem_of_app. right. left.
  - rewrite (ci_conserve _ _ Hi). rewrite (held_keypages c c') by done.
    assert (sent_puts c' = sent_puts c ++ [keypages c !!! Z.to_nat (wr_slot wr)]) as ->.
    { unfold sent_puts, c'. cbn. by rewrite omap_app. }
    assert (unsent_ids c ≡ₚ wr_slot wr :: unsent_ids c') as ->.
    { unfold unsent_ids, mtx_ids, c'. cbn [mtx set_mtx works set_works q0_msg_id send]. rewrite Em. cbn. solve_Permutation. }
    cbn. solve_Permutation.
Qed.

Lemma clear_inv acc c c' : client_inv acc c -> work_clear c = Some c' -> client_inv acc c'.
Proof.
  intros Hi. unfold work_clear. destruct (mtx c) as [[m [[|wr wrs]|]]|] eqn:Em; try done. intros [= <-].
  set (c' := set_mtx _ _).
  assert (busy c = busy c' ++ [m]) as Eb by (unfold busy, c'; cbn; by rewrite Em, app_nil_r).
  pose proof (ci_nodup _ _ Hi) as Hnd. rewrite Eb in Hnd. apply NoDup_app in Hnd as (Hnd & Hno & _).
  assert (forall x, x ∈ busy c' <-> x ∈ busy c /\ x <> m) as Ex.
  { intros x. rewrite Eb, elem_of_app, list_elem_of_singleton. split; [|tauto]. intros Hx. split; [by left|].
    intros ->. apply (Hno m Hx). by apply list_elem_of_singleton. }
  assert (m ∈ busy c) as Hm by (rewrite Eb; apply elem_of_app; right; left). pose proof (ci_busy _ _ Hi m Hm) as [Hm31 Hm0].
  assert (0 <= m / 32 < 64) as Hb by dlia.
  assert (Z.quot m NUM_PUT_BATCH = m / 32) as Eq by (change NUM_PUT_BATCH with 32; apply Z.quot_div_nonneg; lia).
  split; try apply Hi.
  - done.
  - intros x Hx. apply Hi. by apply Ex.
  - intros b Hb'. rewrite Ex, <- (ci_wait _ _ Hi) by done.
    change (wait c') with (Z.ldiff (wait c) (1 <<₆₄ Z.quot m NUM_PUT_BATCH)). rewrite Eq, clear_bit_wait by done.
    rewrite andb_true_iff, negb_true_iff, Z.eqb_neq. assert (b = m / 32 <-> 32 * b + 31 = m) by dlia. tauto.
  - intros Hx [Hx' _]%Ex. exact (ci_partial _ _ Hi Hx Hx').
  - cbn. done.
  - rewrite (ci_conserve _ _ Hi). change (sent_puts c') with (sent_puts c). f_equiv.
    rewrite (held_keypages c c') by done. f_equiv. unfold unsent_ids, mtx_ids, c'. cbn [mtx set_mtx works set_works set_wait q0_msg_id].
    by rewrite Em.
Qed.

Lemma unlock_inv acc replied c c' : client_inv acc c -> work_unlock replied c = Some c' -> client_inv acc c'.
Proof.
  intros Hi. unfold work_unlock. destruct (mtx c) as [[m [[|wr wrs]|]]|] eqn:Em; try done. destruct (_ && _); [done|]. intros [= <-].
  set (c' := set_mtx _ _). assert (busy c' = busy c) as Eb by (unfold busy, c'; cbn; by rewrite Em).
  split; rewrite ?Eb; try apply Hi.
  - cbn. done.
  - rewrite (ci_conserve _ _ Hi). change (sent_puts c') with (sent_puts c). f_equiv.
    rewrite (held_keypages c c') by done. f_equiv. unfold unsent_ids, mtx_ids, c'. cbn [mtx set_mtx works q0_msg_id]. by rewrite Em.
Qed.

Lemma handler_inv acc c c' : client_inv acc c -> handler_step c c' -> client_inv acc c'.
Proof. intros Hi [k H|H|H|replied H]; eauto using post_inv, card_inv, clear_inv, unlock_inv. Qed.

(** A get or an invalidation touches neither the buffer nor the batches. *)
Lemma write_inv acc c c' qid off words imm :
  client_inv acc c -> c' = send c (MWrite qid off words imm) -> client_inv acc c'.
Proof.
  intros Hi ->. assert (sent_puts (send c (MWrite qid off words imm)) = sent_puts c) as E.
  { unfold sent_puts. cbn. by rewrite omap_app, app_nil_r. }
  split; try apply Hi; [|rewrite E; apply Hi]. intros imm' kp Hin. cbn in Hin.
  apply elem_of_app in Hin as [Hin|Hin%list_elem_of_singleton]; [by apply (ci_wire _ _ Hi imm' kp)|done].
Qed.

Lemma q1_inv acc c m : client_inv acc c -> client_inv acc (set_q1 c m).
Proof. intros Hi. split; apply Hi. Qed.

Lemma write_msg2_eq post_ret imm c key :
  exists off w, (dcc_rdma_write_msg2 post_ret imm c key).1 = send (set_q1 c (to_int (q1_msg_id c + 1))) (MWrite 1 off [key] w).
Proof. unfold dcc_rdma_write_msg2. case_match; eauto. Qed.

Lemma reach_inv acc c : client_reach acc c -> Z.of_nat (length acc) < 2 ^ 31 -> client_inv acc c.
Proof.
  induction 1 as [|acc c w page key c' r H IH Hw E|acc c c' H IH Hs|acc c cpu key dma H IH|acc c pr imm key H IH]; intros HN.
  - apply client_inv_init.
  - destruct (Z.eqb_spec r 0) as [->|Hr].
    + rewrite length_app in HN. cbn in HN. apply (send_page_inv acc c w page key c' 0); [apply IH; lia|lia|lia|done|done].
    + pose proof (send_page_inv acc c w page key c' r (IH HN) HN ltac:(lia) Hw E) as Hi. by rewrite (proj2 (Z.eqb_neq r 0)) in Hi.
  - by eapply handler_inv; [apply IH|].
  - by eapply write_inv; [apply IH|].
  - destruct (write_msg2_eq pr imm c key) as (off & w & ->). eapply write_inv; [|done]. by apply q1_inv, IH.
Qed.

(** A put whose bit is clear at the first test, whatever the state. *)
Lemma send_page_at w c page key n :
  Z.rem (q0_msg_id c) NUM_MSGS = n -> 0 <= n < 512 -> Z.testbit (w 0%nat) (n / 32) = false ->
  exists c', dcc_rdma_send_page w c page key = Ok (c', 0) /\ q0_msg_id c' = to_int (q0_msg_id c + 1).
Proof.
  intros En Hn Hb. unfold dcc_rdma_send_page. rewrite En.
  replace (Z.quot n NUM_PUT_BATCH) with (n / 32) by (symmetry; change NUM_PUT_BATCH with 32; apply Z.quot_div_nonneg; lia).
  rewrite (proj2 (Z.leb_le 0 (n / 32))), (proj2 (Z.ltb_lt (n / 32) 64)) by dlia. cbn [andb negb wait_batch]. rewrite Hb.
  unfold copy_to_send_buffer. change NUM_MSGS with 512. rewrite (proj2 (Z.leb_le 0 n)), (proj2 (Z.ltb_lt n 512)) by lia.
  cbn [andb]. obind. case_match; eexists; (split; [done|]); done.
Qed.

(** ** Distinct slots *)

Lemma batch_nodup m : NoDup (batch_ids m).
Proof. apply NoDup_seqZ. Qed.

Lemma bind_batches_nodup l : NoDup l -> (forall m, m ∈ l -> m mod 32 = 31) -> NoDup (l ≫= batch_ids).
Proof.
  induction l as [|m l IH]; intros Hn Hm; [apply NoDup_nil_2|]. apply NoDup_cons in Hn as [Hno Hn]. cbn.
  apply NoDup_app. split; [apply batch_nodup|]. split; [|apply IH; [done|]; intros x Hx; apply Hm; by right].
  intros id Hid (m' & Hid' & Hm')%list_elem_of_bind. apply elem_batch in Hid, Hid'.
  pose proof (Hm m ltac:(left)). pose proof (Hm m' ltac:(by right)). apply Hno. by replace m with m' by dlia.
Qed.

Lemma unsent_nodup acc c : client_inv acc c -> NoDup (unsent_ids c).
Proof.
  intros Hi. unfold unsent_ids. rewrite NoDup_app. split; [apply NoDup_seqZ|].
  assert (forall id, id ∈ (works c ≫= batch_ids) ++ mtx_ids c -> exists m, m ∈ busy c /\ id ∈ batch_ids m) as Hb.
  { intros id [(m & Hid & Hm)%list_elem_of_bind|Hid]%elem_of_app.
    - exists m. split; [apply elem_of_app; by left|done].
    - unfold mtx_ids in Hid. destruct (mtx c) as [[m [wrs|]]|] eqn:Em; cbn in Hid; try by apply not_elem_of_nil in Hid.
      exists m. unfold busy. rewrite Em. split; [apply elem_of_app; right; left|].
      destruct (ci_sending _ _ Hi m wrs Em) as [l El]. rewrite <- batch_wrs_slots, El, fmap_app. apply elem_of_app. by right. }
  split.
  - intros id Hid Hin. destruct (Hb id Hin) as (m & Hm & Hmid). apply elem_batch in Hmid.
    unfold partial_ids in Hid. rewrite elem_of_seqZ in Hid. pose proof (ci_busy _ _ Hi m Hm).
    replace ((q0_msg_id c mod 512) mod 32) with (q0_msg_id c mod 32) in Hid by dlia.
    apply (ci_partial _ _ Hi); [lia|].
    replace (q0_msg_id c mod 512 - q0_msg_id c mod 32 + 31) with m; [done|]. dlia.
  - pose proof (ci_nodup _ _ Hi) as Hn. pose proof (ci_busy _ _ Hi) as Hbz. unfold busy, mtx_ids in *.
    destruct (mtx c) as [[m [wrs|]]|] eqn:Em; cbn [phase_ids]; rewrite ?app_nil_r in *;
      try (apply bind_batches_nodup; [done|]; intros m' Hm'; by apply Hbz).
    pose proof Hn as (Hn1 & Hn2 & _)%NoDup_app. apply NoDup_app. split; [|split].
    + apply bind_batches_nodup; [done|]. intros m' Hm'. apply Hbz, elem_of_app. by left.
    + intros id (m' & Hid & Hm')%list_elem_of_bind Hid'. destruct (ci_sending _ _ Hi m wrs Em) as [l El].
      assert (id ∈ batch_ids m) as Hid2 by (rewrite <- batch_wrs_slots, El, fmap_app; apply elem_of_app; by right).
      apply elem_batch in Hid, Hid2. destruct (Hbz m) as [? _]; [apply elem_of_app; right; left|].
      destruct (Hbz m') as [? _]; [apply elem_of_app; by left|]. apply (Hn2 m' Hm'). apply list_elem_of_singleton. dlia.
    + destruct (ci_sending _ _ Hi m wrs Em) as [l El]. pose proof (batch_nodup m) as Hbn.
      rewrite <- batch_wrs_slots, El, fmap_app in Hbn. by apply NoDup_app in Hbn as (_ & _ & ?).
Qed.

(** ** The work queue runs dry *)

Definition handler_cost (c : ctrl) : nat :=
  (length (works c) * 35 +
   match mtx c with Some (_, Sending wrs) => length wrs + 2 | Some (_, Cleared) => 1 | None => 0 end)%nat.

Lemma handler_cost_step c c' : handler_step c c' -> (handler_cost c = S (handler_cost c'))%nat.
Proof.
  unfold handler_cost. intros [k H|H|H|replied H]; revert H; unfold work_post, card_send, work_clear, work_unlock;
    destruct (mtx c) as [[m [[|wr wrs]|]]|] eqn:Em; try done.
  - destruct (works c !! k) as [m|] eqn:Ek; [|done]. intros [= <-]. cbn [works mtx set_mtx set_works].
    rewrite (Permutation_length (delete_Permutation _ _ _ Ek)). unfold batch_wrs. rewrite length_fmap, length_seq.
    change (Z.to_nat NUM_PUT_BATCH) with 32%nat. cbn [length]. lia.
  - intros [= <-]. cbn. lia.
  - intros [= <-]. cbn. lia.
  - destruct (_ && _); [done|]. intros [= <-]. cbn. lia.
Qed.

Lemma handler_progress c : (exists c', own_step c c') \/ waits_for_reply c \/ (works c = [] /\ mtx c = None).
Proof.
  unfold own_step. destruct (mtx c) as [[m [[|wr wrs]|]]|] eqn:Em.
  - left. eexists. right; right; left. unfold work_clear. by rewrite Em.
  - left. eexists. right; left. unfold card_send. by rewrite Em.
  - destruct (awaits_reply m) eqn:Ea.
    + right; left. apply Z.eqb_eq in Ea as ->. done.
    + left. eexists. right; right; right. unfold work_unlock. by rewrite Em, Ea.
  - destruct (works c) as [|m l] eqn:Ew; [by right; right|left]. eexists. left. exists 0%nat. unfold work_post. by rewrite Em, Ew.
Qed.

(** An item that waits goes on exactly when the reply has come, and nothing else moves meanwhile. *)
Lemma waiting_needs_reply c : waits_for_reply c ->
  (forall c', ~ own_step c c') /\ work_unlock true c = Some (set_mtx c None).
Proof.
  unfold waits_for_reply, own_step, work_post, card_send, work_clear, work_unlock. intros ->. split; [|done].
  by intros c' [[k ?]|[?|[?|?]]].
Qed.

Lemma handlers_inv acc c c' : client_inv acc c -> rtc handler_step c c' -> client_inv acc c' /\ q0_msg_id c' = q0_msg_id c.
Proof.
  intros Hi. induction 1 as [c|c c1 c' H _ IH]; [done|]. destruct (IH (handler_inv _ _ _ Hi H)) as [H1 H2].
  split; [done|]. rewrite H2. rewrite (ci_count _ _ Hi). by rewrite (ci_count _ _ (handler_inv _ _ _ Hi H)).
Qed.

Lemma handlers_bound n c c' : nsteps handler_step n c c' -> (n + handler_cost c' = handler_cost c)%nat.
Proof. induction 1 as [c|n c c1 c' H _ IH]; [done|]. pose proof (handler_cost_step _ _ H). lia. Qed.

(** Nothing scheduled and nothing being sent: every bit is clear and the rest is the batch being filled. *)
Lemma drained acc c : client_inv acc c -> works c = [] -> mtx c = None ->
  acc ≡ₚ sent_puts c ++ held c (partial_ids (q0_msg_id c mod 512)) /\
  forall b, 0 <= b < 64 -> Z.testbit (wait c) b = false.
Proof.
  intros Hi Hw Hm. split.
  - rewrite (ci_conserve _ _ Hi) at 1. unfold unsent_ids, mtx_ids. rewrite Hw, Hm. cbn. by rewrite !app_nil_r.
  - intros b Hb. apply not_true_is_false. rewrite (ci_wait _ _ Hi) by done. unfold busy. rewrite Hw, Hm. apply not_elem_of_nil.
Qed.

(** ** Executable runs, for the examples

    The daemon's replies have come. *)

Inductive command := KPut (page : list Z) (key : Z) | KPost (k : nat) | KCard | KClear | KUnlock | KInv (key : Z).

Definition run_command (x : command) (c : ctrl) : option (ctrl * list keypage) :=
  let no_put (o : option ctrl) := c ← o; Some (c, []) in
  match x with
  | KPut page key =>
      match dcc_rdma_send_page (fun _ => wait c) c page key with
      | Ok (c', r) => Some (c', if r =? 0 then [Keypage page key] else [])
      | Throw _ => None
      end
  | KPost k => no_put (work_post c k)
  | KCard => no_put (card_send c)
  | KClear => no_put (work_clear c)
  | KUnlock => no_put (work_unlock true c)
  | KInv key => Some ((dcc_rdma_write_msg2 0 0 c key).1, [])
  end.
Fixpoint run_commands (xs : list command) (c : ctrl) (acc : list keypage) : option (ctrl * list keypage) :=
  match xs with
  | [] => Some (c, acc)
  | x :: xs => '(c, l) ← run_command x c; run_commands xs c (acc ++ l)
  end.

Lemma run_command_reach x acc c c' l :
  client_reach acc c -> run_command x c = Some (c', l) -> client_reach (acc ++ l) c'.
Proof.
  intros H. destruct x as [page key|k| | | |key]; cbn [run_command].
  - destruct (dcc_rdma_send_page _ c page key) as [[c1 r]|] eqn:E; [|done]. intros [= <- <-].
    pose proof (CRPut acc c (fun _ => wait c) page key c1 r H ltac:(by intros i _) E) as Hr.
    destruct (r =? 0); [done|by rewrite app_nil_r].
  - destruct (work_post c k) eqn:E; [|done]. intros [= <- <-]. rewrite app_nil_r. eapply CRHandler; [done|by eapply HPost].
  - destruct (card_send c) eqn:E; [|done]. intros [= <- <-]. rewrite app_nil_r. eapply CRHandler; [done|by apply HCard].
  - destruct (work_clear c) eqn:E; [|done]. intros [= <- <-]. rewrite app_nil_r. eapply CRHandler; [done|by apply HClear].
  - destruct (work_unlock true c) eqn:E; [|done]. intros [= <- <-]. rewrite app_nil_r. eapply CRHandler; [done|by eapply HUnlock].
  - intros [= <- <-]. rewrite app_nil_r. by apply CRInv.
Qed.

Lemma run_commands_reach xs acc c c' acc' :
  client_reach acc c -> run_commands xs c acc = Some (c', acc') -> client_reach acc' c'.
Proof.
  revert acc c. induction xs as [|x xs IH]; intros acc c H; cbn [run_commands]; [by intros [= <- <-]|].
  destruct (run_command x c) as [[c1 l]|] eqn:E; [|done]. cbn. apply IH. by eapply run_command_reach.
Qed.

(** A property of a run's final state, by evaluation. *)
Definition run_ok (xs : list command) (f : ctrl -> list keypage -> bool) : bool :=
  match run_commands xs alloc_ctrl [] with Some (c, acc) => f c acc | None => false end.

Lemma run_ok_reach xs f : run_ok xs f = true -> exists acc c, client_reach acc c /\ f c acc = true.
Proof.
  unfold run_ok. destruct (run_commands xs alloc_ctrl []) as [[c acc]|] eqn:E; [|done]. intros Hf.
  exists acc, c. split; [|done]. by eapply run_commands_reach; [apply CRInit|].
Qed.

(** A batch sent by the [k]-th scheduled item. *)
Definition send_batch (k : nat) : list command := KPost k :: replicate 32 KCard ++ [KClear; KUnlock].
Definition keypage_eqb (x y : keypage) : bool := bool_decide (kp_page x = kp_page y) && (kp_key x =? kp_key y).
Definition at_eqb (l : list keypage) (i : nat) (x : keypage) : bool :=
  match l !! i with Some y => keypage_eqb y x | None => false end.

Lemma at_eqb_spec l i x : at_eqb l i x = true -> l !! i = Some x.
Proof.
  unfold at_eqb. destruct (l !! i) as [y|]; [|done]. unfold keypage_eqb.
  rewrite andb_true_iff, bool_decide_eq_true, Z.eqb_eq. intros [H1 H2]. destruct x, y. cbn in *. by subst.
Qed.

(** ** Properties *)

(** C10: No accepted put is lost or duplicated: as long as fewer than 2^31 puts have been
    accepted, they are, one for one, the pages already on the wire and the pages still in the
    slots not yet sent; those slots are distinct, and each page on the wire carries an
    immediate word from which the daemon reads a message number below 512 and the put type. *)
Theorem puts_conserved acc c :
  client_reach acc c -> Z.of_nat (length acc) < 2 ^ 31 ->
  acc ≡ₚ sent_puts c ++ held c (unsent_ids c) /\ NoDup (unsent_ids c) /\
  forall imm kp, MPut imm kp ∈ wire c ->
    exists mid, 0 <= mid < 512 /\ bit_unmask (ntohl imm) = Imm mid MSG_WRITE TX_WRITE_BEGIN 0 0.
Proof.
  intros H HN. pose proof (reach_inv acc c H HN) as Hi. split; [apply (ci_conserve _ _ Hi)|].
  split; [by eapply unsent_nodup|]. intros imm kp Hin. destruct (ci_wire _ _ Hi imm kp Hin) as (mid & Hm & ->).
  exists mid. split; [done|]. apply unmask_sent; unfold u_ok, MSG_WRITE, MSG_INV_PAGE_REPLY, TX_WRITE_BEGIN, TX_INV_PAGE_ABORTED; lia.
Qed.

(** C25: A put is refused with -6, changing nothing, exactly when the bit of its batch is set in all
    seven tests; otherwise its page and key go to a slot no unsent page occupies, and the batch is
    scheduled when this fills it. *)
Theorem send_page_spec acc c w page key :
  client_reach acc c -> Z.of_nat (length acc) < 2 ^ 31 - 1 -> reads_wait w c ->
  let n := Z.of_nat (length acc) mod 512 in
  let set i := Z.testbit (w i) (n / 32) in
  ((forall i, (i <= 6)%nat -> set i = true) -> dcc_rdma_send_page w c page key = Ok (c, -6)) /\
  ((exists i, (i <= 6)%nat /\ set i = false) ->
   exists c', dcc_rdma_send_page w c page key = Ok (c', 0) /\
     keypages c' !! Z.to_nat n = Some (Keypage page key) /\ ~ n ∈ unsent_ids c /\
     works c' = works c ++ (if n mod 32 =? 31 then [n] else [])).
Proof.
  intros H HN Hw n set. pose proof (reach_inv acc c H ltac:(lia)) as Hi. pose proof (ci_count _ _ Hi) as EN.
  rewrite send_page_ok by lia. pose proof (wait_batch_spec w (cur_batch c) 7 0 eq_refl) as Hs.
  unfold reads_wait in Hw. rewrite cur_batch_eq, EN in * by lia. fold n in Hs, Hw |- *. unfold set.
  destruct (wait_batch w (n / 32) 7 0) as [i|].
  - destruct Hs as [Hi6 Hb]. split.
    + intros Ha. rewrite Ha in Hb by lia. done.
    + intros _. rewrite (Hw i eq_refl) in Hb. unfold n in Hb. rewrite <- EN in Hb.
      destruct (slot_free acc c Hi ltac:(lia) Hb) as [_ Hf]. rewrite EN in Hf. fold n in Hf.
      replace (Z.of_nat (length acc) mod 32) with (n mod 32) by (unfold n; dlia). cbv zeta.
      assert (forall c', keypages c' = <[Z.to_nat n := Keypage page key]> (keypages c) ->
        keypages c' !! Z.to_nat n = Some (Keypage page key)) as Hk.
      { intros c' ->. apply list_lookup_insert_eq. rewrite (ci_len _ _ Hi). unfold n.
        pose proof (Z.mod_pos_bound (Z.of_nat (length acc)) 512). lia. }
      assert (~ n ∈ unsent_ids c) as Hno.
      { intros Hin. rewrite Forall_forall in Hf. destruct (Hf n Hin) as [_ ?]. done. }
      destruct (n mod 32 =? 31); eexists; (split; [done|]); (split; [by apply Hk|]); (split; [done|]); [done|].
      cbn. by rewrite app_nil_r.
  - split; [done|]. intros (i & Hi6 & Hb). rewrite Hs in Hb by lia. done.
Qed.

(** C22: Whatever the order in which the work items run, from any state reachable with fewer than 2^31 puts at most 35 steps per scheduled
    batch and 34 for the one being sent are possible. Until nothing is scheduled or being sent, a step is possible without the
    daemon, unless the item of the last batch of a round waits for the daemon's reply, holding the mutex: then nothing
    moves without the reply, and the item goes on with it. So if the daemon replies every time
    ([System.put_replies_match]) the items come to an end, and then every accepted put but the last
    fewer than 32 has been sent and every bit of [ctrl->wait] is clear, so the next put is accepted. *)
Theorem puts_drain acc c :
  client_reach acc c -> Z.of_nat (length acc) < 2 ^ 31 ->
  (forall n c', nsteps handler_step n c c' -> (n <= length (works c) * 35 + 34)%nat) /\
  (forall c', rtc handler_step c c' ->
     (exists c'', own_step c' c'') \/
     (waits_for_reply c' /\ (forall c'', ~ own_step c' c'') /\ work_unlock true c' = Some (set_mtx c' None)) \/
     (works c' = [] /\ mtx c' = None /\
      acc ≡ₚ sent_puts c' ++ held c' (partial_ids (Z.of_nat (length acc) mod 512)) /\
      forall b, 0 <= b < 64 -> Z.testbit (wait c') b = false)).
Proof.
  intros H HN. pose proof (reach_inv acc c H HN) as Hi. split.
  - intros n c' Hn. apply handlers_bound in Hn. unfold handler_cost in Hn at 2.
    assert (match mtx c with Some (_, Sending wrs) => length wrs + 2 | Some (_, Cleared) => 1 | None => 0 end <= 34)%nat; [|lia].
    destruct (mtx c) as [[m [wrs|]]|] eqn:Em; [|lia|lia]. pose proof (suffix_length _ _ (ci_sending _ _ Hi m wrs Em)) as Hl.
    unfold batch_wrs in Hl. rewrite length_fmap, length_seq in Hl. change (Z.to_nat NUM_PUT_BATCH) with 32%nat in Hl. lia.
  - intros c' Hc'. destruct (handlers_inv acc c c' Hi Hc') as [Hi' EN].
    destruct (handler_progress c') as [Hs|[Hs|[Hw Hm]]]; [by left|right; left; split; [done|by apply waiting_needs_reply]|right; right]. destruct (drained acc c' Hi' Hw Hm) as [H1 H2].
    rewrite (ci_count _ _ Hi') in H1. done.
Qed.

(** The message counter is an [int]: after 2^31 puts it is negative, the next put goes to slot 0
    and the one after it tests a bit in front of [ctrl->wait]. *)
Theorem msg_id_overflow c w0 w1 w2 page key :
  q0_msg_id c = 2 ^ 31 - 1 -> Z.testbit (w0 0%nat) 15 = false -> Z.testbit (w1 0%nat) 0 = false ->
  exists c1 c2,
    dcc_rdma_send_page w0 c page key = Ok (c1, 0) /\ q0_msg_id c1 = - 2 ^ 31 /\
    dcc_rdma_send_page w1 c1 page key = Ok (c2, 0) /\
    dcc_rdma_send_page w2 c2 page key = Throw "ctrl->wait".
Proof.
  intros E H0 H1.
  destruct (send_page_at w0 c page key 511) as (c1 & E1 & Q1); [by rewrite E|done|done|].
  rewrite E in Q1. change (to_int (2 ^ 31 - 1 + 1)) with (- 2 ^ 31) in Q1.
  destruct (send_page_at w1 c1 page key 0) as (c2 & E2 & Q2); [by rewrite Q1|done|done|].
  exists c1, c2. split; [done|]. split; [done|]. split; [done|]. rewrite Q1 in Q2.
  unfold dcc_rdma_send_page. by rewrite Q2.
Qed.

(** An invalidation overtakes a put: when a put was accepted without filling its batch, the
    invalidation of its key leaves at once, while the page stays in the unsent batch and can only be
    sent after it. *)
Theorem invalidation_overtakes_put acc c w page key c1 post_ret imm :
  client_reach acc c -> Z.of_nat (length acc) < 2 ^ 31 - 1 -> reads_wait w c ->
  dcc_rdma_send_page w c page key = Ok (c1, 0) -> Z.of_nat (length acc) mod 32 <> 31 ->
  let c2 := (dcc_rdma_write_msg2 post_ret imm c1 key).1 in
  (exists off w, wire c2 = wire c ++ [MWrite 1 off [key] w]) /\
  Keypage page key ∈ held c2 (partial_ids (q0_msg_id c2 mod 512)) /\
  (acc ++ [Keypage page key]) ≡ₚ sent_puts c ++ held c2 (unsent_ids c2).
Proof.
  intros H HN Hw E Hm c2. pose proof (reach_inv acc c H ltac:(lia)) as Hi. pose proof (ci_count _ _ Hi) as EN.
  pose proof (send_page_inv acc c w page key c1 0 Hi ltac:(lia) ltac:(lia) Hw E) as Hi1. cbn [Z.eqb] in Hi1.
  rewrite send_page_ok in E by lia. destruct (wait_batch w (cur_batch c) 7 0); [|by injection E].
  rewrite EN in E. rewrite (proj2 (Z.eqb_neq _ _)) in E by done. injection E as E. rewrite to_int_small in E by lia.
  assert (wire c1 = wire c /\ q0_msg_id c1 = Z.of_nat (length acc) + 1 /\
    keypages c1 = <[Z.to_nat (Z.of_nat (length acc) mod 512) := Keypage page key]> (keypages c)) as (Ew & Eq & Ek) by (by subst c1).
  destruct (write_msg2_eq post_ret imm c1 key) as (off & w' & E2). fold c2 in E2.
  assert (sent_puts c2 = sent_puts c) as Es.
  { unfold sent_puts. rewrite E2. cbn. rewrite omap_app. cbn. by rewrite app_nil_r, Ew. }
  split_and!.
  - exists off, w'. rewrite E2. cbn. by rewrite Ew.
  - rewrite E2. cbn [q0_msg_id send set_q1]. rewrite Eq.
    replace ((Z.of_nat (length acc) + 1) mod 512) with (Z.of_nat (length acc) mod 512 + 1) by (clear -Hm; dlia).
    rewrite partial_S by (clear -Hm; dlia). rewrite held_app. apply elem_of_app. right.
    unfold held. cbn. rewrite Ek, list_lookup_total_insert_eq; [left|]. rewrite (ci_len _ _ Hi).
    pose proof (Z.mod_pos_bound (Z.of_nat (length acc)) 512). lia.
  - rewrite <- Es. pose proof (write_inv _ _ c2 1 off [key] w' (q1_inv _ c1 (to_int (q1_msg_id c1 + 1)) Hi1) E2) as Hi2.
    apply (ci_conserve _ _ Hi2).
Qed.

(** Batches are work items that may run in any order: two versions of a page accepted one after
    the other, in different batches, can leave the client in the opposite order, after which the
    daemon stores the older one. *)
Theorem batches_reordered :
  exists acc c v1 v2 i j k l, client_reach acc c /\ v1 <> v2 /\ (i < j)%nat /\ (k < l)%nat /\
    acc !! i = Some (Keypage v1 7) /\ acc !! j = Some (Keypage v2 7) /\
    sent_puts c !! k = Some (Keypage v2 7) /\ sent_puts c !! l = Some (Keypage v1 7).
Proof.
  destruct (run_ok_reach (replicate 32 (KPut [1] 7) ++ replicate 32 (KPut [2] 7) ++ send_batch 1 ++ send_batch 0)
    (fun c acc => at_eqb acc 0 (Keypage [1] 7) && at_eqb acc 32 (Keypage [2] 7) &&
                  at_eqb (sent_puts c) 0 (Keypage [2] 7) && at_eqb (sent_puts c) 32 (Keypage [1] 7)))
    as (acc & c & H & Hb); [by vm_compute|].
  rewrite !andb_true_iff in Hb. destruct Hb as [[[H1 H2] H3] H4].
  exists acc, c, [1], [2], 0%nat, 32%nat, 0%nat, 32%nat. split; [done|]. split; [done|]. split; [lia|]. split; [lia|].
  split_and!; by apply at_eqb_spec.
Qed.

(** ** Witnesses *)

(** The client after one put. *)
Definition demo_put : ctrl :=
  match dcc_rdma_send_page (fun _ => 0) alloc_ctrl [1] 7 with Ok (c, _) => c | Throw _ => alloc_ctrl end.

Lemma demo_put_eq : dcc_rdma_send_page (fun _ => 0) alloc_ctrl [1] 7 = Ok (demo_put, 0).
Proof.
  unfold demo_put. destruct (send_page_at (fun _ => 0) alloc_ctrl [1] 7 0) as (c & E & _); [done|done|done|]. by rewrite E.
Qed.

Lemma demo_reads c : wait c = 0 -> reads_wait (fun _ => 0) c.
Proof. intros Hw i _. done. Qed.

Lemma demo_reach : client_reach [Keypage [1] 7] demo_put.
Proof. apply (CRPut [] alloc_ctrl (fun _ => 0) [1] 7 demo_put 0); [apply CRInit|by apply demo_reads|apply demo_put_eq]. Qed.

Lemma puts_conserved_witness :
  [Keypage [1] 7] ≡ₚ sent_puts demo_put ++ held demo_put (unsent_ids demo_put) /\ NoDup (unsent_ids demo_put) /\
  forall imm kp, MPut imm kp ∈ wire demo_put ->
    exists mid, 0 <= mid < 512 /\ bit_unmask (ntohl imm) = Imm mid MSG_WRITE TX_WRITE_BEGIN 0 0.
Proof. apply (puts_conserved [Keypage [1] 7] demo_put); [apply demo_reach|done]. Defined.

Lemma send_page_spec_witness :
  let set i := Z.testbit ((fun _ : nat => 0) i) 0 in
  ((forall i, (i <= 6)%nat -> set i = true) -> dcc_rdma_send_page (fun _ => 0) alloc_ctrl [1] 7 = Ok (alloc_ctrl, -6)) /\
  ((exists i, (i <= 6)%nat /\ set i = false) ->
   exists c', dcc_rdma_send_page (fun _ => 0) alloc_ctrl [1] 7 = Ok (c', 0) /\
     keypages c' !! 0%nat = Some (Keypage [1] 7) /\ ~ 0 ∈ unsent_ids alloc_ctrl /\
     works c' = works alloc_ctrl ++ []).
Proof. apply (send_page_spec [] alloc_ctrl (fun _ => 0) [1] 7); [apply CRInit|done|by apply demo_reads]. Defined.

Lemma puts_drain_witness :
  (forall n c', nsteps handler_step n demo_put c' -> (n <= length (works demo_put) * 35 + 34)%nat) /\
  (forall c', rtc handler_step demo_put c' ->
     (exists c'', own_step c' c'') \/
     (waits_for_reply c' /\ (forall c'', ~ own_step c' c'') /\ work_unlock true c' = Some (set_mtx c' None)) \/
     (works c' = [] /\ mtx c' = None /\
      [Keypage [1] 7] ≡ₚ sent_puts c' ++ held c' (partial_ids (1 mod 512)) /\
      forall b, 0 <= b < 64 -> Z.testbit (wait c') b = false)).
Proof. apply (puts_drain [Keypage [1] 7] demo_put); [apply demo_reach|done]. Defined.

Lemma msg_id_overflow_witness :
  exists c1 c2,
    dcc_rdma_send_page (fun _ => 0) (set_q0 alloc_ctrl (2 ^ 31 - 1)) [1] 7 = Ok (c1, 0) /\ q0_msg_id c1 = - 2 ^ 31 /\
    dcc_rdma_send_page (fun _ => 0) c1 [1] 7 = Ok (c2, 0) /\
    dcc_rdma_send_page (fun _ => 0) c2 [1] 7 = Throw "ctrl->wait".
Proof. apply (msg_id_overflow (set_q0 alloc_ctrl (2 ^ 31 - 1)) (fun _ => 0) (fun _ => 0) (fun _ => 0) [1] 7); done. Defined.

Lemma invalidation_overtakes_put_witness :
  let c2 := (dcc_rdma_write_msg2 0 0 demo_put 7).1 in
  (exists off w, wire c2 = wire alloc_ctrl ++ [MWrite 1 off [7] w]) /\
  Keypage [1] 7 ∈ held c2 (partial_ids (q0_msg_id c2 mod 512)) /\
  ([] ++ [Keypage [1] 7]) ≡ₚ sent_puts alloc_ctrl ++ held c2 (unsent_ids c2).
Proof.
  apply (invalidation_overtakes_put [] alloc_ctrl (fun _ => 0) [1] 7 demo_put 0 0);
    [apply CRInit|done|by apply demo_reads|apply demo_put_eq|done].
Defined.
