(* ===== verification/ClientOrder.v ===== *)
(** * ClientOrder: batches sent in the order they were scheduled

    [schedule_work] promises no order between work items ([ClientSpec.batches_reordered]).
    When the items do take the mutex in the order in which they were scheduled, the client
    of [driver/rdma.c] sends its puts in the order in which it accepted them. *)
From S2P Require Import Prelude Wire Crc Client ClientSpec.

(** ** Runs in order *)

(** Work items take [q->mtx] oldest first. *)
Inductive fifo_step (c c' : ctrl) : Prop :=
| FPost : work_post c 0 = Some c' -> fifo_step c c'
| FCard : card_send c = Some c' -> fifo_step c c'
| FClear : work_clear c = Some c' -> fifo_step c c'
| FUnlock replied : work_unlock replied c = Some c' -> fifo_step c c'.

Inductive fifo_reach : list keypage -> ctrl -> Prop :=
| FRInit : fifo_reach [] alloc_ctrl
| FRPut acc c w page key c' r :
    fifo_reach acc c -> reads_wait w c -> dcc_rdma_send_page w c page key = Ok (c', r) ->
    fifo_reach (if r =? 0 then acc ++ [Keypage page key] else acc) c'
| FRHandler acc c c' : fifo_reach acc c -> fifo_step c c' -> fifo_reach acc c'
| FRGet acc c cpu key dma : fifo_reach acc c -> fifo_reach acc (send c (dcc_rdma_write_msg_request cpu key dma))
| FRInv acc c post_ret imm key : fifo_reach acc c -> fifo_reach acc (dcc_rdma_write_msg2 post_ret imm c key).1.

(** The unsent slots in the order in which they will be sent. *)
Definition send_order (c : ctrl) : list Z := mtx_ids c ++ (works c ≫= batch_ids) ++ partial_ids (q0_msg_id c mod 512).

(** ** Lemmas *)

Lemma fifo_handler c c' : fifo_step c c' -> handler_step c c'.
Proof. intros []; eauto using handler_step. Qed.

Lemma fifo_client_reach acc c : fifo_reach acc c -> client_reach acc c.
Proof. induction 1; eauto using client_reach, fifo_handler. Qed.

Lemma send_order_unsent c : send_order c ≡ₚ unsent_ids c.
Proof. unfold send_order, unsent_ids. solve_Permutation. Qed.

(** A put's slot joins the end of the order. *)
Lemma put_order acc c w page key c' r :
  client_inv acc c -> Z.of_nat (length acc) < 2 ^ 31 -> (r = 0 -> Z.of_nat (length acc) < 2 ^ 31 - 1) -> reads_wait w c ->
  dcc_rdma_send_page w c page key = Ok (c', r) ->
  sent_puts c' = sent_puts c /\
  if r =? 0 then held c' (send_order c') = held c (send_order c) ++ [Keypage page key] else c' = c.
Proof.
  intros Hi HN HN' Hw E. pose proof (ci_count _ _ Hi) as EN. rewrite send_page_ok in E by lia.
  pose proof (wait_batch_spec w (cur_batch c) 7 0 eq_refl) as Hs. unfold reads_wait in Hw.
  destruct (wait_batch w (cur_batch c) 7 0) as [i|]; [|by injection E as <- <-].
  destruct Hs as [_ Hb]. rewrite (Hw i eq_refl), cur_batch_eq in Hb by lia. cbv zeta in E.
  assert (r = 0) as Er by (by destruct (q0_msg_id c mod 32 =? 31); injection E as _ <-). specialize (HN' Er). subst r.
  rewrite (to_int_small (q0_msg_id c + 1)) in E by lia.
  destruct (slot_free acc c Hi ltac:(lia) Hb) as [_ Hf]. rewrite <- send_order_unsent in Hf.
  set (n := q0_msg_id c mod 512) in *. assert (0 <= n < 512) as Hn by (apply Z.mod_pos_bound; lia).
  assert (forall ids, held (set_keypages c (<[Z.to_nat n := Keypage page key]> (keypages c))) (ids ++ [n]) =
    held (set_keypages c (<[Z.to_nat n := Keypage page key]> (keypages c))) ids ++ [Keypage page key]) as Hl.
  { intros ids. rewrite held_app. f_equal. unfold held. cbn. rewrite list_lookup_total_insert_eq; [done|].
    rewrite (ci_len _ _ Hi). lia. }
  rewrite <- (held_insert c n (Keypage page key) _ ltac:(lia) Hf), <- Hl.
  destruct (Z.eqb_spec (q0_msg_id c mod 32) 31) as [Em|Em]; injection E as <-; (split; [done|]); cbn [Z.eqb];
    (erewrite held_keypages; [|reflexivity]); f_equal; unfold send_order;
    cbn [works set_works set_keypages set_wait q0_msg_id set_q0]; rewrite <- !app_assoc; f_equal.
  - rewrite (partial_nil ((q0_msg_id c + 1) mod 512)) by (clear -Em; dlia). rewrite bind_app, <- app_assoc. f_equal.
    cbn [mbind list_bind]. rewrite !app_nil_r. apply partial_full; [lia|]. unfold n. clear -Em. dlia.
  - f_equal. replace ((q0_msg_id c + 1) mod 512) with (n + 1) by (unfold n; clear -Em; dlia).
    apply partial_S; [lia|]. unfold n. clear -Em. dlia.
Qed.

Lemma fifo_order acc c c' : client_inv acc c -> fifo_step c c' ->
  sent_puts c' ++ held c' (send_order c') = sent_puts c ++ held c (send_order c).
Proof.
  intros Hi [H|H|H|replied H]; revert H; unfold work_post, card_send, work_clear, work_unlock;
    destruct (mtx c) as [[m [[|wr wrs]|]]|] eqn:Em; try done.
  - destruct (works c) as [|m l] eqn:Ew; [done|]. cbn [lookup list_lookup delete list_delete]. intros [= <-].
    f_equal. erewrite held_keypages; [|reflexivity]. f_equal. unfold send_order, mtx_ids.
    cbn [works mtx q0_msg_id set_mtx set_works phase_ids]. rewrite Em, Ew, batch_wrs_slots. cbn. by rewrite <- app_assoc.
  - intros [= <-]. unfold sent_puts at 1. cbn [wire send set_mtx]. rewrite omap_app, <- app_assoc. f_equal.
    rewrite (held_keypages c) by done. unfold send_order, mtx_ids. cbn [works mtx q0_msg_id set_mtx send].
    by rewrite Em.
  - intros [= <-]. f_equal. rewrite (held_keypages c) by done. unfold send_order, mtx_ids.
    cbn [works mtx q0_msg_id set_mtx set_wait]. by rewrite Em.
  - destruct (_ && _); [done|]. intros [= <-]. f_equal. rewrite (held_keypages c) by done. unfold send_order, mtx_ids.
    cbn [works mtx q0_msg_id set_mtx]. by rewrite Em.
Qed.

Lemma write_order c qid off words imm :
  sent_puts (send c (MWrite qid off words imm)) = sent_puts c /\
  held (send c (MWrite qid off words imm)) (send_order (send c (MWrite qid off words imm))) = held c (send_order c).
Proof. split; [|done]. unfold sent_puts. cbn. by rewrite omap_app, app_nil_r. Qed.

Lemma fifo_sent acc c :
  fifo_reach acc c -> Z.of_nat (length acc) < 2 ^ 31 -> acc = sent_puts c ++ held c (send_order c).
Proof.
  induction 1 as [|acc c w page key c' r H IH Hw E|acc c c' H IH Hs|acc c cpu key dma H IH|acc c pr imm key H IH]; intros HN.
  - reflexivity.
  - assert (Z.of_nat (length acc) < 2 ^ 31 /\ (r = 0 -> Z.of_nat (length acc) < 2 ^ 31 - 1)) as [HN1 HN2].
    { destruct (Z.eqb_spec r 0); [|by split; intros]. rewrite length_app in HN. cbn in HN. lia. }
    specialize (IH HN1).
    destruct (put_order acc c w page key c' r) as [Es Eh]; try done; [by apply reach_inv, HN1; apply fifo_client_reach|].
    destruct (Z.eqb_spec r 0) as [->|Hr]; [|by subst c']. by rewrite Es, Eh, app_assoc, <- IH.
  - rewrite (fifo_order acc c c'); [by apply IH|by apply reach_inv, HN; apply fifo_client_reach|done].
  - unfold dcc_rdma_write_msg_request. edestruct write_order as [-> ->]. by apply IH.
  - destruct (write_msg2_eq pr imm c key) as (off & w & ->). edestruct write_order as [-> ->]. by apply IH.
Qed.

(** ** Property *)


