(* ===== verification/ClientMsgs.v ===== *)
(** * ClientMsgs: what the client puts on the wire is well formed

    Every request of [driver/rdma.c] has an immediate word the daemon decodes, for a queue and a
    message number that exist, and every RDMA write stays inside the region the daemon registered. *)
From S2P Require Import Prelude Wire Crc Client ClientSpec.

(** A put's word names a slot; a write goes to the place of its request, inside the region, with
    the words of its type. *)
Definition well_formed (m : message) : Prop :=
  match m with
  | MPut imm _ => exists mid, 0 <= mid < 512 /\ bit_unmask (ntohl imm) = Imm mid MSG_WRITE TX_WRITE_BEGIN 0 0
  | MWrite qid off words imm =>
      exists mid type tx,
        bit_unmask (ntohl imm) = Imm mid type tx 0 0 /\
        (type = MSG_READ /\ tx = TX_READ_BEGIN /\ 2 <= qid < 8 \/ type = MSG_INV_PAGE /\ tx = TX_INV_PAGE_BEGIN /\ qid = 1) /\
        off = Driver.GET_METADATA_OFFSET dcc_rdma_set_default_config qid mid type /\
        Z.of_nat (length words) * sizeof_u64 = request_size type /\
        0 <= off /\ off + request_size type <= metadata_mr_size dcc_rdma_set_default_config
  end.

(** The invalidations sent. *)
Definition is_inv (m : message) : bool := match m with MWrite qid _ _ _ => qid =? 1 | MPut _ _ => false end.
Definition invs (c : ctrl) : Z := Z.of_nat (length (List.filter is_inv (wire c))).

(** ** Lemmas *)

Lemma invs_send c m : invs (send c m) = invs c + (if is_inv m then 1 else 0).
Proof. unfold invs. cbn [wire send]. rewrite List.filter_app, length_app. cbn [List.filter]. destruct (is_inv m); cbn [length]; lia. Qed.

Lemma invs_mono c m : invs c <= invs (send c m).
Proof. rewrite invs_send. destruct (is_inv m); lia. Qed.

Lemma write_well_formed qid mid type tx words :
  (type = MSG_READ /\ tx = TX_READ_BEGIN /\ 2 <= qid < 8 \/ type = MSG_INV_PAGE /\ tx = TX_INV_PAGE_BEGIN /\ qid = 1) ->
  0 <= mid < 512 -> Z.of_nat (length words) * sizeof_u64 = request_size type ->
  well_formed (MWrite qid (Driver.GET_METADATA_OFFSET dcc_rdma_set_default_config qid mid type) words
                 (htonl (Driver.bit_mask mid type tx 0 0))).
Proof.
  intros Ht Hm Hw. exists mid, type, tx.
  assert (valid_request dcc_rdma_set_default_config qid mid type) as Hv.
  { unfold valid_request. cbn. split; [lia|]. split; [lia|]. destruct Ht as [(-> & _)|(-> & _)]; auto. }
  destruct (region_disjoint qid mid type qid mid type Hv Hv) as (H0 & H1 & _). split; [|done].
  destruct Ht as [(-> & -> & _)|(-> & -> & _)]; apply unmask_sent; (apply u_ok_lt; lia) || (split; vm_compute; congruence).
Qed.

Lemma get_well_formed cpu key dma : well_formed (dcc_rdma_write_msg_request cpu key dma).
Proof.
  unfold dcc_rdma_write_msg_request. apply write_well_formed; [|lia|done]. left. split; [done|]. split; [done|].
  unfold get_queue. change (num_get_qps _) with 6. pose proof (Z.mod_pos_bound cpu 6 eq_refl). lia. 
Qed.

Lemma get_not_inv cpu key dma : is_inv (dcc_rdma_write_msg_request cpu key dma) = false.
Proof.
  unfold dcc_rdma_write_msg_request, is_inv, get_queue. change (num_get_qps _) with 6. pose proof (Z.mod_pos_bound cpu 6 eq_refl). lia. 
Qed.

(** An invalidation whose number has not wrapped around. *)
Lemma write_msg2_message post_ret imm c key : 0 <= q1_msg_id c < 2 ^ 31 - 1 ->
  exists m, (dcc_rdma_write_msg2 post_ret imm c key).1 = send (set_q1 c (q1_msg_id c + 1)) m /\ is_inv m = true /\ well_formed m.
Proof.
  intros Hq. unfold dcc_rdma_write_msg2. rewrite to_int_small by lia. change NUM_MSGS with 512. rewrite Z.rem_mod_nonneg by lia.
  eexists. split; [by case_match|]. split; [done|]. apply write_well_formed; [by right|dlia|done].
Qed.

Definition writes_ok (c : ctrl) : Prop :=
  q1_msg_id c = invs c /\ Forall (fun m => match m with MPut _ _ => True | MWrite _ _ _ _ => well_formed m end) (wire c).

Lemma send_writes c m q : writes_ok c -> q = invs c + (if is_inv m then 1 else 0) ->
  match m with MPut _ _ => True | MWrite _ _ _ _ => well_formed m end -> writes_ok (send (set_q1 c q) m).
Proof.
  intros (_ & H2) -> Hm. split; [by rewrite invs_send|]. cbn [wire send set_q1]. apply Forall_app. auto.
Qed.

(** A put changes neither the wire nor the invalidations' counter; a handler sends puts only. *)
Lemma send_page_frame w c page key c' r : dcc_rdma_send_page w c page key = Ok (c', r) -> wire c' = wire c /\ q1_msg_id c' = q1_msg_id c.
Proof.
  unfold dcc_rdma_send_page, copy_to_send_buffer. cbv zeta. destruct (negb _); [done|]. destruct (wait_batch _ _ _ _); [|by intros [= <- _]].
  destruct (_ && _); [|done]. obind. by destruct (negb _); intros [= <- _].
Qed.

Lemma handler_frame c c' : handler_step c c' ->
  q1_msg_id c' = q1_msg_id c /\ (wire c' = wire c \/ exists imm kp, wire c' = wire c ++ [MPut imm kp]).
Proof.
  intros [k H|H|H|replied H]; revert H; [unfold work_post|unfold card_send|unfold work_clear|unfold work_unlock]; repeat case_match; intros [= <-]; try (split; [done|by left]).
  split; [done|]. right. cbn [wire send set_mtx]. eauto.
Qed.

Lemma writes_ok_puts c c' l : q1_msg_id c' = q1_msg_id c -> wire c' = wire c ++ l -> Forall (fun m => put_of m <> None) l -> writes_ok c -> writes_ok c'.
Proof.
  intros E1 E2 Hl (H1 & H2). split.
  - rewrite E1, H1. unfold invs. rewrite E2, List.filter_app, length_app.
    assert (List.filter is_inv l = []) as ->; [|cbn [length]; lia]. clear E2. induction Hl as [|[] l Hm _ IH]; done.
  - rewrite E2. apply Forall_app. split; [done|]. eapply Forall_impl; [done|]. by intros [].
Qed.

Lemma handler_invs c c' : handler_step c c' -> invs c <= invs c'.
Proof. intros (_ & [E|(imm & kp & E)])%handler_frame; unfold invs; rewrite E, ?List.filter_app, ?length_app; lia. Qed.

Lemma write_msg2_invs post_ret imm c key : invs (dcc_rdma_write_msg2 post_ret imm c key).1 = invs c + 1.
Proof. destruct (write_msg2_eq post_ret imm c key) as (off & w & ->). by rewrite invs_send. Qed.

Lemma reach_writes acc c : client_reach acc c -> invs c < 2 ^ 31 -> writes_ok c.
Proof.
  induction 1 as [|acc c w page key c' r H IH Hw E|acc c c' H IH Hs|acc c cpu key dma H IH|acc c pr imm key H IH]; intros HN.
  - split; [done|constructor].
  - apply send_page_frame in E as (E1 & E2). apply (writes_ok_puts c c' []); [done|by rewrite app_nil_r|done|].
    apply IH. unfold invs in *. by rewrite <- E1.
  - assert (writes_ok c) as Hok by (apply IH; pose proof (handler_invs _ _ Hs); lia).
    apply handler_frame in Hs as (E2 & [E1|(w & kp & E1)]).
    + apply (writes_ok_puts c c' []); [done|by rewrite app_nil_r|done|done].
    + apply (writes_ok_puts c c' [MPut w kp]); [done|done|by repeat constructor|done].
  - rewrite invs_send, get_not_inv, Z.add_0_r in HN. destruct (IH HN) as (H1 & H2). split.
    + by rewrite invs_send, get_not_inv, Z.add_0_r.
    + cbn [wire send]. apply Forall_app. split; [done|]. constructor; [|done]. apply get_well_formed.
  - rewrite write_msg2_invs in HN. destruct IH as (H1 & H2); [lia|]. assert (0 <= invs c) by (unfold invs; lia).
    destruct (write_msg2_message pr imm c key) as (m & -> & Em & Hm); [lia|].
    apply send_writes; [by split|by rewrite H1, Em|]. destruct m; done.
Qed.

(** ** Every request *)

(** C24: As long as the client has had fewer than 2^31 puts accepted and sent fewer than 2^31 invalidations ([wrapped_invalidation]: the
    counters then wrap around), every message it sent is well formed, whatever it did: the daemon decodes it to a request of a
    queue and a message number that exist, and each RDMA write lies inside the registered region. *)
Theorem requests_well_formed acc c : client_reach acc c -> Z.of_nat (length acc) < 2 ^ 31 -> invs c < 2 ^ 31 ->
  Forall well_formed (wire c).
Proof.
  intros H HN HI. destruct (reach_writes acc c H HI) as (_ & Hw). pose proof (reach_inv acc c H HN) as Hi.
  apply Forall_forall. intros [imm kp|qid off words imm] Hm; [|by apply (proj1 (Forall_forall _ _) Hw) in Hm].
  destruct (ci_wire _ _ Hi imm kp Hm) as (mid & Hmid & ->). exists mid. split; [done|].
  apply unmask_sent; (apply u_ok_lt; lia) || (split; vm_compute; congruence).
Qed.

(** After 2^31 invalidations the [int] counter is negative: the key is written to one place of the region and the daemon, which
    sees twelve bits of the number, reads another. *)
Lemma wrapped_invalidation post_ret imm c key : q1_msg_id c = to_int (2 ^ 31 + 1) ->
  exists off w, wire (dcc_rdma_write_msg2 post_ret imm c key).1 = wire c ++ [MWrite 1 off [key] w] /\
    off = 40 /\ Driver.GET_METADATA_OFFSET dcc_rdma_set_default_config 1 (i_mid (bit_unmask (ntohl w))) MSG_INV_PAGE = 32808.
Proof.
  intros E. unfold dcc_rdma_write_msg2. rewrite E. eexists _, _. split; [by case_match|]. by vm_compute.
Qed.

Lemma requests_well_formed_witness : Forall well_formed (wire (send demo_put (dcc_rdma_write_msg_request 3 7 4096))).
Proof.
  apply (requests_well_formed [Keypage [1] 7]); [apply CRGet, demo_reach|by vm_compute|by vm_compute].
Defined.
