(* ===== verification/Backend.v ===== *)
(** * Backend: the driver's cleancache operations

    [driver/access_filter.h], [driver/stats.h], the handlers of [driver/backend.c] and
    the entry points of [driver/main.c]. The connection to a server is an interface,
    [Transport], which [driver/rdma.c] (Client) implements. *)
From S2P Require Import Prelude Keys ClientFilter.

(** ** access_filter.h *)

(** The last page seen per bucket: inode and index. *)
Record access_filter_t := AccessFilter { af_num_buckets : Z; af_buckets : list (Z * Z) }.

Definition af_init : access_filter_t := AccessFilter 4096 (replicate 4096 (0, 0)).

Definition DIFF_ABS (x y : Z) : Z := if y <? x then x - y else y - x.

(** [GOLDEN_RATIO_64] comes from the kernel's [linux/hash.h]. *)
Definition af_bkt_id (GOLDEN_RATIO_64 : Z) (af : access_filter_t) (ino : Z) : nat :=
  Z.to_nat (wrap 32 ((ino *₆₄ GOLDEN_RATIO_64) mod af_num_buckets af)).
Definition af_upsert (GOLDEN_RATIO_64 : Z) (af : access_filter_t) (ino index : Z) : access_filter_t * bool :=
  let bkt_id := af_bkt_id GOLDEN_RATIO_64 af ino in
  let bucket := default (0, 0) (af_buckets af !! bkt_id) in
  let ret := if bucket.1 =? ino then negb (DIFF_ABS bucket.2 index <? 32) else true in
  (AccessFilter (af_num_buckets af) (<[bkt_id := (ino, index)]> (af_buckets af)), ret).

(** ** stats.h *)

Inductive dcc_stats_type :=
| BLOCKED_PUTS | REJECTED_PUTS | CLEAN_PUTS | REDIRTIED_PUTS | ACCESS_FILTERED_PUTS
| FALSE_POSITIVE_GETS | CRC_ERROR_GETS | VALID_INVALIDATES.
#[export] Instance dcc_stats_type_eq : EqDecision dcc_stats_type.
Proof. solve_decision. Defined.

Definition dcc_stats_t := dcc_stats_type -> Z.
Definition dcc_stats_inc (st : dcc_stats_t) (name : dcc_stats_type) : dcc_stats_t :=
  fun n => if decide (n = name) then st n +₆₄ 1 else st n.

(** ** The connection to a server *)

(** [write_msg] returns the page as the server left it; a [Throw] is an access out of bounds. *)
Class Transport (C : Type) := {
  send_page : C -> list Z -> Z -> outcome (C * Z);
  write_msg : C -> list Z -> Z -> outcome (C * list Z * Z);
  write_msg2 : C -> Z -> outcome (C * Z);
}.

Section backend.
Context {C : Type} `{Transport C}.

(** ** backend.c *)

Record backend := Backend { be_ctrl : C; be_cli_id : Z; be_meta : metadata; be_af : access_filter_t }.

(** The module's parameters; [metadata_type] is 0 ([FILTER_OFF]) or the structure in use. *)
Record dcc_config_t := DccConfig {
  num_svrs : Z;
  exclusive_policy : bool;
  metadata_type : metadata_type_t;
  af_enable : bool;
}.

Context (cfg : dcc_config_t) (GOLDEN_RATIO_64 : Z).

Definition metadata_on : bool := negb (bool_decide (metadata_type cfg = FILTER_OFF)).

Definition with_ctrl (b : backend) (c : C) : backend := Backend c (be_cli_id b) (be_meta b) (be_af b).
Definition with_meta (b : backend) (m : metadata) : backend := Backend (be_ctrl b) (be_cli_id b) m (be_af b).
Definition with_af (b : backend) (af : access_filter_t) : backend := Backend (be_ctrl b) (be_cli_id b) (be_meta b) af.

(** [dirtied]: the page carries [PAGECACHE_TAG_DIRTIED]. The code -4 of a dirty page is
    overwritten with 0 before the page is sent. *)
Definition handle_twosided_put_page (b : backend) (page : list Z) (dirtied : bool) (key : Z) : outcome (backend * Z) :=
  present ← (if negb (exclusive_policy cfg) then
               if metadata_on then metadata_contain (be_meta b) key else Ok true
             else Ok false);
  if present && negb dirtied then Ok (b, -3)
  else
    '(c, ret2) ← send_page (be_ctrl b) page key;
    let b := with_ctrl b c in
    if metadata_on && (ret2 =? 0) then m ← metadata_add (be_meta b) key; Ok (with_meta b m, 0)
    else Ok (b, ret2).

Definition handle_twosided_get_page (b : backend) (page : list Z) (key : Z) : outcome (backend * list Z * Z) :=
  known ← (if metadata_on then metadata_contain (be_meta b) key else Ok true);
  if negb known then Ok (b, page, -1)
  else
    '(c, page, ret) ← write_msg (be_ctrl b) page key;
    let b := with_ctrl b c in
    if metadata_on && (exclusive_policy cfg || negb (ret =? 0)) then
      '(m, _) ← metadata_remove (be_meta b) key; Ok (with_meta b m, page, ret)
    else Ok (b, page, ret).

Definition handle_twosided_invalidate_page (b : backend) (key : Z) : outcome (backend * Z) :=
  known ← (if metadata_on then metadata_contain (be_meta b) key else Ok true);
  if negb known then Ok (b, -1)
  else
    '(c, ret) ← write_msg2 (be_ctrl b) key;
    let b := with_ctrl b c in
    if metadata_on then '(m, _) ← metadata_remove (be_meta b) key; Ok (with_meta b m, ret)
    else Ok (b, ret).

(** [DECLARE_BACKEND_VAR]: the server of a page, and the page's key there. *)
Definition backend_of (ino index : Z) : nat := Z.to_nat (Driver.get_backend_id GOLDEN_RATIO_64 (num_svrs cfg) ino index).
Definition page_key (b : backend) (ino index : Z) : Z := Driver.make_longkey (be_cli_id b) ino index.
Definition with_backend {A} (bs : list backend) (ino index : Z) (f : backend -> Z -> outcome (backend * A))
  : outcome (list backend * A) :=
  match bs !! backend_of ino index with
  | None => Throw "backends"
  | Some b => '(b, r) ← f b (page_key b ino index); Ok (<[backend_of ino index := b]> bs, r)
  end.

Definition dcc_handle_put_page (bs : list backend) (page : list Z) (dirtied : bool) (ino index : Z) : outcome (list backend * Z) :=
  with_backend bs ino index (fun b key =>
    let '(af, pass) := if af_enable cfg then af_upsert GOLDEN_RATIO_64 (be_af b) ino index else (be_af b, true) in
    let b := with_af b af in
    if negb pass then Ok (b, -5) else handle_twosided_put_page b page dirtied key).

Definition dcc_handle_get_page (bs : list backend) (page : list Z) (ino index : Z) : outcome (list backend * (list Z * Z)) :=
  with_backend bs ino index (fun b key => '(b, page, ret) ← handle_twosided_get_page b page key; Ok (b, (page, ret))).

Definition dcc_handle_invalidate_page (bs : list backend) (ino index : Z) : outcome (list backend * Z) :=
  with_backend bs ino index handle_twosided_invalidate_page.

(** ** main.c *)

(** A page that does not come from [shrink_page_list] is ignored. *)
Definition dcc_put_page (bs : list backend) (st : dcc_stats_t) (page_count : Z) (page_locked : bool) (i_ino : Z)
    (page : list Z) (dirtied : bool) (ino index : Z) : outcome (list backend * dcc_stats_t) :=
  if negb (page_count =? 0) || negb page_locked || (i_ino <? 2) then Ok (bs, st)
  else
    '(bs, ret) ← dcc_handle_put_page bs page dirtied ino index;
    Ok (bs, if ret =? -3 then dcc_stats_inc st CLEAN_PUTS
            else if ret =? -4 then dcc_stats_inc st REDIRTIED_PUTS
            else if ret =? -5 then dcc_stats_inc st ACCESS_FILTERED_PUTS
            else if ret =? -6 then dcc_stats_inc st BLOCKED_PUTS
            else if ret =? -7 then dcc_stats_inc st REJECTED_PUTS
            else st).

Definition dcc_get_page (bs : list backend) (st : dcc_stats_t) (page : list Z) (ino index : Z)
  : outcome (list backend * dcc_stats_t * list Z * Z) :=
  '(bs, (page, ret)) ← dcc_handle_get_page bs page ino index;
  Ok (bs, if 0 <? ret then dcc_stats_inc st FALSE_POSITIVE_GETS
          else if ret =? -4 then dcc_stats_inc st CRC_ERROR_GETS
          else st, page, ret).

Definition dcc_invalidate_page (bs : list backend) (st : dcc_stats_t) (ino index : Z) : outcome (list backend * dcc_stats_t) :=
  '(bs, ret) ← dcc_handle_invalidate_page bs ino index;
  Ok (bs, if ret =? 0 then dcc_stats_inc st VALID_INVALIDATES else st).
End backend.
Arguments backend : clear implicits.
