(* ===== verification/BackendSpec.v ===== *)
(** * BackendSpec: when the handlers ask a server

    The metadata that never forgets a page the server took ([knows]), and the contract of the driver's
    handlers over any connection: no promise of the server is used. Where the access filter and
    the counting filter fall short of it. *)
From S2P Require Import Prelude Keys HashFuncs CountingBloom ClientFilter ClientFilterSpec Backend.

(** ** Metadata that knows a set of keys

    The hash table knows exactly the keys, a filter at least the keys. *)
Definition knows (type : metadata_type_t) (m : metadata) (K : gset Z) : Prop :=
  match type, m with
  | FILTER_OFF, _ => True
  | COOP_BF, MetaBf _ f | ORDINARY_BF, MetaBf _ f => bf_wf f /\ forall k, k ∈ K -> bf_might_contain f k = true
  | HASH_TABLE, MetaHt ht => ht_rep ht (gset_to_gmap 0 K)
  | _, _ => False
  end.

Lemma bf_new_wf num_hash num_bits ptr : 0 < num_bits < 2 ^ 32 -> bf_wf (bf_new num_hash num_bits ptr).
Proof. intros Hn. split; [done|apply length_replicate|apply length_replicate]. Qed.

(** The metadata as it starts, when no allocation fails. *)
Lemma init_knows num_hash num_bits ptr num_rmem_pages type :
  0 < num_bits < 2 ^ 32 -> 2 <= num_rmem_pages < 2 ^ 32 -> type <> COUNTING_BF ->
  knows type (metadata_init (fun _ => true) num_hash num_bits ptr num_rmem_pages type) ∅.
Proof.
  intros Hn Hr Hc. assert (bf_init (fun _ => true) num_hash num_bits ptr = Some (bf_new num_hash num_bits ptr)) as Ebf.
  { unfold bf_init, vzalloc. cbn [andb]. pose proof (longs_enough num_bits 0 ltac:(lia)). by rewrite (proj2 (Z.ltb_lt 0 _)) by (rewrite Z.div_0_l in * by done; lia). }
  unfold metadata_init. destruct type; try done; cbn [knows].
  - rewrite Ebf. cbn. split; [by apply bf_new_wf|set_solver].
  - rewrite Ebf. cbn. split; [by apply bf_new_wf|set_solver].
  - rewrite hashtable_init_spec by lia. rewrite (proj2 (Z.leb_le 2 _)) by lia. cbn [andb from_option]. rewrite gset_to_gmap_empty.
    apply ht_rep_new. assert (1 <= num_rmem_pages * 75 / 100) by dlia. lia.
Qed.

Section known.
Context (type : metadata_type_t) (Hon : type <> FILTER_OFF).

Lemma knows_contain m K k : knows type m K ->
  exists b, metadata_contain m k = Ok b /\ (k ∈ K -> b = true) /\ (type = HASH_TABLE -> b = bool_decide (k ∈ K)).
Proof using Hon.
  destruct type, m as [b f|c|ht| | |]; try done; cbn.
  1, 2: intros [_ Hk]; eexists; (split; [done|]); by split; [apply Hk|].
  intros Hr. rewrite (ht_get ht _ k Hr). obind. eexists. split; [done|].
  assert (negb (default no_value (gset_to_gmap 0 K !! k) =? no_value) = bool_decide (k ∈ K)) as ->.
  { destruct (decide (k ∈ K)) as [Hin|Hin].
    - rewrite bool_decide_eq_true_2 by done. by rewrite (proj2 (lookup_gset_to_gmap_Some 0 K k 0)).
    - rewrite bool_decide_eq_false_2 by done. by rewrite (proj2 (lookup_gset_to_gmap_None 0 K k)). }
  split; [|done]. intros Hin. by apply bool_decide_eq_true_2.
Qed.

Lemma knows_add m K k : knows type m K -> exists m', metadata_add m k = Ok m' /\ knows type m' ({[k]} ∪ K).
Proof using Hon.
  destruct type, m as [b f|c|ht| | |]; try done; cbn.
  1, 2: intros [Hw Hk]; eexists; (split; [done|]); (split; [by apply bf_add_wf|]); intros k' Hin;
    apply bf_add_all; [done|]; apply elem_of_union in Hin as [->%elem_of_singleton|Hin]; [by right|left; by apply Hk].
  intros Hr. destruct (ht_insert ht _ k 0 Hr) as (ht' & E & Hr'). rewrite E. obind. eexists. split; [done|]. cbn.
  by rewrite gset_to_gmap_union_singleton.
Qed.

Lemma knows_remove m K k : knows type m K -> exists m' r, metadata_remove m k = Ok (m', r) /\ knows type m' (K ∖ {[k]}).
Proof using Hon.
  destruct type, m as [b f|c|ht| | |]; try done; cbn.
  1, 2: intros [Hw Hk]; eexists _, _; (split; [done|]); (split; [done|]); intros k' Hin; apply Hk; set_solver.
  intros Hr. destruct (ht_remove ht _ k Hr) as (ht' & E & Hr' & _). rewrite E. obind. eexists _, _. split; [done|]. cbn.
  by rewrite gset_to_gmap_difference_singleton.
Qed.
End known.

(** ** The operations of one server *)

(** What the kernel asks of one server. *)
Inductive cleancache_op :=
| OPut (page : list Z) (dirtied : bool) (key : Z)
| OGet (page : list Z) (key : Z)
| OInv (key : Z).

Section contract.
Context {C : Type} `{Transport C}.
Context (cfg : dcc_config_t).

(** The keys put and accepted, and not since invalidated, nor read with the exclusive policy, nor looked for in
    vain; the results of the operations tell them. *)
Definition put_known (r : Z) (key : Z) (K : gset Z) : gset Z := if r =? 0 then {[key]} ∪ K else K.
Definition get_known (r : Z) (key : Z) (K : gset Z) : gset Z := if exclusive_policy cfg || negb (r =? 0) then K ∖ {[key]} else K.

Fixpoint run_ops (b : backend C) (K : gset Z) (ops : list cleancache_op) : outcome (backend C * gset Z) :=
  match ops with
  | [] => Ok (b, K)
  | OPut page dirtied key :: ops => '(b, r) ← handle_twosided_put_page cfg b page dirtied key; run_ops b (put_known r key K) ops
  | OGet page key :: ops => '(b, _, r) ← handle_twosided_get_page cfg b page key; run_ops b (get_known r key K) ops
  | OInv key :: ops => '(b, _) ← handle_twosided_invalidate_page cfg b key; run_ops b (K ∖ {[key]}) ops
  end.

(** An operation as the server and the kernel see it. *)
Definition seen_put (b : backend C) (page : list Z) (dirtied : bool) (key : Z) : outcome (C * Z) :=
  '(b, r) ← handle_twosided_put_page cfg b page dirtied key; Ok (be_ctrl b, r).
Definition seen_get (b : backend C) (page : list Z) (key : Z) : outcome (C * list Z * Z) :=
  '(b, page, r) ← handle_twosided_get_page cfg b page key; Ok (be_ctrl b, page, r).
Definition seen_inv (b : backend C) (key : Z) : outcome (C * Z) :=
  '(b, r) ← handle_twosided_invalidate_page cfg b key; Ok (be_ctrl b, r).

(** Whether the metadata lets an operation through. *)
Definition asks (b : backend C) (key : Z) : outcome bool := if metadata_on cfg then metadata_contain (be_meta b) key else Ok true.

Abbreviation type := (metadata_type cfg).
Abbreviation valid b K := (knows type (be_meta b) K).

Lemma on_type : metadata_on cfg = true -> type <> FILTER_OFF.
Proof. intros Eon. by apply negb_true_iff, bool_decide_eq_false in Eon. Qed.

Lemma asks_known b K key : valid b K -> exists known, asks b key = Ok known /\
  (key ∈ K -> known = true) /\ (type = HASH_TABLE -> known = bool_decide (key ∈ K)).
Proof.
  intros Hk. unfold asks. destruct (metadata_on cfg) eqn:Eon; [by apply knows_contain; [apply on_type|]|].
  exists true. split; [done|]. split; [done|]. intros E. unfold metadata_on in Eon. by rewrite E in Eon.
Qed.

Lemma forgotten (K : gset Z) key : (key ∈ K -> False) -> K ∖ {[key]} = K.
Proof. set_solver. Qed.

(** The three handlers: what the server sees, and what the metadata knows afterwards. *)
Lemma put_step b K page dirtied key : valid b K ->
  exists present, (exclusive_policy cfg = true -> present = false) /\ (dirtied = true -> present = false) /\
    (type = HASH_TABLE -> present = negb (exclusive_policy cfg) && negb dirtied && bool_decide (key ∈ K)) /\
    seen_put b page dirtied key = (if present : bool then Ok (be_ctrl b, -3) else send_page (be_ctrl b) page key) /\
    forall b' r, handle_twosided_put_page cfg b page dirtied key = Ok (b', r) ->
      be_af b' = be_af b /\ be_cli_id b' = be_cli_id b /\ valid b' (put_known r key K).
Proof.
  intros Hk. destruct (asks_known b K key Hk) as (known & Ea & Hin & Hex). unfold asks in Ea. unfold seen_put, handle_twosided_put_page.
  exists (negb (exclusive_policy cfg) && known && negb dirtied). split; [by intros ->|]. split; [by intros ->; rewrite andb_false_r|].
  split; [intros Ht; rewrite (Hex Ht); destruct (exclusive_policy cfg), dirtied, (bool_decide _); done|].
  assert ((if negb (exclusive_policy cfg) then if metadata_on cfg then metadata_contain (be_meta b) key else Ok true else Ok false)
    = Ok (negb (exclusive_policy cfg) && known)) as -> by (rewrite Ea; by destruct (exclusive_policy cfg)).
  obind. destruct (_ && negb dirtied); [by split; [|intros b' r [= <- <-]]|].
  destruct (send_page (be_ctrl b) page key) as [[c r]|]; [|done]. obind. unfold put_known.
  destruct (metadata_on cfg) eqn:Eon; cbn [andb]; destruct (Z.eqb_spec r 0) as [->|Hne]; cbn [Z.eqb].
  - destruct (knows_add _ (on_type Eon) _ _ key Hk) as (m' & E & Hk'). cbn [be_meta with_ctrl]. rewrite E. obind.
    split; [done|]. by intros b' r [= <- <-].
  - split; [done|]. intros b' r' [= <- <-]. by rewrite (proj2 (Z.eqb_neq r 0)).
  - split; [done|]. intros b' r [= <- <-]. split; [done|]. split; [done|]. unfold metadata_on in Eon. apply negb_false_iff, bool_decide_eq_true in Eon. by rewrite Eon.
  - split; [done|]. intros b' r' [= <- <-]. by rewrite (proj2 (Z.eqb_neq r 0)).
Qed.

Lemma valid_off (b b' : backend C) (K K' : gset Z) : metadata_on cfg = false -> valid b K -> valid b' K'.
Proof. unfold metadata_on. intros Eon%negb_false_iff%bool_decide_eq_true. by rewrite Eon. Qed.

Lemma get_step b K page key (known : bool) : valid b K -> asks b key = Ok known ->
  seen_get b page key = (if known then write_msg (be_ctrl b) page key else Ok (be_ctrl b, page, -1)) /\
    forall b' page' r, handle_twosided_get_page cfg b page key = Ok (b', page', r) ->
      be_af b' = be_af b /\ be_cli_id b' = be_cli_id b /\ valid b' (get_known r key K).
Proof.
  intros Hk Ea. destruct (asks_known b K key Hk) as (known' & Ea' & Hin & _). rewrite Ea in Ea'. injection Ea' as <-.
  unfold asks in Ea. unfold seen_get, handle_twosided_get_page. rewrite Ea. obind. unfold get_known. destruct known; cbn [negb].
  - destruct (write_msg (be_ctrl b) page key) as [[[c p] r]|]; [|done]. obind.
    destruct (metadata_on cfg) eqn:Eon; cbn [andb].
    + destruct (exclusive_policy cfg || negb (r =? 0)) eqn:Ed.
      * destruct (knows_remove _ (on_type Eon) _ _ key Hk) as (m' & r' & E & Hk'). cbn [be_meta with_ctrl]. rewrite E. obind.
        split; [done|]. intros b' p' r2 [= <- <- <-]. by rewrite Ed.
      * split; [done|]. intros b' p' r2 [= <- <- <-]. by rewrite Ed.
    + split; [done|]. intros b' p' r2 [= <- <- <-]. split; [done|]. split; [done|]. by eapply valid_off.
  - split; [done|]. intros b' p' r2 [= <- <- <-]. split; [done|]. split; [done|]. cbn [Z.eqb negb]. rewrite orb_true_r, forgotten; [done|].
    intros Hi. by specialize (Hin Hi).
Qed.

Lemma inv_step b K key (known : bool) : valid b K -> asks b key = Ok known ->
  seen_inv b key = (if known then write_msg2 (be_ctrl b) key else Ok (be_ctrl b, -1)) /\
    forall b' r, handle_twosided_invalidate_page cfg b key = Ok (b', r) ->
      be_af b' = be_af b /\ be_cli_id b' = be_cli_id b /\ valid b' (K ∖ {[key]}).
Proof.
  intros Hk Ea. destruct (asks_known b K key Hk) as (known' & Ea' & Hin & _). rewrite Ea in Ea'. injection Ea' as <-.
  unfold asks in Ea. unfold seen_inv, handle_twosided_invalidate_page. rewrite Ea. obind. destruct known; cbn [negb].
  - destruct (write_msg2 (be_ctrl b) key) as [[c r]|]; [|done]. obind. destruct (metadata_on cfg) eqn:Eon.
    + destruct (knows_remove _ (on_type Eon) _ _ key Hk) as (m' & r' & E & Hk'). cbn [be_meta with_ctrl]. rewrite E. obind.
      split; [done|]. by intros b' r2 [= <- <-].
    + split; [done|]. intros b' r2 [= <- <-]. split; [done|]. split; [done|]. by eapply valid_off.
  - split; [done|]. intros b' r2 [= <- <-]. split; [done|]. split; [done|]. rewrite forgotten; [done|]. intros Hi. by specialize (Hin Hi).
Qed.

Lemma run_valid ops b K b' K' : valid b K -> run_ops b K ops = Ok (b', K') -> valid b' K'.
Proof.
  revert b K. induction ops as [|[page dirtied key|page key|key] ops IH]; intros b K Hk; cbn [run_ops]; [by intros [= <- <-]|..].
  - destruct (put_step b K page dirtied key Hk) as (_ & _ & _ & _ & _ & Hs). intros ([b1 r] & E & E')%outcome_bind_Ok. eapply IH; [|exact E']. by eapply Hs.
  - destruct (asks_known b K key Hk) as (known & Ea & _). destruct (get_step b K page key known Hk Ea) as [_ Hs]. intros ([[b1 p] r] & E & E')%outcome_bind_Ok. eapply IH; [|exact E']. by eapply Hs.
  - destruct (asks_known b K key Hk) as (known & Ea & _). destruct (inv_step b K key known Hk Ea) as [_ Hs]. intros ([b1 r] & E & E')%outcome_bind_Ok. eapply IH; [|exact E']. by eapply Hs.
Qed.
End contract.

(** ** Properties *)


(** A server reached synchronously, with room for every page. *)
Record direct := Direct { direct_pages : gmap Z (list Z) }.
#[export] Instance direct_transport : Transport direct := {
  send_page c page key := Ok (Direct (<[key := page]> (direct_pages c)), 0);
  write_msg c page key :=
    Ok (match direct_pages c !! key with
        | Some p => (Direct (delete key (direct_pages c)), p, 0)
        | None => (c, page, 1)
        end);
  write_msg2 c key := Ok (Direct (delete key (direct_pages c)), if decide (direct_pages c !! key = None) then 1 else 0);
}.

(** With the counting filter it is otherwise: a get of a key the filter reports by mistake
    decrements the counters of the keys it collides with. The invalidation of such a key, put and accepted, is then not
    sent, and after a later put has raised the counter again a get returns the invalidated page. *)
Definition counting_backend : backend direct := Backend (Direct ∅) 1 (MetaCbf (cbf_new 1 1)) af_init.
Definition counting_run (ops : list cleancache_op) : outcome (gset Z * outcome (direct * Z) * outcome (direct * list Z * Z)) :=
  let cfg := DccConfig 1 true COUNTING_BF false in
  '(b, K) ← run_ops cfg counting_backend ∅ ops; Ok (K, seen_inv cfg b 1, seen_get cfg b [0] 1).
Theorem counting_filter_stale :
  metadata_init (fun _ => true) 1 1 false 64 COUNTING_BF = MetaCbf (cbf_new 1 1) /\
  (exists c get, counting_run [OPut [1] false 1; OGet [0] 9] = Ok ({[1]}, Ok (c, -1), get)) /\
  (exists inv c, counting_run [OPut [1] false 1; OGet [0] 9; OInv 1; OPut [2] false 9] = Ok ({[9]}, inv, Ok (c, [1], 0))).
Proof. split; [done|]. split; eexists _, _; vm_compute; reflexivity. Qed.

(** A put changes neither the access filter nor the client number. *)
Lemma put_af {C} `{Transport C} cfg (b b' : backend C) page dirtied key r :
  handle_twosided_put_page cfg b page dirtied key = Ok (b', r) -> be_af b' = be_af b /\ be_cli_id b' = be_cli_id b.
Proof.
  unfold handle_twosided_put_page. intros (present & _ & E)%outcome_bind_Ok. revert E.
  destruct (present && negb dirtied); [by intros [= <- _]|]. intros ([c r2] & _ & E)%outcome_bind_Ok. revert E.
  destruct (metadata_on cfg && (r2 =? 0)); [|by intros [= <- _]]. by intros (m & _ & [= <- _])%outcome_bind_Ok.
Qed.

(** The page seen last in its bucket does not pass. *)
Lemma af_upsert_again g af ino index :
  0 < af_num_buckets af < 2 ^ 32 -> length (af_buckets af) = Z.to_nat (af_num_buckets af) ->
  (af_upsert g (af_upsert g af ino index).1 ino index).2 = false.
Proof.
  intros Hn Hl. unfold af_upsert. cbn [fst snd af_num_buckets af_buckets].
  change (af_bkt_id g (AccessFilter (af_num_buckets af) ?l) ino) with (af_bkt_id g af ino).
  rewrite list_lookup_insert_eq.
  - cbn. rewrite Z.eqb_refl. unfold DIFF_ABS. by rewrite Z.ltb_irrefl, Z.sub_diag.
  - rewrite Hl. unfold af_bkt_id. pose proof (Z.mod_pos_bound (ino *₆₄ g) (af_num_buckets af)).
    rewrite wrap_small by (unfold u_ok; lia). lia.
Qed.

(** Two puts of a page and a get of it: the results, and the page returned. *)
Definition put_put_get {C} `{Transport C} cfg g (bs : list (backend C)) (page1 page2 : list Z) ino index
  : outcome (Z * Z * list Z * Z) :=
  '(bs, r1) ← dcc_handle_put_page cfg g bs page1 true ino index;
  '(bs, r2) ← dcc_handle_put_page cfg g bs page2 true ino index;
  '(_, (page, r3)) ← dcc_handle_get_page cfg g bs [] ino index;
  Ok (r1, r2, page, r3).

(** The access filter breaks the put-put-get coherence cleancache asks of a backend: the second
    put of a page in a row is refused with -5 and the server is not told, so that it keeps the older
    version; with a store that never loses a page, the next get returns that older version. *)
Theorem access_filter_stale {C} `{Transport C} cfg g (bs bs1 : list (backend C)) page dirtied page' dirtied' ino index r :
  af_enable cfg = true ->
  (forall b, b ∈ bs -> 0 < af_num_buckets (be_af b) < 2 ^ 32 /\ length (af_buckets (be_af b)) = Z.to_nat (af_num_buckets (be_af b))) ->
  dcc_handle_put_page cfg g bs page dirtied ino index = Ok (bs1, r) ->
  (exists bs2, dcc_handle_put_page cfg g bs1 page' dirtied' ino index = Ok (bs2, -5) /\
     be_ctrl <$> bs2 = be_ctrl <$> bs1 /\ be_meta <$> bs2 = be_meta <$> bs1) /\
  put_put_get (DccConfig 1 true COOP_BF true) 0x61c8864680b583eb
    [Backend (Direct ∅) 1 (MetaBf true (bf_new 4 97 true)) af_init] [1] [2] 7 3 = Ok (0, -5, [1], 0).
Proof.
  intros Haf Hwf Hput. split; [|by vm_compute].
  unfold dcc_handle_put_page, with_backend in *. rewrite Haf in *. set (i := backend_of cfg g ino index) in *.
  destruct (bs !! i) as [b|] eqn:Eb; [|done].
  destruct (Hwf b) as [Hn Hl]; [by eapply list_elem_of_lookup_2|].
  pose proof (af_upsert_again g (be_af b) ino index Hn Hl) as Hag.
  apply outcome_bind_Ok in Hput as ([b1 r1] & E1 & [= <- <-]).
  assert (be_af b1 = (af_upsert g (be_af b) ino index).1) as Eaf.
  { destruct (af_upsert g (be_af b) ino index) as [af pass]. destruct pass; cbn [negb] in E1; [|by injection E1 as <-].
    by apply put_af in E1 as [-> _]. }
  rewrite list_lookup_insert_eq by (by eapply lookup_lt_Some). rewrite Eaf.
  destruct (af_upsert g (af_upsert g (be_af b) ino index).1 ino index) as [af' pass'] eqn:E'. cbn [snd] in Hag. subst pass'.
  cbn [negb]. obind. eexists. split; [done|]. rewrite !list_fmap_insert, !list_insert_insert_eq. done.
Qed.

(** ** Witnesses *)

Definition demo_af_cfg : dcc_config_t := DccConfig 1 true COOP_BF true.
Definition demo_table_cfg : dcc_config_t := DccConfig 1 false HASH_TABLE false.
Definition demo_backend : backend direct := Backend (Direct ∅) 1 (MetaBf true (bf_new 4 97 true)) af_init.
Definition demo_table_backend : backend direct := Backend (Direct ∅) 1 (MetaHt (hashtable_new 48)) af_init.
Definition demo_ops : list cleancache_op := [OPut [1] false 5; OGet [0] 5; OPut [2] false 6; OPut [3] false 7; OInv 7].
Definition demo_end : backend direct :=
  match run_ops demo_table_cfg demo_table_backend ∅ demo_ops with Ok (b, _) => b | Throw _ => demo_table_backend end.

Definition demo_known : gset Z := {[6; 5]}.


Lemma demo_put_ok (o : outcome (list (backend direct) * Z)) :
  match o with Ok (_, r) => r =? 0 | Throw _ => false end = true ->
  o = Ok (match o with Ok (bs, _) => bs | Throw _ => [] end, 0).
Proof. destruct o as [[bs r]|]; [|done]. by intros ->%Z.eqb_eq. Qed.

Lemma access_filter_stale_witness :
  let bs1 := match dcc_handle_put_page demo_af_cfg 1 [demo_backend] [1] true 7 3 with Ok (bs, _) => bs | Throw _ => [] end in
  (exists bs2, dcc_handle_put_page demo_af_cfg 1 bs1 [2] true 7 3 = Ok (bs2, -5) /\
     be_ctrl <$> bs2 = be_ctrl <$> bs1 /\ be_meta <$> bs2 = be_meta <$> bs1) /\
  put_put_get (DccConfig 1 true COOP_BF true) 0x61c8864680b583eb
    [Backend (Direct ∅) 1 (MetaBf true (bf_new 4 97 true)) af_init] [1] [2] 7 3 = Ok (0, -5, [1], 0).
Proof.
  apply (access_filter_stale demo_af_cfg 1 [demo_backend] _ [1] true [2] true 7 3 0); [done| |].
  - intros b ->%list_elem_of_singleton. split; [done|apply length_replicate].
  - apply demo_put_ok. by vm_compute.
Defined.
