(* ===== verification/Cleancache.v ===== *)
(** * Cleancache: the module the kernel's cleancache talks to

    The rest of [driver/main.c] around the hooks of [Backend]: mounting a filesystem, the
    table of operations, loading and unloading the module; the counters it shows
    ([debugfs.c], the names of [stats.c] and [breakdown.c]). [hooks_ask_servers] is the
    contract of the hooks over any number of servers, whatever they answer;
    [cleancache_gaps] shows what the module leaves out of what cleancache asks. *)
From S2P Require Import Prelude Keys ClientFilter ClientFilterSpec Backend BackendSpec.

(** ** debugfs.c: a file per counter *)

(** The counter a file shows: [&dcc_stats.cnts[i]] or [&dcc_breakdown.elapseds[i]]. *)
Inductive counter := StatsCount (i : nat) | BreakdownElapsed (i : nat).

Definition ST_MAX : nat := 8.
Definition dcc_stats_names : list string :=
  ["blocked_puts"; "rejected_puts"; "clean_puts"; "redirtied_puts"; "access_filtered_puts";
   "false_positive_gets"; "crc_error_gets"; "valid_invalidates"]%string.

Definition BR_MAX : nat := 6.
Definition dcc_breakdown_names : list string :=
  ["br_puts"; "br_gets"; "br_invs"; "br_comm_puts"; "br_comm_gets"; "br_comm_invs"]%string.

(** The place of a counter in [enum dcc_stats_type]. *)
Definition stats_index (name : dcc_stats_type) : nat :=
  match name with
  | BLOCKED_PUTS => 0 | REJECTED_PUTS => 1 | CLEAN_PUTS => 2 | REDIRTIED_PUTS => 3 | ACCESS_FILTERED_PUTS => 4
  | FALSE_POSITIVE_GETS => 5 | CRC_ERROR_GETS => 6 | VALID_INVALIDATES => 7
  end%nat.

(** [for (i = 0; i < n; i++) debugfs_create_u64(names[i], ..., &cnts[i])], from [i]. *)
Fixpoint create_files (names : list string) (cnt : nat -> counter) (n i : nat) (dir : list (string * counter))
  : outcome (list (string * counter)) :=
  match n with
  | O => Ok dir
  | S n =>
      match names !! i with
      | None => Throw "names: out of bounds"
      | Some name => create_files names cnt n (S i) (dir ++ [(name, cnt i)])
      end
  end.

Definition dcc_debugfs_init (CONFIG_DEBUG_FS : bool) : outcome (option (list (string * counter))) :=
  if CONFIG_DEBUG_FS then
    dir ← create_files dcc_stats_names StatsCount ST_MAX 0 [];
    dir ← create_files dcc_breakdown_names BreakdownElapsed BR_MAX 0 dir;
    Ok (Some dir)
  else Ok None.
Definition dcc_debugfs_exit (dir : option (list (string * counter))) : option (list (string * counter)) := None.

(** ** main.c: the module *)

(** [ops]: the kernel holds a pointer to the module's table of operations. *)
Record dcc_module := Module_ { debugfs_dentry : option (list (string * counter)); ops : bool }.

(** [ret] is what [cleancache_register_ops] returns: 0 when it took the table. *)
Definition dcc_init (CONFIG_DEBUG_FS : bool) (ret : Z) : outcome (Z * dcc_module) :=
  dir ← dcc_debugfs_init CONFIG_DEBUG_FS;
  Ok (0, Module_ dir (ret =? 0)).
Definition dcc_exit (md : dcc_module) : dcc_module := Module_ (dcc_debugfs_exit (debugfs_dentry md)) (ops md).

(** ** Mounting *)

Definition dcc_init_shared_fs : Z := -1.

(** A call of [dcc_init_fs]: it increments the counter, reads it for the message, and reads it
    again for its result; calls of other filesystems come in between. *)
Inductive mount_pc := Increment | Message | ReadResult | Mounted (id : Z).
Record mounts := Mounts { pool_id : Z; calls : list mount_pc }.

Definition mount_step (st : mounts) (i : nat) : mounts :=
  match calls st !! i with
  | Some Increment => Mounts (to_int (pool_id st + 1)) (<[i := Message]> (calls st))
  | Some Message => Mounts (pool_id st) (<[i := ReadResult]> (calls st))
  | Some ReadResult => Mounts (pool_id st) (<[i := Mounted (pool_id st)]> (calls st))
  | _ => st
  end.
(** [n] calls, and the order in which they move. *)
Definition run_mounts (n : nat) (order : list nat) : mounts := foldl mount_step (Mounts 0 (replicate n Increment)) order.
(** One call after the other. *)
Definition in_turn (n : nat) : list nat := concat ((fun i => [i; i; i]) <$> seq 0 n).

(** ** The hooks *)

Section hooks.
Context {C : Type} `{Transport C}.
Context (cfg : dcc_config_t) (GOLDEN_RATIO_64 : Z).

(** [dcc_cleancache_ops]: the hooks with the arguments the kernel gives; the filesystem's number is
    not used. Inodes and filesystems are not invalidated. *)
Inductive hook :=
| PutPage (pool_id page_count : Z) (page_locked : bool) (i_ino : Z) (page : list Z) (dirtied : bool) (ino index : Z)
| GetPage (pool_id : Z) (page : list Z) (ino index : Z)
| InvalidatePage (pool_id ino index : Z)
| InvalidateInode (pool_id ino : Z)
| InvalidateFs (pool_id : Z).

Definition dcc_invalidate_inode (bs : list (backend C)) (st : dcc_stats_t) : list (backend C) * dcc_stats_t := (bs, st).
Definition dcc_invalidate_fs (bs : list (backend C)) (st : dcc_stats_t) : list (backend C) * dcc_stats_t := (bs, st).

(** A hook's new state, and for a get the page and its result. *)
Definition dcc_cleancache_ops (bs : list (backend C)) (st : dcc_stats_t) (h : hook)
  : outcome (list (backend C) * dcc_stats_t * option (list Z * Z)) :=
  match h with
  | PutPage _ page_count page_locked i_ino page dirtied ino index =>
      '(bs, st) ← dcc_put_page cfg GOLDEN_RATIO_64 bs st page_count page_locked i_ino page dirtied ino index; Ok (bs, st, None)
  | GetPage _ page ino index =>
      '(bs, st, page, ret) ← dcc_get_page cfg GOLDEN_RATIO_64 bs st page ino index; Ok (bs, st, Some (page, ret))
  | InvalidatePage _ ino index => '(bs, st) ← dcc_invalidate_page cfg GOLDEN_RATIO_64 bs st ino index; Ok (bs, st, None)
  | InvalidateInode _ _ => Ok (dcc_invalidate_inode bs st, None)
  | InvalidateFs _ => Ok (dcc_invalidate_fs bs st, None)
  end.

(** ** What the hooks make known

    The pages, by inode and index, put and accepted, and not since invalidated, nor read with the exclusive policy, nor
    looked for in vain. *)
Abbreviation pages := (gset (Z * Z)).

(** Whether the handler of a put accepts the page. *)
Definition accepted_put (bs : list (backend C)) (page_count : Z) (page_locked : bool) (i_ino : Z) (page : list Z)
    (dirtied : bool) (ino index : Z) : bool :=
  negb (negb (page_count =? 0) || negb page_locked || (i_ino <? 2)) &&
  match dcc_handle_put_page cfg GOLDEN_RATIO_64 bs page dirtied ino index with Ok (_, r) => r =? 0 | Throw _ => false end.

Definition made_known (bs : list (backend C)) (K : pages) (h : hook) (res : option (list Z * Z)) : pages :=
  match h, res with
  | PutPage _ count locked i_ino page dirtied ino index, _ =>
      if accepted_put bs count locked i_ino page dirtied ino index then {[(ino, index)]} ∪ K else K
  | GetPage _ _ ino index, Some (_, ret) => if exclusive_policy cfg || negb (ret =? 0) then K ∖ {[(ino, index)]} else K
  | InvalidatePage _ ino index, _ => K ∖ {[(ino, index)]}
  | _, _ => K
  end.

Fixpoint run_hooks (bs : list (backend C)) (st : dcc_stats_t) (K : pages) (hs : list hook)
  : outcome (list (backend C) * dcc_stats_t * pages) :=
  match hs with
  | [] => Ok (bs, st, K)
  | h :: hs => '(bs', st, res) ← dcc_cleancache_ops bs st h; run_hooks bs' st (made_known bs K h res) hs
  end.

(** A hook as the servers and the kernel see it. *)
Definition seen (bs : list (backend C)) (st : dcc_stats_t) (h : hook) : outcome (list C * option (list Z * Z)) :=
  match dcc_cleancache_ops bs st h with Ok (bs, _, res) => Ok (be_ctrl <$> bs, res) | Throw e => Throw e end.

(** Inodes and indices that fit a longkey. *)
Definition fits (ino index : Z) : Prop := u_ok 32 ino /\ u_ok 28 index.
Definition hook_fits (h : hook) : Prop :=
  match h with
  | PutPage _ _ _ _ _ _ ino index | GetPage _ _ ino index | InvalidatePage _ ino index => fits ino index
  | InvalidateInode _ _ | InvalidateFs _ => True
  end.
(** The hook is about another page, an inode or a filesystem. *)
Definition leaves (ino index : Z) (h : hook) : Prop :=
  match h with
  | PutPage _ _ _ _ _ _ i x | GetPage _ _ i x | InvalidatePage _ i x => (i, x) <> (ino, index)
  | InvalidateInode _ _ | InvalidateFs _ => True
  end.

(** How the hooks of a page ask its server [b], the connections of the others staying as they are: a get and an invalidation of a known page
    (with the hash table: of a known page only) are the server's calls under the page's key, whichever filesystem calls; a
    put that the kernel's reclaim makes is the server's, unless the access filter or, for a clean page, the inclusive
    policy refuses it. *)
Definition page_served (cli : Z) (bs : list (backend C)) (st : dcc_stats_t) (K : pages) (ino index : Z) : Prop :=
  let i := backend_of cfg GOLDEN_RATIO_64 ino index in
  let key := Keys.Driver.make_longkey cli ino index in
  exists (b : backend C) (known : bool), bs !! i = Some b /\
    let answer c := <[i := c]> (be_ctrl <$> bs) in
    (forall pool page, seen bs st (GetPage pool page ino index) =
       if known then '(c, page, r) ← write_msg (be_ctrl b) page key; Ok (answer c, Some (page, r)) else Ok (be_ctrl <$> bs, Some (page, -1))) /\
    (forall pool, seen bs st (InvalidatePage pool ino index) =
       if known then '(c, _) ← write_msg2 (be_ctrl b) key; Ok (answer c, None) else Ok (be_ctrl <$> bs, None)) /\
    ((ino, index) ∈ K -> known = true) /\
    (metadata_type cfg = HASH_TABLE -> known = bool_decide ((ino, index) ∈ K)) /\
    forall pool page_count page_locked i_ino page dirtied, exists put : bool,
      seen bs st (PutPage pool page_count page_locked i_ino page dirtied ino index) =
        (if put then '(c, _) ← send_page (be_ctrl b) page key; Ok (answer c, None) else Ok (be_ctrl <$> bs, None)) /\
      (put = true -> page_count = 0 /\ page_locked = true /\ 2 <= i_ino) /\
      (page_count = 0 -> page_locked = true -> 2 <= i_ino -> af_enable cfg = false -> exclusive_policy cfg = true \/ dirtied = true -> put = true).
End hooks.

(** ** Lemmas: what the servers' metadata knows *)

Section hooked.
Context {C : Type} `{Transport C}.
Context (cfg : dcc_config_t) (g cli : Z) (Hcli : u_ok 4 cli).
Abbreviation lk := (Keys.Driver.make_longkey cli).
Abbreviation pages := (gset (Z * Z)).

Lemma longkey_inj i x j y : fits i x -> fits j y -> lk i x = lk j y -> i = j /\ x = y.
Proof using Hcli. intros [Hi Hx] [Hj Hy] E. by apply make_longkey_inj in E as [= -> ->]. Qed.

(** The metadata of each server knows the keys of the known pages that belong to it. *)
Definition hk_inv (bs : list (backend C)) (K : pages) : Prop :=
  forall i b, bs !! i = Some b -> be_cli_id b = cli /\ exists Kb, knows (metadata_type cfg) (be_meta b) Kb /\
    forall ino idx, fits ino idx -> backend_of cfg g ino idx = i -> lk ino idx ∈ Kb <-> (ino, idx) ∈ K.

(** A handler of page ([ino], [idx]) changes what is known of that page only. *)
Lemma hk_step (bs : list (backend C)) (K : pages) ino idx b' Kb K' :
  fits ino idx -> hk_inv bs K -> be_cli_id b' = cli ->
  knows (metadata_type cfg) (be_meta b') Kb -> (lk ino idx ∈ Kb <-> (ino, idx) ∈ K') ->
  (forall i x, fits i x -> (i, x) <> (ino, idx) -> backend_of cfg g i x = backend_of cfg g ino idx -> lk i x ∈ Kb <-> (i, x) ∈ K) ->
  (forall x, x <> (ino, idx) -> x ∈ K' <-> x ∈ K) ->
  hk_inv (<[backend_of cfg g ino idx := b']> bs) K'.
Proof.
  intros Hf Hinv Hc Hk Hown Hsame HK j bj Hj.
  destruct (decide (j = backend_of cfg g ino idx)) as [->|Hne].
  - destruct (decide (backend_of cfg g ino idx < length bs)%nat) as [Hlt|Hge];
      [|by rewrite list_insert_ge, lookup_ge_None_2 in Hj by lia].
    rewrite list_lookup_insert_eq in Hj by done. injection Hj as <-. split; [done|]. exists Kb. split; [done|].
    intros i x Hfx Hb. destruct (decide ((i, x) = (ino, idx))) as [[= -> ->]|Hne]; [done|]. rewrite Hsame, HK; done.
  - rewrite list_lookup_insert_ne in Hj by done. destruct (Hinv j bj Hj) as (Hcj & Kj & Hkj & Hsj). split; [done|]. exists Kj. split; [done|].
    intros i x Hfx Hb. rewrite Hsj by done. symmetry. apply HK. intros [= -> ->]. done.
Qed.

(** Putting a page into what is known, and taking it out. *)
Lemma hk_put (bs : list (backend C)) (K : pages) ino idx b b' r :
  fits ino idx -> hk_inv bs K -> bs !! backend_of cfg g ino idx = Some b ->
  (forall Kb, knows (metadata_type cfg) (be_meta b) Kb -> be_cli_id b' = be_cli_id b /\ knows (metadata_type cfg) (be_meta b') (put_known r (lk ino idx) Kb)) ->
  hk_inv (<[backend_of cfg g ino idx := b']> bs) (if r =? 0 then {[(ino, idx)]} ∪ K else K).
Proof using Hcli.
  intros Hf Hinv Hb Hstep. destruct (Hinv _ b Hb) as (Hc & Kb & Hk & Hs). destruct (Hstep Kb Hk) as [Hc' Hk'].
  eapply hk_step; [done|done|by rewrite Hc'|exact Hk'| | |]; unfold put_known; destruct (r =? 0).
  - set_solver.
  - by apply Hs.
  - intros i x Hfx Hne Hbx. rewrite elem_of_union, elem_of_singleton, Hs by done. split; [|by right]. intros [E|?]; [|done].
    by apply longkey_inj in E as [-> ->].
  - intros i x Hfx _ Hbx. by apply Hs.
  - set_solver.
  - done.
Qed.

Lemma hk_forget (bs : list (backend C)) (K : pages) ino idx b b' (del : bool) :
  fits ino idx -> hk_inv bs K -> bs !! backend_of cfg g ino idx = Some b ->
  (forall Kb, knows (metadata_type cfg) (be_meta b) Kb ->
    be_cli_id b' = be_cli_id b /\ knows (metadata_type cfg) (be_meta b') (if del then Kb ∖ {[lk ino idx]} else Kb)) ->
  hk_inv (<[backend_of cfg g ino idx := b']> bs) (if del then K ∖ {[(ino, idx)]} else K).
Proof using Hcli.
  intros Hf Hinv Hb Hstep. destruct (Hinv _ b Hb) as (Hc & Kb & Hk & Hs). destruct (Hstep Kb Hk) as [Hc' Hk'].
  eapply hk_step; [done|done|by rewrite Hc'|exact Hk'| | |]; destruct del.
  - set_solver.
  - by apply Hs.
  - intros i x Hfx Hne Hbx. rewrite elem_of_difference, elem_of_singleton, Hs by done. split; [by intros [? _]|]. intros ?. split; [done|].
    intros E. by apply longkey_inj in E as [-> ->].
  - intros i x Hfx _ Hbx. by apply Hs.
  - set_solver.
  - done.
Qed.

Lemma with_backend_eq {A} (bs : list (backend C)) ino idx (f : backend C -> Z -> outcome (backend C * A)) b :
  bs !! backend_of cfg g ino idx = Some b -> be_cli_id b = cli ->
  with_backend cfg g bs ino idx f = ('(b', r) ← f b (lk ino idx); Ok (<[backend_of cfg g ino idx := b']> bs, r)).
Proof. intros Hb Hc. unfold with_backend. rewrite Hb. unfold page_key. by rewrite Hc. Qed.

Lemma ctrl_same (bs : list (backend C)) i (b b' : backend C) : bs !! i = Some b -> be_ctrl b' = be_ctrl b -> be_ctrl <$> <[i := b']> bs = be_ctrl <$> bs.
Proof. intros Hb E. rewrite list_fmap_insert, E. apply list_insert_id. by rewrite list_lookup_fmap, Hb. Qed.
Context (bs0 : list (backend C)) (Hsvrs : num_svrs cfg = Z.of_nat (length bs0)) (Hsome : (0 < length bs0)%nat).

Lemma server_found (bs : list (backend C)) ino idx : length bs = length bs0 -> exists b, bs !! backend_of cfg g ino idx = Some b.
Proof using Hsvrs Hsome.
  intros Hl. apply lookup_lt_is_Some_2. unfold backend_of, Keys.Driver.get_backend_id. rewrite Hsvrs, Hl.
  case_match; [lia|]. match goal with |- context [?a mod ?b] => pose proof (Z.mod_pos_bound a b) end. lia.
Qed.


(** The three handlers: what the server sees, and what is known afterwards. *)
Definition known_by (K : pages) ino idx (known : bool) : Prop :=
  ((ino, idx) ∈ K -> known = true) /\ (metadata_type cfg = HASH_TABLE -> known = bool_decide ((ino, idx) ∈ K)).

Lemma page_known (bs : list (backend C)) (K : pages) ino idx b :
  fits ino idx -> hk_inv bs K -> bs !! backend_of cfg g ino idx = Some b ->
  exists known, asks cfg b (lk ino idx) = Ok known /\ known_by K ino idx known.
Proof.
  intros Hf Hinv Hb. destruct (Hinv _ b Hb) as (Hc & Kb & Hk & Hs).
  destruct (asks_known cfg b Kb (lk ino idx) Hk) as (known & Ea & Hin & Hex). exists known. split; [done|].
  rewrite Hs in Hin by done. split; [done|]. intros E. rewrite (Hex E). by apply bool_decide_ext, Hs.
Qed.

Lemma handle_get (bs : list (backend C)) (K : pages) page ino idx b known :
  fits ino idx -> hk_inv bs K -> bs !! backend_of cfg g ino idx = Some b -> asks cfg b (lk ino idx) = Ok known ->
  match dcc_handle_get_page cfg g bs page ino idx with Ok (bs', (page', r)) => Ok (be_ctrl <$> bs', page', r) | Throw e => Throw e end =
    (if known then '(c, page', r) ← write_msg (be_ctrl b) page (lk ino idx); Ok (<[backend_of cfg g ino idx := c]> (be_ctrl <$> bs), page', r)
     else Ok (be_ctrl <$> bs, page, -1)) /\
  forall bs' page' r, dcc_handle_get_page cfg g bs page ino idx = Ok (bs', (page', r)) ->
    length bs' = length bs /\ hk_inv bs' (if exclusive_policy cfg || negb (r =? 0) then K ∖ {[(ino, idx)]} else K).
Proof using Hcli.
  intros Hf Hinv Hb Ea. destruct (Hinv _ b Hb) as (Hc & Kb & Hk & _).
  unfold dcc_handle_get_page. rewrite (with_backend_eq bs ino idx _ b Hb Hc). split.
  - destruct (get_step cfg b Kb page (lk ino idx) known Hk Ea) as [E _]. revert E. unfold seen_get.
    destruct (handle_twosided_get_page cfg b page (lk ino idx)) as [[[b' page'] r]|e]; obind; destruct known.
    + intros <-. obind. by rewrite list_fmap_insert.
    + intros [= Ec -> ->]. by rewrite (ctrl_same _ _ b).
    + by intros <-.
    + done.
  - intros bs' page' r ([b' [p r']] & ([[b1 p1] r1] & Eh & [= <- <- <-])%outcome_bind_Ok & [= <- <- <-])%outcome_bind_Ok.
    rewrite length_insert. split; [done|]. eapply hk_forget; [done..|]. intros Kb' Hk'.
    destruct (get_step cfg b Kb' page (lk ino idx) known Hk' Ea) as [_ Hstep]. by destruct (Hstep _ _ _ Eh) as (_ & ? & ?).
Qed.

Lemma handle_inv (bs : list (backend C)) (K : pages) ino idx b known :
  fits ino idx -> hk_inv bs K -> bs !! backend_of cfg g ino idx = Some b -> asks cfg b (lk ino idx) = Ok known ->
  match dcc_handle_invalidate_page cfg g bs ino idx with Ok (bs', r) => Ok (be_ctrl <$> bs', r) | Throw e => Throw e end =
    (if known then '(c, r) ← write_msg2 (be_ctrl b) (lk ino idx); Ok (<[backend_of cfg g ino idx := c]> (be_ctrl <$> bs), r)
     else Ok (be_ctrl <$> bs, -1)) /\
  forall bs' r, dcc_handle_invalidate_page cfg g bs ino idx = Ok (bs', r) -> length bs' = length bs /\ hk_inv bs' (K ∖ {[(ino, idx)]}).
Proof using Hcli.
  intros Hf Hinv Hb Ea. destruct (Hinv _ b Hb) as (Hc & Kb & Hk & _).
  unfold dcc_handle_invalidate_page. rewrite (with_backend_eq bs ino idx _ b Hb Hc). split.
  - destruct (inv_step cfg b Kb (lk ino idx) known Hk Ea) as [E _]. revert E. unfold seen_inv.
    destruct (handle_twosided_invalidate_page cfg b (lk ino idx)) as [[b' r]|e]; obind; destruct known.
    + intros <-. obind. by rewrite list_fmap_insert.
    + intros [= Ec ->]. by rewrite (ctrl_same _ _ b).
    + by intros <-.
    + done.
  - intros bs' r ([b1 r1] & Eh & [= <- <-])%outcome_bind_Ok.
    rewrite length_insert. split; [done|]. apply (hk_forget bs K ino idx b b1 true); [done..|]. intros Kb' Hk'.
    destruct (inv_step cfg b Kb' (lk ino idx) known Hk' Ea) as [_ Hstep]. by destruct (Hstep _ _ Eh) as (_ & ? & ?).
Qed.

(** [refused]: the result of a put that the driver itself refuses. *)
Lemma handle_put (bs : list (backend C)) (K : pages) page dirtied ino idx b :
  fits ino idx -> hk_inv bs K -> bs !! backend_of cfg g ino idx = Some b ->
  exists refused : option Z,
    (af_enable cfg = false -> exclusive_policy cfg = true \/ dirtied = true -> refused = None) /\ (forall r, refused = Some r -> r <> 0) /\
    match dcc_handle_put_page cfg g bs page dirtied ino idx with Ok (bs', r) => Ok (be_ctrl <$> bs', r) | Throw e => Throw e end =
      (match refused with
       | None => '(c, r) ← send_page (be_ctrl b) page (lk ino idx); Ok (<[backend_of cfg g ino idx := c]> (be_ctrl <$> bs), r)
       | Some r => Ok (be_ctrl <$> bs, r)
       end) /\
    forall bs' r, dcc_handle_put_page cfg g bs page dirtied ino idx = Ok (bs', r) ->
      length bs' = length bs /\ hk_inv bs' (if r =? 0 then {[(ino, idx)]} ∪ K else K).
Proof using Hcli.
  intros Hf Hinv Hb. destruct (Hinv _ b Hb) as (Hc & Kb & Hk & _).
  unfold dcc_handle_put_page. rewrite (with_backend_eq bs ino idx _ b Hb Hc).
  destruct (if af_enable cfg then af_upsert g (be_af b) ino idx else (be_af b, true)) as [af pass] eqn:Eaf.
  destruct pass; cbn [negb].
  - destruct (put_step cfg (with_af b af) Kb page dirtied (lk ino idx) Hk) as (present & P1 & P2 & _ & E & _).
    exists (if present then Some (-3) else None). split; [by intros _ [?|?]; [rewrite P1|rewrite P2]|]. split; [by destruct present; intros r [= <-]|]. split.
    + revert E. unfold seen_put. destruct (handle_twosided_put_page cfg (with_af b af) page dirtied (lk ino idx)) as [[b' r]|e]; obind; destruct present.
      * intros [= Ec ->]. by rewrite (ctrl_same _ _ b).
      * cbn [be_ctrl with_af]. intros <-. obind. by rewrite list_fmap_insert.
      * done.
      * cbn [be_ctrl with_af]. by intros <-.
    + intros bs' r ([b1 r1] & Eh & [= <- <-])%outcome_bind_Ok. rewrite length_insert. split; [done|].
      eapply hk_put; [done..|]. intros Kb' Hk'. destruct (put_step cfg (with_af b af) Kb' page dirtied (lk ino idx) Hk') as (_ & _ & _ & _ & _ & Hstep).
      by destruct (Hstep _ _ Eh) as (_ & ? & ?).
  - exists (Some (-5)). split; [intros Ha; by rewrite Ha in Eaf|]. split; [by intros r [= <-]|]. obind. split; [by rewrite (ctrl_same _ _ b)|].
    intros bs' r [= <- <-]. rewrite length_insert. split; [done|]. apply (hk_put bs K ino idx b _ (-5)); done.
Qed.

Lemma hook_step (bs : list (backend C)) (st : dcc_stats_t) (K : pages) h bs' st' res :
  hook_fits h -> length bs = length bs0 -> hk_inv bs K -> dcc_cleancache_ops cfg g bs st h = Ok (bs', st', res) ->
  length bs' = length bs0 /\ hk_inv bs' (made_known cfg g bs K h res).
Proof using Hcli Hsvrs Hsome.
  intros Hf Hl Hinv. destruct h as [p count locked i_ino page dirtied ino idx|p page ino idx|p ino idx|p ino|p]; cbn [dcc_cleancache_ops made_known];
    [..|by intros [= <- <- <-]|by intros [= <- <- <-]]; destruct (server_found bs ino idx Hl) as [b Hb]; cbn [hook_fits] in Hf.
  - unfold dcc_put_page, accepted_put. destruct (_ || _); [by intros [= <- <- <-]|]. cbn [negb andb].
    destruct (handle_put bs K page dirtied ino idx b Hf Hinv Hb) as (refused & _ & _ & _ & Hs). rewrite <- Hl.
    intros ([bs1 st1] & ([bs2 r] & E & [= <- <-])%outcome_bind_Ok & [= <- <- <-])%outcome_bind_Ok. rewrite E. by apply Hs.
  - destruct (page_known bs K ino idx b Hf Hinv Hb) as (known & Ea & _).
    destruct (handle_get bs K page ino idx b known Hf Hinv Hb Ea) as [_ Hs]. rewrite <- Hl. unfold dcc_get_page.
    intros ([[[bs1 st1] p1] r1] & ([bs2 [p2 r2]] & E & [= <- <- <- <-])%outcome_bind_Ok & [= <- <- <-])%outcome_bind_Ok. by apply (Hs _ _ _ E).
  - destruct (page_known bs K ino idx b Hf Hinv Hb) as (known & Ea & _).
    destruct (handle_inv bs K ino idx b known Hf Hinv Hb Ea) as [_ Hs]. rewrite <- Hl. unfold dcc_invalidate_page.
    intros ([bs1 st1] & ([bs2 r] & E & [= <- <-])%outcome_bind_Ok & [= <- <- <-])%outcome_bind_Ok. by apply (Hs _ _ E).
Qed.

Lemma run_hooks_inv hs : forall (bs : list (backend C)) (st : dcc_stats_t) (K : pages) bs' st' K', Forall hook_fits hs -> length bs = length bs0 -> hk_inv bs K ->
  run_hooks cfg g bs st K hs = Ok (bs', st', K') -> length bs' = length bs0 /\ hk_inv bs' K'.
Proof using Hcli Hsvrs Hsome.
  induction hs as [|h hs IH]; intros bs st K bs' st' K' Hf Hl Hinv; cbn [run_hooks]; [by intros [= <- <- <-]|].
  apply Forall_cons in Hf as [Hf Hfs]. intros ([[bs1 st1] res] & E & E')%outcome_bind_Ok.
  destruct (hook_step bs st K h _ _ _ Hf Hl Hinv E) as [Hl1 Hinv1]. by eapply IH.
Qed.

(** A page is forgotten only by a hook that is about it. *)
Lemma run_hooks_leave ino idx hs : forall (bs : list (backend C)) (st : dcc_stats_t) (K : pages) bs' st' K', Forall (leaves ino idx) hs -> (ino, idx) ∈ K ->
  run_hooks cfg g bs st K hs = Ok (bs', st', K') -> (ino, idx) ∈ K'.
Proof using Type.
  clear Hsome Hsvrs bs0 Hcli cli. induction hs as [|h hs IH]; intros bs st K bs' st' K' Hf Hin; cbn [run_hooks]; [by intros [= <- <- <-]|].
  apply Forall_cons in Hf as [Hf Hfs]. intros ([[bs1 st1] res] & E & E')%outcome_bind_Ok. eapply IH; [done| |exact E'].
  destruct h as [p count locked i_ino page dirtied i x|p page i x|p i x|p i|p], res as [[q r]|]; cbn [made_known leaves] in *; try case_match; set_solver.
Qed.

Lemma page_served_ok (bs : list (backend C)) (st : dcc_stats_t) (K : pages) ino idx :
  fits ino idx -> length bs = length bs0 -> hk_inv bs K -> page_served cfg g cli bs st K ino idx.
Proof using Hcli Hsvrs Hsome.
  intros Hf Hl Hinv. destruct (server_found bs ino idx Hl) as [b Hb]. destruct (page_known bs K ino idx b Hf Hinv Hb) as (known & Ea & Hk1 & Hk2).
  exists b, known. split; [done|]. cbv zeta. split_and!; [| |done|done|].
  - intros pool page. unfold seen. cbn [dcc_cleancache_ops]. unfold dcc_get_page.
    destruct (handle_get bs K page ino idx b known Hf Hinv Hb Ea) as [E _]. revert E.
    destruct (dcc_handle_get_page cfg g bs page ino idx) as [[bs' [p r]]|e]; obind; destruct known.
    + destruct (write_msg (be_ctrl b) page _) as [[[c p'] r']|]; [|done]. obind. intros [= E -> ->]. by rewrite E.
    + intros [= E -> ->]. by rewrite E.
    + by destruct (write_msg (be_ctrl b) page _) as [[[c p'] r']|]; [|intros [= ->]].
    + done.
  - intros pool. unfold seen. cbn [dcc_cleancache_ops]. unfold dcc_invalidate_page.
    destruct (handle_inv bs K ino idx b known Hf Hinv Hb Ea) as [E _]. revert E.
    destruct (dcc_handle_invalidate_page cfg g bs ino idx) as [[bs' r]|e]; obind; destruct known.
    + destruct (write_msg2 (be_ctrl b) _) as [[c r']|]; [|done]. obind. intros [= E ->]. by rewrite E.
    + intros [= E ->]. by rewrite E.
    + by destruct (write_msg2 (be_ctrl b) _) as [[c r']|]; [|intros [= ->]].
    + done.
  - intros pool count locked i_ino page dirtied. unfold seen. cbn [dcc_cleancache_ops]. unfold dcc_put_page.
    destruct (negb (count =? 0) || negb locked || (i_ino <? 2)) eqn:Eg.
    + exists false. obind. split; [done|]. split; [done|]. intros -> -> Hi. by rewrite (proj2 (Z.ltb_ge i_ino 2)) in Eg.
    + apply orb_false_iff in Eg as [[Ec%negb_false_iff%Z.eqb_eq El%negb_false_iff]%orb_false_iff Ei%Z.ltb_ge].
      destruct (handle_put bs K page dirtied ino idx b Hf Hinv Hb) as (refused & Hr & _ & E & _).
      exists (if refused is Some _ then false else true). split; [|split; [done|intros _ _ _ Ha Hor; by rewrite Hr]]. revert E.
      destruct (dcc_handle_put_page cfg g bs page dirtied ino idx) as [[bs' r]|e]; obind; destruct refused as [r1|].
      * intros [= E ->]. by rewrite E.
      * destruct (send_page (be_ctrl b) page _) as [[c r']|]; [|done]. obind. intros [= E ->]. by rewrite E.
      * done.
      * by destruct (send_page (be_ctrl b) page _) as [[c r']|]; [|intros [= ->]].
Qed.
End hooked.

(** Servers' metadata as it starts, when no allocation fails. *)
Definition fresh_backend {C} (cfg : dcc_config_t) cli num_hash num_bits ptr num_rmem_pages (b : backend C) : Prop :=
  be_cli_id b = cli /\ be_meta b = metadata_init (fun _ => true) num_hash num_bits ptr num_rmem_pages (metadata_type cfg).

Lemma hk_init {C} cfg g cli num_hash num_bits ptr num_rmem_pages (bs : list (backend C)) :
  metadata_type cfg <> COUNTING_BF -> 0 < num_bits < 2 ^ 32 -> 2 <= num_rmem_pages < 2 ^ 32 ->
  Forall (fresh_backend cfg cli num_hash num_bits ptr num_rmem_pages) bs -> hk_inv cfg g cli bs ∅.
Proof.
  intros Ht Hn Hr Hbs i b Hb. destruct (Forall_lookup_1 _ _ _ _ Hbs Hb) as (Hc & Em). split; [done|]. exists ∅.
  split; [rewrite Em; by apply init_knows|]. set_solver.
Qed.

(** ** Lemmas: mounting *)

Lemma mount_step_at z before pc rest :
  mount_step (Mounts z (before ++ pc :: rest)) (length before) =
  match pc with
  | Increment => Mounts (to_int (z + 1)) (before ++ Message :: rest)
  | Message => Mounts z (before ++ ReadResult :: rest)
  | ReadResult => Mounts z (before ++ Mounted z :: rest)
  | Mounted id => Mounts z (before ++ Mounted id :: rest)
  end.
Proof.
  unfold mount_step. cbn [calls pool_id]. rewrite list_lookup_middle by done.
  destruct pc; [..|done]; by rewrite (insert_app_r_alt _ _ (length before)), Nat.sub_diag by done.
Qed.

Lemma mount_one z before k : - 2 ^ 31 <= z + 1 < 2 ^ 31 ->
  foldl mount_step (Mounts z (before ++ replicate (S k) Increment)) (let i := length before in [i; i; i]) =
  Mounts (z + 1) ((before ++ [Mounted (z + 1)]) ++ replicate k Increment).
Proof.
  intros Hz. cbn [foldl replicate]. rewrite mount_step_at, to_int_small, !mount_step_at by done. by rewrite <- app_assoc.
Qed.

Lemma mounts_prefix n k : Z.of_nat n < 2 ^ 31 -> (k <= n)%nat ->
  run_mounts n (in_turn k) = Mounts (Z.of_nat k) ((Mounted <$> seqZ 1 (Z.of_nat k)) ++ replicate (n - k) Increment).
Proof.
  intros Hn. induction k as [|k IH]; intros Hk; [unfold in_turn; cbn; by rewrite Nat.sub_0_r|].
  unfold run_mounts, in_turn in *. rewrite seq_S, fmap_app, concat_app, foldl_app, IH by lia. cbn [fmap list_fmap concat app].
  replace (n - k)%nat with (S (n - S k)) by lia.
  pose proof (mount_one (Z.of_nat k) (Mounted <$> seqZ 1 (Z.of_nat k)) (n - S k)) as E. cbv zeta in E.
  rewrite length_fmap, length_seqZ, Nat2Z.id in E. rewrite Nat.add_0_l, E by lia. clear E.
  replace (Z.of_nat k + 1) with (Z.of_nat (S k)) by lia. f_equal.
  rewrite seqZ_S, fmap_app. cbn [fmap list_fmap]. do 4 f_equal. lia.
Qed.

(** ** Properties *)


(** The invalidation of an inode or of a filesystem. *)
Definition wider (h : hook) : Prop := match h with InvalidateInode _ _ | InvalidateFs _ => True | _ => False end.


(** Mounting: filesystems mounted one after the other get the numbers 1, 2, ..., and the reserved
    negative numbers are never given before 2^31 mounts; two mounts at the same time can get the same number, as the
    counter is read again after it was incremented. *)
Theorem mounts_numbered n : Z.of_nat n < 2 ^ 31 ->
  calls (run_mounts n (in_turn n)) = Mounted <$> seqZ 1 (Z.of_nat n) /\
  calls (run_mounts 2 [0; 1; 0; 1; 0; 1]%nat) = [Mounted 2; Mounted 2].
Proof. intros Hn. rewrite mounts_prefix by lia. split; [|done]. cbn [calls]. by rewrite Nat.sub_diag, app_nil_r. Qed.

Lemma mounts_numbered_witness :
  calls (run_mounts 5 (in_turn 5)) = Mounted <$> seqZ 1 5 /\ calls (run_mounts 2 [0; 1; 0; 1; 0; 1]%nat) = [Mounted 2; Mounted 2].
Proof. apply (mounts_numbered 5). vm_compute. reflexivity. Defined.

(** The module's life: loading succeeds whatever the kernel answers to the registration, and shows
    every counter under a name of its own; unloading removes the files but leaves the kernel the
    table of operations, whose functions are gone. *)
Theorem module_life CONFIG_DEBUG_FS ret : exists md,
  dcc_init CONFIG_DEBUG_FS ret = Ok (0, md) /\
  (if CONFIG_DEBUG_FS then exists dir, debugfs_dentry md = Some dir /\ NoDup dir.*1 /\ length dir = (ST_MAX + BR_MAX)%nat /\
     (forall name, exists s, dir !! stats_index name = Some (s, StatsCount (stats_index name))) /\
     (forall i, (i < BR_MAX)%nat -> exists s, dir !! (ST_MAX + i)%nat = Some (s, BreakdownElapsed i))
   else debugfs_dentry md = None) /\
  debugfs_dentry (dcc_exit md) = None /\ (ret = 0 -> ops (dcc_exit md) = true).
Proof.
  destruct CONFIG_DEBUG_FS; (eexists; split; [reflexivity|]); (split; [|split; [done|by intros ->]]); [|done].
  eexists. split; [reflexivity|]. split; [apply (bool_decide_unpack _); vm_compute; done|]. split; [done|]. split.
  - intros []; by eexists.
  - intros i Hi. unfold BR_MAX in Hi. do 6 (destruct i as [|i]; [by eexists|]). lia.
Qed.

(** ** Witnesses *)

Definition gap_cfg : dcc_config_t := DccConfig 2 true HASH_TABLE true.
Definition gap_backend : backend direct := Backend (Direct ∅) 1 (MetaHt (hashtable_new 48)) af_init.
Definition gap_start : list (backend direct) := [gap_backend; gap_backend].
Definition gap_state (o : outcome (list (backend direct) * dcc_stats_t * gset (Z * Z))) : list (backend direct) * dcc_stats_t :=
  match o with Ok (bs, st, _) => (bs, st) | Throw _ => ([], fun _ => 0) end.
(** Two pages are put; one is read. Then hooks that are not about page (7, 3). *)
Definition gap_hooks : list hook := [PutPage 1 0 true 7 [1] true 7 3; PutPage 1 0 true 7 [2] true 7 60; GetPage 1 [0] 7 60].
Definition gap_hooks1 : list hook := [PutPage 1 0 true 7 [5] true 7 120; InvalidateInode 1 7; InvalidateFs 1].
Definition gap_run : list (backend direct) * dcc_stats_t := gap_state (run_hooks gap_cfg 0x61c8864680b583eb gap_start (fun _ => 0) ∅ gap_hooks).
Definition gap_run1 : list (backend direct) * dcc_stats_t :=
  gap_state (run_hooks gap_cfg 0x61c8864680b583eb gap_run.1 gap_run.2 {[(7, 3)]} gap_hooks1).

Lemma gap_fresh : Forall (fresh_backend gap_cfg 1 4 97 true 64) gap_start.
Proof. repeat constructor. Qed.


