(* ===== verification/RdmaTest.v ===== *)
(** * RdmaTest: the driver's test module

    [driver/rdma_test.c] on the handlers of [Backend]: its memory with the allocations
    that may fail, the threads that put, get and invalidate page by page in any interleaving,
    and what the test reports. [test_pages_life] is the life of its memory,
    [test_module_sound] what a run means over any servers,
    [late_results_lost] what it does not see. *)
From S2P Require Import Prelude Keys ClientFilter ClientFilterSpec Backend BackendSpec Cleancache.
From stdpp Require Import pretty.
#[local] Open Scope Z_scope.

(** ** Memory *)

Inductive block :=
| PutThreads | GetThreads | InvThreads | ReturnPages | ReturnPage (i : nat)
| Vpages | VpagesRow (i : nat) | Vpage (i j : nat) | Keys | KeysRow (i : nat)
| Comp | Args | ThreadData (i : nat).
#[export] Instance block_eq : EqDecision block.
Proof. solve_decision. Defined.

(** An element of a row of [vpages]: [vmalloc] does not clear it. *)
Inductive slot := Garbage | NullPage | Page (data : list Z).

(** The blocks held, and the pointers: [true] or [Some] when not [NULL]. Freeing leaves them as they are. *)
Record globals := Globals {
  g_held : list block;
  put_threads : bool;
  get_threads : bool;
  inv_threads : bool;
  return_pages : option (list (option (list Z)));
  vpages : option (list (option (list slot)));
  keys : option (list (option (list Z)));
}.

Definition no_globals : globals := Globals [] false false false None None None.

Definition set_held (g : globals) (h : list block) : globals :=
  Globals h (put_threads g) (get_threads g) (inv_threads g) (return_pages g) (vpages g) (keys g).
Definition hold (g : globals) (b : block) : globals := set_held g (g_held g ++ [b]).
Definition set_threads (g : globals) (p s i : bool) : globals := Globals (g_held g) p s i (return_pages g) (vpages g) (keys g).
Definition set_return_pages (g : globals) (rp : list (option (list Z))) : globals :=
  Globals (g_held g) (put_threads g) (get_threads g) (inv_threads g) (Some rp) (vpages g) (keys g).
Definition set_vpages (g : globals) (vp : list (option (list slot))) : globals :=
  Globals (g_held g) (put_threads g) (get_threads g) (inv_threads g) (return_pages g) (Some vp) (keys g).
Definition set_keys (g : globals) (ks : list (option (list Z))) : globals :=
  Globals (g_held g) (put_threads g) (get_threads g) (inv_threads g) (return_pages g) (vpages g) (Some ks).

(** A pointer or an element that is read. *)
Definition deref {A} (what : string) (p : option A) : outcome A := match p with Some x => Ok x | None => Throw what end.

(** The loops that end with [goto ALLOC_ERR] when the body returns [false]. *)
Fixpoint for_ {S} (l : list nat) (body : nat -> S -> outcome (S * bool)) (s : S) : outcome (S * bool) :=
  match l with
  | [] => Ok (s, true)
  | i :: l => '(s, ok) ← body i s; if negb ok then Ok (s, false) else for_ l body s
  end.

Definition PAGE_SIZE : nat := 4096.
Definition zero_page : list Z := replicate PAGE_SIZE 0.
(** [sprintf(str, "%lld", key)], and [strcpy] to a page of zeros. *)
Definition str_of (key : Z) : list Z := (fun c => Z.of_N (Ascii.N_of_ascii c)) <$> String.list_ascii_of_string (pretty (Z.to_N key)).
Definition page_text (key : Z) : list Z := str_of key ++ replicate (PAGE_SIZE - length (str_of key)) 0.

(** ** init_pages, exit_pages *)

Section pages.
(** The allocations that fail, beside those of an impossible size; the module's parameters. *)
Context (fails : block -> bool) (num_threads num_iters : Z).
Abbreviation n := (Z.to_nat num_threads).
Abbreviation m := (Z.to_nat num_iters).

(** [kzalloc(size * num_threads)] of an array; a negative count becomes a huge size. *)
Definition kzalloc (b : block) : bool := negb (fails b) && (0 <=? num_threads).
(** [vmalloc] of nothing is [NULL]. *)
Definition vmalloc (b : block) (size : Z) : bool := negb (fails b) && (0 <? size).

Definition init_return_page (i : nat) (g : globals) : outcome (globals * bool) :=
  rp ← deref "return_pages" (return_pages g);
  if fails (ReturnPage i) then Ok (g, false)
  else Ok (set_return_pages (hold g (ReturnPage i)) (<[i := Some zero_page]> rp), true).

Definition init_vpage (i j : nat) (st : globals * Z) : outcome (globals * Z * bool) :=
  let '(g, key) := st in
  vp ← deref "vpages" (vpages g);
  row ← deref "vpages[i]" (mjoin (vp !! i));
  if fails (Vpage i j) then Ok (set_vpages g (<[i := Some (<[j := NullPage]> row)]> vp), key, false)
  else
    let key := key + 1 in
    if (8 <=? length (str_of key))%nat then Throw "str: overflow"
    else Ok (set_vpages (hold g (Vpage i j)) (<[i := Some (<[j := Page (page_text key)]> row)]> vp), key, true).

Definition init_vpages_row (i : nat) (st : globals * Z) : outcome (globals * Z * bool) :=
  let '(g, key) := st in
  vp ← deref "vpages" (vpages g);
  if vmalloc (VpagesRow i) (num_iters * num_threads) then
    for_ (seq 0 m) (init_vpage i)
      (set_vpages (hold g (VpagesRow i)) (<[i := Some (replicate (Z.to_nat (num_iters * num_threads)) Garbage)]> vp), key)
  else Ok (g, key, false).

(** The result of [vzalloc] is not tested before it is written. *)
Definition init_keys_row (i : nat) (st : globals * Z) : outcome (globals * Z * bool) :=
  let '(g, key) := st in
  ks ← deref "keys" (keys g);
  if vmalloc (KeysRow i) num_iters then
    Ok (set_keys (hold g (KeysRow i)) (<[i := Some ((fun j => key + 1 + Z.of_nat j) <$> seq 0 m)]> ks), key + num_iters, true)
  else if 0 <? num_iters then Throw "keys[i]: NULL" else Ok (g, key, true).

(** Up to the label: whether the end was reached. *)
Definition init_all (g : globals) : outcome (globals * bool) :=
  if negb (kzalloc PutThreads) then Ok (g, false)
  else let g := set_threads (hold g PutThreads) true (get_threads g) (inv_threads g) in
  if negb (kzalloc GetThreads) then Ok (g, false)
  else let g := set_threads (hold g GetThreads) (put_threads g) true (inv_threads g) in
  if negb (kzalloc InvThreads) then Ok (g, false)
  else let g := set_threads (hold g InvThreads) (put_threads g) (get_threads g) true in
  if negb (kzalloc ReturnPages) then Ok (g, false)
  else let g := set_return_pages (hold g ReturnPages) (replicate n None) in
  '(g, ok) ← for_ (seq 0 n) init_return_page g;
  if negb ok then Ok (g, false)
  else if negb (kzalloc Vpages) then Ok (g, false)
  else let g := set_vpages (hold g Vpages) (replicate n None) in
  '(g, _, ok) ← for_ (seq 0 n) init_vpages_row (g, 0);
  if negb ok then Ok (g, false)
  else if negb (kzalloc Keys) then Ok (g, false)
  else let g := set_keys (hold g Keys) (replicate n None) in
  '(g, _, ok) ← for_ (seq 0 n) init_keys_row (g, 0);
  Ok (g, ok).

Definition free_if (p : bool) (b : block) (h : list block) : outcome (list block) := if p then release b h else Ok h.

Definition free_vpage (g : globals) (i : nat) (o : outcome (list block)) (j : nat) : outcome (list block) :=
  h ← o;
  vp ← deref "vpages" (vpages g);
  row ← deref "vpages[i]" (mjoin (vp !! i));
  s ← deref "vpages[i][j]" (row !! j);
  match s with
  | Garbage => Throw "vpages[i][j]: uninitialised"
  | NullPage => Ok h
  | Page _ => release (Vpage i j) h
  end.

Definition free_thread (g : globals) (o : outcome (list block)) (i : nat) : outcome (list block) :=
  h ← o;
  rp ← deref "return_pages" (return_pages g);
  p ← deref "return_pages[i]" (rp !! i);
  h ← free_if (bool_decide (is_Some p)) (ReturnPage i) h;
  h ← foldl (free_vpage g i) (Ok h) (seq 0 m);
  vp ← deref "vpages" (vpages g);
  row ← deref "vpages" (vp !! i);
  h ← free_if (bool_decide (is_Some row)) (VpagesRow i) h;
  ks ← deref "keys" (keys g);
  row ← deref "keys" (ks !! i);
  free_if (bool_decide (is_Some row)) (KeysRow i) h.

Definition exit_pages (g : globals) : outcome globals :=
  h ← free_if (put_threads g) PutThreads (g_held g);
  h ← free_if (get_threads g) GetThreads h;
  h ← free_if (inv_threads g) InvThreads h;
  h ← foldl (free_thread g) (Ok h) (seq 0 n);
  h ← free_if (bool_decide (is_Some (return_pages g))) ReturnPages h;
  h ← free_if (bool_decide (is_Some (vpages g))) Vpages h;
  h ← free_if (bool_decide (is_Some (keys g))) Keys h;
  Ok (set_held g h).

Definition ENOMEM : Z := 12.
Definition init_pages (g : globals) : outcome (globals * Z) :=
  '(g, ok) ← init_all g;
  if negb ok then g ← exit_pages g; Ok (g, - ENOMEM) else Ok (g, 0).
End pages.

(** ** Threads *)

Inductive test_fn := PutTest | GetTest | InvTest.
(** Before [complete], between it and the store of the result, and after. *)
Inductive test_pc := Running | Completed | Returned.
(** [bad]: [num_repl] or [value_failed]. *)
Record thread := Thread { fn : test_fn; tid : nat; pos : nat; bad : Z; not_found : Z; pc : test_pc }.
Record thread_data := ThreadData_ { td_ret : Z; td_ret2 : Z; td_dummy : bool }.

Definition start (f : test_fn) (tid : nat) : thread := Thread f tid 0 0 0 Running.
Definition at_pc (t : thread) (x : test_pc) : thread := Thread (fn t) (tid t) (pos t) (bad t) (not_found t) x.
(** A page done; the counters, of pages numbered from 1 to 10^7 - 1, do not overflow. *)
Definition next (t : thread) (b nf : bool) : thread :=
  Thread (fn t) (tid t) (S (pos t)) (bad t + if b then 1 else 0) (not_found t + if nf then 1 else 0) (pc t).

(** [memcmp(a, b, len)], whether it is not 0. *)
Definition memcmp (a b : list Z) (len : nat) : bool := negb (bool_decide (take len a = take len b)).
(** The length [rdpma_get_test] compares. *)
Definition memcmp_len : nat := 0.

Record report := Report { rp_pass : bool; per_req_lat : Z; rp_ret : Z; rp_ret2 : Z; throughput : option Z }.
Inductive test_mode := GET_TEST | HYBRID_TEST | INVALIDATE_PAGE_TEST.

Section threads.
Context {C : Type} `{Transport C}.
Context (compared : nat) (cfg : dcc_config_t) (GOLDEN_RATIO_64 : Z) (num_threads num_iters total_capacity : Z) (g : globals).
Abbreviation n := (Z.to_nat num_threads).

(** The servers, what [return_pages] hold, the threads created, and [args] until it is freed. *)
Record test := Test { bs : list (backend C); rpages : list (list Z); threads : list thread; args : option (list thread_data) }.

Definition set_thread (st : test) (k : nat) (t : thread) : test := Test (bs st) (rpages st) (<[k := t]> (threads st)) (args st).
Definition data_of (st : test) (t : thread) : outcome thread_data :=
  ds ← deref "my_data: freed" (args st); deref "args[i]" (ds !! tid t).
Definition store_data (st : test) (t : thread) (d : thread_data) : test :=
  Test (bs st) (rpages st) (threads st) ((fun ds => <[tid t := d]> ds) <$> args st).

Definition key_at (t : thread) : outcome Z :=
  ks ← deref "keys" (keys g); row ← deref "keys[tid]" (mjoin (ks !! tid t)); key ← deref "keys[tid][i]" (row !! pos t); Ok (wrap 32 key).
Definition vpage_at (t : thread) : outcome (list Z) :=
  vp ← deref "vpages" (vpages g); row ← deref "vpages[tid]" (mjoin (vp !! tid t));
  match row !! pos t with Some (Page data) => Ok data | _ => Throw "vpages[tid][i]" end.

(** The handler of a put, for a page without a mapping: where it asks whether the page is
    dirty, it goes through the null pointer. *)
Definition put_unmapped (bs : list (backend C)) (page : list Z) (ino index : Z) : outcome (list (backend C) * Z) :=
  b ← deref "backends" (bs !! backend_of cfg GOLDEN_RATIO_64 ino index);
  let pass := negb (af_enable cfg) || (af_upsert GOLDEN_RATIO_64 (be_af b) ino index).2 in
  present ← (if exclusive_policy cfg then Ok false
             else if metadata_on cfg then metadata_contain (be_meta b) (page_key b ino index) else Ok true);
  if pass && present then Throw "page->mapping: NULL" else dcc_handle_put_page cfg GOLDEN_RATIO_64 bs page false ino index.

Definition put_page (st : test) (k : nat) (t : thread) : outcome test :=
  d ← data_of st t;
  key ← key_at t;
  let key := if td_dummy d then key +₃₂ wrap 32 (num_iters * num_threads) else key in
  page ← vpage_at t;
  '(bs, ret) ← put_unmapped (bs st) page 0 key;
  Ok (Test bs (rpages st) (<[k := next t (negb (ret =? 0)) false]> (threads st)) (args st)).

(** The page returned is compared over the length [compared], which the test gives as [memcmp_len]. *)
Definition get_page (st : test) (k : nat) (t : thread) : outcome test :=
  key ← key_at t;
  p ← deref "return_pages[tid]" (rpages st !! tid t);
  '(bs, (p, ret)) ← dcc_handle_get_page cfg GOLDEN_RATIO_64 (bs st) p 0 key;
  page ← vpage_at t;
  Ok (Test bs (<[tid t := p]> (rpages st))
        (<[k := next t ((ret =? 0) && memcmp p page compared) (negb (ret =? 0))]> (threads st)) (args st)).

Definition inv_page (st : test) (k : nat) (t : thread) : outcome test :=
  key ← key_at t;
  '(bs, ret) ← dcc_handle_invalidate_page cfg GOLDEN_RATIO_64 (bs st) 0 key;
  Ok (Test bs (rpages st) (<[k := next t false (negb (ret =? 0))]> (threads st)) (args st)).

(** What a thread stores after it has completed. *)
Definition result (t : thread) (d : thread_data) : thread_data :=
  match fn t with
  | PutTest => ThreadData_ (bad t) (td_ret2 d) (td_dummy d)
  | GetTest => ThreadData_ (bad t) (not_found t) (td_dummy d)
  | InvTest => ThreadData_ (not_found t) (td_ret2 d) (td_dummy d)
  end.

(** A turn of thread [k]: a page, [complete], or the store. *)
Definition turn (st : test) (k : nat) : outcome test :=
  match threads st !! k with
  | None => Ok st
  | Some t =>
      match pc t with
      | Running =>
          if Z.of_nat (pos t) <? num_iters then
            match fn t with
            | PutTest => put_page st k t
            | GetTest => get_page st k t
            | InvTest => inv_page st k t
            end
          else Ok (set_thread st k (at_pc t Completed))
      | Completed => d ← data_of st t; Ok (set_thread (store_data st t (result t d)) k (at_pc t Returned))
      | Returned => Ok st
      end
  end.

Fixpoint turns (order : list nat) (st : test) : outcome test :=
  match order with [] => Ok st | k :: order => st ← turn st k; turns order st end.

(** ** Reports *)

(** [wait_for_completion] on every thread. *)
Definition completed (st : test) : bool := forallb (fun t => match pc t with Running => false | _ => true end) (threads st).

Definition latency (elapsed : Z) : outcome Z :=
  if (wrap 64 num_threads =? 0) || (num_iters =? 0) then Throw "division by zero" else Ok (elapsed / wrap 64 num_threads / num_iters).
Definition rate (elapsed : Z) : option Z :=
  let elapsed_ms := to_int (elapsed / 1000 / 1000) in
  if elapsed_ms =? 0 then None else Some ((1000 *₆₄ (total_capacity >> 20)) / wrap 64 elapsed_ms).

Definition sum_ret (f : thread_data -> Z) (st : test) : Z := sum_with f (default [] (args st)).

(** [None]: not every thread has completed. [ret2]: the test reads the second result too. *)
Definition report_of (ret2 : bool) (elapsed : Z) (st : test) : outcome (option (test * report)) :=
  if completed st then
    let r := sum_ret td_ret st in
    let r2 := if ret2 then sum_ret td_ret2 st else 0 in
    lat ← latency elapsed;
    Ok (Some (st, Report ((r =? 0) && (r2 =? 0)) lat r r2 (rate elapsed)))
  else Ok None.

Definition with_new_threads (st : test) (ts : list thread) (ds : list thread_data) : test := Test (bs st) (rpages st) (threads st ++ ts) (Some ds).

Definition prepare_put_test (order : list nat) (elapsed : Z) (st : test) : outcome (option (test * report)) :=
  st ← turns order (with_new_threads st (start PutTest <$> seq 0 n) (replicate n (ThreadData_ 0 0 false)));
  report_of false elapsed st.

Definition reset (ret2 dummy : bool) (st : test) : list thread_data :=
  (fun d => ThreadData_ 0 (if ret2 then 0 else td_ret2 d) (dummy || td_dummy d)) <$> default [] (args st).

Definition prepare_get_test (order : list nat) (elapsed : Z) (st : test) : outcome (option (test * report)) :=
  st ← turns order (with_new_threads st (start GetTest <$> seq 0 n) (reset true false st));
  report_of true elapsed st.

(** The first half of the threads put, under other keys; the others get. *)
Definition prepare_hybrid_test (order : list nat) (elapsed : Z) (st : test) : outcome (option (test * report)) :=
  let h := Nat.div2 n in
  st ← turns order (with_new_threads st ((start PutTest <$> seq 0 h) ++ (start GetTest <$> seq h (n - h))) (reset true true st));
  report_of false elapsed st.

Definition prepare_inv_page_test (order : list nat) (elapsed : Z) (st : test) : outcome (option (test * report)) :=
  st ← turns order (with_new_threads st (start InvTest <$> seq 0 n) (reset false false st));
  report_of false elapsed st.

Definition second_test (mode : test_mode) : list nat -> Z -> test -> outcome (option (test * report)) :=
  match mode with
  | GET_TEST => prepare_get_test
  | HYBRID_TEST => prepare_hybrid_test
  | INVALIDATE_PAGE_TEST => prepare_inv_page_test
  end.

(** [main]: the put test, the second test, and the turns that threads still take after [args] is freed. *)
Definition main (mode : test_mode) (order1 order2 late : list nat) (elapsed1 elapsed2 : Z) (st : test)
  : outcome (option (test * report * report)) :=
  r ← prepare_put_test order1 elapsed1 st;
  match r with
  | None => Ok None
  | Some (st, put) =>
      r ← second_test mode order2 elapsed2 st;
      match r with
      | None => Ok None
      | Some (st, second) => st ← turns late (Test (bs st) (rpages st) (threads st) None); Ok (Some (st, put, second))
      end
  end.
End threads.
Arguments test : clear implicits.

(** ** The module *)

(** The rounds of half a second for which it waits, out of 60 * 20. *)
Fixpoint wait_rounds (rounds i : nat) (test_enable : nat -> bool) : nat :=
  match rounds with O => i | S rounds => if test_enable i then i else wait_rounds rounds (S i) test_enable end.
Definition check_debugfs (test_enable : nat -> bool) : Z := 500 * Z.of_nat (wait_rounds (60 * 20) 0 test_enable).

(** What it leaves in the debug file system; its result is not tested. *)
Definition create_debugfs (CONFIG_DEBUG_FS dir file : bool) : list string * Z :=
  if CONFIG_DEBUG_FS then
    if negb dir then ([], -1) else if negb file then (["rdma_test"], -1) else (["rdma_test"; "rdma_test/enable"], 0)
  else ([], 0)%string.

(** A run of the module: the order in which threads move, and the time each test takes. *)
Record schedule := Schedule { order1 : list nat; order2 : list nat; late : list nat; elapsed1 : Z; elapsed2 : Z }.
Record module_end {C} := ModuleEnd { me_ret : Z; me_held : list block; me_files : list string; me_run : option (test C * report * report) }.
Arguments module_end : clear implicits.

Section module.
Context {C : Type} `{Transport C}.
Context (fails : block -> bool) (cfg : dcc_config_t) (GOLDEN_RATIO_64 : Z) (CONFIG_DEBUG_FS dir file : bool).

Definition thread_blocks (n : nat) : list block := Args :: (ThreadData <$> seq 0 n).

(** [args] and its elements are not tested before they are written. *)
Definition alloc_args (num_threads : Z) (g : globals) : outcome globals :=
  let n := Z.to_nat num_threads in
  if kzalloc fails num_threads Args && forallb (fun i => negb (fails (ThreadData i))) (seq 0 n)
  then Ok (set_held g (g_held g ++ thread_blocks n)) else Throw "args: NULL".
Definition free_args (num_threads : Z) (g : globals) : outcome globals :=
  h ← release_all ((ThreadData <$> seq 0 (Z.to_nat num_threads)) ++ [Args]) (g_held g); Ok (set_held g h).

(** [None]: a test waits for a thread. *)
Definition init_rdma_test_module (mode : test_mode) (input_size_mb num_threads : Z) (sch : schedule) (bs : list (backend C))
  : outcome (option (module_end C)) :=
  let total_capacity := wrap 64 input_size_mb <<₆₄ 20 in
  if wrap 64 num_threads =? 0 then Throw "division by zero"
  else
    let num_iters := wrap 32 (total_capacity / 4096 / wrap 64 num_threads) in
    '(g, ret) ← init_pages fails num_threads num_iters no_globals;
    if negb (ret =? 0) then g ← exit_pages num_threads num_iters g; Ok (Some (ModuleEnd C (-1) (g_held g) [] None))
    else if negb (kzalloc fails num_threads Comp) then g ← exit_pages num_threads num_iters g; Ok (Some (ModuleEnd C (-1) (g_held g) [] None))
    else
      let g := hold g Comp in
      let '(files, _) := create_debugfs CONFIG_DEBUG_FS dir file in
      g ← alloc_args num_threads g;
      r ← main memcmp_len cfg GOLDEN_RATIO_64 num_threads num_iters total_capacity g mode (order1 sch) (order2 sch) (late sch) (elapsed1 sch) (elapsed2 sch)
            (Test bs (replicate (Z.to_nat num_threads) zero_page) [] (Some []));
      match r with
      | None => Ok None
      | Some run =>
          g ← free_args num_threads g;
          h ← release Comp (g_held g);
          g ← exit_pages num_threads num_iters (set_held g h);
          Ok (Some (ModuleEnd C 0 (g_held g) files (Some run)))
      end.

(** Unloading. *)
Definition exit_rdma_test_module (e : module_end C) : module_end C := e.
End module.

(** ** Lemmas: loops that allocate *)

Lemma for_ok {S} (P : nat -> S -> Prop) (body : nat -> S -> outcome (S * bool)) k : forall i s, P i s ->
  (forall j s, (i <= j < i + k)%nat -> P j s -> exists s', body j s = Ok (s', true) /\ P (Datatypes.S j) s') ->
  exists s', for_ (seq i k) body s = Ok (s', true) /\ P (i + k)%nat s'.
Proof.
  induction k as [|k IH]; intros i s HP Hb; cbn [seq for_]; [exists s; by rewrite Nat.add_0_r|].
  destruct (Hb i s) as (s1 & -> & HP1); [lia|done|]. obind. cbn [negb].
  destruct (IH (Datatypes.S i) s1 HP1) as (s' & E & HP'); [intros j s2 Hj; apply Hb; lia|]. exists s'. split; [done|].
  by replace (i + Datatypes.S k)%nat with (Datatypes.S i + k)%nat by lia.
Qed.

Lemma for_keeps {S} (I : S -> Prop) (body : nat -> S -> outcome (S * bool)) l : (forall i s s' ok, I s -> body i s = Ok (s', ok) -> I s') ->
  forall s s' ok, I s -> for_ l body s = Ok (s', ok) -> I s'.
Proof.
  intros Hb. induction l as [|i l IH]; intros s s' ok Hs; cbn [for_]; [by intros [= <- _]|].
  intros ([s1 b] & E1 & E2)%outcome_bind_Ok. destruct b; cbn [negb] in E2; [|injection E2 as <- _]; [eapply IH; [|exact E2]|]; by eapply Hb.
Qed.

Lemma for_bodies {S} (body : nat -> S -> outcome (S * bool)) l : forall s s', for_ l body s = Ok (s', true) ->
  forall i, i ∈ l -> exists s1 s2, body i s1 = Ok (s2, true).
Proof.
  induction l as [|i l IH]; intros s s'; cbn [for_]; [by intros _ i ?%not_elem_of_nil|].
  intros ([s1 b] & E1 & E2)%outcome_bind_Ok. destruct b; cbn [negb] in E2; [|done].
  intros j [->|Hj]%elem_of_cons; [by exists s, s1|by eapply IH].
Qed.

Lemma for_all_true {S} (body : nat -> S -> outcome (S * bool)) l : (forall i s s' ok, body i s = Ok (s', ok) -> ok = true) ->
  forall s s' ok, for_ l body s = Ok (s', ok) -> ok = true.
Proof.
  intros Hb. induction l as [|i l IH]; intros s s' ok; cbn [for_]; [by intros [= _ <-]|].
  intros ([s1 b] & E1 & E2)%outcome_bind_Ok. apply Hb in E1 as ->. cbn [negb] in E2. by eapply IH.
Qed.

(** Filling an array from the left. *)
Lemma fill_next {A} (l : list A) n i x y : length l = i -> (i < n)%nat ->
  <[i := x]> (l ++ replicate (n - i) y) = (l ++ [x]) ++ replicate (n - S i) y.
Proof.
  intros <- Hi. replace (n - length l)%nat with (S (n - S (length l))) by lia. cbn [replicate].
  rewrite insert_app_r_alt, Nat.sub_diag by done. cbn. by rewrite <- app_assoc.
Qed.

Lemma seq_snoc {A} (f : nat -> A) k : f <$> seq 0 (S k) = (f <$> seq 0 k) ++ [f k].
Proof. by rewrite seq_S, fmap_app. Qed.

Lemma str_length key : 0 <= key < 10 ^ 7 -> (length (str_of key) <= 7)%nat.
Proof.
  intros Hk. unfold str_of. rewrite length_fmap. unfold pretty, pretty_N. case_decide; [cbn; lia|].
  assert (forall k x s, (x < 10 ^ N.of_nat k)%N -> (length (String.list_ascii_of_string (pretty_N_go x s)) <= k + length (String.list_ascii_of_string s))%nat) as Hgo.
  { induction k as [|k IH]; intros x s Hx.
    - replace x with 0%N by (cbn in Hx; lia). rewrite pretty_N_go_0. lia.
    - destruct (decide (x = 0)%N) as [->|Hx0]; [rewrite pretty_N_go_0; lia|]. rewrite pretty_N_go_step by lia.
      etrans; [apply IH|cbn; lia]. apply N.Div0.div_lt_upper_bound. rewrite Nat2N.inj_succ, N.pow_succ_r' in Hx. lia. }
  specialize (Hgo 7%nat (Z.to_N key) ""%string). cbn [length String.list_ascii_of_string] in Hgo. rewrite Nat.add_0_r in Hgo. apply Hgo. cbn. lia.
Qed.

(** ** Lemmas: the life of the pages *)

Section life.
Context (fails : block -> bool) (num_threads num_iters : Z).
Abbreviation n := (Z.to_nat num_threads).
Abbreviation m := (Z.to_nat num_iters).
Context (Hn : 0 < num_threads) (Hm : 0 < num_iters) (Hkeys : num_threads * num_iters < 10 ^ 7).

(** The key of page [j] of thread [i]. *)
Definition key_of (i j : nat) : Z := Z.of_nat i * num_iters + 1 + Z.of_nat j.
Definition full_row (i : nat) : option (list slot) :=
  Some (((fun j => Page (page_text (key_of i j))) <$> seq 0 m) ++ replicate (Z.to_nat (num_iters * num_threads) - m) Garbage).
Definition key_row (i : nat) : option (list Z) := Some (key_of i <$> seq 0 m).
Definition row_blocks (i : nat) : list block := VpagesRow i :: (Vpage i <$> seq 0 m).
Definition head_blocks : list block := [PutThreads; GetThreads; InvThreads; ReturnPages] ++ (ReturnPage <$> seq 0 n).
(** What [init_pages] allocates, in order. *)
Definition needed : list block := head_blocks ++ [Vpages] ++ concat (row_blocks <$> seq 0 n) ++ [Keys] ++ (KeysRow <$> seq 0 n).
(** The globals when it has returned 0. *)
Definition loaded (h : list block) : globals :=
  Globals h true true true (Some (replicate n (Some zero_page))) (Some (full_row <$> seq 0 n)) (Some (key_row <$> seq 0 n)).

(** Reads the fields of a record of globals just written. *)
Ltac globals_simp := unfold set_threads, set_return_pages, set_vpages, set_keys, hold, set_held;
  cbn [g_held put_threads get_threads inv_threads return_pages vpages keys no_globals].

Section success.
Context (Hok : forall b, b ∈ needed -> fails b = false).

Lemma kzalloc_ok b : b ∈ needed -> kzalloc fails num_threads b = true.
Proof. intros Hb. unfold kzalloc. rewrite (Hok b Hb). cbn. lia. Qed.

Ltac block_in := unfold needed, head_blocks; rewrite ?elem_of_app, ?elem_of_cons; auto 20.

Lemma in_return_page i : (i < n)%nat -> ReturnPage i ∈ needed.
Proof. intros Hi. assert (ReturnPage i ∈ ReturnPage <$> seq 0 n) by (apply list_elem_of_fmap_2, elem_of_seq; lia). block_in. Qed.
Lemma in_row i b : (i < n)%nat -> b ∈ row_blocks i -> b ∈ needed.
Proof.
  intros Hi Hb. assert (b ∈ concat (row_blocks <$> seq 0 n)).
  { apply list_elem_of_In, in_concat. exists (row_blocks i). split; apply list_elem_of_In; [|done]. apply list_elem_of_fmap_2, elem_of_seq. lia. }
  block_in.
Qed.
Lemma in_keys_row i : (i < n)%nat -> KeysRow i ∈ needed.
Proof. intros Hi. assert (KeysRow i ∈ KeysRow <$> seq 0 n) by (apply list_elem_of_fmap_2, elem_of_seq; lia). block_in. Qed.

Lemma return_pages_ok h : exists g, for_ (seq 0 n) (init_return_page fails) (Globals h true true true (Some (replicate n None)) None None) = Ok (g, true) /\
  g = Globals (h ++ (ReturnPage <$> seq 0 n)) true true true (Some (replicate n (Some zero_page))) None None.
Proof using Hok.
  destruct (for_ok (fun i g => g = Globals (h ++ (ReturnPage <$> seq 0 i)) true true true (Some (replicate i (Some zero_page) ++ replicate (n - i) None)) None None)
    (init_return_page fails) n 0 (Globals h true true true (Some (replicate n None)) None None)) as (g & E & ->).
  - cbn. by rewrite app_nil_r, Nat.sub_0_r.
  - intros i s Hi ->. unfold init_return_page. cbn [return_pages deref]. obind. rewrite Hok by (apply in_return_page; lia).
    eexists. split; [done|]. globals_simp. rewrite fill_next by (rewrite ?length_replicate; lia).
    rewrite <- replicate_S_end, <- app_assoc. by rewrite <- seq_snoc.
  - rewrite E. eexists. split; [done|]. rewrite Nat.add_0_l, Nat.sub_diag. cbn [replicate]. by rewrite app_nil_r.
Qed.

Lemma m_le : (m <= Z.to_nat (num_iters * num_threads))%nat.
Proof. apply Z2Nat.inj_le; nia. Qed.

Lemma row_ok i h rp vp : (i < n)%nat -> vp !! i = Some None ->
  init_vpages_row fails num_threads num_iters i (Globals h true true true rp (Some vp) None, Z.of_nat i * num_iters) =
  Ok (Globals (h ++ row_blocks i) true true true rp (Some (<[i := full_row i]> vp)) None, Z.of_nat (S i) * num_iters, true).
Proof using Hn Hm Hkeys Hok.
  intros Hi Hv. unfold init_vpages_row. cbn [vpages deref]. obind. unfold vmalloc. rewrite (Hok (VpagesRow i)) by (apply (in_row i); [done|left]).
  rewrite (proj2 (Z.ltb_lt 0 _)) by nia. cbn [negb andb].
  set (N := Z.to_nat (num_iters * num_threads)). pose proof m_le as Hmn.
  set (P := fun j (st : globals * Z) => st = (Globals ((h ++ [VpagesRow i]) ++ (Vpage i <$> seq 0 j)) true true true rp
       (Some (<[i := Some (((fun j => Page (page_text (key_of i j))) <$> seq 0 j) ++ replicate (N - j) Garbage)]> vp)) None, Z.of_nat i * num_iters + Z.of_nat j)).
  destruct (for_ok P (init_vpage fails i) m 0
    (set_vpages (hold (Globals h true true true rp (Some vp) None) (VpagesRow i)) (<[i := Some (replicate N Garbage)]> vp), Z.of_nat i * num_iters)) as (g & -> & ->).
  - unfold P. cbn. by rewrite app_nil_r, Nat.sub_0_r, Z.add_0_r.
  - intros j s Hj ->. unfold init_vpage. cbn [vpages deref]. obind.
    rewrite list_lookup_insert_eq by (by eapply lookup_lt_Some). cbn [mjoin option_join deref]. obind.
    rewrite (Hok (Vpage i j)) by (apply (in_row i); [done|right; apply list_elem_of_fmap_2, elem_of_seq; lia]).
    rewrite (proj2 (Nat.leb_gt 8 _)) by (apply Nat.lt_succ_r, str_length; nia).
    eexists. split; [done|]. unfold P. globals_simp. rewrite list_insert_insert_eq.
    rewrite fill_next by (rewrite ?length_fmap, ?length_seq; lia). rewrite <- app_assoc, <- seq_snoc.
    f_equal; [|lia]. replace (Z.of_nat i * num_iters + Z.of_nat j + 1) with (key_of i j) by (unfold key_of; lia).
    by rewrite (seq_snoc (fun j => Page (page_text (key_of i j)))).
  - f_equal. f_equal. f_equal; [|lia]. unfold row_blocks. rewrite Nat.add_0_l. f_equal. by rewrite <- app_assoc.
Qed.

Lemma rows_ok h rp :
  for_ (seq 0 n) (init_vpages_row fails num_threads num_iters) (Globals h true true true rp (Some (replicate n None)) None, 0) =
  Ok (Globals (h ++ concat (row_blocks <$> seq 0 n)) true true true rp (Some (full_row <$> seq 0 n)) None, Z.of_nat n * num_iters, true).
Proof using Hn Hm Hkeys Hok.
  set (P := fun i (st : globals * Z) => st = (Globals (h ++ concat (row_blocks <$> seq 0 i)) true true true rp
     (Some ((full_row <$> seq 0 i) ++ replicate (n - i) None)) None, Z.of_nat i * num_iters)).
  destruct (for_ok P (init_vpages_row fails num_threads num_iters) n 0 (Globals h true true true rp (Some (replicate n None)) None, 0)) as (g & -> & ->).
  - unfold P. cbn. by rewrite app_nil_r, Nat.sub_0_r.
  - intros i s Hi ->. rewrite row_ok; [|lia|].
    + eexists. split; [done|]. unfold P. rewrite fill_next by (rewrite ?length_fmap, ?length_seq; lia).
      rewrite <- app_assoc, !seq_snoc, concat_app. cbn [concat]. by rewrite app_nil_r.
    + rewrite lookup_app_r, length_fmap, length_seq by (rewrite length_fmap, length_seq; lia). apply lookup_replicate_2. lia.
  - rewrite Nat.add_0_l, Nat.sub_diag. cbn [replicate]. by rewrite app_nil_r.
Qed.

Lemma keys_ok h rp vp :
  for_ (seq 0 n) (init_keys_row fails num_iters) (Globals h true true true rp vp (Some (replicate n None)), 0) =
  Ok (Globals (h ++ (KeysRow <$> seq 0 n)) true true true rp vp (Some (key_row <$> seq 0 n)), Z.of_nat n * num_iters, true).
Proof using Hn Hm Hok.
  set (P := fun i (st : globals * Z) => st = (Globals (h ++ (KeysRow <$> seq 0 i)) true true true rp vp
     (Some ((key_row <$> seq 0 i) ++ replicate (n - i) None)), Z.of_nat i * num_iters)).
  destruct (for_ok P (init_keys_row fails num_iters) n 0 (Globals h true true true rp vp (Some (replicate n None)), 0)) as (g & -> & ->).
  - unfold P. cbn. by rewrite app_nil_r, Nat.sub_0_r.
  - intros i s Hi ->. unfold init_keys_row, vmalloc. cbn [keys deref]. obind. rewrite Hok by (apply in_keys_row; lia).
    rewrite (proj2 (Z.ltb_lt 0 _)) by done. cbn [negb andb]. eexists. split; [done|].
    unfold P. globals_simp. rewrite fill_next by (rewrite ?length_fmap, ?length_seq; lia).
    rewrite <- app_assoc, <- seq_snoc. f_equal; [|lia]. do 3 f_equal. rewrite seq_snoc. unfold key_row, key_of. done.
  - rewrite Nat.add_0_l, Nat.sub_diag. cbn [replicate]. by rewrite app_nil_r.
Qed.

Lemma allocate_all_ok : init_all fails num_threads num_iters no_globals = Ok (loaded needed, true).
Proof using Hn Hm Hkeys Hok.
  unfold init_all. rewrite !kzalloc_ok by block_in. cbn [negb]. globals_simp. cbn [app].
  destruct (return_pages_ok [PutThreads; GetThreads; InvThreads; ReturnPages]) as (g & -> & ->). obind. cbn [negb].
  globals_simp. rewrite rows_ok. obind. cbn [negb]. globals_simp.
  rewrite keys_ok. obind. unfold loaded, needed, head_blocks. by rewrite <- !app_assoc.
Qed.
End success.

(** *** Freeing *)

Lemma free_vpages_ok h0 i l : (i < n)%nat -> l ⊆ seq 0 m -> forall h rest, h ≡ₚ (Vpage i <$> l) ++ rest ->
  exists h', foldl (free_vpage (loaded h0) i) (Ok h) l = Ok h' /\ h' ≡ₚ rest.
Proof.
  intros Hi. induction l as [|j l IH]; intros Hl h rest P; cbn [foldl]; [by exists h|].
  assert (j < m)%nat as Hj by (apply (elem_of_seq 0 m j), Hl; left).
  unfold free_vpage at 2. cbn [loaded vpages deref]. obind. rewrite list_lookup_fmap, lookup_seq_lt by done.
  cbn [fmap option_fmap option_map mjoin option_join full_row deref]. obind.
  rewrite lookup_app_l, list_lookup_fmap, lookup_seq_lt by (rewrite ?length_fmap, ?length_seq; done). cbn [fmap option_fmap option_map deref]. obind.
  destruct (release_ok (Vpage i j) h ((Vpage i <$> l) ++ rest)) as (h1 & -> & P1); [by rewrite P|].
  apply IH; [|done]. intros x Hx. apply Hl. by right.
Qed.

Definition thread_part (i : nat) : list block := ReturnPage i :: (Vpage i <$> seq 0 m) ++ [VpagesRow i; KeysRow i].

Lemma free_threads_ok h0 l : l ⊆ seq 0 n -> forall h rest, h ≡ₚ concat (thread_part <$> l) ++ rest ->
  exists h', foldl (free_thread num_iters (loaded h0)) (Ok h) l = Ok h' /\ h' ≡ₚ rest.
Proof.
  induction l as [|i l IH]; intros Hl h rest P; cbn [foldl]; [by exists h|].
  assert (i < n)%nat as Hi by (apply (elem_of_seq 0 n i), Hl; left).
  set (tail := concat (thread_part <$> l) ++ rest).
  assert (h ≡ₚ ReturnPage i :: (Vpage i <$> seq 0 m) ++ [VpagesRow i; KeysRow i] ++ tail) as P0.
  { rewrite P. cbn [fmap list_fmap concat]. unfold thread_part at 1. subst tail. generalize (Vpage i <$> seq 0 m), (concat (thread_part <$> l)). intros. perm. }
  unfold free_thread at 2. cbn [loaded return_pages vpages keys deref]. obind. rewrite lookup_replicate_2 by done. cbn [deref]. obind.
  rewrite bool_decide_eq_true_2 by done. unfold free_if.
  destruct (release_ok _ _ _ P0) as (h1 & -> & P1). obind.
  destruct (free_vpages_ok h0 i (seq 0 m) Hi (reflexivity _) h1 _ P1) as (h2 & -> & P2). obind.
  rewrite !list_lookup_fmap, lookup_seq_lt by done. cbn [fmap option_fmap option_map deref]. obind. unfold full_row, key_row.
  rewrite !bool_decide_eq_true_2 by done.
  destruct (release_ok _ _ _ P2) as (h3 & -> & P3). obind. destruct (release_ok _ _ _ P3) as (h4 & -> & P4).
  apply IH; [|done]. intros x Hx. apply Hl. by right.
Qed.

Lemma needed_parts : needed ≡ₚ [PutThreads; GetThreads; InvThreads] ++ concat (thread_part <$> seq 0 n) ++ [ReturnPages; Vpages; Keys].
Proof.
  unfold needed, head_blocks.
  assert (forall l, (ReturnPage <$> l) ++ concat (row_blocks <$> l) ++ (KeysRow <$> l) ≡ₚ concat (thread_part <$> l)) as E.
  { induction l as [|i l IH]; [done|]. cbn [fmap list_fmap concat]. rewrite <- IH. unfold thread_part, row_blocks.
    change (list_fmap nat block) with (fmap (M := list) (A := nat) (B := block)). generalize (Vpage i <$> seq 0 m), (concat ((fun i => VpagesRow i :: (Vpage i <$> seq 0 m)) <$> l)). intros. perm. }
  rewrite <- E. generalize (concat (row_blocks <$> seq 0 n)). intros. perm.
Qed.

Lemma exit_pages_ok h rest : h ≡ₚ needed ++ rest -> exists h', exit_pages num_threads num_iters (loaded h) = Ok (loaded h') /\ h' ≡ₚ rest.
Proof.
  intros P. rewrite needed_parts in P. set (T := concat (thread_part <$> seq 0 n)) in P.
  assert (h ≡ₚ [PutThreads; GetThreads; InvThreads] ++ T ++ [ReturnPages; Vpages; Keys] ++ rest) as P0 by (rewrite P; perm).
  unfold exit_pages. cbn [loaded g_held put_threads get_threads inv_threads return_pages vpages keys]. unfold free_if.
  rewrite !bool_decide_eq_true_2 by done. cbn [app] in P0.
  destruct (release_ok _ _ _ P0) as (h1 & -> & P1). obind. destruct (release_ok _ _ _ P1) as (h2 & -> & P2). obind.
  destruct (release_ok _ _ _ P2) as (h3 & -> & P3). obind.
  destruct (free_threads_ok h (seq 0 n) (reflexivity _) h3 _ P3) as (h4 & -> & P4). obind.
  destruct (release_ok _ _ _ P4) as (h5 & -> & P5). obind. destruct (release_ok _ _ _ P5) as (h6 & -> & P6). obind.
  destruct (release_ok _ _ _ P6) as (h7 & -> & P7). obind. by exists h7.
Qed.

(** *** Failing *)

Lemma fold_throws {A B} (f : outcome A -> B -> outcome A) l msg : (forall x, f (Throw msg) x = Throw msg) -> foldl f (Throw msg) l = Throw msg.
Proof. intros Hf. induction l as [|x l IH]; cbn [foldl]; [done|]. by rewrite Hf. Qed.

(** Without [keys], [exit_pages] crashes at its first thread, whatever the rest is. *)
Lemma exit_crashes g g' : keys g = None -> exit_pages num_threads num_iters g <> Ok g'.
Proof using Hn Hm.
  intros Hk E. unfold exit_pages in E. apply outcome_bind_Ok in E as (h1 & _ & E). apply outcome_bind_Ok in E as (h2 & _ & E).
  apply outcome_bind_Ok in E as (h3 & _ & E). apply outcome_bind_Ok in E as (h4 & E & _). clear h1 h2 g'.
  destruct n as [|k] eqn:En; [lia|]. cbn [seq foldl] in E.
  destruct (free_thread num_iters g (Ok h3) 0) as [h|msg] eqn:E1; [|by rewrite fold_throws in E].
  unfold free_thread in E1. do 8 (apply outcome_bind_Ok in E1 as (? & _ & E1)). apply outcome_bind_Ok in E1 as (? & E1 & _). by rewrite Hk in E1.
Qed.

Lemma return_page_keys i g g' ok : keys g = None -> init_return_page fails i g = Ok (g', ok) -> keys g' = None.
Proof. intros Hk (rp & _ & E)%outcome_bind_Ok. destruct (fails _); by injection E as <- _. Qed.

Lemma row_keys i (st st' : globals * Z) ok : keys st.1 = None -> init_vpages_row fails num_threads num_iters i st = Ok (st', ok) -> keys st'.1 = None.
Proof.
  destruct st as [g key]. intros Hk (vp & _ & E)%outcome_bind_Ok. destruct (vmalloc _ _ _); [|by injection E as <- _].
  refine (for_keeps (fun st : globals * Z => keys st.1 = None) _ _ _ _ _ _ _ E); [|done].
  intros j [g1 k1] st2 ok2 Hk1 (vp1 & _ & E1)%outcome_bind_Ok. apply outcome_bind_Ok in E1 as (row & _ & E1).
  destruct (fails _); [by injection E1 as <- _|]. cbv zeta in E1. case_match; [done|]. by injection E1 as <- _.
Qed.

Lemma keys_row_true i (st st' : globals * Z) ok : init_keys_row fails num_iters i st = Ok (st', ok) -> ok = true.
Proof.
  destruct st as [g key]. intros (ks & _ & E)%outcome_bind_Ok. destruct (vmalloc _ _ _); [by injection E as _ <-|].
  destruct (0 <? _); [done|]. by injection E as _ <-.
Qed.

(** The [goto]s all come before [keys] is allocated. *)
Lemma failed_without_keys g : init_all fails num_threads num_iters no_globals = Ok (g, false) -> keys g = None.
Proof.
  unfold init_all. do 4 (destruct (kzalloc _ _ _); cbn [negb]; [|by intros [= <-]]). intros ([g1 ok] & E1 & E)%outcome_bind_Ok.
  apply (for_keeps (fun g => keys g = None)) in E1; [|intros ????; apply return_page_keys|done].
  destruct ok; cbn [negb] in E; [|by injection E as <-]. destruct (kzalloc _ _ _); cbn [negb] in E; [|by injection E as <-].
  apply outcome_bind_Ok in E as ([[g2 k2] ok] & E2 & E).
  apply (for_keeps (fun st : globals * Z => keys st.1 = None)) in E2; [|intros ????; apply row_keys|done]. cbn in E2.
  destruct ok; cbn [negb] in E; [|by injection E as <-]. destruct (kzalloc _ _ _); cbn [negb] in E; [|by injection E as <-].
  apply outcome_bind_Ok in E as ([[g3 k3] ok] & E3 & E). apply for_all_true in E3 as ->; [done|]. intros ????. apply keys_row_true.
Qed.

Lemma kzalloc_fails b : kzalloc fails num_threads b = true -> fails b = false.
Proof. intros [H _]%andb_true_iff. by apply negb_true_iff. Qed.

(** The end is only reached without failures. *)
Lemma reached_without_failure g b : init_all fails num_threads num_iters no_globals = Ok (g, true) -> b ∈ needed -> fails b = false.
Proof using Hm.
  unfold init_all. destruct (kzalloc _ _ PutThreads) eqn:?; cbn [negb]; [|done]. destruct (kzalloc _ _ GetThreads) eqn:?; cbn [negb]; [|done].
  destruct (kzalloc _ _ InvThreads) eqn:?; cbn [negb]; [|done]. destruct (kzalloc _ _ ReturnPages) eqn:?; cbn [negb]; [|done].
  intros ([g1 ok] & E1 & E)%outcome_bind_Ok.
  destruct ok; cbn [negb] in E; [|done]. destruct (kzalloc _ _ Vpages) eqn:?; cbn [negb] in E; [|done].
  apply outcome_bind_Ok in E as ([[g2 k2] ok] & E2 & E).
  destruct ok; cbn [negb] in E; [|done]. destruct (kzalloc _ _ Keys) eqn:?; cbn [negb] in E; [|done].
  apply outcome_bind_Ok in E as ([[g3 k3] ok] & E3 & [= _ ->]).
  unfold needed, head_blocks. rewrite !elem_of_app, !elem_of_cons, !elem_of_nil.
  intros [[[->|[->|[->|[->|[]]]]]|(i & -> & Hi)%list_elem_of_fmap]|[[->|[]]|[Hb|[[->|[]]|(i & -> & Hi)%list_elem_of_fmap]]]]; try by apply kzalloc_fails.
  - destruct (for_bodies _ _ _ _ E1 i Hi) as (s1 & s2 & (rp & _ & E)%outcome_bind_Ok). by destruct (fails _).
  - apply list_elem_of_In, in_concat in Hb as (row & Hrow%list_elem_of_In & Hb%list_elem_of_In). apply list_elem_of_fmap in Hrow as (i & -> & Hi).
    destruct (for_bodies _ _ _ _ E2 i Hi) as ([s1 k1] & s2 & (rp & _ & E)%outcome_bind_Ok). destruct (vmalloc _ _ _) eqn:Ev; [|done].
    apply elem_of_cons in Hb as [->|(j & -> & Hj)%list_elem_of_fmap]; [by apply andb_true_iff in Ev as [?%negb_true_iff _]|].
    destruct (for_bodies _ _ _ _ E j Hj) as ([s3 k3'] & s4 & (vp & _ & E')%outcome_bind_Ok). apply outcome_bind_Ok in E' as (? & _ & E').
    by destruct (fails _).
  - destruct (for_bodies _ _ _ _ E3 i Hi) as ([s1 k1] & s2 & (rp & _ & E)%outcome_bind_Ok). destruct (vmalloc _ _ _) eqn:Ev.
    + by apply andb_true_iff in Ev as [?%negb_true_iff _].
    + rewrite (proj2 (Z.ltb_lt 0 _)) in E by done. done.
Qed.

Lemma init_pages_ok : (forall b, b ∈ needed -> fails b = false) -> init_pages fails num_threads num_iters no_globals = Ok (loaded needed, 0).
Proof using Hn Hm Hkeys. intros Hok. unfold init_pages. by rewrite allocate_all_ok. Qed.

Lemma init_pages_crashes b : b ∈ needed -> fails b = true -> exists msg, init_pages fails num_threads num_iters no_globals = Throw msg.
Proof using Hn Hm.
  intros Hb Hf. destruct (init_pages _ _ _ _) as [[g r]|msg] eqn:E; [|by exists msg]. exfalso.
  apply outcome_bind_Ok in E as ([g1 ok] & E & E'). destruct ok; cbn [negb] in E'.
  - pose proof (reached_without_failure g1 b E Hb). congruence.
  - apply outcome_bind_Ok in E' as (g2 & E' & _). by apply exit_crashes in E'; [|eapply failed_without_keys].
Qed.
End life.

(** ** Lemmas: the threads *)

(** Runs past the calls of a body that returned. *)
Ltac binds E :=
  repeat first [apply outcome_bind_Ok in E as (? & _ & E)
               | match type of E with context [match ?x with pair _ _ => _ end] => is_var x; destruct x end].

Lemma sum_with_seq_le {A} (f : A -> Z) (h : nat -> Z) l : forall i, (forall k d, l !! k = Some d -> h (i + k)%nat <= f d) ->
  sum_with h (seq i (length l)) <= sum_with f l.
Proof.
  induction l as [|d l IH]; intros i Hl; cbn [length seq sum_with foldr]; [lia|].
  pose proof (Hl 0%nat d eq_refl) as H0. rewrite Nat.add_0_r in H0. specialize (IH (S i)).
  unfold sum_with in IH. cbn [sum_with foldr]. assert (foldr (fun x acc => h x + acc) 0 (seq (S i) (length l)) <= foldr (fun x acc => f x + acc) 0 l); [|lia].
  apply IH. intros k d' Hk. specialize (Hl (S k) d' Hk). by rewrite Nat.add_succ_l, <- Nat.add_succ_r.
Qed.

Lemma sum_with_seq_ge {A} (f : A -> Z) (h : nat -> Z) l : (forall k d, l !! k = Some d -> f d <= h k) ->
  sum_with f l <= sum_with h (seq 0 (length l)).
Proof.
  intros Hl. pose proof (sum_with_seq_le (fun d => - f d) (fun k => - h k) l 0%nat) as E.
  assert (forall B (g : B -> Z) l, sum_with (fun x => - g x) l = - sum_with g l) as Hneg.
  { intros B g l'. unfold sum_with. induction l' as [|x l' IH]; cbn; lia. }
  rewrite !Hneg in E. cut (- sum_with h (seq 0 (length l)) <= - sum_with f l); [lia|]. apply E. intros k d Hk. specialize (Hl k d Hk). cbn. lia.
Qed.

Section reading.
Context (num_threads num_iters : Z) (h0 : list block).
Context (Hn : 0 < num_threads) (Hm : 0 < num_iters) (Hkeys : num_threads * num_iters < 10 ^ 7).
Abbreviation n := (Z.to_nat num_threads).
Abbreviation m := (Z.to_nat num_iters).
Abbreviation key := (key_of num_iters).
Abbreviation g := (loaded num_threads num_iters h0).
Abbreviation pages := (gset (Z * Z)).
Implicit Types (t : thread) (M : pages).

(** *** What the threads read *)

Lemma key_range k j : (k < n)%nat -> (j < m)%nat -> u_ok 28 (key k j) /\ 0 < key k j.
Proof. intros Hk Hj. unfold key_of, u_ok. nia. Qed.

Lemma key_inj k j k' j' : (j < m)%nat -> (j' < m)%nat -> key k j = key k' j' -> k = k' /\ j = j'.
Proof. unfold key_of. intros Hj Hj' E. assert (k = k') as -> by nia. lia. Qed.

Lemma key_at_eq t : (tid t < n)%nat -> (pos t < m)%nat -> key_at g t = Ok (key (tid t) (pos t)).
Proof using Hn Hm Hkeys.
  intros Hk Hj. unfold key_at. cbn [loaded keys deref]. obind. rewrite list_lookup_fmap, lookup_seq_lt by done.
  cbn [fmap option_fmap option_map mjoin option_join key_row deref]. obind. rewrite list_lookup_fmap, lookup_seq_lt by done.
  cbn [fmap option_fmap option_map deref]. obind. rewrite wrap_small; [done|]. destruct (key_range (tid t) (pos t)) as [[? ?] ?]; [done..|].
  rewrite !Nat.add_0_l. unfold u_ok in *. lia.
Qed.

Lemma vpage_at_eq t : (tid t < n)%nat -> (pos t < m)%nat -> vpage_at g t = Ok (page_text (key (tid t) (pos t))).
Proof.
  intros Hk Hj. unfold vpage_at. cbn [loaded vpages deref]. obind. rewrite list_lookup_fmap, lookup_seq_lt by done.
  cbn [fmap option_fmap option_map mjoin option_join full_row deref]. obind.
  rewrite lookup_app_l, list_lookup_fmap, lookup_seq_lt by (rewrite ?length_fmap, ?length_seq; done). by rewrite !Nat.add_0_l.
Qed.

(** The pages of thread [k] before position [p] that are not known. *)
Abbreviation K k j := ((0, key k j) : Z * Z).
Definition refused (M : pages) (k p : nat) : Z := sum_with (fun j => if decide (K k j ∈ M) then 0 else 1) (seq 0 p).

Lemma refused_S M k p : refused M k (S p) = refused M k p + if decide (K k p ∈ M) then 0 else 1.
Proof. unfold refused. rewrite seq_S, sum_with_app. cbn. lia. Qed.

Lemma refused_bounds M k p : 0 <= refused M k p <= Z.of_nat p.
Proof. induction p as [|p IH]; [unfold refused; cbn; lia|]. rewrite refused_S. case_decide; lia. Qed.

Lemma refused_insert M k p k' j' : (p <= m)%nat -> (j' < m)%nat -> (k = k' -> p <= j')%nat ->
  refused ({[K k' j']} ∪ M) k p = refused M k p.
Proof.
  intros Hp Hj' Hkj. induction p as [|p IH]; [done|]. rewrite !refused_S, IH by lia. f_equal.
  assert (K k p ∈ {[K k' j']} ∪ M <-> K k p ∈ M) as Hiff; [|by rewrite (decide_ext _ _ _ _ Hiff)].
  rewrite elem_of_union, elem_of_singleton. split; [|by right]. intros [[= E]|?]; [|done]. apply key_inj in E as [-> ->]; lia.
Qed.
End reading.

Section soundness.
(** The connection's calls return, whatever they answer. *)
Context {C : Type} `{Transport C}.
Context (Hsend : forall c page key, exists c' r, send_page c page key = Ok (c', r)).
Context (Hwrite : forall c page key, exists c' page' r, write_msg c page key = Ok (c', page', r)).
Context (cfg : dcc_config_t) (G : Z) (Hex : exclusive_policy cfg = true).
Context (cli : Z) (Hcli : u_ok 4 cli) (bs0 : list (backend C)) (Hsvrs : num_svrs cfg = Z.of_nat (length bs0)) (Hsome : (0 < length bs0)%nat).
Context (num_threads num_iters total : Z) (h0 : list block).
Context (Hn : 0 < num_threads) (Hm : 0 < num_iters) (Hkeys : num_threads * num_iters < 10 ^ 7).
Abbreviation n := (Z.to_nat num_threads).
Abbreviation m := (Z.to_nat num_iters).
Abbreviation key := (key_of num_iters).
Abbreviation g := (loaded num_threads num_iters h0).
Abbreviation turn := (turn memcmp_len cfg G num_threads num_iters g).
Abbreviation turns := (turns memcmp_len cfg G num_threads num_iters g).
Abbreviation hk := (hk_inv cfg G cli).
Abbreviation pages := (gset (Z * Z)).
Implicit Types (st : test C) (t : thread) (M : pages).

(** *** Turns *)

Definition rem (t : thread) : nat := match pc t with Running => S (S (m - pos t)) | Completed => 1 | Returned => 0 end.

(** A turn moves its own thread, one step. *)
Lemma turn_moves st k st' : turn st k = Ok st' ->
  forall k' t, threads st !! k' = Some t -> exists t', threads st' !! k' = Some t' /\ rem t' = (rem t - if decide (k = k') then 1 else 0)%nat.
Proof.
  intros E k' t Ht. unfold RdmaTest.turn in E.
  assert (forall t1 st1, threads st1 = <[k := t1]> (threads st) ->
    (forall t0, threads st !! k = Some t0 -> rem t1 = (rem t0 - 1)%nat) ->
    exists t', threads st1 !! k' = Some t' /\ rem t' = (rem t - if decide (k = k') then 1 else 0)%nat) as Hset.
  { intros t1 st1 -> Hr. destruct (decide (k = k')) as [->|Hne].
    - exists t1. rewrite list_lookup_insert_eq by (by eapply lookup_lt_Some). split; [done|by apply Hr].
    - exists t. rewrite list_lookup_insert_ne by done. split; [done|lia]. }
  destruct (threads st !! k) as [t0|] eqn:E0; [|injection E as <-; exists t; rewrite decide_False by congruence; split; [done|lia]].
  destruct (pc t0) eqn:Epc.
  - destruct (Z.ltb_spec (Z.of_nat (pos t0)) num_iters) as [Hp|Hp].
    + assert (forall b nf t1, Some t0 = Some t1 -> rem (next t0 b nf) = (rem t1 - 1)%nat) as Hnext.
      { intros b nf t1 [= <-]. unfold rem, next. cbn [pc pos]. rewrite Epc. lia. }
      destruct (fn t0).
      * unfold put_page in E. binds E. injection E as <-. eapply Hset; [done|by apply Hnext].
      * unfold get_page in E. binds E. injection E as <-. eapply Hset; [done|by apply Hnext].
      * unfold inv_page in E. binds E. injection E as <-. eapply Hset; [done|by apply Hnext].
    + injection E as <-. eapply Hset; [done|]. intros t1 [= <-]. unfold rem. cbn [pc at_pc]. rewrite Epc. lia.
  - apply outcome_bind_Ok in E as (d & _ & [= <-]). eapply Hset; [done|]. intros t1 [= <-]. unfold rem. by rewrite Epc.
  - injection E as <-. exists t. split; [done|]. case_decide as Hd; [|lia]. subst k'. rewrite E0 in Ht. injection Ht as ->. unfold rem. by rewrite Epc.
Qed.

Lemma turns_move order : forall st st', turns order st = Ok st' ->
  forall k t, threads st !! k = Some t -> (rem t <= count_occ Nat.eq_dec order k)%nat ->
  exists t', threads st' !! k = Some t' /\ pc t' = Returned.
Proof.
  induction order as [|k order IH]; intros st st'; cbn [RdmaTest.turns].
  - intros [= <-] k t Ht Hr. exists t. split; [done|]. cbn in Hr. unfold rem in Hr. destruct (pc t); [lia..|done].
  - intros (st1 & E1 & E)%outcome_bind_Ok k' t Ht Hr. destruct (turn_moves st k st1 E1 k' t Ht) as (t' & Ht' & Hr').
    apply (IH _ _ E k' t' Ht'). cbn [count_occ] in Hr. case_decide as Hd; destruct (Nat.eq_dec k k'); try done; lia.
Qed.

Lemma turn_returned st k : (forall k t, threads st !! k = Some t -> pc t = Returned) -> turn st k = Ok st.
Proof. intros Hr. unfold RdmaTest.turn. destruct (threads st !! k) as [t|] eqn:E; [|done]. by rewrite (Hr k t E). Qed.

Lemma turns_returned order st : (forall k t, threads st !! k = Some t -> pc t = Returned) -> turns order st = Ok st.
Proof. intros Hr. induction order as [|k order IH]; cbn [RdmaTest.turns]; [done|]. by rewrite turn_returned. Qed.

Lemma completed_returned st : (forall k t, threads st !! k = Some t -> pc t = Returned) -> completed st = true.
Proof.
  intros Hr. unfold completed. apply forallb_forall. intros t Ht%list_elem_of_In. apply list_elem_of_lookup in Ht as [k Hk].
  by rewrite (Hr k t Hk).
Qed.


(** *** The handlers *)

Lemma key_fits k j : (k < n)%nat -> (j < m)%nat -> fits 0 (key k j).
Proof using Hn Hm Hkeys. intros Hk Hj. split; [done|]. by apply (key_range num_threads num_iters). Qed.

Lemma test_put (bs : list (backend C)) (M : pages) page k j : (k < n)%nat -> (j < m)%nat -> length bs = length bs0 -> hk bs M ->
  exists bs' r, dcc_handle_put_page cfg G bs page false 0 (key k j) = Ok (bs', r) /\ length bs' = length bs0 /\
    hk bs' (if r =? 0 then {[(0, key k j)]} ∪ M else M).
Proof using Hsend Hcli Hsvrs Hsome Hn Hm Hkeys.
  intros Hk Hj Hl Hhk. destruct (server_found cfg G bs0 Hsvrs Hsome bs 0 (key k j) Hl) as [b Hb].
  destruct (handle_put cfg G cli Hcli bs M page false 0 (key k j) b (key_fits k j Hk Hj) Hhk Hb) as (refused & _ & _ & E & Hs).
  rewrite Hl in Hs. revert E Hs. destruct (Hsend (be_ctrl b) page (Keys.Driver.make_longkey cli 0 (key k j))) as (c & r & ->).
  destruct (dcc_handle_put_page _ _ _ _ _ _ _) as [[bs' r']|e]; [|by destruct refused]. intros _ Hs. by exists bs', r'; split; [|by apply Hs].
Qed.

(** With the hash table, a page that is not known is not found. *)
Lemma test_get (bs : list (backend C)) (M : pages) page k j : (k < n)%nat -> (j < m)%nat -> length bs = length bs0 -> hk bs M ->
  exists bs' page' r, dcc_handle_get_page cfg G bs page 0 (key k j) = Ok (bs', (page', r)) /\ length bs' = length bs0 /\
    hk bs' (M ∖ {[(0, key k j)]}) /\ (metadata_type cfg = HASH_TABLE -> (0, key k j) ∉ M -> r <> 0).
Proof using Hwrite Hex Hcli Hsvrs Hsome Hn Hm Hkeys.
  intros Hk Hj Hl Hhk. pose proof (key_fits k j Hk Hj) as Hf. destruct (server_found cfg G bs0 Hsvrs Hsome bs 0 (key k j) Hl) as [b Hb].
  destruct (page_known cfg G cli bs M 0 (key k j) b Hf Hhk Hb) as (known & Ea & _ & Hknown).
  destruct (handle_get cfg G cli Hcli bs M page 0 (key k j) b known Hf Hhk Hb Ea) as [E Hs]. rewrite Hl in Hs. revert E Hs.
  destruct (Hwrite (be_ctrl b) page (Keys.Driver.make_longkey cli 0 (key k j))) as (c & p & r & ->).
  destruct (dcc_handle_get_page _ _ _ _ _ _) as [[bs' [p' r']]|e]; [|by destruct known]. intros E Hs. exists bs', p', r'.
  destruct (Hs _ _ _ eq_refl) as [Hl' Hhk']. rewrite Hex in Hhk'. split_and!; [done..|]. intros Ht Hno.
  rewrite (Hknown Ht), bool_decide_eq_false_2 in E by done. by injection E as _ _ ->.
Qed.

(** *** The put test *)

Abbreviation K k j := ((0, key k j) : Z * Z).
Abbreviation refused := (refused num_iters).

(** A thread and its data: what it has counted is what the servers refused. *)
Record put_thread (M : pages) (k : nat) (t : thread) (d : thread_data) : Prop := {
  pt_fn : fn t = PutTest;
  pt_tid : tid t = k;
  pt_pos : (pos t <= m)%nat;
  pt_bad : bad t = refused M k (pos t);
  pt_dummy : td_dummy d = false;
  pt_done : pc t = Returned -> pos t = m /\ td_ret d = bad t;
  pt_end : pc t = Completed -> pos t = m;
}.

Record put_inv (st : test C) (M : pages) : Prop := {
  pi_hk : hk (bs st) M;
  pi_len : length (bs st) = length bs0;
  pi_rpages : length (rpages st) = n;
  pi_threads : length (threads st) = n;
  pi_args : exists ds, args st = Some ds /\ length ds = n /\
    forall k t d, threads st !! k = Some t -> ds !! k = Some d -> put_thread M k t d;
  pi_pages : forall x, x ∈ M -> exists k j t, x = K k j /\ threads st !! k = Some t /\ (j < pos t)%nat /\ (j < m)%nat;
}.

(** The data of an existing thread. *)
Lemma put_data st M k t : put_inv st M -> threads st !! k = Some t ->
  exists ds d, args st = Some ds /\ ds !! k = Some d /\ put_thread M k t d /\ (k < n)%nat.
Proof.
  intros [_ _ _ Hl (ds & Ea & Hd & Hds) _] Ht. assert (k < n)%nat as Hk by (rewrite <- Hl; by eapply lookup_lt_Some).
  destruct (lookup_lt_is_Some_2 ds k) as [d Ed]; [by rewrite Hd|]. exists ds, d. split_and!; try done. by apply Hds.
Qed.

(** Replacing one thread and its data, with the pages and the servers it left. *)
Lemma put_inv_set st M k t t' d' M' bs' rp' ds :
  put_inv st M -> threads st !! k = Some t -> args st = Some ds -> (pos t <= pos t')%nat ->
  hk bs' M' -> length bs' = length bs0 -> length rp' = n -> put_thread M' k t' d' ->
  (forall k' t1 d1, k' <> k -> put_thread M k' t1 d1 -> put_thread M' k' t1 d1) ->
  (forall x, x ∈ M' -> x ∈ M \/ exists j, x = K k j /\ (j < pos t')%nat /\ (j < m)%nat) ->
  put_inv (Test bs' rp' (<[k := t']> (threads st)) (Some (<[k := d']> ds))) M'.
Proof.
  intros [_ _ _ Hl (ds1 & Ea & Hd & Hds) Hp] Ht Ea' Hpos Hhk Hl' Hrp Hpt Hother HM. rewrite Ea in Ea'. injection Ea' as <-.
  assert (k < n)%nat as Hk by (rewrite <- Hl; by eapply lookup_lt_Some). split; try done; cbn [threads args].
  - by rewrite length_insert.
  - eexists. split; [done|]. rewrite length_insert. split; [done|]. intros k' t1 d1.
    destruct (decide (k' = k)) as [->|Hne].
    + rewrite !list_lookup_insert_eq by lia. by intros [= <-] [= <-].
    + rewrite !list_lookup_insert_ne by done. intros Ht1 Hd1. apply Hother; [done|by apply Hds].
  - intros x [Hx|(j & -> & Hj & Hjm)]%HM.
    + destruct (Hp _ Hx) as (k1 & j & t1 & -> & Ht1 & Hj & Hjm).
      destruct (decide (k1 = k)) as [->|Hne].
      * exists k, j, t'. rewrite list_lookup_insert_eq by lia. rewrite Ht in Ht1. injection Ht1 as <-. split_and!; try done. lia.
      * exists k1, j, t1. by rewrite list_lookup_insert_ne.
    + exists k, j, t'. rewrite list_lookup_insert_eq by lia. done.
Qed.

Lemma put_iterate st M k t : put_inv st M -> threads st !! k = Some t -> pc t = Running -> (pos t < m)%nat ->
  exists st' M', put_page cfg G num_threads num_iters g st k t = Ok st' /\ put_inv st' M'.
Proof using Hsend Hwrite Hex Hcli Hsvrs Hsome Hn Hm Hkeys.
  intros Hi Ht Epc Hp. destruct (put_data st M k t Hi Ht) as (ds & d & Ea & Ed & Hpt & Hk).
  destruct Hpt as [Ef Et Hpos Hbad Hdum Hdone Hend]. pose proof Hi as [Hhk Hl Hrp Hlt _ Hpages].
  unfold put_page, data_of. rewrite Ea. cbn [deref]. obind. rewrite Et, Ed. cbn [deref]. obind.
  rewrite (key_at_eq num_threads num_iters h0 Hn Hm Hkeys t) by (rewrite ?Et; done). obind. rewrite Hdum.
  rewrite (vpage_at_eq num_threads num_iters h0 t) by (rewrite ?Et; done). obind. rewrite Et.
  unfold put_unmapped. destruct (server_found cfg G bs0 Hsvrs Hsome (bs st) 0 (key k (pos t)) Hl) as [b Eb]. rewrite Eb. cbn [deref]. obind.
  rewrite Hex. obind. rewrite andb_false_r.
  destruct (test_put (bs st) M (page_text (key k (pos t))) k (pos t) Hk Hp Hl Hhk) as (bs' & r & E & Hl' & Hhk'). rewrite E. obind.
  assert (K k (pos t) ∉ M) as Hfresh.
  { intros EM. destruct (Hpages _ EM) as (k' & j & t' & [= Ek] & Ht' & Hj & Hjm).
    apply key_inj in Ek as [<- <-]; [|done..]. rewrite Ht in Ht'. injection Ht' as <-. lia. }
  set (M' := if r =? 0 then {[K k (pos t)]} ∪ M else M) in *.
  eexists _, M'. split; [done|]. replace (Some ds) with (Some (<[k := d]> ds)) by (by rewrite list_insert_id).
  assert (forall k1 p, (p <= m)%nat -> (k1 = k -> p <= pos t)%nat -> refused M' k1 p = refused M k1 p) as Hsame.
  { intros k1 p Hp1 Hkp. unfold M'. destruct (r =? 0); [|done]. apply refused_insert; done. }
  eapply put_inv_set; try done; cbn [next pos pc].
  - lia.
  - split; cbn [next fn tid pos bad pc]; try done.
    + rewrite refused_S, Hsame, Hbad by lia. unfold M'. destruct (Z.eqb_spec r 0) as [->|Hne]; cbn [negb].
      * rewrite decide_True by set_solver. done.
      * by rewrite decide_False.
    + by rewrite Epc.
    + by rewrite Epc.
  - intros k' t1 d1 Hne [? ? ? Hb ? ? ?]. split; try done. rewrite Hb, Hsame; [done|done|congruence].
  - intros x. unfold M'. destruct (r =? 0); [|by left]. rewrite elem_of_union, elem_of_singleton. intros [->|Hx]; [|by left].
    right. exists (pos t). split_and!; [done|lia|done].
Qed.

Lemma put_turn st M k : put_inv st M -> exists st' M', turn st k = Ok st' /\ put_inv st' M'.
Proof using Hsend Hwrite Hex Hcli Hsvrs Hsome Hn Hm Hkeys.
  intros Hi. unfold RdmaTest.turn. destruct (threads st !! k) as [t|] eqn:Ht; [|by exists st, M].
  destruct (put_data st M k t Hi Ht) as (ds & d & Ea & Ed & Hpt & Hk). pose proof Hpt as [Ef Et Hpos Hbad Hdum Hdone Hend].
  pose proof Hi as [Hhk Hl Hrp Hlt _ Hpages]. destruct (pc t) eqn:Epc.
  - destruct (Z.ltb_spec (Z.of_nat (pos t)) num_iters) as [Hp|Hp].
    + rewrite Ef. apply (put_iterate st M); [done..|lia].
    + eexists _, M. split; [done|]. unfold set_thread. rewrite Ea. replace (Some ds) with (Some (<[k := d]> ds)) by (by rewrite list_insert_id).
      eapply put_inv_set; try done; [|intros; by left]. split; try done. cbn. intros _. lia.
  - unfold data_of. rewrite Ea. cbn [deref]. obind. rewrite Et, Ed. cbn [deref]. obind. eexists _, M. split; [done|].
    unfold set_thread, store_data. cbn [bs rpages threads args]. rewrite Ea. cbn [fmap option_fmap option_map]. rewrite Et.
    eapply put_inv_set; try done; [|intros; by left]. unfold result. rewrite Ef. split; cbn [at_pc fn tid pos bad pc td_dummy td_ret]; try done. intros _. by split; [apply Hend|].
  - by exists st, M.
Qed.

Lemma put_turns order : forall st M, put_inv st M -> exists st' M', turns order st = Ok st' /\ put_inv st' M'.
Proof using Hsend Hwrite Hex Hcli Hsvrs Hsome Hn Hm Hkeys.
  induction order as [|k order IH]; intros st M Hi; cbn [RdmaTest.turns]; [by exists st, M|].
  destruct (put_turn st M k Hi) as (st1 & M1 & -> & Hi1). obind. by eapply IH.
Qed.

(** *** The get test *)

Record get_thread (M1 : pages) (k : nat) (t : thread) (d : thread_data) : Prop := {
  gt_fn : fn t = GetTest;
  gt_tid : tid t = k;
  gt_pos : (pos t <= m)%nat;
  gt_bad : bad t = 0;
  gt_found : 0 <= not_found t <= Z.of_nat (pos t);
  gt_table : metadata_type cfg = HASH_TABLE -> refused M1 k (pos t) <= not_found t;
  gt_done : pc t = Returned -> pos t = m /\ td_ret d = 0 /\ td_ret2 d = not_found t;
  gt_end : pc t = Completed -> pos t = m;
}.

(** [M1]: the pages at the end of the put test, of which gets take pages out. *)
Record get_inv (M1 : pages) (st : test C) (M : pages) : Prop := {
  gi_hk : hk (bs st) M;
  gi_sub : M ⊆ M1;
  gi_len : length (bs st) = length bs0;
  gi_rpages : length (rpages st) = n;
  gi_threads : length (threads st) = (n + n)%nat;
  gi_put : forall k t, (k < n)%nat -> threads st !! k = Some t -> pc t = Returned;
  gi_args : exists ds, args st = Some ds /\ length ds = n /\
    forall k t d, threads st !! (n + k)%nat = Some t -> ds !! k = Some d -> get_thread M1 k t d;
}.

Lemma get_data M1 st M k t : get_inv M1 st M -> threads st !! (n + k)%nat = Some t ->
  exists ds d, args st = Some ds /\ ds !! k = Some d /\ get_thread M1 k t d /\ (k < n)%nat.
Proof.
  intros [_ _ _ _ Hl _ (ds & Ea & Hd & Hds)] Ht. assert (n + k < n + n)%nat as Hk by (rewrite <- Hl; by eapply lookup_lt_Some).
  destruct (lookup_lt_is_Some_2 ds k) as [d Ed]; [lia|]. exists ds, d. split_and!; try done; [by apply Hds|lia].
Qed.

Lemma get_inv_set M1 st M k t' d' M' bs' rp' ds :
  get_inv M1 st M -> (k < n)%nat -> args st = Some ds ->
  hk bs' M' -> M' ⊆ M -> length bs' = length bs0 -> length rp' = n -> get_thread M1 k t' d' ->
  get_inv M1 (Test bs' rp' (<[(n + k)%nat := t']> (threads st)) (Some (<[k := d']> ds))) M'.
Proof.
  intros [_ Hs _ _ Hl Hput (ds1 & Ea & Hd & Hds)] Hk Ea' Hhk HM Hl' Hrp Hgt. rewrite Ea in Ea'. injection Ea' as <-.
  split; try done; cbn [threads args].
  - by etrans.
  - by rewrite length_insert.
  - intros k' t1 Hk'. rewrite list_lookup_insert_ne by lia. by apply Hput.
  - eexists. split; [done|]. rewrite length_insert. split; [done|]. intros k' t1 d1.
    destruct (decide (k' = k)) as [->|Hne].
    + rewrite !list_lookup_insert_eq by lia. by intros [= <-] [= <-].
    + rewrite !list_lookup_insert_ne by lia. by apply Hds.
Qed.

Section gets.
Context (M1 : pages).

Lemma get_iterate st M k t : get_inv M1 st M -> threads st !! (n + k)%nat = Some t -> pc t = Running -> (pos t < m)%nat ->
  exists st' M', get_page memcmp_len cfg G g st (n + k) t = Ok st' /\ get_inv M1 st' M'.
Proof using Hsend Hwrite Hex Hcli Hsvrs Hsome Hn Hm Hkeys.
  intros Hi Ht Epc Hp. destruct (get_data M1 st M k t Hi Ht) as (ds & d & Ea & Ed & Hgt & Hk).
  destruct Hgt as [Ef Et Hpos Hbad Hnf Htab Hdone Hend]. pose proof Hi as [Hhk Hs Hl Hrp Hlt _ _].
  unfold get_page. rewrite (key_at_eq num_threads num_iters h0 Hn Hm Hkeys t) by (rewrite ?Et; done). obind. rewrite Et.
  destruct (lookup_lt_is_Some_2 (rpages st) k) as [p Erp]; [by rewrite Hrp|]. rewrite Erp. cbn [deref]. obind.
  destruct (test_get (bs st) M p k (pos t) Hk Hp Hl Hhk) as (bs' & page' & r & E & Hl' & Hhk' & Hfound). rewrite E. obind.
  rewrite (vpage_at_eq num_threads num_iters h0 t) by (rewrite ?Et; done). obind. rewrite Et in *.
  eexists _, (M ∖ {[K k (pos t)]}). split; [done|]. rewrite Ea. replace (Some ds) with (Some (<[k := d]> ds)) by (by rewrite list_insert_id).
  eapply get_inv_set; try done; [set_solver|by rewrite length_insert|].
  split; cbn [next fn tid pos bad not_found pc]; try done.
  - unfold memcmp, memcmp_len. cbn [take]. rewrite bool_decide_eq_true_2, andb_false_r by done. lia.
  - case_match; lia.
  - intros HT. specialize (Htab HT). rewrite refused_S. case_decide as Hin; [case_match; lia|].
    rewrite (proj2 (Z.eqb_neq r 0)) by (apply Hfound; [done|set_solver]). cbn [negb]. lia.
  - by rewrite Epc.
  - by rewrite Epc.
Qed.

Lemma get_turn st M k : get_inv M1 st M -> exists st' M', turn st k = Ok st' /\ get_inv M1 st' M'.
Proof using Hsend Hwrite Hex Hcli Hsvrs Hsome Hn Hm Hkeys.
  intros Hi. unfold RdmaTest.turn. destruct (threads st !! k) as [t|] eqn:Ht; [|by exists st, M].
  destruct (decide (k < n)%nat) as [Hlt|Hge]; [rewrite (gi_put _ _ _ Hi k t Hlt Ht); by exists st, M|].
  replace k with (n + (k - n))%nat in * by lia. set (k' := (k - n)%nat) in *. clearbody k'.
  destruct (get_data M1 st M k' t Hi Ht) as (ds & d & Ea & Ed & Hgt & Hk). pose proof Hgt as [Ef Et Hpos Hbad Hnf Htab Hdone Hend].
  pose proof Hi as [Hhk Hs Hl Hrp _ _ _]. destruct (pc t) eqn:Epc.
  - destruct (Z.ltb_spec (Z.of_nat (pos t)) num_iters) as [Hp|Hp].
    + rewrite Ef. apply (get_iterate st M); [done..|lia].
    + eexists _, M. split; [done|]. unfold set_thread. rewrite Ea. replace (Some ds) with (Some (<[k' := d]> ds)) by (by rewrite list_insert_id).
      eapply get_inv_set; try done. split; try done. cbn. intros _. lia.
  - unfold data_of. rewrite Ea. cbn [deref]. obind. rewrite Et, Ed. cbn [deref]. obind. eexists _, M. split; [done|].
    unfold set_thread, store_data. cbn [bs rpages threads args]. rewrite Ea. cbn [fmap option_fmap option_map]. rewrite Et.
    eapply get_inv_set; try done. unfold result. rewrite Ef.
    split; cbn [at_pc fn tid pos bad not_found pc td_dummy td_ret td_ret2]; try done. intros _. by split; [apply Hend|].
  - by exists st, M.
Qed.

Lemma get_turns order : forall st M, get_inv M1 st M -> exists st' M', turns order st = Ok st' /\ get_inv M1 st' M'.
Proof using Hsend Hwrite Hex Hcli Hsvrs Hsome Hn Hm Hkeys.
  induction order as [|k order IH]; intros st M Hi; cbn [RdmaTest.turns]; [by exists st, M|].
  destruct (get_turn st M k Hi) as (st1 & M2 & -> & Hi1). obind. by eapply IH.
Qed.
End gets.

(** *** From one test to the next *)

Lemma sums_bounds (ds : list thread_data) (f : thread_data -> Z) (h : nat -> Z) : length ds = n ->
  (forall k d, ds !! k = Some d -> f d = h k) -> sum_with f ds = sum_with h (seq 0 n).
Proof.
  intros Hl Hf. apply Z.le_antisymm; rewrite <- Hl.
  - apply sum_with_seq_ge. intros k d Hk. rewrite (Hf k d Hk). lia.
  - apply sum_with_seq_le. intros k d Hk. rewrite Nat.add_0_l, (Hf k d Hk). lia.
Qed.

Lemma put_start st : hk bs0 ∅ -> st = Test bs0 (replicate n zero_page) [] (Some []) ->
  put_inv (with_new_threads st (start PutTest <$> seq 0 n) (replicate n (ThreadData_ 0 0 false))) ∅.
Proof.
  intros Hhk ->. split; cbn [with_new_threads bs rpages threads args]; try done.
  - apply length_replicate.
  - by rewrite length_app, length_fmap, length_seq.
  - eexists. split; [done|]. rewrite length_replicate. split; [done|]. intros k t d.
    rewrite app_nil_l. intros (i & -> & Hi)%list_lookup_fmap_Some [-> _]%lookup_replicate. apply lookup_seq in Hi as [-> _]. split; cbn; try done. lia.
Qed.

Lemma get_start st M : put_inv st M -> (forall k t, threads st !! k = Some t -> pc t = Returned) ->
  get_inv M (with_new_threads st (start GetTest <$> seq 0 n) (reset true false st)) M.
Proof.
  intros [Hhk Hl Hrp Ht (ds & Ea & Hd & _) _] Hr. unfold reset. rewrite Ea. cbn [default].
  split; cbn [with_new_threads bs rpages threads args]; try done.
  - by rewrite length_app, length_fmap, length_seq, Ht.
  - intros k t Hk. rewrite lookup_app_l by lia. apply Hr.
  - eexists. split; [done|]. rewrite length_fmap. split; [done|]. intros k t d.
    rewrite lookup_app_r, Ht by lia. replace (n + k - n)%nat with k by lia.
    intros (i & -> & Hi)%list_lookup_fmap_Some _. apply lookup_seq in Hi as [-> _]. split; cbn; try done. lia.
Qed.

(** The put test and the get test, for schedules that let every thread end. *)
Lemma main_sound order1 order2 late elapsed1 elapsed2 : hk bs0 ∅ ->
  (forall k, (k < n)%nat -> (m + 2 <= count_occ Nat.eq_dec order1 k)%nat) ->
  (forall k, (k < n)%nat -> (m + 2 <= count_occ Nat.eq_dec order2 (n + k))%nat) ->
  exists st put get, main memcmp_len cfg G num_threads num_iters total g GET_TEST order1 order2 late elapsed1 elapsed2
      (Test bs0 (replicate n zero_page) [] (Some [])) = Ok (Some (st, put, get)) /\
    rp_ret get = 0 /\ 0 <= rp_ret put <= num_threads * num_iters /\ 0 <= rp_ret2 get <= num_threads * num_iters /\
    (metadata_type cfg = HASH_TABLE -> rp_ret put <= rp_ret2 get) /\
    rp_pass put = bool_decide (rp_ret put = 0) /\ rp_pass get = bool_decide (rp_ret2 get = 0).
Proof using Hsend Hwrite Hex Hcli Hsvrs Hsome Hn Hm Hkeys.
  intros Hhk Ho1 Ho2. unfold main, prepare_put_test.
  destruct (put_turns order1 _ _ (put_start _ Hhk eq_refl)) as (st1 & M1 & E1 & Hi1). rewrite E1. obind.
  assert (forall k t, threads st1 !! k = Some t -> pc t = Returned) as Hr1.
  { intros k t Ht. assert (k < n)%nat as Hk by (rewrite <- (pi_threads _ _ Hi1); by eapply lookup_lt_Some).
    destruct (turns_move _ _ _ E1 k (start PutTest k)) as (t' & Ht' & Hpc).
    - cbn [with_new_threads threads app]. rewrite list_lookup_fmap, lookup_seq_lt by done. by rewrite Nat.add_0_l.
    - specialize (Ho1 k Hk). unfold rem. cbn [start pc pos]. lia.
    - rewrite Ht in Ht'. by injection Ht' as ->. }
  assert (forall e, exists lat, latency num_threads num_iters e = Ok lat) as Hlat.
  { intros e. unfold latency. rewrite wrap_small by (unfold u_ok; nia). rewrite !(proj2 (Z.eqb_neq _ 0)) by lia. by eexists. }
  unfold report_of at 1. rewrite completed_returned by done. destruct (Hlat elapsed1) as [l1 ->]. obind.
  unfold second_test, prepare_get_test.
  destruct (get_turns M1 order2 _ _ (get_start st1 M1 Hi1 Hr1)) as (st2 & M2 & E2 & Hi2). rewrite E2. obind.
  assert (forall k t, threads st2 !! k = Some t -> pc t = Returned) as Hr2.
  { intros k t Ht. destruct (decide (k < n)%nat) as [Hk|Hk]; [by eapply gi_put|].
    assert (k < n + n)%nat as Hkn by (rewrite <- (gi_threads _ _ _ Hi2); by eapply lookup_lt_Some).
    destruct (turns_move _ _ _ E2 k (start GetTest (k - n))) as (t' & Ht' & Hpc).
    - cbn [with_new_threads threads]. rewrite lookup_app_r, (pi_threads _ _ Hi1), list_lookup_fmap, lookup_seq_lt by (rewrite ?(pi_threads _ _ Hi1); lia). by rewrite Nat.add_0_l.
    - specialize (Ho2 (k - n)%nat). unfold rem. cbn [start pc pos]. replace (n + (k - n))%nat with k in Ho2 by lia. lia.
    - rewrite Ht in Ht'. by injection Ht' as ->. }
  unfold report_of. rewrite completed_returned by done. destruct (Hlat elapsed2) as [l2 ->]. obind.
  rewrite turns_returned by done. obind. eexists _, _, _. split; [done|]. cbn [rp_ret rp_ret2 rp_pass].
  destruct (pi_args _ _ Hi1) as (ds1 & Ea1 & Hl1 & Hds1). destruct (gi_args _ _ _ Hi2) as (ds2 & Ea2 & Hl2 & Hds2).
  unfold sum_ret. rewrite Ea1, Ea2. cbn [default]. unfold id.
  assert (forall k d, ds1 !! k = Some d -> td_ret d = refused M1 k m) as H1.
  { intros k d Hd. assert (k < n)%nat as Hk by (rewrite <- Hl1; by eapply lookup_lt_Some).
    destruct (lookup_lt_is_Some_2 (threads st1) k) as [t Ht]; [by rewrite (pi_threads _ _ Hi1)|].
    destruct (Hds1 k t d Ht Hd) as [_ _ _ Hb _ Hdone _]. destruct (Hdone (Hr1 k t Ht)) as [<- ->]. done. }
  assert (forall k d, ds2 !! k = Some d -> td_ret d = 0 /\ 0 <= td_ret2 d <= num_iters /\ (metadata_type cfg = HASH_TABLE -> refused M1 k m <= td_ret2 d)) as H2.
  { intros k d Hd. assert (k < n)%nat as Hk by (rewrite <- Hl2; by eapply lookup_lt_Some).
    destruct (lookup_lt_is_Some_2 (threads st2) (n + k)) as [t Ht]; [rewrite (gi_threads _ _ _ Hi2); lia|].
    destruct (Hds2 k t d Ht Hd) as [_ _ _ _ Hb Htab Hdone _]. destruct (Hdone (Hr2 _ t Ht)) as (Hp & -> & ->). rewrite Hp in Hb, Htab. split; [done|]. split; [lia|done]. }
  assert (forall c, sum_with (fun _ : nat => c) (seq 0 n) = num_threads * c) as Hconst.
  { intros c. rewrite <- (Z2Nat.id num_threads) at 2 by lia. generalize n, 0%nat. intros k i. revert i. induction k as [|k IHk]; intros i; [cbn; lia|].
    cbn [seq sum_with foldr]. specialize (IHk (S i)). unfold sum_with in *. lia. }
  rewrite (sums_bounds ds1 td_ret (fun k => refused M1 k m) Hl1 H1).
  rewrite (sums_bounds ds2 td_ret (fun _ => 0) Hl2) by (intros k d Hd; by apply (H2 k d Hd)). rewrite (Hconst 0), Z.mul_0_r.
  split; [done|]. split; [split|split; [split|split; [|split]]].
  - apply sum_with_nonneg. intros k _. apply refused_bounds.
  - rewrite <- (Hconst num_iters). rewrite <- (length_seq n 0) at 1. apply sum_with_seq_le. intros k d _. pose proof (refused_bounds num_iters M1 (0 + k) m). lia.
  - apply sum_with_nonneg. intros d Hd. apply list_elem_of_lookup in Hd as [k Hd]. destruct (H2 k d Hd) as [_ [? _]]. lia.
  - rewrite <- (Hconst num_iters), <- Hl2. apply sum_with_seq_ge. intros k d Hd. destruct (H2 k d Hd) as [_ [? _]]. lia.
  - intros Ht. rewrite <- Hl2. apply sum_with_seq_le. intros k d Hd. rewrite Nat.add_0_l. destruct (H2 k d Hd) as [_ [_ ?]]. by auto.
  - case_bool_decide as Hb; [by rewrite Hb|]. by rewrite (proj2 (Z.eqb_neq _ _)).
  - case_bool_decide as Hb; [by rewrite Hb|]. by rewrite (proj2 (Z.eqb_neq _ _) Hb).
Qed.
End soundness.

(** ** Properties *)



(** What a run of the test module means, over any number of servers whose calls return, whatever they answer (exclusive policy, not
    the counting filter), for schedules in which every thread stores its result before the report is made ([late_results_lost] shows the others):
    loading the module returns 0 and gives all its memory back, leaving its debug files; the get test never finds a wrong value, whatever
    pages the servers return; with the hash table, the pages it does not find are at least those whose puts
    were refused, so that a passed get test implies a passed put test. *)
Theorem test_module_sound {C} `{Transport C} (cfg : dcc_config_t) (G cli : Z) (num_hash : nat) (num_bits : Z) (ptr : bool) (num_rmem_pages : Z) (bs : list (backend C))
    CONFIG_DEBUG_FS dir file input_size_mb num_threads sch :
  (forall c page key, exists c' r, send_page c page key = Ok (c', r)) ->
  (forall c page key, exists c' page' r, write_msg c page key = Ok (c', page', r)) ->
  let num_iters := 256 * input_size_mb / num_threads in
  exclusive_policy cfg = true -> metadata_type cfg <> COUNTING_BF ->
  0 < num_bits < 2 ^ 32 -> 2 <= num_rmem_pages < 2 ^ 32 -> u_ok 4 cli -> num_svrs cfg = Z.of_nat (length bs) -> (0 < length bs)%nat ->
  Forall (fresh_backend cfg cli num_hash num_bits ptr num_rmem_pages) bs ->
  0 < num_threads <= 256 * input_size_mb -> 256 * input_size_mb < 10 ^ 7 ->
  (forall k, (k < Z.to_nat num_threads)%nat -> (Z.to_nat num_iters + 2 <= count_occ Nat.eq_dec (order1 sch) k)%nat) ->
  (forall k, (k < Z.to_nat num_threads)%nat -> (Z.to_nat num_iters + 2 <= count_occ Nat.eq_dec (order2 sch) (Z.to_nat num_threads + k))%nat) ->
  exists st put get,
    init_rdma_test_module (fun _ => false) cfg G CONFIG_DEBUG_FS dir file GET_TEST input_size_mb num_threads sch bs =
      Ok (Some (ModuleEnd C 0 [] (create_debugfs CONFIG_DEBUG_FS dir file).1 (Some (st, put, get)))) /\
    rp_ret get = 0 /\ 0 <= rp_ret put <= num_threads * num_iters /\ 0 <= rp_ret2 get <= num_threads * num_iters /\
    (metadata_type cfg = HASH_TABLE -> rp_ret put <= rp_ret2 get /\ (rp_pass get = true -> rp_pass put = true)).
Proof.
  intros Hsend Hwrite num_iters Hex Ht Hb Hr Hcli Hsv Hl Hbs Hn Hmb Ho1 Ho2.
  assert (hk_inv cfg G cli bs ∅) as Hhk by by eapply hk_init.
  assert (0 < num_iters) as Hm by (apply Z.div_str_pos; lia).
  assert (num_threads * num_iters < 10 ^ 7) as Hk by (pose proof (Z.mul_div_le (256 * input_size_mb) num_threads); lia).
  assert (wrap 64 input_size_mb <<₆₄ 20 = input_size_mb * 2 ^ 20) as Etc.
  { rewrite (wrap_small 64 input_size_mb) by (unfold u_ok; lia). unfold shl64. rewrite Z.shiftl_mul_pow2 by done. apply wrap_small. unfold u_ok. lia. }
  assert (wrap 32 (input_size_mb * 2 ^ 20 / 4096 / wrap 64 num_threads) = num_iters) as Eit.
  { rewrite (wrap_small 64 num_threads) by (unfold u_ok; lia). replace (input_size_mb * 2 ^ 20) with (256 * input_size_mb * 4096) by lia.
    rewrite Z.div_mul by done. apply wrap_small. unfold u_ok. fold num_iters. assert (num_iters <= num_threads * num_iters) by nia. lia. }
  destruct (main_sound Hsend Hwrite cfg G Hex cli Hcli bs Hsv Hl num_threads num_iters (input_size_mb * 2 ^ 20)
    (needed num_threads num_iters ++ [Comp] ++ thread_blocks (Z.to_nat num_threads)) ltac:(lia) ltac:(lia) ltac:(lia)
    (order1 sch) (order2 sch) (late sch) (elapsed1 sch) (elapsed2 sch) Hhk Ho1 Ho2)
    as (st & put & get & E & Hz & Hput & Hget & Hle & Hpp & Hpg).
  exists st, put, get. split.
  - unfold init_rdma_test_module. rewrite Etc, Eit. rewrite (wrap_small 64 num_threads) by (unfold u_ok; lia). rewrite (proj2 (Z.eqb_neq num_threads 0)) by lia.
    rewrite init_pages_ok by (done || lia). obind. rewrite Z.eqb_refl. unfold alloc_args, kzalloc. cbn [negb andb]. rewrite (proj2 (Z.leb_le 0 num_threads)) by lia.
    cbn [negb]. destruct (create_debugfs _ _ _) as [files r]. replace (forallb _ _) with true by (symmetry; by apply forallb_forall). cbn [andb]. obind.
    unfold hold, set_held. cbn [g_held put_threads get_threads inv_threads return_pages vpages keys loaded].
    rewrite <- app_assoc. unfold loaded in E. rewrite E. obind. unfold free_args. cbn [g_held].
    destruct (release_all_ok ((ThreadData <$> seq 0 (Z.to_nat num_threads)) ++ [Args])
      (needed num_threads num_iters ++ [Comp] ++ thread_blocks (Z.to_nat num_threads)) (Comp :: needed num_threads num_iters)) as (h1 & -> & P1).
    { unfold thread_blocks. generalize (ThreadData <$> seq 0 (Z.to_nat num_threads)), (needed num_threads num_iters). intros. perm. }
    obind. unfold set_held. cbn [g_held put_threads get_threads inv_threads return_pages vpages keys]. destruct (release_ok _ _ _ P1) as (h2 & -> & P2). obind.
    destruct (exit_pages_ok num_threads num_iters h2 []) as (h3 & E3 & P3); [by rewrite app_nil_r|].
    cbn [g_held put_threads get_threads inv_threads return_pages vpages keys]. unfold loaded in E3. rewrite E3. obind.
    cbn [g_held]. apply Permutation_nil_r in P3 as ->. done.
  - split; [done|]. split; [done|]. split; [done|]. intros HT. specialize (Hle HT). split; [done|]. rewrite Hpp, Hpg.
    intros Hpass%bool_decide_eq_true. apply bool_decide_eq_true. lia.
Qed.

(** A schedule for two threads. *)
Definition two_threads : schedule := Schedule (concat (replicate 130 [0; 1]))%nat (concat (replicate 130 [2; 3]))%nat [] 5000000 7000000.

Lemma test_module_sound_witness :
  exists st put get,
    init_rdma_test_module (fun _ => false) (DccConfig 1 true HASH_TABLE false) 1 true true true GET_TEST 1 2 two_threads [gap_backend] =
      Ok (Some (ModuleEnd direct 0 [] (create_debugfs true true true).1 (Some (st, put, get)))) /\
    rp_ret get = 0 /\ 0 <= rp_ret put <= 2 * (256 * 1 / 2) /\ 0 <= rp_ret2 get <= 2 * (256 * 1 / 2) /\
    (metadata_type (DccConfig 1 true HASH_TABLE false) = HASH_TABLE -> rp_ret put <= rp_ret2 get /\ (rp_pass get = true -> rp_pass put = true)).
Proof.
  apply (test_module_sound (DccConfig 1 true HASH_TABLE false) 1 1 4 97 true 64 [gap_backend] true true true 1 2 two_threads); try done.
  - intros c page key. by eexists _, _.
  - intros c page key. cbn. destruct (direct_pages c !! key); by eexists _, _, _.
  - cbn. lia.
  - repeat constructor.
  - intros [|[|k]] Hk; [apply Nat.leb_le; vm_compute; reflexivity..|cbn in Hk; lia].
  - intros [|[|k]] Hk; [apply Nat.leb_le; vm_compute; reflexivity..|cbn in Hk; lia].
Defined.

(** Two servers: one refuses every put, one returns another page. *)
Inductive bad_server := Refuses | Garbles.
#[export] Instance bad_transport : Transport bad_server := {
  send_page c page key := Ok (c, match c with Refuses => -6 | Garbles => 0 end);
  write_msg c page key := Ok (c, [1; 2; 3], match c with Refuses => 1 | Garbles => 0 end);
  write_msg2 c key := Ok (c, 1);
}.
Definition bad_run (c : bad_server) (order1 order2 late : list nat) : outcome (option (bool * bool)) :=
  r ← main memcmp_len (DccConfig 1 true COOP_BF false) 1 1 1 4096 (loaded 1 1 []) GET_TEST order1 order2 late 1000 1000
        (Test [Backend c 1 (MetaBf true (bf_new 4 97 true)) af_init] [zero_page] [] (Some []));
  Ok (match r with Some (_, put, get) => Some (rp_pass put, rp_pass get) | None => None end).

(** What the test does not see: the puts that a thread has counted as failed, when it stores its result after
    it has signalled its completion: the put test then passes although every put was refused (and fails when the store comes in time);
    a wrong page, as pages are compared over a length of 0; and a thread that stores its result after the test has freed its
    data writes to freed memory. *)
Theorem late_results_lost :
  bad_run Refuses [0; 0]%nat [1; 1; 1]%nat []%nat = Ok (Some (true, false)) /\ bad_run Refuses [0; 0; 0]%nat [1; 1; 1]%nat []%nat = Ok (Some (false, false)) /\
  bad_run Garbles [0; 0; 0]%nat [1; 1; 1]%nat []%nat = Ok (Some (true, true)) /\
  bad_run Garbles [0; 0; 0]%nat [1; 1]%nat [1]%nat = Throw "my_data: freed" /\ bad_run Garbles [0; 0]%nat [1; 1; 1]%nat [0]%nat = Throw "my_data: freed" /\
  bad_run Garbles [0]%nat [1; 1; 1]%nat []%nat = Ok None.
Proof. split_and!; vm_compute; reflexivity. Qed.

(** The bounds of the test's parameters: without threads, or with more threads than pages, it divides by zero. *)
Example no_iterations {C} `{Transport C} (bs : list (backend C)) sch :
  init_rdma_test_module (fun _ => false) (DccConfig 1 true COOP_BF false) 1 true true true GET_TEST 1 0 sch bs = Throw "division by zero" /\
  latency 257 (1 * 2 ^ 20 / 4096 / 257) 1000 = Throw "division by zero" /\
  (8 <= length (str_of (10 ^ 7)))%nat /\ check_debugfs (fun _ => false) = 600000.
Proof. split_and!; vm_compute; first [reflexivity|lia]. Qed.
