(* ===== verification/FilterWorker.v ===== *)
(** * FilterWorker: the rounds that refresh the client's filter

    [driver/worker.c] ([do_update_filter], [dcc_backend_update_filter]) and the
    completion handler of the filter queue in [driver/rdma.c] ([process_imm]). One
    worker thread per server; they share the flag [filter_update_done], which the handler sets
    before it merges: two stores without a lock, between which the other threads run. So the
    handler is a sequence of steps here ([update_step]), and so is an addition ([add_step]). *)
From S2P Require Import Prelude Wire HashFuncs CountingBloom ClientFilter ClientFilterSpec.

(** ** State *)

(** Where a worker is in its loop: before its next round (asleep), between [metadata_blocking] and the message to
    the daemon, polling the flag, or gone. *)
Inductive worker_phase := Sleeping | Blocked | Waiting | Stopped.
#[export] Instance worker_phase_eq : EqDecision worker_phase.
Proof. solve_decision. Defined.

(** Where the handler is with a FILTER_UPDATE_END: none in hand, before the flag, before [bf_unblocking],
    and between the two statements of that. *)
Inductive handler_phase := Idle | Taken | Flagged | Cleared.
#[export] Instance handler_phase_eq : EqDecision handler_phase.
Proof. solve_decision. Defined.

(** Per server: its filter, its worker, the FILTER_UPDATE_BEGIN messages the daemon has not
    answered, the filters written whose FILTER_UPDATE_END has not been taken, and the handler. *)
Record wclient := WClient {
  wc_bf : bf;
  wc_phase : worker_phase;
  wc_requested : nat;
  wc_written : nat;
  wc_handler : handler_phase;
}.

Record wstate := WState { filter_update_done : bool; wclients : list wclient }.

Definition set_client (st : wstate) (i : nat) (x : wclient) : wstate := WState (filter_update_done st) (<[i := x]> (wclients st)).
Definition set_done (st : wstate) (b : bool) : wstate := WState b (wclients st).
Definition with_bf (x : wclient) (f : bf) : wclient := WClient f (wc_phase x) (wc_requested x) (wc_written x) (wc_handler x).
Definition with_phase (x : wclient) (p : worker_phase) : wclient := WClient (wc_bf x) p (wc_requested x) (wc_written x) (wc_handler x).
Definition with_handler (x : wclient) (h : handler_phase) : wclient := WClient (wc_bf x) (wc_phase x) (wc_requested x) (wc_written x) h.

(** ** The worker's loop *)

(** The start of a round: [metadata_blocking]. *)
Definition worker_round (st : wstate) (i : nat) : option wstate :=
  x ← wclients st !! i;
  match wc_phase x with
  | Sleeping => Some (set_client st i (with_phase (with_bf x (bf_blocking (wc_bf x))) Blocked))
  | _ => None
  end.

(** FILTER_UPDATE_BEGIN; the result of [dcc_rdma_send_msg] is not tested. *)
Definition worker_send (st : wstate) (i : nat) (posted : bool) : option wstate :=
  x ← wclients st !! i;
  match wc_phase x with
  | Blocked => Some (set_client st i (WClient (wc_bf x) Waiting (if posted then S (wc_requested x) else wc_requested x) (wc_written x) (wc_handler x)))
  | _ => None
  end.

(** The test of the flag: another second of sleep, or the end of the round. *)
Definition worker_poll (st : wstate) (i : nat) : option wstate :=
  x ← wclients st !! i;
  match wc_phase x with
  | Waiting => if filter_update_done st then Some (set_done (set_client st i (with_phase x Sleeping)) false) else Some st
  | _ => None
  end.

(** [kthread_should_stop], at the head of the loop or while polling. *)
Definition worker_stop (st : wstate) (i : nat) : option wstate :=
  x ← wclients st !! i;
  match wc_phase x with
  | Sleeping => Some (set_client st i (with_phase x Stopped))
  | Waiting => if filter_update_done st then None else Some (set_client st i (with_phase x Stopped))
  | _ => None
  end.

(** ** The daemon's answer *)

(** The daemon writes its filter over the client's bitmap. *)
Definition daemon_write (st : wstate) (i : nat) (words : list Z) : option wstate :=
  x ← wclients st !! i;
  match wc_requested x with
  | O => None
  | S n => Some (set_client st i (WClient (bf_remote_write (wc_bf x) words) (wc_phase x) n (S (wc_written x)) (wc_handler x)))
  end.

(** [process_imm] dispatches on the word as it came. *)
Definition process_imm (imm_data : Z) : handler_phase := if imm_data =? FILTER_UPDATE_END then Taken else Idle.

(** The handler takes a FILTER_UPDATE_END off its queue; it handles one after the other. *)
Definition take_end (st : wstate) (i : nat) : option wstate :=
  x ← wclients st !! i;
  match wc_handler x, wc_written x with
  | Idle, S n => Some (set_client st i (WClient (wc_bf x) (wc_phase x) (wc_requested x) n (process_imm FILTER_UPDATE_END)))
  | _, _ => None
  end.

(** [dcc_backend_update_filter]: the flag, then [bf_unblocking], which leaves merging mode and then merges. *)
Definition update_step (st : wstate) (i : nat) : option wstate :=
  x ← wclients st !! i;
  match wc_handler x with
  | Idle => None
  | Taken => Some (set_done (set_client st i (with_handler x Flagged)) true)
  | Flagged => Some (set_client st i (with_handler (with_bf x (bf_clear_merging (wc_bf x))) Cleared))
  | Cleared => Some (set_client st i (with_handler (with_bf x (bf_merge (wc_bf x))) Idle))
  end.

(** The same when nothing comes in between. *)
Definition dcc_backend_update_filter (st : wstate) (i : nat) : option wstate :=
  x ← wclients st !! i; Some (set_done (set_client st i (with_handler (with_bf x (bf_unblocking (wc_bf x))) Idle)) true).

(** ** Runs *)

(** A run with one server. [adds]: the additions under way, by any number of callers. [overlap]: some round
    started while the handler was still at its previous one. *)
Inductive worker_reach (f0 : bf) : bool -> list adding -> wstate -> Prop :=
| WRInit : worker_reach f0 false [] (WState false [WClient f0 Sleeping 0 0 Idle])
| WRRound o adds st st' x :
    worker_reach f0 o adds st -> wclients st !! 0%nat = Some x -> worker_round st 0 = Some st' ->
    worker_reach f0 (o || negb (bool_decide (wc_handler x = Idle))) adds st'
| WRSend o adds st st' posted : worker_reach f0 o adds st -> worker_send st 0 posted = Some st' -> worker_reach f0 o adds st'
| WRPoll o adds st st' : worker_reach f0 o adds st -> worker_poll st 0 = Some st' -> worker_reach f0 o adds st'
| WRStop o adds st st' : worker_reach f0 o adds st -> worker_stop st 0 = Some st' -> worker_reach f0 o adds st'
| WRWrite o adds st st' words : worker_reach f0 o adds st -> daemon_write st 0 words = Some st' -> worker_reach f0 o adds st'
| WRTake o adds st st' : worker_reach f0 o adds st -> take_end st 0 = Some st' -> worker_reach f0 o adds st'
| WRHandler o adds st st' : worker_reach f0 o adds st -> update_step st 0 = Some st' -> worker_reach f0 o adds st'
| WRBegin o adds st x k :
    worker_reach f0 o adds st -> wclients st !! 0%nat = Some x -> worker_reach f0 o (add_begin (wc_bf x) k :: adds) st
| WRAdd o adds st x j a f a' :
    worker_reach f0 o adds st -> wclients st !! 0%nat = Some x -> adds !! j = Some a -> add_step (wc_bf x) a = Some (f, a') ->
    worker_reach f0 o (<[j := a']> adds) (set_client st 0 (with_bf x f)).

(** The invariant: a round has one answer, which is taken before the flag is set, and the flag is reset before the
    next round. *)
Record worker_inv (o : bool) (st : wstate) (x : wclient) : Prop := {
  wi_only : wclients st = [x];
  wi_phase : match wc_phase x with
             | Sleeping | Blocked => filter_update_done st = false /\ (wc_requested x + wc_written x = 0)%nat /\ wc_handler x <> Taken
             | Waiting | Stopped =>
                 (wc_requested x + wc_written x + (if filter_update_done st then 1 else 0) + (if decide (wc_handler x = Taken) then 1 else 0) <= 1)%nat
             end;
  wi_merging : o = false ->
    match wc_phase x with
    | Sleeping => merging (wc_bf x) = bool_decide (wc_handler x = Flagged)
    | Blocked => merging (wc_bf x) = true /\ wc_handler x = Idle
    | Waiting => merging (wc_bf x) = negb (filter_update_done st) || bool_decide (wc_handler x = Flagged) /\
                 (filter_update_done st = false -> wc_handler x = Idle \/ wc_handler x = Taken)
    | Stopped => True
    end;
}.

Lemma add_step_merging f a f' a' : add_step f a = Some (f', a') -> merging f' = merging f.
Proof.
  unfold add_step. destruct (a_todo a) as [|h todo]; [done|]. destruct (calc_bitidx h).
  destruct (a_word a); intros [= <- <-]; [|done]. unfold set_target. by destruct (a_tmp a).
Qed.

(** One proof for the steps of the worker, the daemon and the handler. *)
Lemma step_inv o st x st' :
  worker_inv o st x ->
  worker_round st 0 = Some st' /\ (o = false -> wc_handler x = Idle) \/ (exists posted, worker_send st 0 posted = Some st') \/
    worker_poll st 0 = Some st' \/ worker_stop st 0 = Some st' \/ (exists words, daemon_write st 0 words = Some st') \/
    take_end st 0 = Some st' \/ update_step st 0 = Some st' ->
  exists x', worker_inv o st' x'.
Proof.
  destruct st as [flag xs], x as [f p nr nw h]. intros [H1 H2 H3] E. cbn in *. subst xs.
  destruct E as [[E Ho]|[[posted E]|[E|[E|[[words E]|[E|E]]]]]].
  - unfold worker_round in E. cbn in E. destruct p; try done. injection E as <-. eexists. split; [reflexivity|done|].
    cbn. intros Hf. split; [done|by apply Ho].
  - unfold worker_send in E. cbn in E. destruct p; try done. injection E as <-. destruct H2 as (-> & H2 & H2').
    eexists. split; [reflexivity|..]; cbn.
    + rewrite decide_False by done. destruct posted; lia.
    + intros Hf. destruct (H3 Hf) as [-> ->]. split; [done|]. by left.
  - unfold worker_poll in E. cbn in E. destruct p; try done. destruct flag; injection E as <-; (eexists; split; [reflexivity|..]); cbn.
    + case_decide; [lia|]. split; [done|]. split; [lia|done].
    + intros Hf. by destruct (H3 Hf) as [-> _].
    + done.
    + done.
  - unfold worker_stop in E. cbn in E. destruct p; try done; [|destruct flag; [done|]]; injection E as <-; (eexists; split; [reflexivity|..]); cbn; try done.
    destruct H2 as (-> & H2 & H2'). rewrite decide_False by done. lia.
  - unfold daemon_write in E. cbn in E. destruct nr as [|n]; [done|]. injection E as <-. (eexists; split; [reflexivity|..]); cbn; [|done].
    destruct p; try (destruct H2 as (_ & ? & _); lia); case_decide; lia.
  - unfold take_end in E. cbn in E. destruct h; try done. destruct nw as [|n]; [done|]. injection E as <-. (eexists; split; [reflexivity|..]); cbn.
    + destruct p; try (destruct H2 as (_ & ? & _); lia); rewrite decide_False in H2 by done; rewrite decide_True by done; lia.
    + intros Hf. specialize (H3 Hf). destruct p; try done; try (destruct H2 as (_ & ? & _); lia). destruct flag; [cbn in H2; lia|]. split; [apply H3|by right].
  - unfold update_step in E. cbn in E. destruct h; try done; injection E as <-; (eexists; split; [reflexivity|..]); cbn in *.
    + destruct p; try (by destruct H2 as (_ & _ & ?)); rewrite decide_True in H2 by done; rewrite decide_False by done; destruct flag; lia.
    + intros Hf. specialize (H3 Hf). destruct p; try done; try (by destruct H2 as (_ & _ & ?)). rewrite decide_True in H2 by done.
      by destruct flag; [lia|destruct H3 as [-> _]].
    + destruct p; [by destruct H2 as (? & ? & ?)..| |]; rewrite decide_False in H2 by done; by rewrite decide_False.
    + intros Hf. specialize (H3 Hf). destruct p; try done; try (by destruct H3). destruct H3 as [_ H3]. split; [|intros Hd; by destruct (H3 Hd)].
      destruct flag; [done|]. by destruct (H3 eq_refl).
    + destruct p; [by destruct H2 as (? & ? & ?)..| |]; rewrite decide_False in H2 by done; by rewrite decide_False.
    + intros Hf. specialize (H3 Hf). destruct p; try done; try (by destruct H3). destruct H3 as [H3 H3']. split; [done|]. intros Hd. by left.
Qed.

Lemma worker_reach_inv f0 o adds st : merging f0 = false -> worker_reach f0 o adds st -> exists x, worker_inv o st x.
Proof.
  intros Hm. induction 1 as [|o adds st st' x H [x' Hi] Hx E|o adds st st' posted H [x Hi] E|o adds st st' H [x Hi] E|o adds st st' H [x Hi] E
    |o adds st st' words H [x Hi] E|o adds st st' H [x Hi] E|o adds st st' H [x Hi] E|o adds st x k H [x' Hi] Hx|o adds st x j a f a' H [x' Hi] Hx Ha E].
  - exists (WClient f0 Sleeping 0 0 Idle). by split.
  - rewrite (wi_only _ _ _ Hi) in Hx. injection Hx as <-. eapply (step_inv _ st x').
    + destruct Hi as [H1 H2 H3]. split; [done|done|]. intros [Ho _]%orb_false_iff. by apply H3.
    + left. split; [done|]. intros [_ Hh%negb_false_iff%bool_decide_eq_true]%orb_false_iff. done.
  - eapply step_inv; [done|]. right; left. by exists posted.
  - eapply step_inv; [done|]. by do 2 right; left.
  - eapply step_inv; [done|]. by do 3 right; left.
  - eapply step_inv; [done|]. do 4 right; left. by exists words.
  - eapply step_inv; [done|]. by do 5 right; left.
  - eapply step_inv; [done|]. by do 6 right.
  - by exists x'.
  - rewrite (wi_only _ _ _ Hi) in Hx. injection Hx as <-. exists (with_bf x' f). apply add_step_merging in E.
    destruct Hi as [H1 H2 H3]. unfold set_client. rewrite H1. by split; [..|cbn; rewrite E].
Qed.

(** ** Properties *)

(** C26: The rounds of one server, step by step: the flag is set and the merge done in separate steps, any number of
    additions go on meanwhile word by word, messages may fail to be posted and the worker may be stopped. In every state that can be reached at most one
    FILTER_UPDATE_BEGIN is unanswered, and none while the flag is set or the worker is outside its polling loop, so that a round is only ended
    by its own answer. And as long as the worker does not start a round while the handler is still at the previous one, the
    filter is in merging mode exactly from [bf_blocking] until the handler of the round's answer leaves it, so that [bf_blocking] never
    clears a bitmap that is still to be merged ([filter_rounds_race]: otherwise it can). *)
Theorem one_server_rounds f0 overlap adds st :
  merging f0 = false -> worker_reach f0 overlap adds st ->
  exists x, wclients st = [x] /\
    (wc_requested x + wc_written x <= 1)%nat /\
    (filter_update_done st = true \/ wc_phase x = Sleeping \/ wc_phase x = Blocked -> (wc_requested x + wc_written x = 0)%nat /\ wc_handler x <> Taken) /\
    (wc_phase x = Sleeping \/ wc_phase x = Blocked -> filter_update_done st = false) /\
    (overlap = false -> wc_phase x <> Stopped ->
       (merging (wc_bf x) = true <->
          wc_phase x = Blocked \/ (wc_phase x = Waiting /\ filter_update_done st = false) \/ wc_handler x = Flagged) /\
       (wc_phase x = Blocked \/ (wc_phase x = Waiting /\ filter_update_done st = false) -> wc_handler x = Idle \/ wc_handler x = Taken)).
Proof.
  intros Hm H. destruct (worker_reach_inv f0 overlap adds st Hm H) as [x [H1 H2 H3]]. exists x. split; [done|].
  assert (wc_phase x = Waiting \/ wc_phase x = Stopped -> filter_update_done st = true -> (wc_requested x + wc_written x = 0)%nat /\ wc_handler x <> Taken) as Hset.
  { intros Hp Ef. rewrite Ef in H2. destruct (wc_phase x); try (by destruct Hp); case_decide; split; try done; lia. }
  split; [destruct (wc_phase x); try (destruct H2 as (_ & ? & _)); lia|]. split; [|split].
  - intros Hor. destruct (wc_phase x); try (by destruct H2 as (_ & ? & ?)); (apply Hset; [by (left + right)|by destruct Hor as [?|[?|?]]]).
  - intros [E|E]; rewrite E in H2; by destruct H2.
  - intros Ho Hs. specialize (H3 Ho). destruct (wc_phase x); try done.
    + rewrite H3, bool_decide_eq_true. split; [split; [by right; right|by intros [?|[[? _]|?]]]|by intros [?|[? _]]].
    + destruct H3 as [-> ->]. split; [split; [by left|done]|by left].
    + destruct H3 as [-> H3]. rewrite orb_true_iff, negb_true_iff, bool_decide_eq_true. split; [naive_solver|]. intros [?|[_ Ef]]; [done|by apply H3].
Qed.

(** One step of a run, by server. *)
Inductive worker_event :=
| ERound (i : nat) | ESend (i : nat) | EPoll (i : nat) | EWrite (i : nat) (words : list Z) | ETake (i : nat) | EHandler (i : nat)
| EAdd (i : nat) (key : Z).
(** An addition without interruption. *)
Definition client_add (st : wstate) (i : nat) (key : Z) : option wstate :=
  x ← wclients st !! i; Some (set_client st i (with_bf x (bf_add (wc_bf x) key))).
Definition worker_event_step (st : wstate) (e : worker_event) : option wstate :=
  match e with
  | ERound i => worker_round st i
  | ESend i => worker_send st i true
  | EPoll i => worker_poll st i
  | EWrite i words => daemon_write st i words
  | ETake i => take_end st i
  | EHandler i => update_step st i
  | EAdd i key => client_add st i key
  end.
Fixpoint worker_run (st : wstate) (es : list worker_event) : option wstate :=
  match es with [] => Some st | e :: es => st ← worker_event_step st e; worker_run st es end.

Definition reports (i : nat) (key : Z) (o : option wstate) : option bool :=
  st ← o; x ← wclients st !! i; Some (bf_might_contain (wc_bf x) key).

(** Without interruption the handler does what [dcc_backend_update_filter] says. *)
Lemma handler_run st i x : wclients st !! i = Some x -> wc_handler x = Taken ->
  worker_run st [EHandler i; EHandler i; EHandler i] = dcc_backend_update_filter st i.
Proof.
  intros Hx Hh. assert (i < length (wclients st))%nat as Hi by (by eapply lookup_lt_Some).
  assert (update_step st i = Some (set_done (set_client st i (with_handler x Flagged)) true)) as E by (unfold update_step; rewrite Hx; cbn; by rewrite Hh).
  cbn [worker_run worker_event_step]. rewrite E. unfold dcc_backend_update_filter. rewrite Hx. unfold set_done, set_client. cbn.
  unfold update_step at 2. cbn. rewrite list_lookup_insert_eq by done. cbn. unfold set_client. cbn. rewrite list_insert_insert_eq.
  unfold update_step. cbn. rewrite list_lookup_insert_eq by done. cbn. unfold set_client. cbn. by rewrite list_insert_insert_eq.
Qed.

(** Two ways in which a key is forgotten although it was just put. With two servers the flag is
    shared: the worker of server 0 takes the END of server 1 for its own, starts its next round while
    the first is unanswered, and clears the bitmap with the new key. And the flag is set before the
    merge: a worker that does not sleep between its rounds can clear the bitmap in between. *)
Theorem filter_rounds_race :
  let f := bf_new 4 97 true in
  let zeros := replicate 2 0 in
  let fresh := WClient f Sleeping 0 0 Idle in
  let two := WState false [fresh; fresh] in
  let one := WState false [fresh] in
  let lost2 := [ERound 0; ESend 0; ERound 1; ESend 1; EAdd 0 5; EWrite 1 zeros; ETake 1; EHandler 1; EHandler 1; EHandler 1; EPoll 0] in
  let lost1 := [ERound 0; ESend 0; EAdd 0 5; EWrite 0 zeros; ETake 0; EHandler 0; EPoll 0] in
  reports 0 5 (worker_run two lost2) = Some true /\
  reports 0 5 (worker_run two (lost2 ++ [ERound 0])) = Some false /\
  reports 0 5 (worker_run one lost1) = Some true /\
  reports 0 5 (worker_run one (lost1 ++ [ERound 0; EHandler 0; EHandler 0])) = Some false.
Proof. cbv zeta. split_and!; vm_compute; reflexivity. Qed.

(** ** Witnesses *)

(** A round, answered and not yet merged. *)
Definition w_client (f : bf) (p : worker_phase) (nr nw : nat) (h : handler_phase) : wstate := WState (bool_decide (h = Flagged)) [WClient f p nr nw h].
Definition w_filter : bf := bf_new 4 97 true.
Definition w_written_filter : bf := bf_remote_write (bf_blocking w_filter) [3; 0].

Lemma one_server_rounds_witness : let st := w_client w_written_filter Waiting 0 0 Flagged in
  exists x, wclients st = [x] /\
    (wc_requested x + wc_written x <= 1)%nat /\
    (filter_update_done st = true \/ wc_phase x = Sleeping \/ wc_phase x = Blocked -> (wc_requested x + wc_written x = 0)%nat /\ wc_handler x <> Taken) /\
    (wc_phase x = Sleeping \/ wc_phase x = Blocked -> filter_update_done st = false) /\
    (false = false -> wc_phase x <> Stopped ->
       (merging (wc_bf x) = true <->
          wc_phase x = Blocked \/ (wc_phase x = Waiting /\ filter_update_done st = false) \/ wc_handler x = Flagged) /\
       (wc_phase x = Blocked \/ (wc_phase x = Waiting /\ filter_update_done st = false) -> wc_handler x = Idle \/ wc_handler x = Taken)).
Proof.
  intros st. apply (one_server_rounds w_filter false [] st); [done|].
  apply (WRHandler _ _ _ (w_client w_written_filter Waiting 0 0 Taken)); [|by vm_compute].
  apply (WRTake _ _ _ (w_client w_written_filter Waiting 0 1 Idle)); [|by vm_compute].
  apply (WRWrite _ _ _ (w_client (bf_blocking w_filter) Waiting 1 0 Idle) _ [3; 0]); [|by vm_compute].
  apply (WRSend _ _ _ (w_client (bf_blocking w_filter) Blocked 0 0 Idle) _ true); [|by vm_compute].
  by apply (WRRound _ false [] (WState false [WClient w_filter Sleeping 0 0 Idle]) _ (WClient w_filter Sleeping 0 0 Idle) (WRInit _)).
Defined.
