(* ===== verification/System.v ===== *)
(** * System: a client and the daemon together

    The requests of [driver/rdma.c] (Client) delivered to the handlers of
    [daemon/rdma.cpp] (Server), and the replies decoded by the client. *)
From S2P Require Import Prelude Keys Wire Crc HashFuncs Ihash LinearProbing CountingBloom Config PercpuPool Kv KvProps KvSpec Server ServerProps ServerSpec Client.

Section system.
Context {T : Type} `{IT : IHash T}.
Implicit Types (sv : server T) (st : sys (T := T)) (key a : Z) (cid : nat).

(** ** Delivery *)

(** The words of an RDMA write, at consecutive addresses of the client's metadata region. *)
Fixpoint write_words (m : gmap Z Z) (a : Z) (words : list Z) : gmap Z Z :=
  match words with [] => m | w :: words => write_words (<[a := w]> m) (a +₆₄ sizeof_u64) words end.
Definition deliver sv cid (msg : message) : gmap Z Z :=
  match msg with
  | MWrite _ offset words _ => write_words (meta sv) (meta_base sv cid +₆₄ offset) words
  | MPut _ _ => meta sv
  end.
Definition msg_queue (msg : message) : nat := match msg with MWrite qid _ _ _ => Z.to_nat qid | MPut _ _ => 0%nat end.
Definition msg_imm (msg : message) : Z := match msg with MWrite _ _ _ imm => imm | MPut imm _ => imm end.

(** What the client's page holds after a reply. *)
Definition page_after (rep : reply) (page : list Z) : list Z :=
  match r_data rep with PagePayload d => d | _ => page end.

(** ** Lemmas *)

Lemma crc8_range crc_on page : u_ok 8 (CRC8 crc_on page).
Proof.
  unfold CRC8. destruct crc_on; [|by apply u_ok_lt].
  assert (forall l r, u_ok 8 r -> u_ok 8 (foldl crc8_step r l)) as H; [|apply H; by apply u_ok_lt].
  induction l as [|b l IH]; intros r Hr; [done|]. cbn [foldl]. apply IH. unfold crc8_step.
  assert (Forall (u_ok 8) crc8tab) as Hf.
  { apply Forall_forall. intros x Hx. apply u_ok_lt.
    assert (forallb (fun x => (0 <=? x) && (x <? 2 ^ 8)) crc8tab = true) as Ha by (vm_compute; reflexivity).
    rewrite forallb_forall in Ha. apply Ha. by apply list_elem_of_In. }
  destruct (crc8tab !! Z.to_nat (Z.lxor r b .& 255)) as [x|] eqn:E.
  - rewrite (list_lookup_total_correct _ _ _ E). by eapply Forall_lookup_1.
  - rewrite list_lookup_total_alt, E. cbn. by apply u_ok_lt.
Qed.

(** The fields of a reply as the client decodes it. *)
Lemma decode_reply mid msg tx etc crc etc0 crc0 :
  u_ok 12 mid -> 1 <= msg <= MSG_INV_PAGE_REPLY -> 1 <= tx <= TX_INV_PAGE_ABORTED -> u_ok 4 etc -> u_ok 8 crc ->
  let r := poll_recv_cq (htonl (bit_mask mid msg tx etc crc)) etc0 crc0 in
  rr_ret r = (if (tx =? TX_WRITE_COMMITTED) || (tx =? TX_INV_PAGE_COMMITED) then 0 else if tx =? TX_READ_COMMITTED then 0
              else if (tx =? TX_READ_ABORTED) || (tx =? TX_INV_PAGE_ABORTED) then 1 else -1) /\
  rr_crc r = crc.
Proof.
  intros H1 H2 H3 H4 H5. destruct (unmask_sent mid msg tx etc crc H1 H2 H3 H4 H5) as [_ E].
  cbv zeta. unfold poll_recv_cq. destruct (Z.eqb_spec (htonl (bit_mask mid msg tx etc crc)) 0) as [E0|E0].
  - exfalso. rewrite E0 in E. assert (i_msg (Imm mid msg tx etc crc) = 0) as Em by (rewrite <- E; vm_compute; reflexivity).
    cbn in Em. lia.
  - rewrite E. cbn [i_tx i_etc i_crc rr_ret rr_crc]. done.
Qed.

Lemma get_queue_range cpu : 0 <= cpu -> 2 <= get_queue cpu < 8.
Proof. intros Hc. unfold get_queue. change (num_get_qps _) with 6. pose proof (Z.mod_pos_bound cpu 6). lia. Qed.

Lemma next_word a : a +₆₄ sizeof_u64 <> wrap 64 a.
Proof. unfold add64, sizeof_u64. unfold wrap. dlia. Qed.

Lemma load_delivered sv m a : load64 (set_meta sv m) a = default 0 (m !! a).
Proof. done. Qed.

(** The daemon reads the key and the address a get carries. *)
Lemma deliver_get sv cid cpu key dma :
  rdma_cfg (store sv) = dcc_rdma_set_default_config -> 0 <= cpu ->
  let msg := dcc_rdma_write_msg_request cpu key dma in
  let sv' := set_meta sv (deliver sv cid msg) in
  get_key sv' cid (msg_queue msg) (i_mid (bit_unmask (ntohl (msg_imm msg)))) = key /\
  get_raddr sv' cid (msg_queue msg) (i_mid (bit_unmask (ntohl (msg_imm msg)))) = dma /\
  bit_unmask (ntohl (msg_imm msg)) = Imm 0 MSG_READ TX_READ_BEGIN 0 0.
Proof.
  intros Hc Hcpu msg sv'. pose proof (get_queue_range cpu Hcpu) as Hq.
  assert (bit_unmask (ntohl (msg_imm msg)) = Imm 0 MSG_READ TX_READ_BEGIN 0 0) as E.
  { unfold msg, dcc_rdma_write_msg_request. cbn [msg_imm].
    apply (unmask_sent 0 MSG_READ TX_READ_BEGIN 0 0); unfold MSG_READ, MSG_INV_PAGE_REPLY, TX_READ_BEGIN, TX_INV_PAGE_ABORTED;
      lia || by apply u_ok_lt. }
  rewrite E. cbn [i_mid]. unfold get_key, get_raddr, ADDR_META_REGION. unfold sv' at 1 4. rewrite !load_delivered.
  unfold sv', msg, dcc_rdma_write_msg_request. cbn [deliver msg_queue write_words]. rewrite Z2Nat.id by lia.
  unfold KEY_META_REGION, Driver.GET_METADATA_OFFSET. cbn [Z.eqb store set_meta meta_base].
  change (MSG_READ =? MSG_READ) with true. cbv iota. rewrite Hc.
  set (a := meta_base sv cid +₆₄ (metadata_size dcc_rdma_set_default_config *₆₄ get_queue cpu)).
  assert (wrap 64 a = a) as Ea by (apply wrap_small, add64_ok). pose proof (next_word a) as Hne. rewrite Ea in Hne.
  change (Driver.d_rdma cfg) with dcc_rdma_set_default_config. fold a.
  split; [|split; [|done]].
  - rewrite lookup_insert_ne by done. by rewrite lookup_insert_eq.
  - by rewrite lookup_insert_eq.
Qed.

(** The same for an invalidation with message number [mid]. *)
Lemma deliver_inv sv cid key mid imm :
  rdma_cfg (store sv) = dcc_rdma_set_default_config -> 0 <= mid < 512 ->
  let msg := MWrite 1 (Driver.GET_METADATA_OFFSET (Driver.d_rdma cfg) 1 mid MSG_INV_PAGE) [key] imm in
  inv_key (set_meta sv (deliver sv cid msg)) cid (msg_queue msg) mid = key.
Proof.
  intros Hc Hm msg. unfold inv_key. rewrite load_delivered. unfold msg. cbn [deliver msg_queue write_words].
  cbn [store set_meta meta_base]. rewrite Hc. unfold KEY_META_REGION, Driver.GET_METADATA_OFFSET.
  change (MSG_INV_PAGE =? MSG_READ) with false. change (MSG_INV_PAGE =? MSG_INV_PAGE) with true. cbv iota.
  change (Driver.d_rdma cfg) with dcc_rdma_set_default_config. change (Z.of_nat (Z.to_nat 1)) with 1.
  by rewrite !add64_assoc, lookup_insert_eq.
Qed.

Lemma write_msg2_send post_ret imm c key : 0 <= q1_msg_id c < 2 ^ 31 - 1 ->
  let mid := q1_msg_id c mod 512 in
  dcc_rdma_write_msg2 post_ret imm c key =
    (send (set_q1 c (q1_msg_id c + 1))
       (MWrite 1 (Driver.GET_METADATA_OFFSET (Driver.d_rdma cfg) 1 mid MSG_INV_PAGE) [key]
          (htonl (Driver.bit_mask mid MSG_INV_PAGE TX_INV_PAGE_BEGIN 0 0))),
     if mid =? 511 then rr_ret (poll_recv_cq imm 0 0) else post_ret).
Proof.
  intros Hq mid. unfold dcc_rdma_write_msg2. change NUM_MSGS with 512. rewrite Z.rem_mod_nonneg by lia. fold mid.
  rewrite to_int_small by lia. pose proof (Z.mod_pos_bound (q1_msg_id c) 512 eq_refl) as Hm. fold mid in Hm.
  destruct (Z.ltb_spec mid (512 - 1)), (Z.eqb_spec mid 511); lia || done.
Qed.

(** The reply to a get, as the client reads it. *)
Lemma get_received pages st cid cpu key dma page crc_on crc0 e sv1 a sv2 wr key' value rep :
  ~ 0 ∈ pages -> NoDup pages -> srv_inv pages st -> exclusive_policy (config (store (sys_sv st))) = true ->
  rdma_cfg (store (sys_sv st)) = dcc_rdma_set_default_config -> 0 <= cpu -> client_key cid key ->
  let msg := dcc_rdma_write_msg_request cpu key dma in
  take_recv (set_meta (sys_sv st) (deliver (sys_sv st) cid msg)) cid (msg_queue msg) = Some (sv1, a) ->
  process_get_begin crc_on e (post_recv sv1 cid (msg_queue msg) 0) cid (msg_queue msg)
    (i_mid (bit_unmask (ntohl (msg_imm msg)))) = Ok (sv2, wr, key', value) ->
  get_answer (after_get st sv2 a cid (msg_queue msg) key' value wr)
    (new_flight sv2 cid (msg_queue msg) key' value wr) rep ->
  key' = key /\ r_raddr rep = dma /\
  let page' := page_after rep page in
  let ret := dcc_rdma_write_msg_result crc_on crc0 page' (r_imm rep) in
  (exists v, kv_lookup (store (sys_sv st)) key = Some v /\ ret = 0 /\ last st !! key = Some page') \/
  (kv_lookup (store (sys_sv st)) key = None /\ ret = 1 /\ page' = page).
Proof.
  intros H0 Hnd Hi Hx Hrc Hcpu Hck msg Ht Hg Hans.
  destruct (deliver_get (sys_sv st) cid cpu key dma Hrc Hcpu) as (Ek & Era & Eu). fold msg in Ek, Era, Eu.
  set (words := deliver (sys_sv st) cid msg) in *. set (qid := msg_queue msg) in *.
  assert (key' = key) as ->.
  { destruct (consume_recv st words cid qid sv1 a (vi_len _ _ Hi) Ht) as (Es & _ & _ & Em & Eb & _).
    revert Hg. unfold process_get_begin. fold (get_key (post_recv sv1 cid qid 0) cid qid (i_mid (bit_unmask (ntohl (msg_imm msg))))).
    intros ([s x] & _ & [= _ _ <- _])%outcome_bind_Ok. rewrite <- Ek. unfold get_key, load64. by rewrite Es, Em, Eb. }
  destruct (get_begin_last _ st cid qid _ words crc_on e sv1 a sv2 wr key value rep H0 Hnd Hi Hx Ht Hg Hck Hans) as (_ & Hor).
  split; [done|]. rewrite Era, Eu in Hor. cbn [i_mid] in Hor. cbv zeta in Hor |- *.
  unfold committed, aborted, MSG_READ_REPLY, TX_READ_COMMITTED, TX_READ_ABORTED in Hor.
  destruct Hor as [(d & Hlk & Hla & ->)|(Hlk & _ & ->)]; (split; [done|]); unfold page_after, dcc_rdma_write_msg_result;
    cbn [r_data r_imm].
  - left. exists value. split; [done|]. split; [|done].
    destruct (decode_reply 0 8 7 0 (CRC8 crc_on d) 0 crc0) as [-> ->];
      [by apply u_ok_lt|unfold MSG_INV_PAGE_REPLY; lia|unfold TX_INV_PAGE_ABORTED; lia|by apply u_ok_lt|apply crc8_range|].
    rewrite (wrap_small 8) by apply crc8_range. rewrite (Z.eqb_refl (CRC8 crc_on d)). cbn [negb]. by rewrite andb_false_r.
  - right. split; [done|]. split; [|done].
    destruct (decode_reply 0 8 8 0 0 0 crc0) as [-> _];
      [by apply u_ok_lt|unfold MSG_INV_PAGE_REPLY; lia|unfold TX_INV_PAGE_ABORTED; lia|by apply u_ok_lt|by apply u_ok_lt|done].
Qed.

(** ** Properties *)

(** C9: A get from end to end, with the exclusive policy, the default: the daemon reads the very key and page address the client wrote,
    and the client gets 0 and the data of the last accepted put of the key when the daemon stores it,
    and 1 with its page untouched when it does not. The card reads the page in pieces while the daemon
    goes on; still, with or without checksums, no get ends in a checksum error. *)
Theorem get_end_to_end new_table cfg rc ptr nh nb u base st0 st cid cpu key dma page crc_on crc0 e sv1 a sv2 wr key' value rep :
  daemon_start new_table cfg rc ptr nh nb u base st0 -> srv_reachable st0 st ->
  exclusive_policy (config (store (sys_sv st))) = true ->
  rdma_cfg (store (sys_sv st)) = dcc_rdma_set_default_config -> 0 <= cpu -> client_key cid key ->
  let msg := dcc_rdma_write_msg_request cpu key dma in
  take_recv (set_meta (sys_sv st) (deliver (sys_sv st) cid msg)) cid (msg_queue msg) = Some (sv1, a) ->
  process_get_begin crc_on e (post_recv sv1 cid (msg_queue msg) 0) cid (msg_queue msg)
    (i_mid (bit_unmask (ntohl (msg_imm msg)))) = Ok (sv2, wr, key', value) ->
  get_answer (after_get st sv2 a cid (msg_queue msg) key' value wr)
    (new_flight sv2 cid (msg_queue msg) key' value wr) rep ->
  key' = key /\ r_raddr rep = dma /\
  let page' := page_after rep page in
  let ret := dcc_rdma_write_msg_result crc_on crc0 page' (r_imm rep) in
  (exists v, kv_lookup (store (sys_sv st)) key = Some v /\ ret = 0 /\ last st !! key = Some page') \/
  (kv_lookup (store (sys_sv st)) key = None /\ ret = 1 /\ page' = page).
Proof.
  intros Hs Hr. apply (get_received (init_pages cfg rc ptr)); [|apply init_pages_nodup|by eapply daemon_inv].
  apply init_pages_pos, Hs.
Qed.

(** C27: An invalidation from end to end: the daemon removes the key the client wrote and nothing
    else; it replies exactly to the last message of a round of 512, the one for which the client
    waits, and the client then returns 0 when the key was stored and 1 when it was not. *)
Theorem invalidate_end_to_end new_table cfg rc ptr nh nb u base st0 st cid key c post_ret crc_on e r sv1 a :
  daemon_start new_table cfg rc ptr nh nb u base st0 -> srv_reachable st0 st ->
  rdma_cfg (store (sys_sv st)) = dcc_rdma_set_default_config -> (cid < num_clients (config (store (sys_sv st))))%nat ->
  client_key cid key -> 0 <= q1_msg_id c < 2 ^ 31 - 1 ->
  let mid := q1_msg_id c mod 512 in
  let msg := MWrite 1 (Driver.GET_METADATA_OFFSET (Driver.d_rdma Client.cfg) 1 mid MSG_INV_PAGE) [key]
               (htonl (Driver.bit_mask mid MSG_INV_PAGE TX_INV_PAGE_BEGIN 0 0)) in
  let stored := bool_decide (is_Some (kv_lookup (store (sys_sv st)) key)) in
  take_recv (set_meta (sys_sv st) (deliver (sys_sv st) cid msg)) cid 1 = Some (sv1, a) ->
  (forall w, wire (dcc_rdma_write_msg2 post_ret w c key).1 = wire c ++ [msg]) /\
  exists sv2 reps, process_imm crc_on e r sv1 cid 1 (msg_imm msg) = Ok (sv2, reps) /\
    (forall k, kv_lookup (store sv2) k = if decide (k = key) then None else kv_lookup (store (sys_sv st)) k) /\
    if mid =? 511
    then exists rep, reps = [rep] /\ (dcc_rdma_write_msg2 post_ret (r_imm rep) c key).2 = if stored then 0 else 1
    else reps = [] /\ forall w, (dcc_rdma_write_msg2 post_ret w c key).2 = post_ret.
Proof.
  intros Hs Hr Hrc Hcid Hck Hq mid msg stored Ht. pose proof (daemon_inv _ _ _ _ _ _ _ _ _ _ Hs Hr) as Hi.
  assert (0 <= mid < 512) as Hm by (apply Z.mod_pos_bound; lia).
  assert (u_ok 12 mid) as Hu by (unfold u_ok; lia).
  pose proof (deliver_inv (sys_sv st) cid key mid (htonl (Driver.bit_mask mid MSG_INV_PAGE TX_INV_PAGE_BEGIN 0 0)) Hrc Hm) as Ek.
  fold msg in Ek. cbv zeta in Ek. change (msg_queue msg) with 1%nat in Ek.
  set (words := deliver (sys_sv st) cid msg) in *.
  destruct (invalidate_last _ st crc_on e r words sv1 a cid 1 mid Hi) as (sv2 & E & Hlk); [|done|done|by rewrite Ek|].
  { split; [done|]. rewrite Hrc. change (Z.to_nat (num_data_qps dcc_rdma_set_default_config)) with 8%nat. lia. }
  rewrite Ek in E, Hlk. fold stored in E. split.
  - intros w. rewrite write_msg2_send by done. done.
  - exists sv2, (inv_replies (sys_sv st) mid stored). split; [exact E|]. split; [done|].
    unfold inv_replies. rewrite Hrc. change (num_msgs dcc_rdma_set_default_config - 1) with 511.
    destruct (Z.eqb_spec mid 511) as [Em|Em].
    + eexists. split; [done|]. rewrite write_msg2_send by done. fold mid. rewrite Em. cbn [snd r_imm].
      change (511 =? 511) with true. cbv iota.
      destruct (decode_reply 511 MSG_INV_PAGE_REPLY (if stored then TX_INV_PAGE_COMMITED else TX_INV_PAGE_ABORTED) 0 0 0 0) as [-> _];
        [by apply u_ok_lt|unfold MSG_INV_PAGE_REPLY; lia|unfold TX_INV_PAGE_COMMITED, TX_INV_PAGE_ABORTED; destruct stored; lia|
         by apply u_ok_lt|by apply u_ok_lt|]. by destruct stored.
    + split; [done|]. intros w. rewrite write_msg2_send by done. fold mid. cbn [snd]. by rewrite (proj2 (Z.eqb_neq _ _)).
Qed.

(** The daemon replies to a put exactly when the work item that sent it waits for a reply before
    it unlocks the queue, and the client reads success from the reply. *)
Theorem put_replies_match sv e mid :
  rdma_cfg (store sv) = dcc_rdma_set_default_config -> 0 <= mid < 512 ->
  if awaits_reply mid
  then exists rep, put_replies sv e mid = [rep] /\ r_data rep = NoPayload /\ forall etc0 crc0, rr_ret (poll_recv_cq (r_imm rep) etc0 crc0) = 0
  else put_replies sv e mid = [].
Proof.
  intros Hrc Hm. unfold awaits_reply, put_replies. rewrite Hrc.
  change (NUM_MSGS - 1) with 511. change (num_msgs dcc_rdma_set_default_config - 1) with 511.
  destruct (Z.eqb_spec mid 511) as [->|]; [|done]. eexists. split; [done|]. split; [done|]. intros etc0 crc0. cbn [r_imm].
  destruct (decode_reply 511 MSG_WRITE_REPLY TX_WRITE_COMMITTED (if 50 <? pe_cpu e then 1 else 0) 0 etc0 crc0) as [-> _];
    [by apply u_ok_lt|unfold MSG_WRITE_REPLY, MSG_INV_PAGE_REPLY; lia|unfold TX_WRITE_COMMITTED, TX_INV_PAGE_ABORTED; lia|
     case_match; by apply u_ok_lt|by apply u_ok_lt|done].
Qed.
End system.

(** ** Witnesses

    The daemon after the put of [ServerSpec], with a receive on the queues 1 and 2 of the client. *)

Definition s_st1 : sys := Sys (post_recv (sys_sv w_st2) 1 1 0) (flights w_st2) (lost w_st2) (last w_st2).
Definition s_st : sys := Sys (post_recv (sys_sv s_st1) 1 2 0) (flights s_st1) (lost s_st1) (last s_st1).

Lemma s_reach : srv_reachable w_st0 s_st.
Proof.
  apply (SrvStep w_st0 s_st1 [] s_st); [|apply (SExchange s_st1 1 2)].
  apply (SrvStep w_st0 w_st2 [] s_st1); [apply w_reach2|apply (SExchange w_st2 1 1)].
Qed.

Lemma s_rdma : rdma_cfg (store (sys_sv s_st)) = dcc_rdma_set_default_config.
Proof. vm_compute. reflexivity. Qed.

Definition s_msg : message := dcc_rdma_write_msg_request 0 demo_key 99.
Definition s_take : server lpa * Z := default (w_conn, 0) (take_recv (set_meta (sys_sv s_st) (deliver (sys_sv s_st) 1 s_msg)) 1 (msg_queue s_msg)).
Lemma s_take_eq : take_recv (set_meta (sys_sv s_st) (deliver (sys_sv s_st) 1 s_msg)) 1 (msg_queue s_msg) = Some (s_take.1, s_take.2).
Proof. rewrite <- surjective_pairing. apply default_eq. vm_compute. reflexivity. Qed.
Definition s_get : server lpa * send_wr * Z * Z :=
  from_ok (w_conn, SendWr 0 None 0, 0, 0)
    (process_get_begin true demo_env (post_recv s_take.1 1 (msg_queue s_msg) 0) 1 (msg_queue s_msg) (i_mid (bit_unmask (ntohl (msg_imm s_msg))))).
Lemma s_get_eq :
  process_get_begin true demo_env (post_recv s_take.1 1 (msg_queue s_msg) 0) 1 (msg_queue s_msg) (i_mid (bit_unmask (ntohl (msg_imm s_msg)))) =
  Ok (s_get.1.1.1, s_get.1.1.2, s_get.1.2, s_get.2).
Proof.
  assert (forall p : server lpa * send_wr * Z * Z, (p.1.1.1, p.1.1.2, p.1.2, p.2) = p) as -> by (by intros [[[? ?] ?] ?]).
  apply from_ok_eq. vm_compute. reflexivity.
Qed.

(** The card reads the page at once, and the reply goes out. *)
Definition s_after : sys := after_get s_st s_get.1.1.1 s_take.2 1 (msg_queue s_msg) s_get.1.2 s_get.2 s_get.1.1.2.
Definition s_flight : flight := new_flight s_get.1.1.1 1 (msg_queue s_msg) s_get.1.2 s_get.2 s_get.1.1.2.
Definition s_flight1 : flight := read_more s_get.1.1.1 3 s_flight.
Definition s_reply : reply := sent_reply s_flight1.
Lemma s_found : s_get.2 <> NONE.
Proof. vm_compute. congruence. Qed.
Lemma s_answer : get_answer s_after s_flight s_reply.
Proof.
  apply (AnswerHit s_after s_flight (Sys (sys_sv s_after) (s_flight1 :: flights s_st) (lost s_after) (last s_after)) s_flight1).
  - apply s_found.
  - apply (SrvStep s_after s_after []); [constructor|].
    apply (SRead s_after s_flight (flights s_st) 3); [|done].
    unfold s_after, after_get. cbn [flights]. by rewrite decide_False by apply s_found.
  - left.
  - done.
  - done.
  - vm_compute. reflexivity.
Qed.

Lemma get_end_to_end_witness :
  s_get.1.2 = demo_key /\ r_raddr s_reply = 99 /\
  let page' := page_after s_reply [0] in
  let ret := dcc_rdma_write_msg_result true 0 page' (r_imm s_reply) in
  (exists v, kv_lookup (store (sys_sv s_st)) demo_key = Some v /\ ret = 0 /\ last s_st !! demo_key = Some page') \/
  (kv_lookup (store (sys_sv s_st)) demo_key = None /\ ret = 1 /\ page' = [0]).
Proof.
  apply (get_end_to_end demo_table demo_config demo_rdma 4096 4 97 (fun _ => replicate 16 0) w_base w_st0 s_st 1 0 demo_key 99 [0]
    true 0 demo_env s_take.1 s_take.2 s_get.1.1.1 s_get.1.1.2 s_get.1.2 s_get.2 s_reply).
  - apply w_start.
  - apply s_reach.
  - vm_compute. reflexivity.
  - apply s_rdma.
  - lia.
  - apply w_client.
  - apply s_take_eq.
  - apply s_get_eq.
  - apply s_answer.
Defined.

Definition s_inv : message :=
  MWrite 1 (Driver.GET_METADATA_OFFSET (Driver.d_rdma Client.cfg) 1 0 MSG_INV_PAGE) [demo_key]
    (htonl (Driver.bit_mask 0 MSG_INV_PAGE TX_INV_PAGE_BEGIN 0 0)).
Definition s_take1 : server lpa * Z := default (w_conn, 0) (take_recv (set_meta (sys_sv s_st) (deliver (sys_sv s_st) 1 s_inv)) 1 1).
Lemma s_take1_eq : take_recv (set_meta (sys_sv s_st) (deliver (sys_sv s_st) 1 s_inv)) 1 1 = Some (s_take1.1, s_take1.2).
Proof. rewrite <- surjective_pairing. apply default_eq. vm_compute. reflexivity. Qed.

Lemma invalidate_end_to_end_witness :
  let stored := bool_decide (is_Some (kv_lookup (store (sys_sv s_st)) demo_key)) in
  (forall w, wire (dcc_rdma_write_msg2 0 w alloc_ctrl demo_key).1 = wire alloc_ctrl ++ [s_inv]) /\
  exists sv2 reps, process_imm true demo_env 0 s_take1.1 1 1 (msg_imm s_inv) = Ok (sv2, reps) /\
    (forall k, kv_lookup (store sv2) k = if decide (k = demo_key) then None else kv_lookup (store (sys_sv s_st)) k) /\
    if 0 =? 511
    then exists rep, reps = [rep] /\ (dcc_rdma_write_msg2 0 (r_imm rep) alloc_ctrl demo_key).2 = if stored then 0 else 1
    else reps = [] /\ forall w, (dcc_rdma_write_msg2 0 w alloc_ctrl demo_key).2 = 0.
Proof.
  apply (invalidate_end_to_end demo_table demo_config demo_rdma 4096 4 97 (fun _ => replicate 16 0) w_base w_st0 s_st 1 demo_key
    alloc_ctrl 0 true demo_env 0 s_take1.1 s_take1.2).
  - apply w_start.
  - apply s_reach.
  - apply s_rdma.
  - vm_compute. lia.
  - apply w_client.
  - split; vm_compute; [congruence|reflexivity].
  - apply s_take1_eq.
Defined.

Lemma put_replies_match_witness :
  if awaits_reply 511
  then exists rep, put_replies (sys_sv w_st1) w_env 511 = [rep] /\ r_data rep = NoPayload /\
    forall etc0 crc0, rr_ret (poll_recv_cq (r_imm rep) etc0 crc0) = 0
  else put_replies (sys_sv w_st1) w_env 511 = [].
Proof. apply (put_replies_match (sys_sv w_st1) w_env 511); [vm_compute; reflexivity|lia]. Defined.
