(* ===== verification/Network.v ===== *)
(** * Network: the daemon with all its clients

    The puts of [driver/rdma.c] (Client) from the moment the module accepts them until
    the handlers of [daemon/rdma.cpp] (Server) have taken them: each client's put queue
    is a reliable connection, which delivers in order; everything else interleaves freely. *)
From S2P Require Import Prelude Keys Wire Crc HashFuncs Ihash LinearProbing CountingBloom Config PercpuPool Kv KvProps KvSpec Server ServerProps ServerSpec Client ClientSpec ClientOrder System.

(** ** State *)

(** A client, the puts it accepted, oldest first, and, for each put delivered so far,
    whether the daemon stored its page (it does not when its pool is empty). *)
Record peer := Peer { p_ctrl : ctrl; p_acc : list keypage; p_log : list bool }.

Definition put_msg (m : message) : option (Z * keypage) :=
  match m with MPut imm kp => Some (imm, kp) | MWrite _ _ _ _ => None end.
(** The put queue of a client: what was sent on it, and what has arrived with its outcome. *)
Definition put_queue (c : ctrl) : list (Z * keypage) := omap put_msg (wire c).
Definition delivered (p : peer) : list (keypage * bool) := zip (sent_puts (p_ctrl p)) (p_log p).

(** The page of the last put of [key] that the daemon stored. *)
Definition newest (key : Z) (l : list (keypage * bool)) : option (list Z) :=
  foldl (fun o (x : keypage * bool) => if x.2 && (kp_key x.1 =? key) then Some (kp_page x.1) else o) None l.

(** ** Steps *)

(** What a client does: its hooks put keys with its own number (the module builds them with
    [get_longkey] and [client_id]), its work items and its card run, it gets and invalidates. *)
Inductive client_move (cid : nat) (acc : list keypage) (c : ctrl) : list keypage -> ctrl -> Prop :=
| MovePut w page key c' r :
    client_key cid key -> reads_wait w c -> dcc_rdma_send_page w c page key = Ok (c', r) ->
    client_move cid acc c (if r =? 0 then acc ++ [Keypage page key] else acc) c'
| MoveHandler c' : handler_step c c' -> client_move cid acc c acc c'
| MoveGet cpu key dma : client_move cid acc c acc (send c (dcc_rdma_write_msg_request cpu key dma))
| MoveInv post_ret imm key : client_move cid acc c acc (dcc_rdma_write_msg2 post_ret imm c key).1.

Section network.
Context {T : Type} `{IT : IHash T}.

Record world := World { peers : list peer; daemon : sys (T := T) }.
Implicit Types (wd : world) (p : peer) (st : sys (T := T)) (cid : nat).

(** The next put of a client arrives in the page posted first on its put queue; every other step
    of the daemon, for whatever client, leaves the data of the stored puts alone. *)
Inductive world_step wd : world -> Prop :=
| WClient cid p acc' c' :
    peers wd !! cid = Some p -> client_move cid (p_acc p) (p_ctrl p) acc' c' ->
    world_step wd (World (<[cid := Peer c' acc' (p_log p)]> (peers wd)) (daemon wd))
| WDeliver cid p imm kp e fuel cb sv1 a sv2 sv3 reps :
    let st := daemon wd in
    peers wd !! cid = Some p -> put_queue (p_ctrl p) !! length (p_log p) = Some (imm, kp) ->
    data_queue (sys_sv st) cid 0 -> (2 <= fuel)%nat ->
    take_recv (sys_sv st) cid 0 = Some (sv1, a) -> recv_page sv1 a (kp_page kp) (kp_key kp) = Ok sv2 ->
    process_recv e fuel cb sv2 cid 0 a imm = Some (Ok (sv3, reps)) ->
    world_step wd
      (World (<[cid := Peer (p_ctrl p) (p_acc p) (p_log p ++ [accepted sv2 cid e])]> (peers wd))
         (Sys sv3 (flights st) (lost st) (if accepted sv2 cid e then <[kp_key kp := kp_page kp]> (last st) else last st)))
| WDaemon reps st' :
    srv_step (daemon wd) reps st' -> last st' = last (daemon wd) -> world_step wd (World (peers wd) st').

(** [n] clients with new connections, and a daemon. *)
Definition world_start (n : nat) st0 : world := World (replicate n (Peer alloc_ctrl [] [])) st0.

Inductive world_reachable n st0 : world -> Prop :=
| WorldStart : world_reachable n st0 (world_start n st0)
| WorldStep wd wd' : world_reachable n st0 wd -> world_step wd wd' -> world_reachable n st0 wd'.

(** The clients' counters have not overflowed. *)
Definition few_puts wd : Prop := forall cid p, peers wd !! cid = Some p -> Z.of_nat (length (p_acc p)) < 2 ^ 31.

Record world_inv st0 wd : Prop := {
  wi_srv : srv_reachable st0 (daemon wd);
  wi_client cid p : peers wd !! cid = Some p -> client_reach (p_acc p) (p_ctrl p);
  wi_keys cid p kp : peers wd !! cid = Some p -> kp ∈ p_acc p -> client_key cid (kp_key kp);
  wi_log cid p : peers wd !! cid = Some p -> (length (p_log p) <= length (sent_puts (p_ctrl p)))%nat;
  wi_last key : last (daemon wd) !! key = peers wd !! key_cid key ≫= fun p => newest key (delivered p);
}.

(** ** Lemmas: a client's queue only grows *)

Lemma put_queue_sent c : (put_queue c).*2 = sent_puts c.
Proof.
  unfold put_queue, sent_puts. induction (wire c) as [|[imm kp|q o ws imm] l IH]; [done| |done].
  cbn. f_equal. apply IH.
Qed.

Lemma sent_send c m : sent_puts (send c m) = sent_puts c ++ omap put_of [m].
Proof. unfold sent_puts. cbn [wire send]. by rewrite omap_app. Qed.

Lemma same_wire c c' : wire c' = wire c -> sent_puts c' = sent_puts c ++ [].
Proof. intros E. unfold sent_puts. by rewrite E, app_nil_r. Qed.

Lemma put_wire w c page key c' r : dcc_rdma_send_page w c page key = Ok (c', r) -> wire c' = wire c.
Proof.
  unfold dcc_rdma_send_page, copy_to_send_buffer. case_match; [done|]. case_match; [|by intros [= <- _]].
  case_match; (case_match; obind; [by intros [= <- _]|done]).
Qed.

Lemma handler_wire c c' : handler_step c c' -> exists l, sent_puts c' = sent_puts c ++ l.
Proof.
  intros [k H|H|H|replied H]; revert H; unfold work_post, card_send, work_clear, work_unlock; repeat case_match; try done;
    intros [= <-]; first [exists []; by apply same_wire | eexists; by rewrite sent_send].
Qed.

Lemma move_sent cid acc c acc' c' : client_move cid acc c acc' c' -> exists l, sent_puts c' = sent_puts c ++ l.
Proof.
  intros [w page key c1 r _ _ E|c1 H|cpu key dma|pr imm key].
  - exists []. eapply same_wire, put_wire, E.
  - by apply handler_wire.
  - eexists. by rewrite sent_send.
  - destruct (write_msg2_eq pr imm c key) as (off & w & ->). eexists. by rewrite sent_send.
Qed.

Lemma move_reach cid acc c acc' c' : client_reach acc c -> client_move cid acc c acc' c' -> client_reach acc' c'.
Proof.
  intros Hr [w page key c1 r _ Hw E|c1 H|cpu key dma|pr imm key].
  - by eapply CRPut.
  - by eapply CRHandler.
  - by apply CRGet.
  - by apply CRInv.
Qed.

Lemma move_acc cid acc c acc' c' : client_move cid acc c acc' c' ->
  (length acc <= length acc')%nat /\ forall kp, kp ∈ acc' -> kp ∈ acc \/ client_key cid (kp_key kp).
Proof.
  intros [w page key c1 r Hk _ _|c1 H|cpu key dma|pr imm key]; try by (split; [lia|auto]).
  destruct (r =? 0); [|by (split; [lia|auto])]. rewrite length_app. split; [lia|].
  intros kp [H| ->%list_elem_of_singleton]%elem_of_app; auto.
Qed.

(** ** Lemmas: the log *)

Lemma newest_snoc key l x :
  newest key (l ++ [x]) = if x.2 && (kp_key x.1 =? key) then Some (kp_page x.1) else newest key l.
Proof. unfold newest. by rewrite foldl_app. Qed.

Lemma newest_elem key l d : newest key l = Some d -> (Keypage d key, true) ∈ l.
Proof.
  induction l as [|[kp b] l IH] using rev_ind; [done|]. rewrite newest_snoc, elem_of_app. cbn [fst snd].
  destruct b; [|by auto]. cbn [andb]. destruct (Z.eqb_spec (kp_key kp) key) as [<-|]; [|by auto].
  intros [= <-]. right. apply list_elem_of_singleton. by destruct kp.
Qed.

Lemma newest_other key l : (forall x, x ∈ l -> kp_key x.1 <> key) -> newest key l = None.
Proof.
  induction l as [|x l IH] using rev_ind; intros H; [done|]. rewrite newest_snoc.
  rewrite (proj2 (Z.eqb_neq _ _)) by (apply H, elem_of_app; right; left). rewrite andb_false_r.
  apply IH. intros y Hy. apply H, elem_of_app. by left.
Qed.

Lemma newest_last key l d : newest key (zip l (replicate (length l) true)) = Some d ->
  exists before after, l = before ++ Keypage d key :: after /\ forall kp, kp ∈ after -> kp_key kp <> key.
Proof.
  induction l as [|kp l IH] using rev_ind; [done|]. rewrite length_app, replicate_add. cbn [length replicate].
  rewrite zip_with_app by by rewrite length_replicate. cbn [zip_with]. rewrite newest_snoc. cbn [fst snd andb].
  destruct (Z.eqb_spec (kp_key kp) key) as [<-|Hne].
  - intros [= <-]. exists l, []. split; [by destruct kp|]. intros x Hx. by apply not_elem_of_nil in Hx.
  - intros (b & t & -> & Ht)%IH. exists b, (t ++ [kp]). rewrite <- app_assoc. split; [done|].
    intros x [Hx| ->%list_elem_of_singleton]%elem_of_app; auto.
Qed.

Lemma zip_grow {A B} (l l' : list A) (k : list B) : (length k <= length l)%nat -> zip (l ++ l') k = zip l k.
Proof. intros H. by rewrite zip_with_app_l, take_ge, drop_ge, zip_with_nil_r, app_nil_r by lia. Qed.

Lemma zip_next {A B} (l : list A) (k : list B) x y : l !! length k = Some x -> zip l (k ++ [y]) = zip l k ++ [(x, y)].
Proof.
  revert l. induction k as [|b k IH]; intros [|a l] H; try done.
  - injection H as ->. cbn. by destruct l.
  - cbn. f_equal. by apply IH.
Qed.

Lemma step_last st reps st' : srv_step st reps st' ->
  last st' = last st \/ exists key d, last st' = <[key := d]> (last st).
Proof. intros []; unfold after_get; cbn [last]; try by left. case_match; [right; eauto|by left]. Qed.

Lemma few_puts_before wd wd' : world_step wd wd' -> few_puts wd' -> few_puts wd.
Proof.
  intros [cid p acc' c' Hp Hm|cid p imm kp e fuel cb sv1 a sv2 sv3 reps st Hp _ _ _ _ _ _|reps st' _ _] Hf; [| |done].
  - intros i q Hq. destruct (move_acc _ _ _ _ _ Hm) as [Hl _]. destruct (decide (i = cid)) as [->|Hne].
    + assert (q = p) as -> by congruence.
      specialize (Hf cid _ (list_lookup_insert_eq _ _ _ (lookup_lt_Some _ _ _ Hp))). cbn in Hf. lia.
    + apply (Hf i). cbn. by rewrite list_lookup_insert_ne.
  - intros i q Hq. destruct (decide (i = cid)) as [->|Hne].
    + assert (q = p) as -> by congruence.
      apply (Hf cid _ (list_lookup_insert_eq _ _ _ (lookup_lt_Some _ _ _ Hp))).
    + apply (Hf i). cbn. by rewrite list_lookup_insert_ne.
Qed.

(** A change of one client. *)
Lemma peer_insert (l : list peer) cid p p' i q (P : peer -> Prop) :
  l !! cid = Some p -> <[cid := p']> l !! i = Some q -> (i = cid -> P p') -> (i <> cid -> l !! i = Some q -> P q) -> P q.
Proof.
  intros Hp Hq H1 H2. destruct (decide (i = cid)) as [->|Hne].
  - rewrite list_lookup_insert_eq in Hq by by eapply lookup_lt_Some. injection Hq as <-. by apply H1.
  - rewrite list_lookup_insert_ne in Hq by done. by apply H2.
Qed.

Lemma sent_accepted st0 wd cid p kp : world_inv st0 wd -> few_puts wd ->
  peers wd !! cid = Some p -> kp ∈ sent_puts (p_ctrl p) -> kp ∈ p_acc p.
Proof.
  intros Hi Hf Hp Hin. pose proof (reach_inv _ _ (wi_client _ _ Hi _ _ Hp) (Hf _ _ Hp)) as Hc.
  rewrite (ci_conserve _ _ Hc). apply elem_of_app. by left.
Qed.

(** The data of a key after a change of one client. *)
Lemma newest_insert (l : list peer) cid p p' key : l !! cid = Some p ->
  (key_cid key = cid -> newest key (delivered p') = newest key (delivered p)) ->
  (<[cid := p']> l !! key_cid key ≫= fun q => newest key (delivered q)) =
  (l !! key_cid key ≫= fun q => newest key (delivered q)).
Proof.
  intros Hp He. destruct (decide (key_cid key = cid)) as [E|Hne].
  - rewrite E, Hp, list_lookup_insert_eq by by eapply lookup_lt_Some. by apply He.
  - by rewrite list_lookup_insert_ne.
Qed.

Lemma world_step_inv st0 wd wd' : world_inv st0 wd -> few_puts wd -> world_step wd wd' -> world_inv st0 wd'.
Proof.
  intros Hi Hf [cid p acc' c' Hp Hm|cid p imm kp e fuel cb sv1 a sv2 sv3 reps st Hp Hq Hdq Hfuel Ht Hr E|reps st' Hs Hl].
  - destruct (move_sent _ _ _ _ _ Hm) as [l El]. destruct (move_acc _ _ _ _ _ Hm) as [_ Hk]. split; cbn [peers daemon].
    + apply Hi.
    + intros i q Hq. apply (peer_insert _ _ _ _ _ _ (fun q => client_reach (p_acc q) (p_ctrl q)) Hp Hq); cbn.
      * intros ->. eapply move_reach; [|done]. by eapply wi_client.
      * intros _. by eapply wi_client.
    + intros i q kp Hq. apply (peer_insert _ _ _ _ _ _ (fun q => kp ∈ p_acc q -> client_key i (kp_key kp)) Hp Hq); cbn.
      * intros -> [H|H]%Hk; [|done]. by eapply wi_keys.
      * intros _ H1 H2. by eapply wi_keys.
    + intros i q Hq. apply (peer_insert _ _ _ _ _ _ (fun q => (length (p_log q) <= length (sent_puts (p_ctrl q)))%nat) Hp Hq); cbn.
      * intros ->. rewrite El, length_app. pose proof (wi_log _ _ Hi _ _ Hp). lia.
      * intros _. by eapply wi_log.
    + intros key. rewrite (newest_insert _ _ _ _ _ Hp); [apply Hi|]. intros _. unfold delivered. cbn [p_ctrl p_log].
      rewrite El, zip_grow; [done|]. by eapply wi_log.
  - assert (sent_puts (p_ctrl p) !! length (p_log p) = Some kp) as Hk.
    { rewrite <- put_queue_sent, list_lookup_fmap, Hq. done. }
    assert (client_key cid (kp_key kp)) as Hck.
    { eapply wi_keys; [done|done|]. eapply sent_accepted; [done|done|done|]. by eapply list_elem_of_lookup_2. }
    assert (delivered (Peer (p_ctrl p) (p_acc p) (p_log p ++ [accepted sv2 cid e])) = delivered p ++ [(kp, accepted sv2 cid e)]) as Ed
      by (by apply zip_next).
    split; cbn [peers daemon].
    + eapply SrvStep; [apply Hi|]. by eapply (SPut (daemon wd) cid 0 imm (kp_page kp) (kp_key kp) e fuel cb sv1 a sv2 sv3 reps).
    + intros i q H. apply (peer_insert _ _ _ _ _ _ (fun q => client_reach (p_acc q) (p_ctrl q)) Hp H); cbn.
      * intros _. by eapply wi_client.
      * intros _. by eapply wi_client.
    + intros i q x H. apply (peer_insert _ _ _ _ _ _ (fun q => x ∈ p_acc q -> client_key i (kp_key x)) Hp H); cbn.
      * intros ->. by eapply wi_keys.
      * intros _ H1 H2. by eapply wi_keys.
    + intros i q H. apply (peer_insert _ _ _ _ _ _ (fun q => (length (p_log q) <= length (sent_puts (p_ctrl q)))%nat) Hp H); cbn.
      * intros _. rewrite length_app. cbn. apply lookup_lt_Some in Hk. lia.
      * intros _. by eapply wi_log.
    + intros key. cbn [last]. destruct Hck as [_ Hcid]. destruct (decide (key_cid key = cid)) as [Ek|Hne].
      * rewrite Ek, list_lookup_insert_eq by by eapply lookup_lt_Some. cbn [mbind option_bind]. rewrite Ed, newest_snoc. cbn [fst snd].
        pose proof (wi_last _ _ Hi key) as Hl. rewrite Ek, Hp in Hl. cbn [mbind option_bind] in Hl. unfold st.
        destruct (accepted sv2 cid e); cbn [andb]; [|done]. destruct (Z.eqb_spec (kp_key kp) key) as [<-|Hk'].
        -- by rewrite lookup_insert_eq.
        -- by rewrite lookup_insert_ne.
      * rewrite list_lookup_insert_ne by done. unfold st. destruct (accepted sv2 cid e); [|apply Hi].
        rewrite lookup_insert_ne; [apply Hi|]. intros <-. by rewrite Hcid in Hne.
  - split; cbn [peers daemon]; try apply Hi.
    + eapply SrvStep; [apply Hi|done].
    + intros key. rewrite Hl. apply Hi.
Qed.

Lemma world_reachable_inv n st0 wd : last st0 = ∅ -> world_reachable n st0 wd -> few_puts wd -> world_inv st0 wd.
Proof.
  intros H0. induction 1 as [|wd wd' H IH Hs]; intros Hf.
  - assert (forall cid p, peers (world_start n st0) !! cid = Some p -> p = Peer alloc_ctrl [] []) as He.
    { intros cid p [-> _]%lookup_replicate_1. done. }
    split.
    + apply SrvStart.
    + intros cid p ->%He. apply CRInit.
    + intros cid p kp ->%He H. by apply not_elem_of_nil in H.
    + intros cid p ->%He. cbn. lia.
    + intros key. cbn [daemon world_start]. rewrite H0, lookup_empty.
      destruct (peers (world_start n st0) !! key_cid key) as [p|] eqn:E; [|done]. by apply He in E as ->.
  - pose proof (few_puts_before _ _ Hs Hf) as Hf'. by eapply world_step_inv; [apply IH| |].
Qed.

Lemma start_last (new_table : Z -> T) cfg rc ptr nh nb u base st0 :
  daemon_start new_table cfg rc ptr nh nb u base st0 -> last st0 = ∅.
Proof. intros Hs. destruct (ds_make _ _ _ _ _ _ _ _ _ Hs) as (s0 & _ & ->). done. Qed.

(** A delivery whose outcome is known. *)
Lemma deliver_put wd cid p imm kp e fuel cb sv1 a sv2 sv3 reps ok :
  accepted sv2 cid e = ok -> peers wd !! cid = Some p -> put_queue (p_ctrl p) !! length (p_log p) = Some (imm, kp) ->
  data_queue (sys_sv (daemon wd)) cid 0 -> (2 <= fuel)%nat ->
  take_recv (sys_sv (daemon wd)) cid 0 = Some (sv1, a) -> recv_page sv1 a (kp_page kp) (kp_key kp) = Ok sv2 ->
  process_recv e fuel cb sv2 cid 0 a imm = Some (Ok (sv3, reps)) ->
  world_step wd
    (World (<[cid := Peer (p_ctrl p) (p_acc p) (p_log p ++ [ok])]> (peers wd))
       (Sys sv3 (flights (daemon wd)) (lost (daemon wd)) (if ok then <[kp_key kp := kp_page kp]> (last (daemon wd)) else last (daemon wd)))).
Proof. intros <-. by apply (WDeliver wd cid p imm kp e fuel cb sv1 a). Qed.

(** *** Executable runs of a client, in the order of its work items *)

Definition command_ok cid (x : command) : Prop :=
  match x with KPut _ key | KInv key => client_key cid key | KPost k => k = 0%nat | KCard | KClear | KUnlock => True end.

Lemma run_command_move x cid acc c c' l : command_ok cid x -> run_command x c = Some (c', l) ->
  client_move cid acc c (acc ++ l) c' /\ (fifo_reach acc c -> fifo_reach (acc ++ l) c').
Proof.
  destruct x as [page key|k| | | |key]; cbn [run_command command_ok]; intros Hk.
  - destruct (dcc_rdma_send_page _ c page key) as [[c1 r]|] eqn:E; [|done]. intros [= <- <-].
    assert (acc ++ (if r =? 0 then [Keypage page key] else []) = if r =? 0 then acc ++ [Keypage page key] else acc) as ->
      by (case_match; by rewrite ?app_nil_r).
    split; [by eapply MovePut|]. intros H. by eapply FRPut.
  - subst k. destruct (work_post c 0) eqn:E; [|done]. intros [= <- <-]. rewrite app_nil_r.
    split; [by eapply MoveHandler, HPost|]. intros H. by eapply FRHandler, FPost.
  - destruct (card_send c) eqn:E; [|done]. intros [= <- <-]. rewrite app_nil_r.
    split; [by eapply MoveHandler, HCard|]. intros H. by eapply FRHandler, FCard.
  - destruct (work_clear c) eqn:E; [|done]. intros [= <- <-]. rewrite app_nil_r.
    split; [by eapply MoveHandler, HClear|]. intros H. by eapply FRHandler, FClear.
  - destruct (work_unlock true c) eqn:E; [|done]. intros [= <- <-]. rewrite app_nil_r.
    split; [by eapply MoveHandler, HUnlock|]. intros H. by eapply FRHandler, FUnlock.
  - intros [= <- <-]. rewrite app_nil_r. split; [by apply MoveInv|]. by apply FRInv.
Qed.

Lemma run_commands_world n st0 cid log dm xs ps c acc c' acc' :
  Forall (command_ok cid) xs -> run_commands xs c acc = Some (c', acc') ->
  world_reachable n st0 (World (<[cid := Peer c acc log]> ps) dm) -> (cid < length ps)%nat ->
  world_reachable n st0 (World (<[cid := Peer c' acc' log]> ps) dm) /\ (fifo_reach acc c -> fifo_reach acc' c').
Proof.
  intros Hf. revert c acc. induction Hf as [|x xs Hx _ IH]; intros c acc; cbn [run_commands]; [by intros [= <- <-]|].
  destruct (run_command x c) as [[c1 l]|] eqn:E; [|done]. cbn [mbind option_bind]. intros Hr Hw Hl.
  destruct (run_command_move x cid acc c c1 l Hx E) as [Hm Hfi]. destruct (IH c1 (acc ++ l) Hr) as [H1 H2]; [|done|auto].
  pose proof (WClient (World (<[cid := Peer c acc log]> ps) dm) cid (Peer c acc log) (acc ++ l) c1) as Hs.
  cbn [peers daemon p_log p_acc p_ctrl] in Hs. rewrite list_insert_insert_eq in Hs.
  eapply WorldStep; [apply Hw|]. apply Hs; [by apply list_lookup_insert_eq|done].
Qed.

(** ** Properties *)

(** C5: Whatever the interleaving of the clients, their work items, the network and the daemon, before
    the get and while the card reads the page for its reply, with the exclusive policy, the default, a get
    whose key the daemon stores returns 0 and the page of the last put of that key that this client
    accepted, sent and the daemon stored: never a page of another key or another client, nor one that was
    not put. Otherwise it returns 1 and leaves the client's page alone. (As long as each client has put
    fewer than 2^31 pages.) *)
Theorem get_returns_newest new_table cfg rc ptr nh nb u base n st0 wd cid p cpu key dma page crc_on crc0 e sv1 a sv2 wr key' value rep :
  daemon_start new_table cfg rc ptr nh nb u base st0 -> world_reachable n st0 wd -> few_puts wd ->
  let st := daemon wd in
  peers wd !! cid = Some p -> exclusive_policy (config (store (sys_sv st))) = true ->
  rdma_cfg (store (sys_sv st)) = dcc_rdma_set_default_config -> 0 <= cpu -> client_key cid key ->
  let msg := dcc_rdma_write_msg_request cpu key dma in
  take_recv (set_meta (sys_sv st) (deliver (sys_sv st) cid msg)) cid (msg_queue msg) = Some (sv1, a) ->
  process_get_begin crc_on e (post_recv sv1 cid (msg_queue msg) 0) cid (msg_queue msg)
    (i_mid (bit_unmask (ntohl (msg_imm msg)))) = Ok (sv2, wr, key', value) ->
  get_answer (after_get st sv2 a cid (msg_queue msg) key' value wr)
    (new_flight sv2 cid (msg_queue msg) key' value wr) rep ->
  let page' := page_after rep page in
  let ret := dcc_rdma_write_msg_result crc_on crc0 page' (r_imm rep) in
  (ret = 0 /\ newest key (delivered p) = Some page' /\ Keypage page' key ∈ p_acc p) \/
  (kv_lookup (store (sys_sv st)) key = None /\ ret = 1 /\ page' = page).
Proof.
  intros Hs Hr Hf st Hp Hx Hrc Hcpu Hck msg Ht Hg Hans.
  pose proof (world_reachable_inv n st0 wd (start_last _ _ _ _ _ _ _ _ _ Hs) Hr Hf) as Hi.
  assert (srv_inv (init_pages cfg rc ptr) st) as Hsi by (eapply daemon_inv; [done|apply Hi]).
  edestruct (get_received (init_pages cfg rc ptr) st) as (_ & _ & [(v & Hv & Er & El)|Hno]); try done; [by apply init_pages_pos, Hs|apply init_pages_nodup| |by right].
  - left. destruct Hck as [_ Ec]. pose proof (wi_last _ _ Hi key) as Hl. rewrite Ec, Hp in Hl. cbn [mbind option_bind] in Hl.
    fold st in Hl. rewrite El in Hl. split; [done|]. split; [done|]. eapply sent_accepted; [done|done|done|].
    symmetry in Hl. apply newest_elem in Hl. by eapply elem_of_zip_l.
Qed.


End network.

(** ** Witnesses: client 1 of two puts a full batch; its first put has reached the daemon of [ServerSpec] *)

Definition n_cmds : list command := replicate 32 (KPut w_page demo_key) ++ [KPost 0; KCard].
Definition n_run : ctrl * list keypage := default (alloc_ctrl, []) (run_commands n_cmds alloc_ctrl []).
Lemma n_run_eq : run_commands n_cmds alloc_ctrl [] = Some (n_run.1, n_run.2).
Proof. rewrite <- surjective_pairing. apply default_eq. vm_compute. reflexivity. Qed.
Definition n_peers (b : list bool) : list peer := [Peer alloc_ctrl [] []; Peer n_run.1 n_run.2 b].

Lemma n_queue : put_queue n_run.1 = [(w_imm, Keypage w_page demo_key)].
Proof. vm_compute. reflexivity. Qed.
Lemma n_acc : n_run.2 = replicate 32 (Keypage w_page demo_key).
Proof. vm_compute. reflexivity. Qed.

Lemma n_sent : world_reachable 2 w_st0 (World (n_peers []) w_st1) /\ fifo_reach n_run.2 n_run.1.
Proof.
  assert (world_reachable 2 w_st0 (World [Peer alloc_ctrl [] []; Peer alloc_ctrl [] []] w_st1)) as H.
  { apply (WorldStep 2 w_st0 (world_start 2 w_st0)); [apply WorldStart|].
    apply (WDaemon (world_start 2 w_st0) [] w_st1); [|reflexivity].
    apply (SConnect w_st0 1 0 (fun _ => 0) w_conn); [vm_compute; lia|vm_compute; lia|apply w_conn_eq]. }
  destruct (run_commands_world 2 w_st0 1 [] w_st1 n_cmds [Peer alloc_ctrl [] []; Peer alloc_ctrl [] []] alloc_ctrl [] n_run.1 n_run.2)
    as [H1 H2]; [|apply n_run_eq|exact H|cbn; lia|].
  - apply Forall_app. split; [apply Forall_replicate, w_client|]. by repeat constructor.
  - split; [exact H1|]. apply H2, FRInit.
Qed.

Definition n_w1 : world := World (n_peers []) w_st1.
Definition n_w2 : world := World (n_peers [true]) w_st2.
Definition n_w3 : world := World (n_peers [true]) s_st1.
Definition n_wd : world := World (n_peers [true]) s_st.

Lemma n_accepted : accepted w_recv 1 w_env = true.
Proof. vm_compute. reflexivity. Qed.
Lemma n_st2 : w_st2 = Sys w_put.1 [] [] (<[demo_key := w_page]> ∅).
Proof. unfold w_st2. by rewrite n_accepted. Qed.

(** The delivery, for any client with that queue. *)
Lemma n_deliver c acc : put_queue c = [(w_imm, Keypage w_page demo_key)] ->
  world_step (World [Peer alloc_ctrl [] []; Peer c acc []] w_st1)
    (World [Peer alloc_ctrl [] []; Peer c acc [true]] (Sys w_put.1 [] [] (<[demo_key := w_page]> ∅))).
Proof.
  intros Hq. apply (deliver_put (World [Peer alloc_ctrl [] []; Peer c acc []] w_st1) 1 (Peer c acc []) w_imm
    (Keypage w_page demo_key) w_env 2 w_base w_take.1 w_take.2 w_recv w_put.1 w_put.2 true).
  - apply n_accepted.
  - reflexivity.
  - cbn [p_ctrl p_log length]. by rewrite Hq.
  - apply w_queue1.
  - lia.
  - apply w_take_eq.
  - apply w_recv_eq.
  - apply w_put_eq.
Qed.
Lemma n_step1 : world_step n_w1 n_w2.
Proof. unfold n_w2. rewrite n_st2. exact (n_deliver n_run.1 n_run.2 n_queue). Qed.
Lemma n_step2 : world_step n_w2 n_w3.
Proof. apply (WDaemon n_w2 [] s_st1); [apply (SExchange w_st2 1 1)|reflexivity]. Qed.
Lemma n_step3 : world_step n_w3 n_wd.
Proof. apply (WDaemon n_w3 [] s_st); [apply (SExchange s_st1 1 2)|reflexivity]. Qed.

Lemma n_reach : world_reachable 2 w_st0 n_wd.
Proof.
  apply (WorldStep 2 w_st0 n_w3); [|apply n_step3]. apply (WorldStep 2 w_st0 n_w2); [|apply n_step2].
  apply (WorldStep 2 w_st0 n_w1); [apply n_sent|apply n_step1].
Qed.

Lemma n_few : few_puts n_wd.
Proof.
  intros cid p Hp. apply list_elem_of_lookup_2 in Hp. apply elem_of_cons in Hp as [->|Hp]; [done|].
  apply list_elem_of_singleton in Hp as ->. cbn [p_acc]. rewrite n_acc. done.
Qed.

Definition n_peer : peer := Peer n_run.1 n_run.2 [true].

Lemma get_returns_newest_witness :
  let page' := page_after s_reply [0] in
  let ret := dcc_rdma_write_msg_result true 0 page' (r_imm s_reply) in
  (ret = 0 /\ newest demo_key (delivered n_peer) = Some page' /\ Keypage page' demo_key ∈ p_acc n_peer) \/
  (kv_lookup (store (sys_sv s_st)) demo_key = None /\ ret = 1 /\ page' = [0]).
Proof.
  apply (get_returns_newest demo_table demo_config demo_rdma 4096 4 97 (fun _ => replicate 16 0) w_base 2 w_st0 n_wd 1 n_peer
    0 demo_key 99 [0] true 0 demo_env s_take.1 s_take.2 s_get.1.1.1 s_get.1.1.2 s_get.1.2 s_get.2 s_reply).
  - apply w_start.
  - apply n_reach.
  - apply n_few.
  - reflexivity.
  - vm_compute. reflexivity.
  - apply s_rdma.
  - lia.
  - apply w_client.
  - apply s_take_eq.
  - apply s_get_eq.
  - apply s_answer.
Defined.

Lemma n_hit : dcc_rdma_write_msg_result true 0 (page_after s_reply [0]) (r_imm s_reply) = 0.
Proof. vm_compute. reflexivity. Qed.

