(* ===== verification/Connect.v ===== *)
(** * Connect: the daemon's connection manager

    [daemon/rdma.cpp] from [get_rdma_device] to [exit_rdma]: connection requests,
    established and closed connections, the exchange of memory regions, the
    threads and completion queues of each queue, and the loops of [run_rdma] and
    [exit_rdma] that consume the connection events in the order they arrive.

    The calls of the verbs library are recorded in the order the code makes them
    ([acts]); [fails] says which of them return an error, and the code's reaction
    is modelled for the calls whose result it tests. *)
From S2P Require Import Prelude Wire Config CountingBloom PercpuPool Ihash Kv Server.

(** ** Queues and clients *)

Inductive queue_state := INIT | CONNECTED.
Inductive cq := SendCQ | RecvCQ | EventCQ.
Inductive thread_fn := DataPoller | HybridPoller | FilterHandler.
#[export] Instance queue_state_eq : EqDecision queue_state.
Proof. solve_decision. Defined.
#[export] Instance cq_eq : EqDecision cq.
Proof. solve_decision. Defined.
#[export] Instance thread_fn_eq : EqDecision thread_fn.
Proof. solve_decision. Defined.

(** [q_qp] is the queue pair with its send and receive completion queues. *)
Record rdma_queue := RdmaQueue {
  q_id : nat;
  q_cm_id : option Z;
  q_qp : option (cq * cq);
  q_state : queue_state;
}.

(** [rdev]: whether the protection domain of the client is allocated. *)
Record dcc_rdma_ctrl := Ctrl { c_id : nat; c_queues : list rdma_queue; c_rdev : bool }.

Record mm_info := MmInfo {
  baseaddr : Z; key : Z; len : Z; cli_id : Z; info0 : Z; info1 : Z; info2 : Z;
}.

(** The calls into the verbs library and the allocator, for client [c] and queue
    [q]; [ReadFreed] is a read of a queue pair that [DestroyQP] freed. *)
Inductive verb :=
| AllocPd (c : nat) | RegisterMR (c : nat) | CreateChannel (c q : nat) | CreateCQ (c q : nat) (k : cq)
| CreateQP (c q : nat) | Accept (id : Z) | Spawn (f : thread_fn) (c q : nat)
| PostSend (c : nat) (m : mm_info) | PostRecv (c : nat) | PollSend (c : nat)
| DestroyQP (c q : nat) | ReadFreed (c q : nat) | DestroyCQ (c q : nat) (k : cq) | DestroyId (id : Z)
| DeregisterMR (c : nat) (last_flag : bool) | DeallocPd (c : nat) | FreeCtrl (c : nat).

#[export] Instance mm_info_eq : EqDecision mm_info.
Proof. solve_decision. Defined.
#[export] Instance verb_eq : EqDecision verb.
Proof. solve_decision. Defined.

Inductive cm_event :=
| ConnectRequest (id : Z) | Established (id : Z) | Disconnected (id : Z) | OtherEvent (id : Z).

Section connect.
Context {T : Type} `{IT : IHash T}.

(** [d_clients !! c = Some None] once [exit_rdma] freed the client's structure;
    [ctx] is [id->context]. *)
Record daemon := Daemon {
  d_sv : server T;
  d_clients : list (option dcc_rdma_ctrl);
  client_ctr : nat;
  queue_ctr : nat;
  ctx : gmap Z (nat * nat);
  acts : list verb;
}.

Definition set_sv (st : daemon) (sv : server T) : daemon :=
  Daemon sv (d_clients st) (client_ctr st) (queue_ctr st) (ctx st) (acts st).
Definition set_client (st : daemon) (c : nat) (x : option dcc_rdma_ctrl) : daemon :=
  Daemon (d_sv st) (<[c := x]> (d_clients st)) (client_ctr st) (queue_ctr st) (ctx st) (acts st).
Definition set_ctrs (st : daemon) (c q : nat) : daemon :=
  Daemon (d_sv st) (d_clients st) c q (ctx st) (acts st).
Definition set_ctx (st : daemon) (id : Z) (cq : nat * nat) : daemon :=
  Daemon (d_sv st) (d_clients st) (client_ctr st) (queue_ctr st) (<[id := cq]> (ctx st)) (acts st).
Definition note (v : verb) (st : daemon) : daemon :=
  Daemon (d_sv st) (d_clients st) (client_ctr st) (queue_ctr st) (ctx st) (acts st ++ [v]).

(** The verbs that fail, and what the code leaves to chance: the region keys the
    card gives, and the uninitialised [rc] of [create_data_cq_handler]. *)
Context (fails : verb -> bool) (rkey : nat -> Z) (rc : Z).

(** [TEST_Z], [TEST_NZ] and the tests that call [die]. *)
Definition checked (v : verb) (st : daemon) : outcome daemon :=
  if fails v then Throw "exit: a verb failed" else Ok (note v st).

Definition get_ctrl (st : daemon) (c : nat) : outcome dcc_rdma_ctrl :=
  match d_clients st !! c with
  | None => Throw "clients[]: out of bounds"
  | Some None => Throw "use after free: ctrl"
  | Some (Some x) => Ok x
  end.
Definition get_queue (st : daemon) (c q : nat) : outcome rdma_queue :=
  ct ← get_ctrl st c;
  match c_queues ct !! q with None => Throw "queues[]: out of bounds" | Some x => Ok x end.
Definition set_queue (st : daemon) (c q : nat) (x : rdma_queue) : outcome daemon :=
  ct ← get_ctrl st c;
  Ok (set_client st c (Some (Ctrl (c_id ct) (<[q := x]> (c_queues ct)) (c_rdev ct)))).

Definition num_qps_ (st : daemon) : nat := Z.to_nat (num_qps (rdma_cfg (store (d_sv st)))).
Definition is_data (st : daemon) (qid : nat) : bool :=
  Z.of_nat qid <? num_data_qps (rdma_cfg (store (d_sv st))).

(** ** Connection requests *)

Definition get_rdma_device (st : daemon) (c : nat) : outcome daemon :=
  ct ← get_ctrl st c;
  if c_rdev ct then Ok st else
    st ← checked (AllocPd c) st;
    Ok (set_client st c (Some (Ctrl (c_id ct) (c_queues ct) true))).

Definition create_qp (st : daemon) (c qid : nat) : outcome daemon :=
  q ← get_queue st c qid;
  '(st, cqs) ← (
    if is_data st (q_id q) then
      if decide (wc_mode (config (store (d_sv st))) = WC_BUSY_WAITING) then
        Ok (note (CreateCQ c qid RecvCQ) (note (CreateCQ c qid SendCQ) st), (SendCQ, RecvCQ))
      else
        st ← checked (CreateChannel c qid) st;
        Ok (note (CreateCQ c qid SendCQ) (note (CreateCQ c qid EventCQ) st), (SendCQ, EventCQ))
    else
      st ← checked (CreateChannel c qid) st;
      Ok (note (CreateCQ c qid EventCQ) st, (EventCQ, EventCQ)));
  st ← checked (CreateQP c qid) st;
  set_queue st c qid (RdmaQueue (q_id q) (q_cm_id q) (Some cqs) (q_state q)).

(** [rc] is tested although nothing assigned it; returning then destroys a
    joinable [std::thread], which terminates the process. *)
Definition create_data_cq_handler (st : daemon) (c qid : nat) : outcome daemon :=
  let st := note (Spawn (if decide (wc_mode (config (store (d_sv st))) = WC_BUSY_WAITING)
                         then DataPoller else HybridPoller) c qid) st in
  if rc =? 0 then Ok st else Throw "std::terminate: joinable thread destroyed".

Definition create_cq_handler (st : daemon) (c qid : nat) : outcome daemon :=
  q ← get_queue st c qid;
  if is_data st (q_id q) then
    if decide (poller_type (config (store (d_sv st))) = PER_QP_POLLER) then create_data_cq_handler st c (q_id q) else Ok st
  else Ok (note (Spawn FilterHandler c qid) st).

Definition on_connect_request (st : daemon) (id : Z) : outcome (Z * daemon) :=
  let c := client_ctr st in
  let qid := queue_ctr st in
  let st := set_ctrs st c (S qid) in
  q ← get_queue st c qid;
  st ← set_queue st c qid (RdmaQueue qid (Some id) (q_qp q) (q_state q));
  let st := set_ctx st id (c, qid) in
  if decide (q_state q = INIT) then
    st ← get_rdma_device st c;
    st ← (if (qid =? 0)%nat then checked (RegisterMR c) st else Ok st);
    st ← create_qp st c qid;
    st ← checked (Accept id) st;
    st ← create_cq_handler st c qid;
    Ok (0, st)
  else Throw "exit: queue is not INIT".

(** ** Established and closed connections *)

(** What the daemon tells the client: its metadata region and the parameters of
    the filter and of the data pool. *)
Definition server_mm_info (st : daemon) (c : nat) : outcome mm_info :=
  ct ← get_ctrl st c;
  f ← GetCBF (store (d_sv st)) 0;
  let s := store (d_sv st) in
  Ok (MmInfo (meta_base (d_sv st) c) (rkey c) (wrap 32 (metadata_mr_size (rdma_cfg s) / PAGE_SIZE))
        (Z.of_nat (c_id ct)) (Z.of_nat (num_hash_ f)) (num_bits_ f)
        (wrap 32 (mem_pool_size (config s) / PAGE_SIZE))).

Definition send_mr (st : daemon) (c : nat) : outcome daemon :=
  m ← server_mm_info st c;
  checked (PostSend c m) st.

(** The receive for the client's region, [wr_id] 0, on queue 0; unlike in [post_recv],
    the result of [ibv_post_recv] is tested. *)
Definition recv_mr (st : daemon) (c : nat) : outcome daemon :=
  st ← checked (PostRecv c) st;
  if Z.of_nat (length (posted (d_sv st) c 0)) <? QP_MAX_RECV_WR then Ok (set_sv st (post_recv (d_sv st) c 0 0))
  else Throw "exit: a verb failed".

Definition exchange_mr (st : daemon) (c : nat) : outcome daemon :=
  st ← send_mr st c;
  recv_mr st c.

Definition on_connection (st : daemon) (c qid : nat) : outcome (Z * daemon) :=
  q ← get_queue st c qid;
  if decide (q_state q = INIT) then
    st ← (if (qid =? 0)%nat then exchange_mr st c else Ok st);
    st ← set_queue st c qid (RdmaQueue (q_id q) (q_cm_id q) (q_qp q) CONNECTED);
    Ok (1, st)
  else Throw "exit: queue is not INIT".

Definition on_disconnect (st : daemon) (c qid : nat) : outcome daemon :=
  q ← get_queue st c qid;
  if decide (q_state q = CONNECTED) then
    st ← set_queue st c qid (RdmaQueue (q_id q) (q_cm_id q) (q_qp q) INIT);
    let st := note (DestroyQP c qid) st in
    st ← (if is_data st (q_id q) then
            match q_qp q with
            | None => Throw "null dereference: q->qp"
            | Some (s, r) => Ok (note (DestroyCQ c qid r) (note (DestroyCQ c qid s) (note (ReadFreed c qid) st)))
            end
          else Ok (note (DestroyCQ c qid EventCQ) st));
    Ok (note (DestroyId (default 0 (q_cm_id q))) st)
  else Ok st.

(** [event->id->context] of an id that no request set is null. *)
Definition queue_of (st : daemon) (id : Z) : outcome (nat * nat) :=
  match ctx st !! id with Some cq => Ok cq | None => Throw "null dereference: q" end.

Definition on_event (st : daemon) (ev : cm_event) : outcome (Z * daemon) :=
  match ev with
  | ConnectRequest id => on_connect_request st id
  | Established id => '(c, q) ← queue_of st id; on_connection st c q
  | Disconnected id => '(c, q) ← queue_of st id; st ← on_disconnect st c q; Ok (-1, st)
  | OtherEvent _ => Ok (-2, st)
  end.

(** Handles events until one of them returns non-zero; [None] while it waits for
    an event that has not arrived. *)
Fixpoint handle_rdma_cm_event (evs : list cm_event) (st : daemon)
  : option (outcome (Z * daemon * list cm_event)) :=
  match evs with
  | [] => None
  | ev :: evs =>
      match on_event st ev with
      | Throw m => Some (Throw m)
      | Ok (ret, st) => if ret =? 0 then handle_rdma_cm_event evs st else Some (Ok (ret, st, evs))
      end
  end.

(** ** run_rdma and exit_rdma *)

Definition bind_run {A B} (o : option (outcome A)) (f : A -> option (outcome B)) : option (outcome B) :=
  match o with
  | None => None
  | Some (Throw m) => Some (Throw m)
  | Some (Ok a) => f a
  end.

(** The loop over the queues of a client, [n] iterations left. *)
Fixpoint wait_queues (n : nat) (evs : list cm_event) (st : daemon) : option (outcome (daemon * list cm_event)) :=
  match n with
  | O => Some (Ok (st, evs))
  | S n => bind_run (handle_rdma_cm_event evs st) (fun '(ret, st, evs) =>
             if ret <? 0 then Some (Throw "assert(0): not conn event") else wait_queues n evs st)
  end.

(** [for (i < num_qps) pre_post_recvs(&ctrl->queues[i], cli_id, i)], from [i]. *)
Fixpoint post_queues (rs : nat -> nat -> nat -> Z) (n i : nat) (sv : server T) (c : nat) : outcome (server T) :=
  match n with
  | O => Ok sv
  | S n => sv ← pre_post_recvs (rs c i) sv c i; post_queues rs n (S i) sv c
  end.

Definition connect_client (rs : nat -> nat -> nat -> Z) (c : nat) (evs : list cm_event) (st : daemon)
  : option (outcome (daemon * list cm_event)) :=
  match (ct ← get_ctrl st c; Ok (set_client st c (Some (Ctrl c (c_queues ct) (c_rdev ct))))) with
  | Throw m => Some (Throw m)
  | Ok st =>
      let st := set_ctrs st (client_ctr st) 0 in
      bind_run (wait_queues (num_qps_ st) evs st) (fun '(st, evs) =>
        let st := note (PollSend c) st in
        let st := set_ctrs st (S (client_ctr st)) (queue_ctr st) in
        Some (sv ← post_queues rs (num_qps_ st) 0 (d_sv st) c; Ok (set_sv st sv, evs)))
  end.

(** Clients [c], [c + 1], ..., [n] of them. *)
Fixpoint run_clients (rs : nat -> nat -> nat -> Z) (n c : nat) (evs : list cm_event) (st : daemon)
  : option (outcome (daemon * list cm_event)) :=
  match n with
  | O => Some (Ok (st, evs))
  | S n => bind_run (connect_client rs c evs st) (fun '(st, evs) => run_clients rs n (S c) evs st)
  end.

Definition run_rdma (rs : nat -> nat -> nat -> Z) (num_clients : nat) (evs : list cm_event) (st : daemon)
  : option (outcome (daemon * list cm_event)) := run_clients rs num_clients 0 evs st.

(** [alloc_control] for each client: all queues INIT. *)
Definition alloc_control (cfg : rdma_config) : dcc_rdma_ctrl :=
  Ctrl 0 (replicate (Z.to_nat (num_qps cfg)) (RdmaQueue 0 None None INIT)) false.
Definition init_daemon (sv : server T) (num_clients : nat) : daemon :=
  Daemon sv (replicate num_clients (Some (alloc_control (rdma_cfg (store sv))))) 0 0 ∅ [].

Definition destroy_device (st : daemon) (c : nat) (last : bool) : outcome daemon :=
  ct ← get_ctrl st c;
  let st := note (DeallocPd c) (note (DeregisterMR c last) st) in
  Ok (set_client st c (Some (Ctrl (c_id ct) (c_queues ct) false))).

Fixpoint wait_disconnects (n : nat) (evs : list cm_event) (st : daemon) : option (outcome (daemon * list cm_event)) :=
  match n with
  | O => Some (Ok (st, evs))
  | S n => bind_run (handle_rdma_cm_event evs st) (fun '(ret, st, evs) =>
             if ret =? -1 then wait_disconnects n evs st else Some (Throw "assert(0): not disconn event"))
  end.

Definition disconnect_client (c : nat) (evs : list cm_event) (st : daemon) : option (outcome (daemon * list cm_event)) :=
  bind_run (wait_disconnects (num_qps_ st) evs st) (fun '(st, evs) =>
    Some (st ← destroy_device st c (c =? client_ctr st - 1)%nat;
          Ok (note (FreeCtrl c) (set_client st c None), evs))).

Fixpoint exit_clients (n c : nat) (evs : list cm_event) (st : daemon) : option (outcome (daemon * list cm_event)) :=
  match n with
  | O => Some (Ok (st, evs))
  | S n => bind_run (disconnect_client c evs st) (fun '(st, evs) => exit_clients n (S c) evs st)
  end.

Definition exit_rdma (evs : list cm_event) (st : daemon) : option (outcome (daemon * list cm_event)) :=
  exit_clients (client_ctr st) 0 evs st.
End connect.
Arguments daemon T : clear implicits.
