(* ===== verification/ConnectSpec.v ===== *)
(** * ConnectSpec: what the connection manager guarantees

    The states of [run_rdma] and [exit_rdma] in closed form, as functions of the
    ids in the order they arrived ([req]), of those established ([est]) and of
    those closed ([dis]); each event is then an equation between such states. *)
From S2P Require Import Prelude Wire Config HashFuncs Ihash LinearProbing LinearProbingProps CountingBloom PercpuPool Kv KvProps KvSpec Server ServerProps ServerSpec Connect.

(** ** Events of a client *)

(** The ids of the connection requests, in their order. *)
Definition arrivals (evs : list cm_event) : list Z :=
  omap (fun ev => match ev with ConnectRequest id => Some id | _ => None end) evs.

(** The established ids, in the order of the events. *)
Definition established (evs : list cm_event) : list Z :=
  omap (fun ev => match ev with Established id => Some id | _ => None end) evs.

(** [handshaking n req est evs]: [evs] are connection requests of distinct ids and
    their completions, in any interleaving, for one client that has [n] queues,
    when [req] have been requested and [est] established; [handshakes]: with [evs]
    all [n] connections are established. *)
Fixpoint handshaking (n : nat) (req est : list Z) (evs : list cm_event) : bool :=
  match evs with
  | [] => true
  | ConnectRequest id :: evs =>
      bool_decide (~ id ∈ req) && (length req <? n)%nat && (length est <? n)%nat && handshaking n (req ++ [id]) est evs
  | Established id :: evs => bool_decide (id ∈ req) && bool_decide (~ id ∈ est) && handshaking n req (est ++ [id]) evs
  | _ => false
  end.
Definition handshakes (n : nat) (evs : list cm_event) : bool :=
  handshaking n [] [] evs && (length (established evs) =? n)%nat.

(** ** Contexts *)

Fixpoint ctx_add (c i : nat) (req : list Z) (m : gmap Z (nat * nat)) : gmap Z (nat * nat) :=
  match req with
  | [] => m
  | id :: req => ctx_add c (S i) req (<[id := (c, i)]> m)
  end.
Fixpoint ctx_from (c : nat) (idss : list (list Z)) (m : gmap Z (nat * nat)) : gmap Z (nat * nat) :=
  match idss with
  | [] => m
  | ids :: idss => ctx_from (S c) idss (ctx_add c 0 ids m)
  end.

Lemma ctx_add_snoc c i req id m : ctx_add c i (req ++ [id]) m = <[id := (c, i + length req)%nat]> (ctx_add c i req m).
Proof.
  revert i m. induction req as [|x req IH]; intros i m; cbn [app ctx_add length]; [by rewrite Nat.add_0_r|].
  rewrite IH. do 2 f_equal. lia.
Qed.

Lemma ctx_add_other c i req m id : ~ id ∈ req -> ctx_add c i req m !! id = m !! id.
Proof.
  revert i m. induction req as [|x req IH]; intros i m Hn; cbn [ctx_add]; [done|].
  rewrite IH by set_solver. apply lookup_insert_ne. set_solver.
Qed.

Lemma ctx_add_lookup c i req m j id : NoDup req -> req !! j = Some id -> ctx_add c i req m !! id = Some (c, (i + j)%nat).
Proof.
  revert i m j. induction req as [|x req IH]; intros i m [|j] Hn Hj; try done; apply NoDup_cons in Hn as [Hx Hn]; cbn in *.
  - injection Hj as ->. rewrite ctx_add_other by done. rewrite lookup_insert_eq. do 2 f_equal. lia.
  - rewrite (IH _ _ j Hn Hj). do 2 f_equal. lia.
Qed.

Lemma ctx_from_snoc c idss ids m : ctx_from c (idss ++ [ids]) m = ctx_add (c + length idss) 0 ids (ctx_from c idss m).
Proof.
  revert c m. induction idss as [|x idss IH]; intros c m; cbn [app ctx_from length]; [by rewrite Nat.add_0_r|].
  rewrite IH. f_equal. lia.
Qed.

Lemma ctx_from_other c idss m id : ~ id ∈ concat idss -> ctx_from c idss m !! id = m !! id.
Proof.
  revert c m. induction idss as [|x idss IH]; intros c m Hn; cbn in *; [done|].
  rewrite IH by set_solver. apply ctx_add_other. set_solver.
Qed.

Lemma ctx_from_lookup k idss m c ids i id :
  NoDup (concat idss) -> idss !! c = Some ids -> ids !! i = Some id -> ctx_from k idss m !! id = Some ((k + c)%nat, i).
Proof.
  revert k m c. induction idss as [|x idss IH]; intros k m [|c] Hn Hc Hi; try done; cbn in *;
    apply NoDup_app in Hn as (Hx & Hd & Hn).
  - injection Hc as ->. rewrite ctx_from_other by (apply Hd; by eapply list_elem_of_lookup_2).
    rewrite (ctx_add_lookup _ _ _ _ i) by done. do 2 f_equal. lia.
  - rewrite (IH _ _ c Hn Hc Hi). do 2 f_equal. lia.
Qed.

Section closed_forms.
Context {T : Type} `{IT : IHash T}.
Implicit Types (sv : server T) (st : daemon T).

(** ** Closed forms *)

Definition nq sv : nat := Z.to_nat (num_qps (rdma_cfg (store sv))).
Definition data_q sv (i : nat) : bool := Z.of_nat i <? num_data_qps (rdma_cfg (store sv)).
Definition busy sv : bool := bool_decide (wc_mode (config (store sv)) = WC_BUSY_WAITING).

(** The completion queues of queue [i], for sending and for receiving. *)
Definition qp_cqs sv i : cq * cq :=
  if data_q sv i then (SendCQ, if busy sv then RecvCQ else EventCQ) else (EventCQ, EventCQ).
(** In the order they are created. *)
Definition own_cqs sv i : list cq :=
  if data_q sv i then if busy sv then [SendCQ; RecvCQ] else [EventCQ; SendCQ] else [EventCQ].

Definition queue_val sv (req est : list Z) (i : nat) : rdma_queue :=
  match req !! i with
  | Some id => RdmaQueue i (Some id) (Some (qp_cqs sv i)) (if decide (id ∈ est) then CONNECTED else INIT)
  | None => RdmaQueue 0 None None INIT
  end.
Definition queues sv (req est : list Z) : list rdma_queue := queue_val sv req est <$> seq 0 (nq sv).
Definition conn_ctrl sv (c : nat) (req est : list Z) : dcc_rdma_ctrl :=
  Ctrl c (queues sv req est) (bool_decide (req <> [])).

(** The daemon while client [c] connects. *)
Definition conn_state sv cls c ctx0 (req est : list Z) (a : list verb) : daemon T :=
  Daemon sv (<[c := Some (conn_ctrl sv c req est)]> cls) c (length req) (ctx_add c 0 req ctx0) a.

(** The calls made for the request of queue [i] and for its completion. *)
Definition qp_acts sv c i : list verb :=
  (if data_q sv i && busy sv then [] else [CreateChannel c i]) ++ (CreateCQ c i <$> own_cqs sv i).
Definition handler_acts sv c i : list verb :=
  if data_q sv i then
    if decide (poller_type (config (store sv)) = PER_QP_POLLER)
    then [Spawn (if busy sv then DataPoller else HybridPoller) c i] else []
  else [Spawn FilterHandler c i].
Definition req_acts sv c i id : list verb :=
  (if (i =? 0)%nat then [AllocPd c; RegisterMR c] else []) ++ qp_acts sv c i ++ [CreateQP c i; Accept id] ++ handler_acts sv c i.

(** What posting receives leaves alone. *)
Record sv_same (sv sv' : server T) : Prop := {
  sm_config : config (store sv') = config (store sv);
  sm_rdma : rdma_cfg (store sv') = rdma_cfg (store sv);
  sm_cbfs : cbfs (store sv') = cbfs (store sv);
  sm_base : meta_base sv' = meta_base sv;
  sm_lookup k : kv_lookup (store sv') k = kv_lookup (store sv) k;
}.
#[local] Instance sv_same_preorder : PreOrder sv_same.
Proof.
  split; [done|]. intros x y z [A1 A2 A3 A4 A5] [B1 B2 B3 B4 B5]. split; [congruence..|]. intros k. by rewrite B5.
Qed.

Lemma post_recv_sv_same sv c q a : sv_same sv (post_recv sv c q a).
Proof. unfold post_recv. by case_match. Qed.

Lemma conn_ctrl_same sv sv' c req est : sv_same sv sv' -> conn_ctrl sv' c req est = conn_ctrl sv c req est.
Proof. intros [E1 E2 _ _ _]. unfold conn_ctrl, queues, queue_val, qp_cqs, nq, data_q, busy. by rewrite E1, E2. Qed.

Lemma req_acts_same sv sv' c i id : sv_same sv sv' -> req_acts sv' c i id = req_acts sv c i id.
Proof. intros [E1 E2 _ _ _]. unfold req_acts, qp_acts, handler_acts, own_cqs, data_q, busy. by rewrite E1, E2. Qed.

(** The receive for the region of client [c] is posted once its queue 0 is established. *)
Definition mr_sv sv c (req est : list Z) : server T :=
  match head req with Some id => if decide (id ∈ est) then post_recv sv c 0 0 else sv | None => sv end.

Lemma mr_sv_same sv c req est : sv_same sv (mr_sv sv c req est).
Proof. unfold mr_sv. destruct (head req); [|done]. case_decide; [apply post_recv_sv_same|done]. Qed.

Lemma mr_sv_request sv c req est id : ~ id ∈ est -> mr_sv sv c (req ++ [id]) est = mr_sv sv c req est.
Proof. intros H. unfold mr_sv. destruct req as [|x req]; [|done]. cbn. by rewrite decide_False. Qed.

Context (fails : verb -> bool) (rkey : nat -> Z) (rc : Z).
Context (fails_none : forall v, fails v = false).

Lemma checked_ok v st : checked fails v st = Ok (note v st).
Proof. unfold checked. by rewrite fails_none. Qed.

Lemma checked_if (b : bool) v sv cls c q m a :
  (if b then checked fails v (Daemon sv cls c q m a) else Ok (Daemon sv cls c q m a)) =
  Ok (Daemon sv cls c q m (a ++ if b then [v] else [])).
Proof. destruct b; [apply checked_ok|by rewrite app_nil_r]. Qed.

Lemma queues_lookup sv req est i : (i < nq sv)%nat -> queues sv req est !! i = Some (queue_val sv req est i).
Proof. intros H. unfold queues. rewrite list_lookup_fmap, lookup_seq_lt by done. done. Qed.

Lemma length_queues sv req est : length (queues sv req est) = nq sv.
Proof. unfold queues. by rewrite length_fmap, length_seq. Qed.

(** Two queue arrays that differ at one place. *)
Lemma queues_insert sv req est req' est' i x :
  (i < nq sv)%nat -> queue_val sv req' est' i = x ->
  (forall j, j <> i -> queue_val sv req' est' j = queue_val sv req est j) ->
  <[i := x]> (queues sv req est) = queues sv req' est'.
Proof.
  intros Hi Hx Hj. apply list_eq. intros j. destruct (decide (j = i)) as [->|Hne].
  - rewrite list_lookup_insert_eq by (by rewrite length_queues). by rewrite queues_lookup, Hx.
  - rewrite list_lookup_insert_ne by done. unfold queues. rewrite !list_lookup_fmap.
    destruct (decide (j < nq sv)%nat) as [Hlt|Hge]; [|by rewrite lookup_seq_ge by lia].
    rewrite lookup_seq_lt by done. cbn. by rewrite Hj.
Qed.

Lemma queue_val_snoc sv req est id j : ~ id ∈ est -> j <> length req ->
  queue_val sv (req ++ [id]) est j = queue_val sv req est j.
Proof.
  intros He Hj. unfold queue_val. destruct (decide (j < length req)%nat) as [H|H].
  - by rewrite lookup_app_l.
  - rewrite (lookup_ge_None_2 (req ++ [id])), (lookup_ge_None_2 req); [done|lia|rewrite length_app; cbn; lia].
Qed.

Lemma queue_val_last sv req est id : ~ id ∈ est ->
  queue_val sv (req ++ [id]) est (length req) = RdmaQueue (length req) (Some id) (Some (qp_cqs sv (length req))) INIT.
Proof. intros H. unfold queue_val. rewrite list_lookup_middle by done. by rewrite decide_False. Qed.

Lemma get_ctrl_at sv cls c x n q m a : (c < length cls)%nat -> get_ctrl (Daemon sv (<[c := Some x]> cls) n q m a) c = Ok x.
Proof. intros H. unfold get_ctrl. cbn [d_clients]. by rewrite list_lookup_insert_eq. Qed.

Lemma get_queue_at sv cls c x n q m a i y :
  (c < length cls)%nat -> c_queues x !! i = Some y -> get_queue (Daemon sv (<[c := Some x]> cls) n q m a) c i = Ok y.
Proof. intros H Hi. unfold get_queue. rewrite get_ctrl_at by done. obind. by rewrite Hi. Qed.

Lemma set_queue_at sv cls c x n q m a i y :
  (c < length cls)%nat ->
  set_queue (Daemon sv (<[c := Some x]> cls) n q m a) c i y =
  Ok (Daemon sv (<[c := Some (Ctrl (c_id x) (<[i := y]> (c_queues x)) (c_rdev x))]> cls) n q m a).
Proof.
  intros H. unfold set_queue. rewrite get_ctrl_at by done. obind. unfold set_client. cbn [d_sv d_clients client_ctr queue_ctr ctx acts].
  by rewrite list_insert_insert_eq.
Qed.

Lemma get_rdma_device_at sv cls c x n q m a :
  (c < length cls)%nat ->
  get_rdma_device fails (Daemon sv (<[c := Some x]> cls) n q m a) c =
  Ok (Daemon sv (<[c := Some (Ctrl (c_id x) (c_queues x) true)]> cls) n q m (a ++ if c_rdev x then [] else [AllocPd c])).
Proof.
  intros H. unfold get_rdma_device. rewrite get_ctrl_at by done. obind. destruct x as [ci qs [|]]; cbn [c_rdev c_id c_queues].
  - by rewrite app_nil_r.
  - rewrite checked_ok. obind. unfold set_client, note. cbn [d_sv d_clients client_ctr queue_ctr ctx acts].
    by rewrite list_insert_insert_eq.
Qed.

Lemma create_qp_at sv cls c x n q m a i y :
  (c < length cls)%nat -> c_queues x !! i = Some y -> q_id y = i ->
  create_qp fails (Daemon sv (<[c := Some x]> cls) n q m a) c i =
  Ok (Daemon sv (<[c := Some (Ctrl (c_id x) (<[i := RdmaQueue i (q_cm_id y) (Some (qp_cqs sv i)) (q_state y)]> (c_queues x)) (c_rdev x))]> cls)
        n q m (a ++ qp_acts sv c i ++ [CreateQP c i])).
Proof.
  intros H Hi Hy. unfold create_qp. rewrite (get_queue_at _ _ _ _ _ _ _ _ _ y) by done. obind. rewrite Hy.
  unfold is_data. cbn [d_sv]. change (Z.of_nat i <? num_data_qps (rdma_cfg (store sv))) with (data_q sv i).
  unfold qp_acts, qp_cqs, own_cqs, busy. rewrite !checked_ok.
  destruct (data_q sv i); [|].
  - destruct (decide (wc_mode (config (store sv)) = WC_BUSY_WAITING)) as [Hb|Hb];
      [rewrite !bool_decide_true by done|rewrite !bool_decide_false by done]; cbn [andb fst snd]; rewrite ?checked_ok; obind; rewrite ?checked_ok; obind;
      unfold note; cbn [d_sv d_clients client_ctr queue_ctr ctx acts]; rewrite set_queue_at by done;
      by rewrite <- !app_assoc.
  - cbn [andb]. obind. rewrite ?checked_ok. obind. rewrite ?checked_ok. obind. unfold note. cbn [d_sv d_clients client_ctr queue_ctr ctx acts].
    rewrite set_queue_at by done. by rewrite <- !app_assoc.
Qed.

Lemma create_cq_handler_at sv cls c x n q m a i y :
  (poller_type (config (store sv)) = PER_QP_POLLER -> rc = 0) ->
  (c < length cls)%nat -> c_queues x !! i = Some y -> q_id y = i ->
  create_cq_handler rc (Daemon sv (<[c := Some x]> cls) n q m a) c i =
  Ok (Daemon sv (<[c := Some x]> cls) n q m (a ++ handler_acts sv c i)).
Proof.
  intros Hrc H Hi Hy. unfold create_cq_handler. rewrite (get_queue_at _ _ _ _ _ _ _ _ _ y) by done. obind. rewrite Hy.
  unfold is_data, handler_acts. cbn [d_sv]. change (Z.of_nat i <? num_data_qps (rdma_cfg (store sv))) with (data_q sv i).
  destruct (data_q sv i); [|done]. case_decide as Hp; [|by rewrite app_nil_r].
  unfold create_data_cq_handler. rewrite (Hrc Hp). cbn [Z.eqb]. unfold note, busy. cbn [d_sv d_clients client_ctr queue_ctr ctx acts].
  do 4 f_equal. by destruct (decide _); [rewrite bool_decide_true|rewrite bool_decide_false].
Qed.

(** ** One event *)

(** The request of the next queue. *)
Lemma on_request_eq sv cls c ctx0 req est a id :
  (poller_type (config (store sv)) = PER_QP_POLLER -> rc = 0) ->
  (c < length cls)%nat -> (length req < nq sv)%nat -> ~ id ∈ est ->
  on_event fails rkey rc (conn_state sv cls c ctx0 req est a) (ConnectRequest id) =
  Ok (0, conn_state sv cls c ctx0 (req ++ [id]) est (a ++ req_acts sv c (length req) id)).
Proof.
  intros Hrc Hc Hl He. unfold on_event, on_connect_request, conn_state. cbn [client_ctr queue_ctr]. unfold set_ctrs.
  cbn [d_sv d_clients ctx acts]. set (i := length req) in *.
  assert (queue_val sv req est i = RdmaQueue 0 None None INIT) as Hv.
  { unfold queue_val. rewrite lookup_ge_None_2; [done|]. unfold i. lia. }
  rewrite (get_queue_at _ _ _ _ _ _ _ _ _ (RdmaQueue 0 None None INIT)); [|done|].
  2:{ unfold conn_ctrl. cbn [c_queues]. by rewrite queues_lookup, Hv. }
  obind. rewrite set_queue_at by done. obind. cbn [q_state q_qp]. rewrite decide_True by done.
  unfold set_ctx. cbn [d_sv d_clients client_ctr queue_ctr ctx acts]. rewrite get_rdma_device_at by done. obind.
  cbn [c_id c_queues c_rdev].
  rewrite checked_if. obind.
  rewrite (create_qp_at _ _ _ _ _ _ _ _ _ (RdmaQueue i (Some id) None INIT)); [|done| |done].
  2:{ cbn [c_queues conn_ctrl]. apply list_lookup_insert_eq. by rewrite length_queues. }
  obind. rewrite checked_ok. obind. unfold note. cbn [d_sv d_clients client_ctr queue_ctr ctx acts c_id c_queues c_rdev q_cm_id q_state].
  rewrite list_insert_insert_eq.
  rewrite (create_cq_handler_at _ _ _ _ _ _ _ _ _ (RdmaQueue i (Some id) (Some (qp_cqs sv i)) INIT)); [|done|done| |done].
  2:{ cbn [c_queues conn_ctrl]. apply list_lookup_insert_eq. by rewrite length_queues. }
  obind. rewrite ctx_add_snoc. cbn [c_id conn_ctrl c_queues c_rdev Nat.add].
  rewrite (queues_insert sv req est (req ++ [id]) est); [|done|by apply queue_val_last|by intros; apply queue_val_snoc].
  unfold conn_ctrl. rewrite (bool_decide_true (req ++ [id] <> [])) by (by destruct req). rewrite length_app, Nat.add_1_r.
  assert (bool_decide (req <> []) = negb (i =? 0)%nat) as -> by (by unfold i; destruct req).
  do 3 f_equal. unfold req_acts. rewrite <- !app_assoc. by destruct (i =? 0)%nat.
Qed.

Lemma queue_val_establish sv req est i id j : NoDup req -> req !! i = Some id -> j <> i ->
  queue_val sv req (est ++ [id]) j = queue_val sv req est j.
Proof.
  intros Hn Hi Hj. unfold queue_val. destruct (req !! j) as [id'|] eqn:E; [|done].
  assert (id' <> id) by (intros ->; apply Hj; by eapply NoDup_lookup).
  f_equal. destruct (decide (id' ∈ est)) as [H1|H1]; [rewrite decide_True by set_solver|rewrite decide_False by set_solver]; done.
Qed.

(** The region sent to client [c], with [f] the filter of client 0. *)
Definition mm_info_of sv (f : cbf) (c : nat) : mm_info :=
  MmInfo (meta_base sv c) (rkey c) (wrap 32 (metadata_mr_size (rdma_cfg (store sv)) / PAGE_SIZE)) (Z.of_nat c)
    (Z.of_nat (num_hash_ f)) (num_bits_ f) (wrap 32 (mem_pool_size (config (store sv)) / PAGE_SIZE)).
Definition est_acts sv f c (req : list Z) (id : Z) : list verb :=
  if decide (head req = Some id) then [PostSend c (mm_info_of sv f c); PostRecv c] else [].

Lemma mr_sv_posted sv c req est id : posted sv c 0 = [] -> req !! 0%nat = Some id -> ~ id ∈ est ->
  posted (mr_sv sv c req est) c 0 = [].
Proof. intros Hp Hi He. unfold mr_sv. destruct req as [|x req]; [done|]. injection Hi as ->. cbn. by rewrite decide_False. Qed.

Lemma mr_sv_establish sv c req est i id : NoDup req -> req !! i = Some id -> ~ id ∈ est ->
  (if (i =? 0)%nat then post_recv (mr_sv sv c req est) c 0 0 else mr_sv sv c req est) = mr_sv sv c req (est ++ [id]).
Proof.
  intros Hn Hi He. unfold mr_sv. destruct req as [|x req]; [done|]. cbn [head]. destruct i as [|i]; cbn [Nat.eqb].
  - injection Hi as ->. by rewrite decide_False, decide_True by set_solver.
  - assert (id <> x) as Hne.
    { intros ->. apply NoDup_cons in Hn as [Hn _]. apply Hn. by eapply list_elem_of_lookup_2. }
    destruct (decide (x ∈ est)); [rewrite decide_True by set_solver|rewrite decide_False by set_solver]; done.
Qed.

(** A requested connection is established: only queue 0 exchanges regions. *)
Lemma on_established_eq sv f cls c ctx0 req est a i id :
  GetCBF (store sv) 0 = Ok f ->
  (c < length cls)%nat -> (length req <= nq sv)%nat -> NoDup req -> req !! i = Some id -> ~ id ∈ est ->
  (i = 0%nat -> posted sv c 0 = []) ->
  on_event fails rkey rc (conn_state sv cls c ctx0 req est a) (Established id) =
  Ok (1, conn_state (if (i =? 0)%nat then post_recv sv c 0 0 else sv) cls c ctx0 req (est ++ [id]) (a ++ est_acts sv f c req id)).
Proof.
  intros Hf Hc Hl Hn Hi He Hp. unfold on_event, queue_of, conn_state. cbn [ctx].
  rewrite (ctx_add_lookup c 0 req ctx0 i id Hn Hi). obind. cbn [Nat.add]. unfold on_connection.
  pose proof (lookup_lt_Some _ _ _ Hi) as Hlt.
  assert (queue_val sv req est i = RdmaQueue i (Some id) (Some (qp_cqs sv i)) INIT) as Hv.
  { unfold queue_val. rewrite Hi. by rewrite decide_False. }
  rewrite (get_queue_at _ _ _ _ _ _ _ _ _ (queue_val sv req est i)); [|done|].
  2:{ unfold conn_ctrl. cbn [c_queues]. apply queues_lookup. lia. }
  obind. rewrite Hv. cbn [q_state q_id q_cm_id q_qp]. rewrite decide_True by done.
  assert (<[i := RdmaQueue i (Some id) (Some (qp_cqs sv i)) CONNECTED]> (queues sv req est) = queues sv req (est ++ [id])) as Hq.
  { apply queues_insert; [lia| |by intros; eapply queue_val_establish]. unfold queue_val. rewrite Hi. by rewrite decide_True by set_solver. }
  assert (est_acts sv f c req id = if (i =? 0)%nat then [PostSend c (mm_info_of sv f c); PostRecv c] else []) as ->.
  { unfold est_acts. destruct req as [|x req]; [done|]. destruct i as [|i]; cbn in *.
    - by rewrite decide_True.
    - rewrite decide_False; [done|]. intros [= ->]. apply NoDup_cons in Hn as [Hn _]. apply Hn. by eapply list_elem_of_lookup_2. }
  destruct (Nat.eqb_spec i 0) as [Ei|_].
  - rewrite (conn_ctrl_same _ _ _ _ _ (post_recv_sv_same sv c 0 0)). unfold exchange_mr, send_mr, recv_mr, server_mm_info. rewrite get_ctrl_at by done. obind. cbn [d_sv]. rewrite Hf. obind. rewrite checked_ok. obind.
    rewrite checked_ok. obind. unfold note. cbn [d_sv d_clients client_ctr queue_ctr ctx acts]. rewrite (Hp Ei). cbn [length].
    change (Z.of_nat 0 <? QP_MAX_RECV_WR) with true. obind. unfold set_sv. cbn [d_sv d_clients client_ctr queue_ctr ctx acts].
    rewrite set_queue_at by done. obind.
    cbn [c_id conn_ctrl c_queues c_rdev]. rewrite Hq. by rewrite <- app_assoc.
  - obind. rewrite set_queue_at by done. obind. cbn [c_id conn_ctrl c_queues c_rdev]. by rewrite Hq, app_nil_r.
Qed.

(** ** One client *)

Fixpoint client_trace sv f c (req : list Z) (evs : list cm_event) : list verb :=
  match evs with
  | [] => []
  | ConnectRequest id :: evs => req_acts sv c (length req) id ++ client_trace sv f c (req ++ [id]) evs
  | Established id :: evs => est_acts sv f c req id ++ client_trace sv f c req evs
  | _ :: evs => client_trace sv f c req evs
  end.

Lemma wait_queues_more n ev evs st st' :
  on_event fails rkey rc st ev = Ok (0, st') ->
  wait_queues fails rkey rc (S n) (ev :: evs) st = wait_queues fails rkey rc (S n) evs st'.
Proof. intros E. cbn [wait_queues handle_rdma_cm_event]. by rewrite E. Qed.

Lemma wait_queues_next n ev evs st st' r :
  on_event fails rkey rc st ev = Ok (r, st') -> 0 < r ->
  wait_queues fails rkey rc (S n) (ev :: evs) st = wait_queues fails rkey rc n evs st'.
Proof.
  intros E Hr. cbn [wait_queues handle_rdma_cm_event]. rewrite E. rewrite (proj2 (Z.eqb_neq r 0)) by lia. cbn [bind_run].
  by rewrite (proj2 (Z.ltb_ge r 0)) by lia.
Qed.

Lemma wait_queues_eq sv f cls c ctx0 rest evs req est a :
  (poller_type (config (store sv)) = PER_QP_POLLER -> rc = 0) -> GetCBF (store sv) 0 = Ok f -> (c < length cls)%nat ->
  posted sv c 0 = [] ->
  NoDup req -> NoDup est -> est ⊆ req -> (length req <= nq sv)%nat -> handshaking (nq sv) req est evs = true ->
  wait_queues fails rkey rc (nq sv - length est) (evs ++ rest) (conn_state (mr_sv sv c req est) cls c ctx0 req est a) =
  wait_queues fails rkey rc (nq sv - length (est ++ established evs)) rest
    (conn_state (mr_sv sv c (req ++ arrivals evs) (est ++ established evs)) cls c ctx0 (req ++ arrivals evs)
       (est ++ established evs) (a ++ client_trace sv f c req evs)).
Proof.
  intros Hrc Hf Hc Hp0. revert req est a. induction evs as [|ev evs IH]; intros req est a Hn He Hs Hl Hh; cbn [handshaking] in Hh.
  { cbn. by rewrite !app_nil_r. }
  destruct ev as [id|id| |]; try done.
  - rewrite !andb_true_iff, bool_decide_eq_true, !Nat.ltb_lt in Hh. destruct Hh as [[[Hid Hr] Hlt] Hh].
    destruct (nq sv - length est)%nat as [|n] eqn:En; [lia|]. cbn [app].
    pose proof (mr_sv_same sv c req est) as Hsm. pose proof Hsm as [S1 S2 S3 _ _].
    assert (nq (mr_sv sv c req est) = nq sv) as Enq by (unfold nq; by rewrite S2).
    rewrite (wait_queues_more _ _ _ _ _ (on_request_eq (mr_sv sv c req est) cls c ctx0 req est a id
      ltac:(by rewrite S1) Hc ltac:(by rewrite Enq) ltac:(set_solver))).
    rewrite (req_acts_same _ _ _ _ _ Hsm), <- (mr_sv_request sv c req est id ltac:(set_solver)).
    rewrite <- En, IH; [|by apply NoDup_app; split_and!; [done|set_solver|apply NoDup_singleton]|done|set_solver|rewrite length_app; cbn; lia|done].
    cbn [arrivals established omap list_omap client_trace]. unfold arrivals, established. by rewrite <- !app_assoc.
  - rewrite !andb_true_iff, !bool_decide_eq_true in Hh. destruct Hh as [[Hin Hid] Hh].
    assert (length (est ++ [id]) <= nq sv)%nat as Hlt.
    { etrans; [|exact Hl]. apply submseteq_length, NoDup_submseteq; [|set_solver].
      apply NoDup_app; split_and!; [done|set_solver|apply NoDup_singleton]. }
    rewrite length_app in Hlt. cbn [length] in Hlt. destruct (nq sv - length est)%nat as [|n] eqn:En; [lia|]. cbn [app].
    apply list_elem_of_lookup_1 in Hin as Hi. destruct Hi as [i Hi].
    pose proof (mr_sv_same sv c req est) as Hsm. pose proof Hsm as [S1 S2 S3 S4 _].
    assert (nq (mr_sv sv c req est) = nq sv) as Enq by (unfold nq; by rewrite S2).
    rewrite (wait_queues_next _ _ _ _ _ _ (on_established_eq (mr_sv sv c req est) f cls c ctx0 req est a i id
      ltac:(unfold GetCBF, cbf_at in *; by rewrite S3) Hc ltac:(by rewrite Enq) Hn Hi Hid ltac:(intros ->; by eapply mr_sv_posted)) ltac:(lia)).
    rewrite (mr_sv_establish sv c req est i id Hn Hi Hid).
    assert (est_acts (mr_sv sv c req est) f c req id = est_acts sv f c req id) as ->.
    { unfold est_acts, mm_info_of. by rewrite S1, S2, S4. }
    replace n with (nq sv - length (est ++ [id]))%nat by (rewrite length_app; cbn; lia).
    rewrite IH; [|done|by apply NoDup_app; split_and!; [done|set_solver|apply NoDup_singleton]|set_solver|done|done].
    cbn [arrivals established omap list_omap client_trace]. unfold arrivals, established. by rewrite <- !app_assoc.
Qed.

(** The ids established are among those requested. *)
Lemma handshaking_ids n evs req est :
  NoDup req -> NoDup est -> est ⊆ req -> (length req <= n)%nat -> handshaking n req est evs = true ->
  NoDup (req ++ arrivals evs) /\ NoDup (est ++ established evs) /\
  est ++ established evs ⊆ req ++ arrivals evs /\ (length (req ++ arrivals evs) <= n)%nat.
Proof.
  revert req est. induction evs as [|[id|id| |] evs IH]; intros req est Hn He Hs Hl Hh; cbn [handshaking] in Hh; try done.
  - cbn. by rewrite !app_nil_r.
  - rewrite !andb_true_iff, bool_decide_eq_true, !Nat.ltb_lt in Hh. destruct Hh as [[[Hid Hr] _] Hh].
    cbn [arrivals established omap list_omap]. rewrite (cons_middle id req), app_assoc. apply IH; try done.
    + apply NoDup_app; split_and!; [done|set_solver|apply NoDup_singleton].
    + set_solver.
    + rewrite length_app. cbn. lia.
  - rewrite !andb_true_iff, !bool_decide_eq_true in Hh. destruct Hh as [[Hin Hid] Hh].
    cbn [arrivals established omap list_omap]. rewrite (cons_middle id est), (app_assoc est). apply IH; try done.
    + apply NoDup_app; split_and!; [done|set_solver|apply NoDup_singleton].
    + set_solver.
Qed.

Lemma handshakes_ids n evs : handshakes n evs = true ->
  handshaking n [] [] evs = true /\ NoDup (arrivals evs) /\ length (arrivals evs) = n /\
  length (established evs) = n /\ established evs ≡ₚ arrivals evs.
Proof.
  intros [Hh Hl%Nat.eqb_eq]%andb_true_iff.
  destruct (handshaking_ids n evs [] []) as (H1 & H2 & H3 & H4); [by constructor|by constructor|done|cbn; lia|done|].
  cbn [app] in *. pose proof (NoDup_submseteq _ _ H2 H3) as Hsub. pose proof (submseteq_length _ _ Hsub) as Hle.
  split_and!; try done; [lia|]. apply submseteq_length_Permutation; [done|lia].
Qed.

Lemma queues_perm sv req est est' : est ≡ₚ est' -> queues sv req est = queues sv req est'.
Proof.
  intros E. apply list_fmap_ext. intros _ i _. unfold queue_val. destruct (req !! i) as [id|]; [|done]. f_equal.
  destruct (decide (id ∈ est)) as [H|H]; rewrite E in H; [by rewrite decide_True|by rewrite decide_False].
Qed.

Lemma queues_none sv : queues sv [] [] = replicate (nq sv) (RdmaQueue 0 None None INIT).
Proof.
  apply list_eq. intros i. destruct (decide (i < nq sv)%nat) as [H|H].
  - by rewrite queues_lookup, lookup_replicate_2.
  - rewrite !lookup_ge_None_2; [done|rewrite length_replicate; lia|rewrite length_queues; lia].
Qed.

Lemma client_trace_same sv sv' f c req evs : sv_same sv sv' -> client_trace sv' f c req evs = client_trace sv f c req evs.
Proof.
  intros Hs. revert req. pose proof Hs as [E1 E2 _ E4 _].
  induction evs as [|[id|id|id|id] evs IH]; intros req; cbn [client_trace]; rewrite ?IH; try done.
  - f_equal. by apply req_acts_same.
  - f_equal. unfold est_acts, mm_info_of. by rewrite E1, E2, E4.
Qed.

Lemma pre_post_frame rs n sv c q sv' : pre_post rs n sv c q = Ok sv' ->
  config (store sv') = config (store sv) /\ rdma_cfg (store sv') = rdma_cfg (store sv) /\ cbfs (store sv') = cbfs (store sv) /\
  meta_base sv' = meta_base sv /\ forall c' q', (c', q') <> (c, q) -> posted sv' c' q' = posted sv c' q'.
Proof.
  revert sv. induction n as [|n IH]; intros sv E; cbn [pre_post] in E; [by injection E as <-|].
  assert (forall sv1 x, config (store (post_recv sv1 c q x)) = config (store sv1) /\
    rdma_cfg (store (post_recv sv1 c q x)) = rdma_cfg (store sv1) /\ cbfs (store (post_recv sv1 c q x)) = cbfs (store sv1) /\
    meta_base (post_recv sv1 c q x) = meta_base sv1 /\
    forall c' q', (c', q') <> (c, q) -> posted (post_recv sv1 c q x) c' q' = posted sv1 c' q') as Hp.
  { intros sv1 x. unfold post_recv. cbv zeta. destruct (Z.of_nat (length (posted sv1 c q)) <? QP_MAX_RECV_WR); [|by split_and!]. split_and!; try done. intros c' q' Hne. unfold posted, set_recvs. cbn [recvs].
    by rewrite lookup_insert_ne by congruence. }
  destruct (Z.of_nat q <? _).
  - apply outcome_bind_Ok in E as ([s x] & Ea & E). apply IH in E as (-> & -> & -> & -> & E5).
    destruct (Hp (set_store sv s) x) as (-> & -> & -> & -> & P5).
    unfold kv_Allocate in Ea. apply outcome_bind_Ok in Ea as ([p y] & _ & [= <- <-]). split_and!; try done.
    intros c' q' Hne. by rewrite E5, P5.
  - apply IH in E as (-> & -> & -> & -> & E5). destruct (Hp sv 0) as (-> & -> & -> & -> & P5). split_and!; try done.
    intros c' q' Hne. by rewrite E5, P5.
Qed.

Lemma pre_post_appends rs n c q : forall sv sv', pre_post rs n sv c q = Ok sv' ->
  exists l, posted sv' c q = posted sv c q ++ l.
Proof.
  assert (forall sv1 x, exists l, posted (post_recv sv1 c q x) c q = posted sv1 c q ++ l) as Hp.
  { intros sv1 x. unfold post_recv. cbv zeta. case_match; [rewrite posted_set_eq; by eexists|exists []; by rewrite app_nil_r]. }
  induction n as [|n IH]; intros sv sv' E; cbn [pre_post] in E; [injection E as <-; exists []; by rewrite app_nil_r|].
  destruct (Z.of_nat q <? _).
  - apply outcome_bind_Ok in E as ([s x] & _ & E). apply IH in E as [l2 ->]. destruct (Hp (set_store sv s) x) as [l1 ->].
    exists (l1 ++ l2). by rewrite app_assoc.
  - apply IH in E as [l2 ->]. destruct (Hp sv 0) as [l1 ->]. exists (l1 ++ l2). by rewrite app_assoc.
Qed.

(** The receives a queue gets from [pre_post_recvs]. *)
Definition prefilled sv sv' c j : Prop :=
  exists l, posted sv' c j = posted sv c j ++ l /\ Z.of_nat (length l) = MAX_QPS_RECVS.

Lemma post_queues_spec pages rs c fl lo la n : ~ 0 ∈ pages -> forall i sv,
  srv_inv pages (Sys sv fl lo la) -> (c < num_clients (config (store sv)))%nat ->
  (forall j, (i <= j < i + n)%nat -> (length (posted sv c j) <= 1)%nat) ->
  exists sv', post_queues rs n i sv c = Ok sv' /\ (srv_inv pages (Sys sv' fl lo la) /\
    forall st0 : sys, srv_reachable st0 (Sys sv fl lo la) -> srv_reachable st0 (Sys sv' fl lo la)) /\ sv_same sv sv' /\
    (forall j, (i <= j < i + n)%nat -> prefilled sv sv' c j) /\
    (forall c' j, c' <> c \/ ~ (i <= j < i + n)%nat -> posted sv' c' j = posted sv c' j).
Proof.
  intros H0. induction n as [|n IH]; intros i sv Hi Hc He; cbn [post_queues].
  { exists sv. split_and!; try done. lia. }
  destruct (pre_post_inv pages c i (rs c i) (Z.to_nat MAX_QPS_RECVS) H0 _ Hi Hc) as (sv1 & E1 & Hi1 & Hl1 & Hk1).
  { cbn [sys_sv]. specialize (He i ltac:(lia)). unfold MAX_QPS_RECVS, QP_MAX_RECV_WR, QP_MAX_SEND_WR. lia. }
  cbn [sys_sv flights lost last] in *. unfold pre_post_recvs at 1. rewrite E1. obind.
  destruct (pre_post_frame _ _ _ _ _ _ E1) as (F1 & F2 & F3 & F4 & F5).
  destruct (IH (S i) sv1) as (sv2 & E2 & (Hi2 & Hr2) & Hs2 & Hl2 & Hp2); [done|by rewrite F1| |].
  { intros j Hj. rewrite F5 by (intros [=]; lia). apply He. lia. }
  exists sv2. split; [exact E2|]. split.
  { split; [done|]. intros st0 Hr. apply Hr2. eapply SrvStep; [exact Hr|].
    apply (SConnect (Sys sv fl lo la) c i (rs c i) sv1); [done| |done]. cbn [sys_sv]. apply He. lia. } split; [by transitivity sv1; [split|]|]. split.
  - intros j Hj. destruct (decide (j = i)) as [->|Hne].
    + destruct (pre_post_appends _ _ _ _ _ _ E1) as [l El]. exists l. rewrite Hp2 by lia. split; [done|].
      rewrite El, length_app in Hl1. change (Z.of_nat (Z.to_nat MAX_QPS_RECVS)) with MAX_QPS_RECVS in Hl1. lia.
    + destruct (Hl2 j) as (l & El & Hll); [lia|]. exists l. rewrite El, F5; [done|]. by intros [= ->].
  - intros c' j Hj. rewrite Hp2 by lia. apply F5. intros [= -> ->]. destruct Hj as [Hj|Hj]; [done|]. apply Hj. lia.
Qed.

(** Client [c] of [run_rdma]: its queues are the requested ids in their order. *)
Definition connected sv sv' c : Prop :=
  forall j, (j < nq sv)%nat -> exists l, posted sv' c j = (if (j =? 0)%nat then [0] else []) ++ l /\ Z.of_nat (length l) = MAX_QPS_RECVS.

Lemma posted_mr sv c j : posted sv c j = [] -> posted (post_recv sv c 0 0) c j = if (j =? 0)%nat then [0] else [].
Proof.
  intros Hj. unfold post_recv. cbv zeta. destruct (Nat.eqb_spec j 0) as [->|Hne].
  - rewrite Hj. cbn [length]. change (Z.of_nat 0 <? QP_MAX_RECV_WR) with true. cbv iota. by rewrite posted_set_eq.
  - case_match; [|done]. unfold posted in *. cbn [recvs set_recvs]. by rewrite lookup_insert_ne by congruence.
Qed.

Lemma posted_other sv c c' j a : c' <> c -> posted (post_recv sv c 0 a) c' j = posted sv c' j.
Proof. intros H. unfold post_recv. case_match; [|done]. unfold posted. cbn [recvs set_recvs]. by rewrite lookup_insert_ne by congruence. Qed.

Lemma mr_sv_cases sv c evs : handshakes (nq sv) evs = true ->
  (nq sv = 0%nat /\ mr_sv sv c (arrivals evs) (established evs) = sv) \/
  ((0 < nq sv)%nat /\ mr_sv sv c (arrivals evs) (established evs) = post_recv sv c 0 0).
Proof.
  intros Hh. destruct (handshakes_ids _ _ Hh) as (_ & _ & Hlen & _ & Hest). unfold mr_sv.
  destruct (arrivals evs) as [|id ids]; cbn [length head] in *; [left; by rewrite <- Hlen|right]. split; [lia|].
  rewrite decide_True; [done|]. rewrite Hest. left.
Qed.

Lemma connect_client_eq pages rs sv f cls c q m a la evs rest :
  ~ 0 ∈ pages -> (poller_type (config (store sv)) = PER_QP_POLLER -> rc = 0) -> GetCBF (store sv) 0 = Ok f ->
  cls !! c = Some (Some (alloc_control (rdma_cfg (store sv)))) ->
  srv_inv pages (Sys sv [] [] la) -> (c < num_clients (config (store sv)))%nat ->
  (forall j, posted sv c j = []) -> handshakes (nq sv) evs = true ->
  exists sv', connect_client fails rkey rc rs c (evs ++ rest) (Daemon sv cls c q m a) =
      Some (Ok (Daemon sv' (<[c := Some (conn_ctrl sv c (arrivals evs) (arrivals evs))]> cls) (S c) (nq sv)
                  (ctx_add c 0 (arrivals evs) m) (a ++ client_trace sv f c [] evs ++ [PollSend c]), rest)) /\
    (srv_inv pages (Sys sv' [] [] la) /\
     forall st0 : sys, srv_reachable st0 (Sys sv [] [] la) -> srv_reachable st0 (Sys sv' [] [] la)) /\ sv_same sv sv' /\
    connected sv sv' c /\
    (forall c' j, c' <> c -> posted sv' c' j = posted sv c' j).
Proof.
  intros H0 Hrc Hf Hcls Hi Hc He Hh. pose proof (lookup_lt_Some _ _ _ Hcls) as Hlt.
  pose proof (mr_sv_same sv c (arrivals evs) (established evs)) as Hsm. pose proof Hsm as [S1 S2 S3 S4 S5].
  pose proof (mr_sv_cases sv c evs Hh) as Hmr. set (sv1 := mr_sv sv c (arrivals evs) (established evs)) in *.
  assert (nq sv1 = nq sv) as Enq by (unfold nq; by rewrite S2).
  assert (forall j, posted sv1 c j = [] \/ posted sv1 c j = if (j =? 0)%nat then [0] else []) as Hpj.
  { intros j. destruct Hmr as [[_ ->]|[_ ->]]; [left; apply He|right; by apply posted_mr]. }
  assert (srv_inv pages (Sys sv1 [] [] la)) as Hi1.
  { destruct Hmr as [[_ ->]|[_ ->]]; [done|]. by apply (exchange_inv pages (Sys sv [] [] la) c 0). }
  destruct (post_queues_spec pages rs c [] [] la (nq sv) H0 0 sv1 Hi1) as (sv' & E & [Hi' Hr'] & Hs & Hl & Hp); [by rewrite S1| |].
  { intros j _. destruct (Hpj j) as [->| ->]; [cbn; lia|]. case_match; cbn; lia. }
  exists sv'. split; [|split; [split; [done|]|split; [by transitivity sv1|split]]].
  2:{ intros st0 Hr. apply Hr'. destruct Hmr as [[_ ->]|[_ ->]]; [done|]. eapply SrvStep; [exact Hr|].
      apply (SExchange (Sys sv [] [] la) c 0). }
  2:{ intros j Hj. destruct (Hl j) as (l & El & Hll); [lia|]. exists l. rewrite El.
      destruct Hmr as [[Hz _]|[_ ->]]; [lia|]. by rewrite posted_mr. }
  2:{ intros c' j Hne. rewrite Hp by (by left). destruct Hmr as [[_ ->]|[_ ->]]; [done|]. by apply posted_other. }
  unfold connect_client, get_ctrl. cbn [d_clients]. rewrite Hcls. obind. unfold set_client, set_ctrs.
  cbn [d_sv d_clients client_ctr queue_ctr ctx acts alloc_control c_queues c_rdev].
  assert (Daemon sv (<[c := Some (Ctrl c (replicate (Z.to_nat (num_qps (rdma_cfg (store sv)))) (RdmaQueue 0 None None INIT)) false)]> cls)
    c 0 m a = conn_state sv cls c m [] [] a) as ->.
  { unfold conn_state, conn_ctrl. cbn [length ctx_add]. rewrite queues_none. done. }
  destruct (handshakes_ids (nq sv) evs Hh) as (Hh' & Hn & Hlen & Hle & Hest).
  pose proof (wait_queues_eq sv f cls c m rest evs [] [] a Hrc Hf Hlt (He 0%nat)) as Hw.
  cbn [length app mr_sv head] in Hw. fold sv1 in Hw.
  rewrite Hle, Nat.sub_0_r, Nat.sub_diag in Hw. cbn [wait_queues] in Hw.
  change (num_qps_ (conn_state sv cls c m [] [] a)) with (nq sv).
  rewrite Hw by (try done; try (constructor); cbn; lia). cbn [bind_run app] in *. unfold note, conn_state, num_qps_.
  cbn [d_sv d_clients client_ctr queue_ctr ctx acts]. change (Z.to_nat (num_qps (rdma_cfg (store sv1)))) with (nq sv1).
  rewrite Enq, E. obind. unfold set_sv. cbn [d_sv d_clients client_ctr queue_ctr ctx acts]. rewrite Hlen, <- app_assoc. 
  do 4 f_equal. rewrite (conn_ctrl_same _ _ _ _ _ Hsm). unfold conn_ctrl. by rewrite (queues_perm _ _ _ _ Hest).
Qed.

(** ** All clients *)

Fixpoint connect_all sv c (evss : list (list cm_event)) (cls : list (option dcc_rdma_ctrl)) : list (option dcc_rdma_ctrl) :=
  match evss with
  | [] => cls
  | evs :: evss => connect_all sv (S c) evss (<[c := Some (conn_ctrl sv c (arrivals evs) (arrivals evs))]> cls)
  end.
Fixpoint run_trace sv f c (evss : list (list cm_event)) : list verb :=
  match evss with
  | [] => []
  | evs :: evss => client_trace sv f c [] evs ++ [PollSend c] ++ run_trace sv f (S c) evss
  end.

Lemma connect_all_same sv sv' c evss cls : sv_same sv sv' -> connect_all sv' c evss cls = connect_all sv c evss cls.
Proof. intros Hs. revert c cls. induction evss as [|evs evss IH]; intros c cls; cbn; [done|]. by rewrite IH, (conn_ctrl_same _ _ _ _ _ Hs). Qed.

Lemma run_trace_same sv sv' f c evss : sv_same sv sv' -> run_trace sv' f c evss = run_trace sv f c evss.
Proof. intros Hs. revert c. induction evss as [|evs evss IH]; intros c; cbn; [done|]. by rewrite IH, (client_trace_same _ _ _ _ _ _ Hs). Qed.

Lemma run_clients_eq pages rs f la rest evss : ~ 0 ∈ pages -> forall sv cls c q m a,
  (poller_type (config (store sv)) = PER_QP_POLLER -> rc = 0) -> GetCBF (store sv) 0 = Ok f ->
  (forall i, (c <= i < c + length evss)%nat -> cls !! i = Some (Some (alloc_control (rdma_cfg (store sv))))) ->
  srv_inv pages (Sys sv [] [] la) -> (c + length evss <= num_clients (config (store sv)))%nat ->
  (forall i j, (c <= i)%nat -> posted sv i j = []) -> Forall (fun evs => handshakes (nq sv) evs = true) evss ->
  exists sv', run_clients fails rkey rc rs (length evss) c (concat evss ++ rest) (Daemon sv cls c q m a) =
      Some (Ok (Daemon sv' (connect_all sv c evss cls) (c + length evss) (if decide (evss = []) then q else nq sv)
                  (ctx_from c (arrivals <$> evss) m) (a ++ run_trace sv f c evss), rest)) /\
    (srv_inv pages (Sys sv' [] [] la) /\
     forall st0 : sys, srv_reachable st0 (Sys sv [] [] la) -> srv_reachable st0 (Sys sv' [] [] la)) /\ sv_same sv sv' /\
    (forall i, (c <= i < c + length evss)%nat -> connected sv sv' i) /\
    (forall i j, ~ (c <= i < c + length evss)%nat -> posted sv' i j = posted sv i j).
Proof.
  intros H0. induction evss as [|evs evss IH]; intros sv cls c q m a Hrc Hf Hcls Hi Hc He Hh.
  { exists sv. cbn. rewrite app_nil_r, Nat.add_0_r. split_and!; try done. lia. }
  apply Forall_cons in Hh as [Hh1 Hh]. cbn [length] in *.
  destruct (connect_client_eq pages rs sv f cls c q m a la evs (concat evss ++ rest)) as (sv1 & E1 & (Hi1 & Hr1) & Hs1 & Hl1 & Hp1);
    [done|done|done|apply Hcls; lia|done|lia|intros; apply He; lia|done|].
  assert (nq sv1 = nq sv) as En by (unfold nq; by rewrite (sm_rdma _ _ Hs1)).
  pose proof Hs1 as [S1 S2 S3 _ _].
  destruct (IH sv1 (<[c := Some (conn_ctrl sv c (arrivals evs) (arrivals evs))]> cls) (S c) (nq sv) (ctx_add c 0 (arrivals evs) m)
    (a ++ client_trace sv f c [] evs ++ [PollSend c])) as (sv2 & E2 & (Hi2 & Hr2) & Hs2 & Hl2 & Hp2).
  - by rewrite S1.
  - unfold GetCBF, cbf_at in *. by rewrite S3.
  - intros i Hlt. rewrite list_lookup_insert_ne by lia. rewrite S2. apply Hcls. lia.
  - done.
  - rewrite S1. lia.
  - intros i j Hlt. rewrite Hp1 by lia. apply He. lia.
  - eapply Forall_impl; [exact Hh|]. intros evs' H. unfold nq. by rewrite S2.
  - exists sv2. split; [|split; [by auto|]; split; [by transitivity sv1|split]].
    + cbn [run_clients concat]. rewrite <- app_assoc, E1. cbn [bind_run]. rewrite E2. cbn [connect_all run_trace ctx_from fmap list_fmap].
      rewrite (connect_all_same _ _ _ _ _ Hs1), (run_trace_same _ _ _ _ _ Hs1), En, <- !app_assoc, Nat.add_succ_r.
      do 3 f_equal. by destruct (decide (evss = [])).
    + intros i Hlt j Hj. destruct (decide (i = c)) as [->|Hne]; [rewrite Hp2 by lia; by apply Hl1|apply Hl2; [lia|by rewrite En]].
    + intros i j Hlt. rewrite Hp2 by lia. apply Hp1. lia.
Qed.

(** ** Closing connections *)

Definition open_ids (ids dis : list Z) : list Z := filter (fun id => ~ id ∈ dis) ids.

(** The daemon while it exits: the first [fr] clients are freed, the connections in [dis] are closed. *)
Definition clients_of sv (idss : list (list Z)) (fr : nat) (dis : list Z) : list (option dcc_rdma_ctrl) :=
  imap (fun c ids => if (c <? fr)%nat then None else Some (conn_ctrl sv c ids (open_ids ids dis))) idss.
Definition closing sv idss fr dis q a : daemon T :=
  Daemon sv (clients_of sv idss fr dis) (length idss) q (ctx_from 0 idss ∅) a.

Definition dis_acts sv c i id : list verb :=
  DestroyQP c i :: (if data_q sv i then [ReadFreed c i; DestroyCQ c i (qp_cqs sv i).1; DestroyCQ c i (qp_cqs sv i).2]
                    else [DestroyCQ c i EventCQ]) ++ [DestroyId id].
Definition dis_trace sv idss (ds : list Z) : list verb :=
  concat ((fun id => match ctx_from 0 idss ∅ !! id with Some (c, i) => dis_acts sv c i id | None => [] end) <$> ds).

Lemma clients_of_lookup sv idss fr dis c ids :
  idss !! c = Some ids -> (fr <= c)%nat -> clients_of sv idss fr dis !! c = Some (Some (conn_ctrl sv c ids (open_ids ids dis))).
Proof.
  intros H Hc. unfold clients_of. rewrite list_lookup_imap, H. cbn [fmap option_fmap option_map]. by rewrite (proj2 (Nat.ltb_ge c fr)).
Qed.

(** Changing client [c] alone. *)
Lemma clients_of_insert sv idss fr dis fr' dis' c x :
  (c < length idss)%nat -> clients_of sv idss fr' dis' !! c = Some x ->
  (forall j ids, j <> c -> idss !! j = Some ids -> open_ids ids dis' = open_ids ids dis /\ (j <? fr')%nat = (j <? fr)%nat) ->
  <[c := x]> (clients_of sv idss fr dis) = clients_of sv idss fr' dis'.
Proof.
  intros Hc Hx Hj. apply list_eq. intros j. destruct (decide (j = c)) as [->|Hne].
  - rewrite list_lookup_insert_eq by (unfold clients_of; by rewrite length_imap). done.
  - rewrite list_lookup_insert_ne by done. unfold clients_of. rewrite !list_lookup_imap. destruct (idss !! j) as [ids|] eqn:E; [|done].
    cbn [fmap option_fmap option_map]. by destruct (Hj j ids Hne E) as [-> ->].
Qed.

Lemma open_ids_cons ids dis id : ~ id ∈ ids -> open_ids ids (id :: dis) = open_ids ids dis.
Proof.
  intros H. unfold open_ids. induction ids as [|x ids IH]; [done|]. rewrite !filter_cons, IH by set_solver.
  destruct (decide (~ x ∈ dis)); [rewrite decide_True by set_solver|rewrite decide_False by set_solver]; done.
Qed.

Lemma concat_disjoint (idss : list (list Z)) j c x y id :
  NoDup (concat idss) -> idss !! j = Some x -> idss !! c = Some y -> j <> c -> id ∈ y -> ~ id ∈ x.
Proof.
  intros Hn Hj Hc Hne Hy Hx. apply list_elem_of_lookup_1 in Hy as [k Hk]. apply list_elem_of_lookup_1 in Hx as [l Hl].
  pose proof (ctx_from_lookup 0 idss ∅ c y k id Hn Hc Hk) as E1. rewrite (ctx_from_lookup 0 idss ∅ j x l id Hn Hj Hl) in E1.
  injection E1 as -> _. done.
Qed.

Lemma NoDup_concat_lookup (idss : list (list Z)) c ids : NoDup (concat idss) -> idss !! c = Some ids -> NoDup ids.
Proof.
  revert c. induction idss as [|x idss IH]; intros [|c] Hn Hc; try done; cbn in *; apply NoDup_app in Hn as (? & _ & ?);
    [by injection Hc as ->|by eapply IH].
Qed.

Lemma on_disconnected_eq sv idss fr dis q a c i ids id :
  NoDup (concat idss) -> idss !! c = Some ids -> ids !! i = Some id -> (i < nq sv)%nat -> (fr <= c)%nat -> ~ id ∈ dis ->
  on_event fails rkey rc (closing sv idss fr dis q a) (Disconnected id) =
  Ok (-1, closing sv idss fr (id :: dis) q (a ++ dis_acts sv c i id)).
Proof.
  intros Hn Hc Hi Hlt Hf Hd. pose proof (lookup_lt_Some _ _ _ Hc) as Hlc.
  pose proof (NoDup_concat_lookup _ _ _ Hn Hc) as Hni.
  assert (id ∈ open_ids ids dis) as Ho.
  { unfold open_ids. apply list_elem_of_filter. split; [done|by eapply list_elem_of_lookup_2]. }
  unfold on_event, queue_of, closing. cbn [ctx]. rewrite (ctx_from_lookup 0 idss ∅ c ids i id Hn Hc Hi). obind. cbn [Nat.add].
  unfold on_disconnect, get_queue, get_ctrl. cbn [d_clients]. rewrite (clients_of_lookup _ _ _ _ _ ids) by done. obind.
  unfold conn_ctrl at 1. cbn [c_queues]. rewrite queues_lookup by done. obind.
  assert (queue_val sv ids (open_ids ids dis) i = RdmaQueue i (Some id) (Some (qp_cqs sv i)) CONNECTED) as ->.
  { unfold queue_val. rewrite Hi. by rewrite decide_True. }
  cbn [q_state q_id q_cm_id q_qp]. rewrite decide_True by done. unfold set_queue, get_ctrl. cbn [d_clients].
  rewrite (clients_of_lookup _ _ _ _ _ ids) by done. obind. unfold set_client, note, is_data.
  cbn [d_sv d_clients client_ctr queue_ctr ctx acts]. change (Z.of_nat i <? num_data_qps (rdma_cfg (store sv))) with (data_q sv i).
  assert (<[c := Some (Ctrl (c_id (conn_ctrl sv c ids (open_ids ids dis)))
      (<[i := RdmaQueue i (Some id) (Some (qp_cqs sv i)) INIT]> (c_queues (conn_ctrl sv c ids (open_ids ids dis))))
      (c_rdev (conn_ctrl sv c ids (open_ids ids dis))))]> (clients_of sv idss fr dis) = clients_of sv idss fr (id :: dis)) as ->.
  { apply clients_of_insert; [done| |].
    - rewrite (clients_of_lookup _ _ _ _ _ ids) by done. unfold conn_ctrl. cbn [c_id c_queues c_rdev]. do 3 f_equal. symmetry.
      apply queues_insert; [done| |].
      + unfold queue_val. rewrite Hi, decide_False; [done|]. unfold open_ids. rewrite list_elem_of_filter. intros [H _]. apply H. by left.
      + intros j Hj. unfold queue_val. destruct (ids !! j) as [id'|] eqn:Ej; [|done]. f_equal.
        assert (id' <> id) by (intros ->; apply Hj; by eapply NoDup_lookup).
        assert (id' ∈ open_ids ids (id :: dis) <-> id' ∈ open_ids ids dis) as Hiff.
        { unfold open_ids. rewrite !list_elem_of_filter. set_solver. }
        destruct (decide (id' ∈ open_ids ids dis)); [rewrite decide_True by tauto|rewrite decide_False by tauto]; done.
    - intros j x Hne Hx. split; [|done]. apply open_ids_cons. eapply concat_disjoint; [done|done|exact Hc|done|].
      by eapply list_elem_of_lookup_2. }
  unfold dis_acts. destruct (data_q sv i).
  - destruct (qp_cqs sv i) as [s r]. obind. cbn [acts d_sv d_clients client_ctr queue_ctr ctx default fst snd]. by rewrite <- !app_assoc.
  - obind. cbn [acts d_sv d_clients client_ctr queue_ctr ctx default]. by rewrite <- !app_assoc.
Qed.

(** [ds] are open connections of clients that are not freed. *)
Definition closable sv (idss : list (list Z)) (fr : nat) (dis ds : list Z) : Prop :=
  NoDup ds /\ forall id, id ∈ ds -> ~ id ∈ dis /\
    exists c i ids, idss !! c = Some ids /\ ids !! i = Some id /\ (i < nq sv)%nat /\ (fr <= c)%nat.

Lemma wait_disconnects_eq sv idss fr q rest ds : NoDup (concat idss) -> forall dis a,
  closable sv idss fr dis ds ->
  wait_disconnects fails rkey rc (length ds) ((Disconnected <$> ds) ++ rest) (closing sv idss fr dis q a) =
  Some (Ok (closing sv idss fr (rev ds ++ dis) q (a ++ dis_trace sv idss ds), rest)).
Proof.
  intros Hn. induction ds as [|d ds IH]; intros dis a [Hd Hc]; [by cbn; rewrite app_nil_r|].
  apply NoDup_cons in Hd as [Hd Hds]. destruct (Hc d ltac:(left)) as (Hdis & c & i & ids & H1 & H2 & H3 & H4).
  cbn [length wait_disconnects fmap list_fmap app handle_rdma_cm_event].
  rewrite (on_disconnected_eq sv idss fr dis q a c i ids d) by done. cbn [Z.eqb bind_run].
  rewrite IH.
  - cbn [rev]. rewrite <- (app_assoc (rev ds)). cbn [app]. unfold dis_trace. cbn [fmap list_fmap concat].
    rewrite (ctx_from_lookup 0 idss ∅ c ids i d Hn H1 H2). by rewrite <- app_assoc.
  - split; [done|]. intros id Hid. destruct (Hc id ltac:(by right)) as (H5 & H6). split; [set_solver|done].
Qed.

Definition free_acts (idss : list (list Z)) c : list verb :=
  [DeregisterMR c (c =? length idss - 1)%nat; DeallocPd c; FreeCtrl c].

Lemma disconnect_client_eq sv idss c q rest ds dis a :
  NoDup (concat idss) -> (c < length idss)%nat -> closable sv idss c dis ds -> length ds = nq sv ->
  disconnect_client fails rkey rc c ((Disconnected <$> ds) ++ rest) (closing sv idss c dis q a) =
  Some (Ok (closing sv idss (S c) (rev ds ++ dis) q (a ++ dis_trace sv idss ds ++ free_acts idss c), rest)).
Proof.
  intros Hn Hc Hd Hl. unfold disconnect_client. change (num_qps_ (closing sv idss c dis q a)) with (nq sv). rewrite <- Hl.
  rewrite wait_disconnects_eq by done. cbn [bind_run]. apply lookup_lt_is_Some in Hc as Hc'. destruct Hc' as [ids Hids].
  unfold destroy_device, get_ctrl, closing. cbn [d_clients].
  rewrite (clients_of_lookup _ _ _ _ _ ids) by done. obind. unfold note, set_client. cbn [d_sv d_clients client_ctr queue_ctr ctx acts].
  rewrite list_insert_insert_eq.
  rewrite (clients_of_insert sv idss c (rev ds ++ dis) (S c) (rev ds ++ dis)); [by rewrite <- !app_assoc|done| |].
  - unfold clients_of. rewrite list_lookup_imap, Hids. cbn [fmap option_fmap option_map]. by rewrite (proj2 (Nat.ltb_lt c (S c))) by lia.
  - intros j x Hne Hx. split; [done|]. destruct (Nat.ltb_spec j (S c)), (Nat.ltb_spec j c); try done; lia.
Qed.

(** The disconnections come client by client, [dss] listing each client's in any order. *)
Fixpoint exit_trace sv idss c (dss : list (list Z)) : list verb :=
  match dss with
  | [] => []
  | ds :: dss => dis_trace sv idss ds ++ free_acts idss c ++ exit_trace sv idss (S c) dss
  end.

Lemma exit_clients_eq sv idss q rest dss : NoDup (concat idss) -> Forall (fun ids => length ids = nq sv) idss -> forall c dis a,
  (forall j ds, dss !! j = Some ds -> exists ids, idss !! (c + j)%nat = Some ids /\ ds ≡ₚ ids) ->
  (forall id, id ∈ dis -> exists j ids, (j < c)%nat /\ idss !! j = Some ids /\ id ∈ ids) ->
  exit_clients fails rkey rc (length dss) c ((Disconnected <$> concat dss) ++ rest) (closing sv idss c dis q a) =
  Some (Ok (closing sv idss (c + length dss) (rev (concat dss) ++ dis) q (a ++ exit_trace sv idss c dss), rest)).
Proof.
  intros Hn Hlen. induction dss as [|ds dss IH]; intros c dis a Hds Hdis; cbn [length exit_clients concat exit_trace].
  { cbn. by rewrite app_nil_r, Nat.add_0_r. }
  destruct (Hds 0%nat ds eq_refl) as (ids & Hids & Hp). rewrite Nat.add_0_r in Hids.
  pose proof (proj1 (Forall_lookup _ _) Hlen c ids Hids) as Hl. cbv beta in Hl.
  rewrite fmap_app, <- app_assoc. rewrite disconnect_client_eq; [|done|by eapply lookup_lt_Some| |by rewrite Hp].
  - cbn [bind_run]. rewrite IH.
    + rewrite rev_app_distr, <- !app_assoc, Nat.add_succ_r. done.
    + intros j ds' Hj. replace (S c + j)%nat with (c + S j)%nat by lia. by apply Hds.
    + intros id Hid. apply elem_of_app in Hid as [Hid|Hid].
      * exists c, ids. split; [lia|]. split; [done|]. by rewrite <- Hp, list_elem_of_In, in_rev, <- list_elem_of_In.
      * destruct (Hdis id Hid) as (j & x & H1 & H2 & H3). exists j, x. split; [lia|done].
  - split.
    + rewrite Hp. by eapply NoDup_concat_lookup.
    + intros id Hid. rewrite Hp in Hid. split.
      * intros Hd. destruct (Hdis id Hd) as (j & x & H1 & H2 & H3). eapply (concat_disjoint idss j c x ids id); try done. lia.
      * apply list_elem_of_lookup_1 in Hid as Hi. destruct Hi as [i Hi]. exists c, i, ids. split_and!; try done.
        apply lookup_lt_Some in Hi. lia.
Qed.

(** [exit_rdma] once [run_rdma] returned, when the clients disconnect in their order. *)
Lemma exit_rdma_eq sv evss dss q a rest : NoDup (concat (arrivals <$> evss)) ->
  Forall (fun evs => handshakes (nq sv) evs = true) evss -> Forall2 (≡ₚ) dss (arrivals <$> evss) ->
  exit_rdma fails rkey rc ((Disconnected <$> concat dss) ++ rest) (closing sv (arrivals <$> evss) 0 [] q a) =
  Some (Ok (closing sv (arrivals <$> evss) (length evss) (rev (concat dss)) q (a ++ exit_trace sv (arrivals <$> evss) 0 dss), rest)).
Proof.
  intros Hn Hh Hds. unfold exit_rdma. cbn [client_ctr closing]. rewrite <- (Forall2_length _ _ _ Hds).
  rewrite exit_clients_eq; [by rewrite (Forall2_length _ _ _ Hds), length_fmap, app_nil_r|done| | |by intros id []%not_elem_of_nil].
  - rewrite Forall_fmap. eapply Forall_impl; [exact Hh|]. intros evs He. by apply handshakes_ids.
  - intros j ds Hj. by apply (Forall2_lookup_l _ _ _ _ _ Hds) in Hj.
Qed.

Lemma closed_clients sv evss q dis a c : (c < length evss)%nat ->
  d_clients (closing sv (arrivals <$> evss) (length evss) dis q a) !! c = Some None.
Proof.
  intros Hc. unfold closing, clients_of. cbn [d_clients]. rewrite list_lookup_imap, list_lookup_fmap.
  destruct (lookup_lt_is_Some_2 evss c Hc) as [evs ->]. cbn [fmap option_fmap option_map]. by rewrite (proj2 (Nat.ltb_lt c _)).
Qed.

(** ** What the recorded calls amount to *)

Definition created_cqs (a : list verb) : list (nat * nat * cq) :=
  omap (fun v => match v with CreateCQ c q k => Some (c, q, k) | _ => None end) a.
Definition destroyed_cqs (a : list verb) : list (nat * nat * cq) :=
  omap (fun v => match v with DestroyCQ c q k => Some (c, q, k) | _ => None end) a.
Definition accepted_ids (a : list verb) : list Z := omap (fun v => match v with Accept id => Some id | _ => None end) a.
Definition destroyed_ids (a : list verb) : list Z := omap (fun v => match v with DestroyId id => Some id | _ => None end) a.
Definition sent_infos (a : list verb) : list mm_info := omap (fun v => match v with PostSend _ m => Some m | _ => None end) a.
Definition cqs_of sv c i : list (nat * nat * cq) := (fun k => (c, i, k)) <$> own_cqs sv i.

(** The calls of a request, seen through each of these. *)
Lemma req_acts_seen sv c i id :
  created_cqs (req_acts sv c i id) = cqs_of sv c i /\ destroyed_cqs (req_acts sv c i id) = [] /\
  accepted_ids (req_acts sv c i id) = [id] /\ destroyed_ids (req_acts sv c i id) = [] /\ sent_infos (req_acts sv c i id) = [].
Proof.
  unfold req_acts, qp_acts, handler_acts, cqs_of, own_cqs. split_and!; destruct (i =? 0)%nat, (data_q sv i), (busy sv);
    repeat case_decide; done.
Qed.
Lemma est_acts_seen sv f c req id :
  created_cqs (est_acts sv f c req id) = [] /\ destroyed_cqs (est_acts sv f c req id) = [] /\
  accepted_ids (est_acts sv f c req id) = [] /\ destroyed_ids (est_acts sv f c req id) = [] /\
  sent_infos (est_acts sv f c req id) = if decide (head req = Some id) then [mm_info_of sv f c] else [].
Proof. unfold est_acts. case_decide; done. Qed.
Lemma dis_acts_seen sv c i id :
  created_cqs (dis_acts sv c i id) = [] /\ destroyed_cqs (dis_acts sv c i id) ≡ₚ cqs_of sv c i /\
  accepted_ids (dis_acts sv c i id) = [] /\ destroyed_ids (dis_acts sv c i id) = [id].
Proof.
  unfold dis_acts, cqs_of, own_cqs, qp_cqs. destruct (data_q sv i), (busy sv); split_and!; try done. constructor.
Qed.

Lemma client_trace_seen sv f c evs req :
  created_cqs (client_trace sv f c req evs) = concat (cqs_of sv c <$> seq (length req) (length (arrivals evs))) /\
  destroyed_cqs (client_trace sv f c req evs) = [] /\
  accepted_ids (client_trace sv f c req evs) = arrivals evs /\ destroyed_ids (client_trace sv f c req evs) = [].
Proof.
  revert req. induction evs as [|[id|id|id|id] evs IH]; intros req; cbn [client_trace]; try done; try apply IH.
  - destruct (IH (req ++ [id])) as (I1 & I2 & I3 & I4). destruct (req_acts_seen sv c (length req) id) as (R1 & R2 & R3 & R4 & _).
    unfold created_cqs, destroyed_cqs, accepted_ids, destroyed_ids in *. rewrite !omap_app, I1, I2, I3, I4, R1, R2, R3, R4.
    rewrite length_app, Nat.add_1_r. done.
  - destruct (IH req) as (I1 & I2 & I3 & I4). destruct (est_acts_seen sv f c req id) as (R1 & R2 & R3 & R4 & _).
    unfold created_cqs, destroyed_cqs, accepted_ids, destroyed_ids in *. by rewrite !omap_app, I1, I2, I3, I4, R1, R2, R3, R4.
Qed.

Lemma handshaking_once n evs req est id : handshaking n req est evs = true -> id ∈ est -> ~ id ∈ established evs.
Proof.
  revert req est. induction evs as [|[x|x| |] evs IH]; intros req est Hh He; cbn [handshaking] in Hh; try done; [apply not_elem_of_nil| |];
    rewrite !andb_true_iff in Hh; destruct Hh as [Hb Hh]; [by eapply IH|].
  destruct Hb as [_ Hx%bool_decide_eq_true]. cbn [established omap list_omap]. fold (established evs).
  rewrite not_elem_of_cons. split; [by intros ->|]. apply (IH req (est ++ [x]) Hh). set_solver.
Qed.

(** Queue 0 exchanges the regions exactly once. *)
Lemma client_trace_sent sv f c n evs req est :
  handshaking n req est evs = true -> NoDup req ->
  sent_infos (client_trace sv f c req evs) =
  match head (req ++ arrivals evs) with
  | Some h => if decide (h ∈ established evs) then [mm_info_of sv f c] else []
  | None => []
  end.
Proof.
  revert req est. induction evs as [|[id|id| |] evs IH]; intros req est Hh Hn; cbn [handshaking] in Hh; try done.
  - cbn. by destruct (head _).
  - rewrite !andb_true_iff, bool_decide_eq_true in Hh. destruct Hh as [[[Hid _] _] Hh]. cbn [client_trace].
    destruct (req_acts_seen sv c (length req) id) as (_ & _ & _ & _ & R). unfold sent_infos in *. rewrite omap_app, R.
    cbn [app]. rewrite (IH (req ++ [id]) est Hh) by (apply NoDup_app; split_and!; [done|set_solver|apply NoDup_singleton]).
    by rewrite <- app_assoc.
  - rewrite !andb_true_iff, !bool_decide_eq_true in Hh. destruct Hh as [[Hin Hid] Hh]. cbn [client_trace].
    destruct (est_acts_seen sv f c req id) as (_ & _ & _ & _ & R). unfold sent_infos in *. rewrite omap_app, R.
    rewrite (IH req (est ++ [id]) Hh Hn). cbn [arrivals established omap list_omap].
    destruct req as [|h req]; [by apply not_elem_of_nil in Hin|]. cbn [app head]. fold (arrivals evs) (established evs).
    pose proof (handshaking_once n evs _ _ id Hh ltac:(set_solver)) as Ho.
    destruct (decide (Some h = Some id)) as [[= ->]|Hne].
    + rewrite (decide_False (P := id ∈ established evs)) by done. by rewrite decide_True by set_solver.
    + assert (h <> id) by congruence. cbn [app].
      destruct (decide (h ∈ established evs)); [by rewrite decide_True by set_solver|by rewrite decide_False by set_solver].
Qed.

Lemma connect_all_lookup sv evss : forall c cls i,
  connect_all sv c evss cls !! i =
  match evss !! (i - c)%nat with
  | Some evs => if decide (c <= i < length cls)%nat then Some (Some (conn_ctrl sv i (arrivals evs) (arrivals evs))) else cls !! i
  | None => cls !! i
  end.
Proof.
  induction evss as [|evs evss IH]; intros c cls i; cbn [connect_all]; [done|]. rewrite IH, length_insert.
  destruct (decide (i = c)) as [->|Hne].
  - rewrite Nat.sub_diag. replace (c - S c)%nat with 0%nat by lia. cbn [lookup list_lookup].
    destruct (decide (c <= c < length cls)%nat) as [H|H].
    + destruct (evss !! 0%nat); [rewrite decide_False by lia|]; by rewrite list_lookup_insert_eq by lia.
    + destruct (evss !! 0%nat); [rewrite decide_False by lia|]; by rewrite list_insert_ge by lia.
  - rewrite list_lookup_insert_ne by done. destruct (decide (i < c)%nat) as [H|H].
    + replace (i - c)%nat with 0%nat by lia. replace (i - S c)%nat with 0%nat by lia. cbn [lookup list_lookup].
      rewrite (decide_False (P := (c <= i < length cls)%nat)) by lia. destruct (evss !! 0%nat); [|done].
      by rewrite decide_False by lia.
    + replace (i - c)%nat with (S (i - S c)) by lia. cbn [lookup list_lookup]. destruct (evss !! (i - S c)%nat); [|done].
      destruct (decide (i < length cls)%nat); [by rewrite !decide_True by lia|by rewrite !decide_False by lia].
Qed.

Lemma open_ids_nil ids : open_ids ids [] = ids.
Proof. unfold open_ids. induction ids as [|x ids IH]; [done|]. rewrite filter_cons_True by apply not_elem_of_nil. by rewrite IH. Qed.

Lemma connect_all_init sv evss x :
  connect_all sv 0 evss (replicate (length evss) x) = clients_of sv (arrivals <$> evss) 0 [].
Proof.
  apply list_eq. intros i. rewrite connect_all_lookup, Nat.sub_0_r, length_replicate. unfold clients_of.
  rewrite list_lookup_imap, list_lookup_fmap. destruct (evss !! i) as [evs|] eqn:E; cbn [fmap option_fmap option_map].
  - apply lookup_lt_Some in E. rewrite decide_True by lia. by rewrite open_ids_nil.
  - apply lookup_ge_None in E. apply lookup_ge_None. by rewrite length_replicate.
Qed.

(** The state in which the daemon calls [run_rdma]. *)
Lemma start_facts new_table cfg rcfg ptr nh nb u base (st0 : sys) :
  daemon_start new_table cfg rcfg ptr nh nb u base st0 ->
  st0 = Sys (sys_sv st0) [] [] (last st0) /\ config (store (sys_sv st0)) = cfg /\ rdma_cfg (store (sys_sv st0)) = rcfg /\
  (cbf_on cfg = true -> (0 < num_clients cfg)%nat -> GetCBF (store (sys_sv st0)) 0 = Ok (CountingBloomFilter nh nb)) /\
  meta_base (sys_sv st0) = base /\ forall c q, posted (sys_sv st0) c q = [].
Proof.
  intros [_ _ Ht _ _ _ _ (s0 & E & ->)]. unfold mkKV in E. rewrite Ht in E.
  apply outcome_bind_Ok in E as (p & _ & [= <-]). split_and!; try done.
  intros Hc Hn. unfold GetCBF, cbf_at. cbn [store sys_sv srv_start cbfs]. rewrite Hc. by rewrite lookup_replicate_2.
Qed.

Lemma run_rdma_state new_table cfg rcfg ptr nh nb u base (st0 : sys) rs evss rest :
  daemon_start new_table cfg rcfg ptr nh nb u base st0 -> cbf_on cfg = true -> (0 < num_clients cfg)%nat ->
  (poller_type cfg = PER_QP_POLLER -> rc = 0) -> length evss = num_clients cfg ->
  Forall (fun evs => handshakes (Z.to_nat (num_qps rcfg)) evs = true) evss ->
  exists sv', run_rdma fails rkey rc rs (num_clients cfg) (concat evss ++ rest) (init_daemon (sys_sv st0) (num_clients cfg)) =
      Some (Ok (closing sv' (arrivals <$> evss) 0 [] (nq sv') (run_trace sv' (CountingBloomFilter nh nb) 0 evss), rest)) /\
    srv_reachable st0 (Sys sv' [] [] (last st0)) /\ sv_same (sys_sv st0) sv' /\
    (forall c, (c < num_clients cfg)%nat -> connected sv' sv' c).
Proof.
  intros Hs Hcbf Hn Hrc Hl Hh. destruct (start_facts _ _ _ _ _ _ _ _ _ Hs) as (Est & Ec & Er & Hf & Eb & Hp).
  pose proof (daemon_start_inv _ _ _ _ _ _ _ _ _ Hs) as Hi. rewrite Est in Hi. set (sv := sys_sv st0) in *.
  assert (nq sv = Z.to_nat (num_qps rcfg)) as Enq by (unfold nq; by rewrite Er).
  destruct (run_clients_eq (init_pages cfg rcfg ptr) rs (CountingBloomFilter nh nb) (last st0) rest evss
    (init_pages_pos _ _ _ (ds_ptr _ _ _ _ _ _ _ _ _ Hs)) sv
    (replicate (num_clients cfg) (Some (alloc_control rcfg))) 0 0 ∅ []) as (sv' & E & (Hi' & Hr) & Hsame & Hl' & _).
  - by rewrite Ec.
  - by apply Hf.
  - intros i Hlt. rewrite Er. apply lookup_replicate_2. lia.
  - done.
  - rewrite Ec. lia.
  - by intros.
  - by rewrite Enq.
  - exists sv'. pose proof Hsame as [S1 S2 _ _ _]. assert (nq sv' = nq sv) as En by (unfold nq; by rewrite S2).
    split; [|split; [apply Hr; rewrite <- Est; constructor|split; [done|]]].
    + unfold run_rdma, init_daemon. rewrite Er, <- Hl. rewrite <- Hl in E. rewrite E. unfold closing.
      rewrite (run_trace_same _ _ _ _ _ Hsame), connect_all_init, En, length_fmap. cbn [app Nat.add].
      rewrite decide_False by (intros ->; cbn in Hl; lia). do 4 f_equal. unfold clients_of.
      apply imap_ext. intros c ids _. by rewrite (conn_ctrl_same _ _ _ _ _ Hsame).
    + intros c Hc j Hj. apply Hl'; [lia|by rewrite <- En].
Qed.

Lemma run_trace_sent sv f n evss c : (0 < n)%nat -> Forall (fun evs => handshakes n evs = true) evss ->
  sent_infos (run_trace sv f c evss) = mm_info_of sv f <$> seq c (length evss).
Proof.
  intros Hn. revert c. induction evss as [|evs evss IH]; intros c Hh; [done|]. apply Forall_cons in Hh as [Hh1 Hh].
  cbn [run_trace length seq fmap list_fmap]. destruct (handshakes_ids n evs Hh1) as (H1 & _ & Hla & _ & Hp).
  unfold sent_infos. rewrite !omap_app. fold (sent_infos (client_trace sv f c [] evs)) (sent_infos (run_trace sv f (S c) evss)).
  rewrite (client_trace_sent _ _ _ _ _ _ _ H1) by constructor. rewrite (IH _ Hh). cbn [app].
  destruct (arrivals evs) as [|h ids] eqn:E; [cbn in Hla; lia|]. cbn [head]. rewrite decide_True; [done|]. rewrite Hp. by left.
Qed.

Lemma run_trace_seen sv f evss c :
  created_cqs (run_trace sv f c evss) =
    concat (imap (fun j evs => concat (cqs_of sv (c + j) <$> seq 0 (length (arrivals evs)))) evss) /\
  destroyed_cqs (run_trace sv f c evss) = [] /\
  accepted_ids (run_trace sv f c evss) = concat (arrivals <$> evss) /\ destroyed_ids (run_trace sv f c evss) = [].
Proof.
  revert c. induction evss as [|evs evss IH]; intros c; [done|]. cbn [run_trace fmap list_fmap concat].
  destruct (client_trace_seen sv f c evs []) as (C1 & C2 & C3 & C4). destruct (IH (S c)) as (I1 & I2 & I3 & I4).
  unfold created_cqs, destroyed_cqs, accepted_ids, destroyed_ids in *. rewrite !omap_app, C1, C2, C3, C4, I1, I2, I3, I4.
  split_and!; try done. cbn [omap list_omap app length imap concat]. rewrite Nat.add_0_r. f_equal. f_equal. unfold compose.
  apply imap_ext. intros j x _. by rewrite Nat.add_succ_r.
Qed.

Lemma dis_trace_perm sv idss ds ds' : ds ≡ₚ ds' -> dis_trace sv idss ds ≡ₚ dis_trace sv idss ds'.
Proof. intros H. unfold dis_trace. by rewrite H. Qed.

(** Closing all the connections of client [c] in the order of its queues. *)
Lemma dis_trace_seen sv idss c ids : NoDup (concat idss) -> idss !! c = Some ids ->
  created_cqs (dis_trace sv idss ids) = [] /\ destroyed_cqs (dis_trace sv idss ids) ≡ₚ concat (cqs_of sv c <$> seq 0 (length ids)) /\
  accepted_ids (dis_trace sv idss ids) = [] /\ destroyed_ids (dis_trace sv idss ids) = ids.
Proof.
  intros Hn Hc. assert (forall l k, (forall j id, l !! j = Some id -> ids !! (k + j)%nat = Some id) ->
    created_cqs (dis_trace sv idss l) = [] /\ destroyed_cqs (dis_trace sv idss l) ≡ₚ concat (cqs_of sv c <$> seq k (length l)) /\
    accepted_ids (dis_trace sv idss l) = [] /\ destroyed_ids (dis_trace sv idss l) = l) as H.
  - induction l as [|id l IH]; intros k Hl; [done|]. destruct (IH (S k)) as (I1 & I2 & I3 & I4).
    { intros j x Hj. replace (S k + j)%nat with (k + S j)%nat by lia. by apply Hl. }
    pose proof (Hl 0%nat id eq_refl) as Hk. rewrite Nat.add_0_r in Hk.
    destruct (dis_acts_seen sv c k id) as (D1 & D2 & D3 & D4).
    unfold dis_trace in *. cbn [fmap list_fmap concat]. rewrite (ctx_from_lookup 0 idss ∅ c ids k id Hn Hc Hk). cbn [Nat.add].
    unfold created_cqs, destroyed_cqs, accepted_ids, destroyed_ids in *. rewrite !omap_app, I1, I3, I4, D1, D3, D4.
    split_and!; try done. by rewrite I2, D2.
  - by apply (H ids 0%nat).
Qed.

#[local] Instance created_perm : Proper ((≡ₚ) ==> (≡ₚ)) created_cqs.
Proof. intros a b H. unfold created_cqs. by rewrite H. Qed.
#[local] Instance destroyed_perm : Proper ((≡ₚ) ==> (≡ₚ)) destroyed_cqs.
Proof. intros a b H. unfold destroyed_cqs. by rewrite H. Qed.
#[local] Instance accepted_perm : Proper ((≡ₚ) ==> (≡ₚ)) accepted_ids.
Proof. intros a b H. unfold accepted_ids. by rewrite H. Qed.
#[local] Instance destroyed_ids_perm : Proper ((≡ₚ) ==> (≡ₚ)) destroyed_ids.
Proof. intros a b H. unfold destroyed_ids. by rewrite H. Qed.

Lemma exit_trace_seen sv idss dss : NoDup (concat idss) -> forall c,
  (forall j ds, dss !! j = Some ds -> exists ids, idss !! (c + j)%nat = Some ids /\ ds ≡ₚ ids) ->
  created_cqs (exit_trace sv idss c dss) ≡ₚ [] /\
  destroyed_cqs (exit_trace sv idss c dss) ≡ₚ concat (imap (fun j ds => concat (cqs_of sv (c + j) <$> seq 0 (length ds))) dss) /\
  accepted_ids (exit_trace sv idss c dss) ≡ₚ [] /\ destroyed_ids (exit_trace sv idss c dss) ≡ₚ concat dss.
Proof.
  intros Hn. induction dss as [|ds dss IH]; intros c Hd; [done|]. cbn [exit_trace imap concat].
  destruct (Hd 0%nat ds eq_refl) as (ids & Hids & Hp). rewrite Nat.add_0_r in *.
  destruct (IH (S c)) as (I1 & I2 & I3 & I4).
  { intros j x Hj. replace (S c + j)%nat with (c + S j)%nat by lia. by apply Hd. }
  destruct (dis_trace_seen sv idss c ids Hn Hids) as (D1 & D2 & D3 & D4).
  rewrite (dis_trace_perm sv idss _ _ Hp).
  assert (length ds = length ids) as -> by (by rewrite Hp).
  unfold created_cqs, destroyed_cqs, accepted_ids, destroyed_ids in *. rewrite !omap_app, D1, D2, D3, D4, I1, I2, I3, I4, Hp.
  split_and!; try done. cbn [free_acts omap list_omap app]. do 2 f_equiv. unfold compose.
  apply reflexive_eq, imap_ext. intros j x _. by rewrite Nat.add_succ_r.
Qed.

Lemma concat_perm (l k : list (list Z)) : Forall2 (≡ₚ) l k -> concat l ≡ₚ concat k.
Proof. induction 1 as [|x y l k Hx Hl IH]; cbn; [done|]. by rewrite Hx, IH. Qed.

Lemma exit_trace_reads sv idss dss c j ds ids i id :
  NoDup (concat idss) -> dss !! j = Some ds -> idss !! (c + j)%nat = Some ids -> ds ≡ₚ ids -> ids !! i = Some id ->
  data_q sv i = true -> ReadFreed (c + j) i ∈ exit_trace sv idss c dss.
Proof.
  intros Hn. revert c j. induction dss as [|x dss IH]; intros c [|j] Hj Hc Hp Hi Hq; try done; cbn in Hj; cbn [exit_trace].
  - injection Hj as ->. rewrite Nat.add_0_r in *. apply elem_of_app. left. unfold dis_trace.
    apply list_elem_of_In, in_concat. exists (dis_acts sv c i id). split; apply list_elem_of_In.
    + apply list_elem_of_fmap. exists id. rewrite (ctx_from_lookup 0 idss ∅ c ids i id Hn Hc Hi). split; [done|].
      rewrite Hp. by eapply list_elem_of_lookup_2.
    + unfold dis_acts. rewrite Hq. right. left.
  - apply elem_of_app. right. apply elem_of_app. right. replace (c + S j)%nat with (S c + j)%nat in * by lia. by apply (IH (S c) j).
Qed.

(** A queue of the state [run_rdma] returns. *)
Lemma connected_queue sv idss q a c ids i id :
  idss !! c = Some ids -> ids !! i = Some id -> length ids = nq sv ->
  exists cqs, get_queue (closing sv idss 0 [] q a) c i = Ok (RdmaQueue i (Some id) (Some cqs) CONNECTED).
Proof.
  intros Hc Hi Hl. exists (qp_cqs sv i). unfold get_queue, get_ctrl, closing. cbn [d_clients].
  rewrite (clients_of_lookup _ _ _ _ _ ids) by (done || lia). obind. unfold conn_ctrl. cbn [c_queues].
  rewrite queues_lookup by (rewrite <- Hl; by eapply lookup_lt_Some). unfold queue_val. rewrite Hi, open_ids_nil.
  by rewrite decide_True by (by eapply list_elem_of_lookup_2).
Qed.

(** What the daemon told its clients. *)
Lemma connected_infos new_table cfg rcfg ptr nh nb u base (st0 : sys) sv' evss :
  daemon_start new_table cfg rcfg ptr nh nb u base st0 -> sv_same (sys_sv st0) sv' -> 0 < num_qps rcfg ->
  Forall (fun evs => handshakes (Z.to_nat (num_qps rcfg)) evs = true) evss ->
  sent_infos (run_trace sv' (CountingBloomFilter nh nb) 0 evss) =
  (fun c => MmInfo (base c) (rkey c) (wrap 32 (metadata_mr_size rcfg / PAGE_SIZE)) (Z.of_nat c)
              (Z.of_nat nh) nb (wrap 32 (mem_pool_size cfg / PAGE_SIZE))) <$> seq 0 (length evss).
Proof.
  intros Hs [S1 S2 _ S4 _] Hq Hh. destruct (start_facts _ _ _ _ _ _ _ _ _ Hs) as (_ & Ec & Er & _ & Eb & _).
  rewrite (run_trace_sent _ _ (Z.to_nat (num_qps rcfg)) evss 0 ltac:(lia) Hh). unfold mm_info_of. by rewrite S1, S2, S4, Ec, Er, Eb.
Qed.

(** ** Properties *)

(** C15: If no call of the verbs library fails and every client in turn completes its connections, in any
    interleaving of its requests and completions, [run_rdma] returns with all queues CONNECTED: queue [i] of client [c]
    is the [i]-th request that arrived after those of the clients before, it has the 4095 receives of [pre_post_recvs],
    queue 0 after the one for the client's region, each client is told exactly once its own region and the parameters of
    the filter, and the daemon is in a state reachable from its start. (With a poller for each queue, under the condition
    that the variable [create_data_cq_handler] tests without having set it happens to be 0.) *)
Theorem run_rdma_connects new_table cfg rcfg ptr nh nb u base (st0 : sys) rs evss rest :
  daemon_start new_table cfg rcfg ptr nh nb u base st0 -> cbf_on cfg = true -> (0 < num_clients cfg)%nat ->
  (poller_type cfg = PER_QP_POLLER -> rc = 0) -> length evss = num_clients cfg -> 0 < num_qps rcfg ->
  Forall (fun evs => handshakes (Z.to_nat (num_qps rcfg)) evs = true) evss -> NoDup (concat (arrivals <$> evss)) ->
  exists st, run_rdma fails rkey rc rs (num_clients cfg) (concat evss ++ rest) (init_daemon (sys_sv st0) (num_clients cfg)) =
      Some (Ok (st, rest)) /\
    srv_reachable st0 (Sys (d_sv st) [] [] (last st0)) /\
    (forall c evs i id, evss !! c = Some evs -> arrivals evs !! i = Some id ->
       ctx st !! id = Some (c, i) /\
       exists cqs, get_queue st c i = Ok (RdmaQueue i (Some id) (Some cqs) CONNECTED)) /\
    (forall c i, (c < num_clients cfg)%nat -> (i < Z.to_nat (num_qps rcfg))%nat ->
       exists l, posted (d_sv st) c i = (if (i =? 0)%nat then [0] else []) ++ l /\ Z.of_nat (length l) = MAX_QPS_RECVS) /\
    sent_infos (acts st) = (fun c => MmInfo (base c) (rkey c) (wrap 32 (metadata_mr_size rcfg / PAGE_SIZE)) (Z.of_nat c)
                              (Z.of_nat nh) nb (wrap 32 (mem_pool_size cfg / PAGE_SIZE))) <$> seq 0 (num_clients cfg).
Proof.
  intros Hs Hcbf Hn Hrc Hl Hq Hh Hnd. destruct (start_facts _ _ _ _ _ _ _ _ _ Hs) as (_ & _ & Er & _).
  destruct (run_rdma_state _ _ _ _ _ _ _ _ _ rs evss rest Hs Hcbf Hn Hrc Hl Hh) as (sv' & E & Hr & Hsame & Hp).
  assert (nq sv' = Z.to_nat (num_qps rcfg)) as En by (unfold nq; by rewrite (sm_rdma _ _ Hsame), Er).
  eexists. split; [exact E|]. split; [exact Hr|]. split; [|split].
  - intros c evs i id Hc Hi. assert ((arrivals <$> evss) !! c = Some (arrivals evs)) as Hc' by (by rewrite list_lookup_fmap, Hc).
    split; [exact (ctx_from_lookup 0 _ ∅ c _ i id Hnd Hc' Hi)|]. apply (connected_queue _ _ _ _ _ (arrivals evs)); try done.
    rewrite En. by apply handshakes_ids, (proj1 (Forall_lookup _ _) Hh c).
  - intros c i Hc Hi. apply Hp; [done|by rewrite En].
  - unfold closing. cbn [acts]. rewrite <- Hl. by eapply connected_infos.
Qed.

(** A request that arrives after the last request of a client but before all its connections are established - for
    example because the next client does not wait - indexes the queues out of bounds. *)
Theorem early_request_out_of_bounds new_table cfg rcfg ptr nh nb u base (st0 : sys) rs evs id rest :
  daemon_start new_table cfg rcfg ptr nh nb u base st0 -> cbf_on cfg = true -> (0 < num_clients cfg)%nat ->
  (poller_type cfg = PER_QP_POLLER -> rc = 0) ->
  handshaking (Z.to_nat (num_qps rcfg)) [] [] evs = true ->
  length (arrivals evs) = Z.to_nat (num_qps rcfg) -> (length (established evs) < Z.to_nat (num_qps rcfg))%nat ->
  run_rdma fails rkey rc rs (num_clients cfg) (evs ++ ConnectRequest id :: rest) (init_daemon (sys_sv st0) (num_clients cfg)) =
  Some (Throw "queues[]: out of bounds").
Proof.
  intros Hs Hcbf Hn Hrc Hh Ha He. destruct (start_facts _ _ _ _ _ _ _ _ _ Hs) as (_ & Ec & Er & Hf & _ & Hp).
  set (sv := sys_sv st0) in *. assert (nq sv = Z.to_nat (num_qps rcfg)) as En by (unfold nq; by rewrite Er).
  unfold run_rdma, init_daemon. destruct (num_clients cfg) as [|n] eqn:Enc; [lia|]. cbn [run_clients]. unfold connect_client, get_ctrl.
  cbn [d_clients replicate lookup list_lookup]. obind. unfold set_client, set_ctrs. cbn [d_sv d_clients client_ctr queue_ctr ctx acts].
  set (cls := Some (alloc_control (rdma_cfg (store sv))) :: replicate n (Some (alloc_control (rdma_cfg (store sv))))).
  assert (Daemon sv (<[0%nat := Some (Ctrl 0 (c_queues (alloc_control (rdma_cfg (store sv)))) (c_rdev (alloc_control (rdma_cfg (store sv)))))]> cls)
    0 0 ∅ [] = conn_state sv cls 0 ∅ [] [] []) as ->.
  { unfold conn_state, conn_ctrl, alloc_control. cbn [length ctx_add c_queues c_rdev]. by rewrite queues_none. }
  change (num_qps_ (conn_state sv cls 0 ∅ [] [] [])) with (nq sv).
  pose proof (wait_queues_eq sv (CountingBloomFilter nh nb) cls 0 ∅ (ConnectRequest id :: rest) evs [] [] []) as Hw.
  cbn [length app mr_sv head] in Hw. rewrite Nat.sub_0_r in Hw.
  rewrite Hw; [|by rewrite Ec|by apply Hf|unfold cls; cbn; lia|apply Hp|constructor|constructor|done|lia|by rewrite En].
  destruct (nq sv - length (established evs))%nat as [|k] eqn:Ek; [lia|]. cbn [wait_queues handle_rdma_cm_event].
  set (sv1 := mr_sv sv 0 (arrivals evs) (established evs)).
  assert (nq sv1 = nq sv) as Enq by (unfold nq; unfold sv1; by rewrite (sm_rdma _ _ (mr_sv_same sv 0 (arrivals evs) (established evs)))).
  assert (on_event fails rkey rc (conn_state sv1 cls 0 ∅ (arrivals evs) (established evs) (client_trace sv (CountingBloomFilter nh nb) 0 [] evs))
    (ConnectRequest id) = Throw "queues[]: out of bounds") as ->; [|done].
  unfold on_event, on_connect_request, conn_state, set_ctrs, get_queue, get_ctrl. cbn [client_ctr queue_ctr d_sv d_clients].
  unfold cls. cbn [insert list_insert lookup]. unfold conn_ctrl. obind. cbn [lookup list_lookup]. obind. cbn [c_queues].
  rewrite lookup_ge_None_2; [done|]. rewrite length_queues, Enq. lia.
Qed.

(** C16: When the clients disconnect in the order they connected, [exit_rdma] returns with every client freed; each
    completion queue and each connection id was released exactly once, and the completion queues of each data queue were
    read from a queue pair already freed. *)
Theorem connection_lifecycle new_table cfg rcfg ptr nh nb u base (st0 : sys) rs evss dss rest :
  daemon_start new_table cfg rcfg ptr nh nb u base st0 -> cbf_on cfg = true -> (0 < num_clients cfg)%nat ->
  (poller_type cfg = PER_QP_POLLER -> rc = 0) -> length evss = num_clients cfg ->
  Forall (fun evs => handshakes (Z.to_nat (num_qps rcfg)) evs = true) evss -> NoDup (concat (arrivals <$> evss)) ->
  Forall2 (≡ₚ) dss (arrivals <$> evss) ->
  exists st1 st2,
    run_rdma fails rkey rc rs (num_clients cfg) (concat evss ++ (Disconnected <$> concat dss) ++ rest)
      (init_daemon (sys_sv st0) (num_clients cfg)) = Some (Ok (st1, (Disconnected <$> concat dss) ++ rest)) /\
    exit_rdma fails rkey rc ((Disconnected <$> concat dss) ++ rest) st1 = Some (Ok (st2, rest)) /\
    (forall c, (c < num_clients cfg)%nat -> d_clients st2 !! c = Some None) /\
    destroyed_cqs (acts st2) ≡ₚ created_cqs (acts st2) /\ destroyed_ids (acts st2) ≡ₚ accepted_ids (acts st2) /\
    (forall c i, (c < num_clients cfg)%nat -> (i < Z.to_nat (num_qps rcfg))%nat -> Z.of_nat i < num_data_qps rcfg ->
       ReadFreed c i ∈ acts st2).
Proof.
  intros Hs Hcbf Hn Hrc Hl Hh Hnd Hds. destruct (start_facts _ _ _ _ _ _ _ _ _ Hs) as (_ & _ & Er & _).
  destruct (run_rdma_state _ _ _ _ _ _ _ _ _ rs evss ((Disconnected <$> concat dss) ++ rest) Hs Hcbf Hn Hrc Hl Hh)
    as (sv' & E & _ & [_ S2 _ _ _] & _).
  assert (nq sv' = Z.to_nat (num_qps rcfg)) as En by (unfold nq; by rewrite S2, Er).
  set (idss := arrivals <$> evss) in *. assert (length idss = num_clients cfg) as Hli by (unfold idss; by rewrite length_fmap).
  assert (Forall (fun ids => length ids = nq sv') idss) as Hlen.
  { unfold idss. rewrite Forall_fmap. eapply Forall_impl; [exact Hh|]. intros evs He. cbn. rewrite En. by apply handshakes_ids. }
  assert (forall j ds, dss !! j = Some ds -> exists ids, idss !! (0 + j)%nat = Some ids /\ ds ≡ₚ ids) as Hd.
  { intros j ds Hj. by apply (Forall2_lookup_l _ _ _ _ _ Hds) in Hj. }
  set (a := run_trace sv' (CountingBloomFilter nh nb) 0 evss) in *.
  eexists _, (closing sv' idss (num_clients cfg) (rev (concat dss)) (nq sv') (a ++ exit_trace sv' idss 0 dss)).
  split; [exact E|]. split; [|split; [|]].
  - rewrite <- Hl. apply exit_rdma_eq; [done|by rewrite En|done].
  - intros c Hc. rewrite <- Hl in Hc |- *. by apply closed_clients.
  - destruct (exit_trace_seen sv' idss dss Hnd 0 Hd) as (X1 & X2 & X3 & X4).
    destruct (run_trace_seen sv' (CountingBloomFilter nh nb) evss 0) as (R1 & R2 & R3 & R4).
    unfold closing. cbn [acts]. unfold created_cqs, destroyed_cqs, accepted_ids, destroyed_ids in *. rewrite !omap_app.
    fold a in R1, R2, R3, R4. rewrite R1, R2, R3, R4, X1, X2, X3, X4, !app_nil_r. cbn [app]. split; [|split].
    + apply reflexive_eq. f_equal. apply list_eq. intros j. rewrite !list_lookup_imap. fold idss.
      destruct (dss !! j) as [ds|] eqn:Ej; cbn [fmap option_fmap option_map].
      * destruct (Hd j ds Ej) as (ids & Hids & Hp). cbn in Hids. unfold idss in Hids. rewrite list_lookup_fmap in Hids.
        destruct (evss !! j) as [evs|]; [|done]. injection Hids as <-. cbn [fmap option_fmap option_map]. by rewrite Hp.
      * apply lookup_ge_None in Ej. rewrite (Forall2_length _ _ _ Hds) in Ej. unfold idss in Ej. rewrite length_fmap in Ej.
        by rewrite lookup_ge_None_2.
    + by apply concat_perm.
    + intros c i Hc Hi Hq. apply elem_of_app. right.
      destruct (lookup_lt_is_Some_2 idss c) as [ids Hids]; [lia|].
      destruct (Forall2_lookup_r _ _ _ _ _ Hds Hids) as (ds & Hj & Hp).
      destruct (lookup_lt_is_Some_2 ids i) as [id Hid].
      { rewrite (proj1 (Forall_lookup _ _) Hlen c ids Hids). by rewrite En. }
      apply (exit_trace_reads sv' idss dss 0 c ds ids i id); try done. unfold data_q. rewrite S2, Er. by apply Z.ltb_lt.
Qed.

(** The daemon assumes that clients disconnect in the order they connected: if a connection of client 0 is still open
    when as many connections as a client has are closed (it is not among them), its later disconnection reads the freed client structure. *)
Theorem disconnect_out_of_order sv idss q a ds id rest :
  NoDup (concat idss) -> (1 < length idss)%nat -> closable sv idss 0 [] ds -> length ds = nq sv ->
  (exists ids, idss !! 0%nat = Some ids /\ id ∈ ids) -> 0 < num_qps (rdma_cfg (store sv)) ->
  exit_rdma fails rkey rc ((Disconnected <$> ds) ++ Disconnected id :: rest) (closing sv idss 0 [] q a) =
  Some (Throw "use after free: ctrl").
Proof.
  intros Hn Hl Hc Hd (ids & Hids & Hid) Hq. unfold exit_rdma. cbn [client_ctr closing].
  destruct (length idss) as [|[|n]] eqn:En; [lia|lia|]. cbn [exit_clients].
  rewrite disconnect_client_eq by (done || lia). cbn [bind_run]. unfold disconnect_client.
  change (num_qps_ (closing sv idss 1 (rev ds ++ []) q (a ++ dis_trace sv idss ds ++ free_acts idss 0))) with (nq sv).
  destruct (nq sv) as [|k] eqn:Ek; [unfold nq in Ek; lia|]. cbn [wait_disconnects handle_rdma_cm_event].
  apply list_elem_of_lookup_1 in Hid as [i Hi].
  unfold on_event, queue_of, closing. cbn [ctx]. rewrite (ctx_from_lookup 0 idss ∅ 0 ids i id Hn Hids Hi). obind. cbn [Nat.add].
  unfold on_disconnect, get_queue, get_ctrl. cbn [d_clients]. unfold clients_of. rewrite list_lookup_imap, Hids.
  by cbn [fmap option_fmap option_map Nat.ltb Nat.leb].
Qed.
End closed_forms.

(** ** Witnesses: two clients of nine queues; the second requests all its queues at once *)

Definition c_none (_ : verb) : bool := false.
Definition c_serial (k : Z) : list cm_event := concat ((fun i => [ConnectRequest (k + i); Established (k + i)]) <$> seqZ 0 9).
Definition c_batch (k : Z) : list cm_event := (ConnectRequest <$> seqZ k 9) ++ (Established <$> rev (seqZ k 9)).
Definition c_evss : list (list cm_event) := [c_serial 100; c_batch 200].
Definition c_dss : list (list Z) := [rev (seqZ 100 9); seqZ 200 9].

Lemma c_handshakes : Forall (fun evs => handshakes (Z.to_nat (num_qps demo_rdma)) evs = true) c_evss.
Proof. repeat constructor. Qed.
Lemma c_nodup : NoDup (concat (arrivals <$> c_evss)).
Proof. apply (bool_decide_unpack _). vm_compute. done. Qed.

Lemma run_rdma_connects_witness :
  exists st, run_rdma c_none Z.of_nat 0 (fun _ _ _ => 0) 2 (concat c_evss ++ []) (init_daemon (sys_sv w_st0) 2) = Some (Ok (st, [])) /\
    srv_reachable w_st0 (Sys (d_sv st) [] [] (last w_st0)) /\
    (forall c evs i id, c_evss !! c = Some evs -> arrivals evs !! i = Some id ->
       ctx st !! id = Some (c, i) /\ exists cqs, get_queue st c i = Ok (RdmaQueue i (Some id) (Some cqs) CONNECTED)) /\
    (forall c i, (c < 2)%nat -> (i < 9)%nat ->
       exists l, posted (d_sv st) c i = (if (i =? 0)%nat then [0] else []) ++ l /\ Z.of_nat (length l) = MAX_QPS_RECVS) /\
    sent_infos (acts st) = (fun c => MmInfo (w_base c) (Z.of_nat c) (wrap 32 (metadata_mr_size demo_rdma / PAGE_SIZE)) (Z.of_nat c)
                              (Z.of_nat 4) 97 (wrap 32 (mem_pool_size demo_config / PAGE_SIZE))) <$> seq 0 2.
Proof.
  apply (run_rdma_connects c_none Z.of_nat 0 (fun _ => eq_refl) demo_table demo_config demo_rdma 4096 4 97 (fun _ => replicate 16 0)
           w_base w_st0 (fun _ _ _ => 0) c_evss []).
  - apply w_start.
  - reflexivity.
  - vm_compute. lia.
  - reflexivity.
  - reflexivity.
  - reflexivity.
  - apply c_handshakes.
  - apply c_nodup.
Defined.

Lemma early_request_out_of_bounds_witness :
  run_rdma c_none Z.of_nat 0 (fun _ _ _ => 0) 2 ((ConnectRequest <$> seqZ 100 9) ++ ConnectRequest 200 :: []) (init_daemon (sys_sv w_st0) 2) =
  Some (Throw "queues[]: out of bounds").
Proof.
  apply (early_request_out_of_bounds c_none Z.of_nat 0 (fun _ => eq_refl) demo_table demo_config demo_rdma 4096 4 97
           (fun _ => replicate 16 0) w_base w_st0 (fun _ _ _ => 0) (ConnectRequest <$> seqZ 100 9) 200 []).
  - apply w_start.
  - reflexivity.
  - vm_compute. lia.
  - reflexivity.
  - reflexivity.
  - reflexivity.
  - vm_compute. lia.
Defined.

Lemma connection_lifecycle_witness :
  exists st1 st2 : daemon lpa,
    run_rdma c_none Z.of_nat 0 (fun _ _ _ => 0) 2 (concat c_evss ++ (Disconnected <$> concat c_dss) ++ []) (init_daemon (sys_sv w_st0) 2) =
      Some (Ok (st1, (Disconnected <$> concat c_dss) ++ [])) /\
    exit_rdma c_none Z.of_nat 0 ((Disconnected <$> concat c_dss) ++ []) st1 = Some (Ok (st2, [])) /\
    (forall c, (c < 2)%nat -> d_clients st2 !! c = Some None) /\
    destroyed_cqs (acts st2) ≡ₚ created_cqs (acts st2) /\ destroyed_ids (acts st2) ≡ₚ accepted_ids (acts st2) /\
    (forall c i, (c < 2)%nat -> (i < 9)%nat -> Z.of_nat i < 8 -> ReadFreed c i ∈ acts st2).
Proof.
  apply (connection_lifecycle c_none Z.of_nat 0 (fun _ => eq_refl) demo_table demo_config demo_rdma 4096 4 97
           (fun _ => replicate 16 0) w_base w_st0 (fun _ _ _ => 0) c_evss c_dss []).
  - apply w_start.
  - reflexivity.
  - vm_compute. lia.
  - reflexivity.
  - reflexivity.
  - apply c_handshakes.
  - apply c_nodup.
  - constructor; [symmetry; apply Permutation_rev|by constructor].
Defined.

(** Eight connections of client 0 and one of client 1 close, then the last of client 0. *)
Definition c_ids : list (list Z) := [seqZ 100 9; seqZ 200 9].
Lemma c_closable : closable (sys_sv w_st0) c_ids 0 [] (seqZ 100 8 ++ [200]).
Proof.
  assert (nq (sys_sv w_st0) = 9%nat) as En by (vm_compute; reflexivity).
  split; [apply (bool_decide_unpack _); vm_compute; done|]. intros id Hid. split; [apply not_elem_of_nil|].
  rewrite En. apply elem_of_app in Hid as [Hid|Hid].
  - apply elem_of_seqZ in Hid. exists 0%nat, (Z.to_nat (id - 100)), (seqZ 100 9). split; [done|].
    split; [apply lookup_seqZ; lia|lia].
  - apply list_elem_of_singleton in Hid as ->. exists 1%nat, 0%nat, (seqZ 200 9). split_and!; [done|done|lia|lia].
Qed.

Lemma disconnect_out_of_order_witness :
  exit_rdma c_none Z.of_nat 0 ((Disconnected <$> (seqZ 100 8 ++ [200])) ++ Disconnected 108 :: [])
    (closing (sys_sv w_st0) c_ids 0 [] 9 []) = Some (Throw "use after free: ctrl").
Proof.
  apply (disconnect_out_of_order c_none Z.of_nat 0 (fun _ => eq_refl) (sys_sv w_st0) c_ids 9 [] (seqZ 100 8 ++ [200]) 108 []).
  - apply (bool_decide_unpack _). vm_compute. done.
  - vm_compute. lia.
  - apply c_closable.
  - vm_compute. reflexivity.
  - exists (seqZ 100 9). split; [reflexivity|]. apply elem_of_seqZ. lia.
  - vm_compute. reflexivity.
Defined.
