(* ===== verification/DaemonMain.v ===== *)
(** * DaemonMain: the daemon from start to exit

    [main] of [daemon/main.cpp] over the components it puts together: the configuration
    ([Config]), the memory of each client ([Memory]), the store ([Kv]), the connections
    ([Connect]), and the threads with the processors they are pinned to ([daemon/rdma.cpp],
    [set_thread_affinity] to [create_global_data_cq_handler], and [init_rdma]).
    [daemon_runs] is the life of the process: what the other components' theorems assume of a
    daemon that has started is what [main] establishes, and what is left at its end. *)
From S2P Require Import Prelude Wire Config CountingBloom PercpuPool Ihash LinearProbing Kv KvProps KvSpec Server ServerProps ServerSpec Memory Connect ConnectSpec.

(** ** Blocks and threads *)

(** What [main] and [init_rdma] allocate: [new] throws rather than returning [NULL]. *)
Inductive block := Clients | Client (i : nat) | CtrlBlock (i : nat) | Queues (i : nat) | RdmaMemObj (i : nat) | KvObj | MonitorObj.
#[export] Instance block_eq : EqDecision block.
Proof. solve_decision. Defined.

(** A poller of queue [q] of every client, the thread of one queue, or the one that prints. *)
Inductive thread := GlobalPoller (q : nat) | QueueThread (f : thread_fn) (c q : nat) | Indicator.

(** The processors of a thread. *)
Definition set_thread_affinity (cpu : nat) : list nat := [cpu].
Definition set_thread_affinity2 (qid : nat) : list nat := (fun i => if (qid =? 0)%nat then i else (i + 4)%nat) <$> seq 0 8.
(** [None]: the thread is not pinned. *)
Definition affinity (t : thread) : option (list nat) :=
  match t with
  | GlobalPoller q => Some (set_thread_affinity q)
  | QueueThread DataPoller c q => Some (set_thread_affinity (c * 10 + (q + 1)))
  | QueueThread HybridPoller c q => Some (set_thread_affinity2 q)
  | QueueThread FilterHandler c q => None
  | Indicator => None
  end.

(** The pollers that never sleep do not share processors with each other: neither those of every client, nor those
    of one client's data queue; the hybrid ones may use eight processors, but not the same eight for queue 0 as for the others. *)
Lemma busy_pollers_apart :
  (forall q q' cpu, affinity (GlobalPoller q) = Some cpu -> affinity (GlobalPoller q') = Some cpu -> q = q') /\
  (forall c q c' q' cpu, (q < 9)%nat -> (q' < 9)%nat ->
     affinity (QueueThread DataPoller c q) = Some cpu -> affinity (QueueThread DataPoller c' q') = Some cpu -> (c, q) = (c', q')) /\
  (forall c q, affinity (QueueThread HybridPoller c q) = Some (seq (if (q =? 0)%nat then 0 else 4) 8)).
Proof.
  split_and!.
  - by intros q q' ? [= <-] [= <-].
  - intros c q c' q' ? Hq Hq' [= <-] [= E]. f_equal; lia.
  - intros c q. cbn [affinity]. unfold set_thread_affinity2. by destruct (q =? 0)%nat.
Qed.

Section daemon_main.
Context {T : Type} `{IT : IHash T}.

(** The process: its blocks, the regions and protection domains with the pools they cover, the
    store once it is made, the clients, and the threads started. *)
Record process := Process {
  p_held : list block;
  p_mem : RdmaMem.state;
  p_kv : option (KV T);
  p_clients : list (option dcc_rdma_ctrl);
  p_threads : list thread;
}.
Implicit Types (p : process).

Definition hold p (b : block) : process := Process (p_held p ++ [b]) (p_mem p) (p_kv p) (p_clients p) (p_threads p).
Definition set_mem p (m : RdmaMem.state) : process := Process (p_held p) m (p_kv p) (p_clients p) (p_threads p).
Definition set_kv p (s : KV T) : process := Process (p_held p) (p_mem p) (Some s) (p_clients p) (p_threads p).
Definition add_client p (c : dcc_rdma_ctrl) : process := Process (p_held p) (p_mem p) (p_kv p) (p_clients p ++ [Some c]) (p_threads p).
Definition start_threads p (ts : list thread) : process := Process (p_held p) (p_mem p) (p_kv p) (p_clients p) (p_threads p ++ ts).

(** The allocations that return [NULL]; the addresses of the pools, of the clients' information and of the filters;
    the size of the filters; and, for the connections, what Connect leaves open. *)
Context (null : block -> bool) (a_data : Z) (a_meta info_addr filter_addr : nat -> Z).
Context (new_table : Z -> T) (num_hash : nat) (num_bits : Z) (uninitialised : kv_stats_t -> list Z).
Context (fails : verb -> bool) (rkey : nat -> Z) (rc : Z) (rs : nat -> nat -> nat -> Z).

(** ** rdma.cpp: init_rdma *)

Definition create_global_data_cq_handler (rcfg : rdma_config) : list thread := GlobalPoller <$> seq 0 (Z.to_nat (num_data_qps rcfg)).

Definition init_rdma (cfg : daemon_config_t) (rcfg : rdma_config) (cid : nat) p : outcome (process * dcc_rdma_ctrl) :=
  let p := if (cid =? 0)%nat then hold p MonitorObj else p in
  if null (CtrlBlock cid) then Throw "exit: ctrl"
  else let p := hold p (CtrlBlock cid) in
  if null (Queues cid) then Throw "exit: queues"
  else let p := hold (hold p (Queues cid)) (RdmaMemObj cid) in
  mem ← RdmaMem.Allocate (mem_pool_size cfg) (metadata_mr_size rcfg) (p_mem p) cid a_data (a_meta cid);
  let p := set_mem p mem in
  Ok (if (cid =? 0)%nat && bool_decide (wc_mode cfg = WC_BUSY_WAITING) && bool_decide (poller_type cfg = GLOBAL_QP_POLLER)
      then start_threads p (create_global_data_cq_handler rcfg) else p, alloc_control rcfg).

(** ** main.cpp *)

(** [clients[0]->ctrl->mm->GetDataMMPool()->ptr]. *)
Definition data_ptr p : outcome Z :=
  match RdmaMem.mms (p_mem p) !! 0%nat with Some m => Ok (RdmaMem.ptr (RdmaMem.data_mm_pool m)) | None => Throw "mm" end.

(** [clients[c]->ctrl->mm->GetMetaMMPool()->ptr], from which the handlers find a client's metadata. *)
Definition meta_ptr p (c : nat) : Z := default 0 (RdmaMem.ptr ∘ RdmaMem.meta_mm_pool <$> RdmaMem.mms (p_mem p) !! c).

(** The body of the loop over the clients; [false]: [main] returns -1. *)
Definition init_client (cfg : daemon_config_t) (rcfg : rdma_config) (i : nat) p : outcome (process * bool) :=
  if null (Client i) then Ok (p, false)
  else
    '(p, ctrl) ← init_rdma cfg rcfg i (hold p (Client i));
    let p := add_client p ctrl in
    if (i =? 0)%nat then
      ptr ← data_ptr p;
      s ← mkKV new_table cfg rcfg ptr num_hash num_bits uninitialised;
      Ok (set_kv (hold p KvObj) s, true)
    else Ok (p, true).

Fixpoint init_clients (cfg : daemon_config_t) (rcfg : rdma_config) (n : nat) p : outcome (process * bool) :=
  match n with
  | O => Ok (p, true)
  | S n => '(p, ok) ← init_clients cfg rcfg n p; if negb ok then Ok (p, false) else init_client cfg rcfg n p
  end.

(** What the recorded calls of the connections do to memory, to the blocks, and which threads they start. *)
Definition filter_longs (s : KV T) (c : nat) : Z := match GetCBF s c with Ok f => num_longs_ f | Throw _ => 0 end.
Definition memory_verb (s : KV T) (v : verb) (m : RdmaMem.state) : outcome RdmaMem.state :=
  match v with
  | AllocPd c => Ok (RdmaMem.get_rdma_device m c)
  | RegisterMR c => RdmaMem.Register filter_addr (filter_longs s) m c (fun _ => true) (info_addr c)
  | DeregisterMR c last => RdmaMem.Deregister m c last
  | DeallocPd c => Ok (RdmaMem.State (ibv_dealloc_pd (RdmaMem.st_card m) c).1 (RdmaMem.mms m))
  | _ => Ok m
  end.
Definition block_verb (v : verb) (h : list block) : outcome (list block) :=
  match v with FreeCtrl c => release_all [Queues c; CtrlBlock c] h | _ => Ok h end.
Definition thread_verb (v : verb) : list thread := match v with Spawn f c q => [QueueThread f c q] | _ => [] end.

Fixpoint perform (s : KV T) (a : list verb) p : outcome process :=
  match a with
  | [] => Ok p
  | v :: a =>
      m ← memory_verb s v (p_mem p);
      h ← block_verb v (p_held p);
      perform s a (Process h m (p_kv p) (p_clients p) (p_threads p ++ thread_verb v))
  end.

(** What a poller reads on its way to a queue of client [c]: the global ones start from [clients], those of one
    queue keep a pointer to it. *)
Definition reads (t : thread) (c : nat) : list block :=
  match t with
  | GlobalPoller _ => [Clients; Client c; CtrlBlock c; Queues c]
  | QueueThread _ _ _ => [Queues c]
  | Indicator => []
  end.

(** One poll of queue [q] of client [c]: the completion queue it polls. *)
Definition poll_access p (d : daemon T) (t : thread) (c q : nat) : outcome cq :=
  if forallb (fun b => bool_decide (b ∈ p_held p)) (reads t c) then
    x ← get_queue d c q;
    match q_qp x with
    | None => Throw "null dereference: q->qp"
    | Some (_, recv_cq) => if decide (DestroyQP c q ∈ acts d) then Throw "use after free: q->qp" else Ok recv_cq
    end
  else Throw "use after free: clients".

(** [None] while it waits for an event that has not arrived. The result: [main]'s, the process and
    the daemon's state when [run_rdma] returned, those at the end, and the events not handled. The threads are
    started and left to themselves: what they may do is [poll_access] and the handlers of Server. *)
Definition main (f : flags) (evs : list cm_event)
  : option (outcome (Z * process * option (process * daemon T * daemon T) * list cm_event)) :=
  match set_default_config f with
  | Throw m => Some (Throw m)
  | Ok cfg =>
      let rcfg := dcc_rdma_set_default_config in
      let n := num_clients cfg in
      let p := Process [] RdmaMem.empty_state None [] [] in
      if null Clients && (0 <? n)%nat then Some (Throw "clients: NULL")
      else
        match init_clients cfg rcfg n (if null Clients then p else hold p Clients) with
        | Throw m => Some (Throw m)
        | Ok (p, false) => Some (Ok (-1, p, None, evs))
        | Ok (p, true) =>
            match p_kv p with
            | None =>
                (* without clients there is no store, and nothing to connect *)
                Some (h ← release_all (if null Clients then [] else [Clients]) (p_held p);
                      Ok (0, Process h (p_mem p) None (p_clients p) (p_threads p ++ [Indicator]), None, evs))
            | Some s =>
                let d := Daemon (sys_sv (srv_start s (meta_ptr p))) (p_clients p) 0 0 ∅ [] in
                bind_run (run_rdma fails rkey rc rs n evs d) (fun '(d1, evs) =>
                  match perform s (acts d1) p with
                  | Throw m => Some (Throw m)
                  | Ok p =>
                      let p := start_threads p [Indicator] in
                      let p1 := p in
                      bind_run (exit_rdma fails rkey rc evs d1) (fun '(d2, evs) => Some (
                        p ← perform s (drop (length (acts d1)) (acts d2)) p;
                        h ← release_all ((Client <$> seq 0 n) ++ [Clients]) (p_held p);
                        Ok (0, Process h (p_mem p) (p_kv p) (p_clients p) (p_threads p), Some (p1, d1, d2), evs)))
                  end)
            end
        end
  end.

(** ** Lemmas: initialisation *)

Section init.
Context (cfg : daemon_config_t) (rcfg : rdma_config).
Hypothesis Hnull : forall b, null b = false.
Hypothesis Hdata : a_data <> 0.
Hypothesis Hmeta : forall i, a_meta i <> 0.

Definition client_blocks (i : nat) : list block := [Client i; CtrlBlock i; Queues i; RdmaMemObj i].
Definition global_pollers : list thread :=
  if bool_decide (wc_mode cfg = WC_BUSY_WAITING) && bool_decide (poller_type cfg = GLOBAL_QP_POLLER) then create_global_data_cq_handler rcfg else [].

Record initialised (s : KV T) (k : nat) p : Prop := {
  in_held : p_held p ≡ₚ [Clients; MonitorObj; KvObj] ++ concat (client_blocks <$> seq 0 k);
  in_mem : RdmaMem.init_all (mem_pool_size cfg) (metadata_mr_size rcfg) k a_data a_meta RdmaMem.empty_state = Ok (p_mem p);
  in_kv : p_kv p = Some s;
  in_clients : p_clients p = replicate k (Some (alloc_control rcfg));
  in_threads : p_threads p = global_pollers;
}.

(** [init_rdma] of a client whose memory is allocated. *)
Lemma init_rdma_eq i p mem :
  RdmaMem.Allocate (mem_pool_size cfg) (metadata_mr_size rcfg) (p_mem p) i a_data (a_meta i) = Ok mem ->
  init_rdma cfg rcfg i p =
  Ok (Process (p_held p ++ (if (i =? 0)%nat then [MonitorObj] else []) ++ [CtrlBlock i; Queues i; RdmaMemObj i]) mem (p_kv p) (p_clients p)
        (p_threads p ++ if (i =? 0)%nat then global_pollers else []), alloc_control rcfg).
Proof using Hnull.
  intros Em. unfold init_rdma. rewrite !Hnull. destruct p as [h m0 kv cl ts]. cbn [p_mem] in Em. unfold global_pollers.
  destruct (i =? 0)%nat; cbn [hold p_mem p_held p_kv p_clients p_threads andb]; rewrite Em; obind;
    [destruct (bool_decide _ && bool_decide _)|]; unfold set_mem, start_threads, hold; cbn [p_mem p_held p_kv p_clients p_threads];
    rewrite <- ?app_assoc, ?app_nil_r; done.
Qed.

Lemma init_clients_ok s k : mkKV new_table cfg rcfg a_data num_hash num_bits uninitialised = Ok s ->
  exists p, init_clients cfg rcfg (S k) (hold (Process [] RdmaMem.empty_state None [] []) Clients) = Ok (p, true) /\ initialised s (S k) p.
Proof using Hnull Hdata Hmeta.
  intros Es. induction k as [|k IH].
  - cbn [init_clients]. unfold init_client. rewrite !Hnull. obind. cbn [negb].
    destruct (RdmaMem.init_all_ok (mem_pool_size cfg) (metadata_mr_size rcfg) a_data a_meta Hdata Hmeta 1 ltac:(lia)) as (st & Ei & _ & _ & _ & _ & Hm).
    rewrite (init_rdma_eq 0 (hold (hold (Process [] RdmaMem.empty_state None [] []) Clients) (Client 0)) st Ei). obind. unfold data_ptr, add_client. cbn [Nat.eqb hold p_held p_mem p_kv p_clients p_threads app].
    rewrite (Hm 0%nat) by lia. obind. cbn [RdmaMem.allocated RdmaMem.data_mm_pool RdmaMem.ptr]. rewrite Es. obind.
    eexists. split; [done|]. split; unfold set_kv, hold; cbn [p_held p_mem p_kv p_clients p_threads app]; try done.
    cbn [seq fmap list_fmap concat app client_blocks]. perm.
  - destruct IH as (p & E & [H1 H2 H3 H4 H5]). cbn [init_clients]. cbn [init_clients] in E. rewrite E. obind. cbn [negb].
    destruct (RdmaMem.init_all_ok (mem_pool_size cfg) (metadata_mr_size rcfg) a_data a_meta Hdata Hmeta (S (S k)) ltac:(lia)) as (st & Ei & _).
    pose proof Ei as Ei'. cbn [RdmaMem.init_all] in Ei. cbn [RdmaMem.init_all] in H2. rewrite H2 in Ei. cbn [mbind outcome_bind] in Ei.
    unfold init_client. rewrite !Hnull, (init_rdma_eq _ (hold p (Client (S k))) st Ei). obind. unfold add_client. cbn [Nat.eqb hold p_held p_mem p_kv p_clients p_threads].
    eexists. split; [done|]. split; cbn [p_held p_mem p_kv p_clients p_threads]; try done.
    + rewrite H1, (seq_S (S k)), fmap_app, concat_app. cbn [fmap list_fmap concat client_blocks Nat.add]. generalize (concat (client_blocks <$> seq 0 (S k))). intros l. perm.
    + rewrite H4. by rewrite (replicate_S_end (S k)).
    + by rewrite app_nil_r.
Qed.
End init.

(** ** Lemmas: the recorded calls *)

Implicit Types (sv : server T) (a : list verb) (evs : list cm_event).

Fixpoint mems (s : KV T) (a : list verb) (m : RdmaMem.state) : outcome RdmaMem.state :=
  match a with [] => Ok m | v :: a => m ← memory_verb s v m; mems s a m end.
Fixpoint blocks (a : list verb) (h : list block) : outcome (list block) :=
  match a with [] => Ok h | v :: a => h ← block_verb v h; blocks a h end.

Lemma perform_parts s a : forall p m h, mems s a (p_mem p) = Ok m -> blocks a (p_held p) = Ok h ->
  perform s a p = Ok (Process h m (p_kv p) (p_clients p) (p_threads p ++ concat (thread_verb <$> a))).
Proof.
  induction a as [|v a IH]; intros p m h; cbn [mems blocks perform].
  - intros [= <-] [= <-]. cbn. rewrite app_nil_r. by destruct p.
  - intros (m1 & -> & Em)%outcome_bind_Ok (h1 & -> & Eh)%outcome_bind_Ok. obind. rewrite (IH _ m h) by done.
    cbn [p_held p_mem p_kv p_clients p_threads fmap list_fmap concat]. by rewrite <- app_assoc.
Qed.

Definition mem_verbs (a : list verb) : list verb :=
  omap (fun v => match v with AllocPd _ | RegisterMR _ | DeregisterMR _ _ | DeallocPd _ => Some v | _ => None end) a.
Definition freed_ctrls (a : list verb) : list nat := omap (fun v => match v with FreeCtrl c => Some c | _ => None end) a.

Lemma mems_filter s a m : mems s a m = mems s (mem_verbs a) m.
Proof.
  revert m. induction a as [|v a IH]; intros m; [done|].
  destruct v; cbn [mems memory_verb mem_verbs omap list_omap]; obind; fold (mem_verbs a); cbn [mems memory_verb]; obind; try apply IH.
  - destruct (RdmaMem.Register _ _ _ _ _ _); [apply IH|done].
  - destruct (RdmaMem.Deregister _ _ _); [apply IH|done].
Qed.

Lemma mems_app s a b m : mems s (a ++ b) m = (m ← mems s a m; mems s b m).
Proof. revert m. induction a as [|v a IH]; intros m; cbn [mems app]; [done|]. destruct (memory_verb s v m); obind; [apply IH|done]. Qed.

Lemma blocks_freed a h rest : h ≡ₚ concat ((fun c => [Queues c; CtrlBlock c]) <$> freed_ctrls a) ++ rest ->
  exists h', blocks a h = Ok h' /\ h' ≡ₚ rest.
Proof.
  revert h. induction a as [|v a IH]; intros h P; cbn [blocks]; [by exists h|].
  destruct v; cbn [block_verb]; obind; try (by apply IH).
  cbn [freed_ctrls omap list_omap fmap list_fmap concat] in P. rewrite <- app_assoc in P.
  destruct (release_all_ok _ _ _ P) as (h1 & -> & P1). obind. by apply IH.
Qed.

(** The calls that connecting and closing make on memory. *)
Lemma client_trace_mem sv f c evs req :
  mem_verbs (client_trace rkey sv f c req evs) = match req, arrivals evs with [], _ :: _ => [AllocPd c; RegisterMR c] | _, _ => [] end /\
  freed_ctrls (client_trace rkey sv f c req evs) = [].
Proof.
  assert (forall i id, mem_verbs (req_acts sv c i id) = (if (i =? 0)%nat then [AllocPd c; RegisterMR c] else []) /\ freed_ctrls (req_acts sv c i id) = []) as Hreq.
  { intros i id. unfold req_acts, qp_acts, handler_acts, own_cqs. destruct (i =? 0)%nat, (data_q sv i), (busy sv); repeat case_decide; done. }
  assert (forall req id, mem_verbs (est_acts rkey sv f c req id) = [] /\ freed_ctrls (est_acts rkey sv f c req id) = []) as Hest.
  { intros r id. unfold est_acts. case_decide; done. }
  revert req. induction evs as [|[id|id|id|id] evs IH]; intros req; [by destruct req|..]; cbn [client_trace arrivals omap list_omap]; fold (arrivals evs).
  - unfold mem_verbs, freed_ctrls in *. rewrite !omap_app. destruct (Hreq (length req) id) as [-> ->]. destruct (IH (req ++ [id])) as [-> ->].
    by destruct req.
  - unfold mem_verbs, freed_ctrls in *. rewrite !omap_app. destruct (Hest req id) as [-> ->]. apply IH.
  - apply IH.
  - apply IH.
Qed.

Lemma run_trace_mem sv f evss : (forall evs, evs ∈ evss -> arrivals evs <> []) -> forall c,
  mem_verbs (run_trace rkey sv f c evss) = concat ((fun c => [AllocPd c; RegisterMR c]) <$> seq c (length evss)) /\
  freed_ctrls (run_trace rkey sv f c evss) = [].
Proof.
  induction evss as [|evs evss IH]; intros Ha c; [done|]. cbn [run_trace length seq fmap list_fmap concat].
  destruct (IH ltac:(intros; apply Ha; by right) (S c)) as [I1 I2]. destruct (client_trace_mem sv f c evs []) as [C1 C2].
  unfold mem_verbs, freed_ctrls in *. rewrite !omap_app, I1, I2, C1, C2. specialize (Ha evs ltac:(left)). by destruct (arrivals evs).
Qed.

Lemma dis_trace_none {A} (g : verb -> option A) sv idss ds : (forall c i id, omap g (dis_acts sv c i id) = []) -> omap g (dis_trace sv idss ds) = [].
Proof.
  intros Hg. unfold dis_trace. induction ds as [|d ds IH]; [done|]. cbn [fmap list_fmap concat]. rewrite omap_app, IH.
  destruct (_ !! d) as [[c i]|]; [by rewrite Hg|done].
Qed.

Lemma exit_trace_mem sv idss dss : forall c,
  mem_verbs (exit_trace sv idss c dss) = concat ((fun c => [DeregisterMR c (c =? length idss - 1)%nat; DeallocPd c]) <$> seq c (length dss)) /\
  freed_ctrls (exit_trace sv idss c dss) = seq c (length dss) /\ concat (thread_verb <$> exit_trace sv idss c dss) = [].
Proof.
  assert (forall c i id, concat (thread_verb <$> dis_acts sv c i id) = []) as Hd by (intros; unfold dis_acts; by destruct (data_q sv i)).
  induction dss as [|ds dss IH]; intros c; [done|]. cbn [exit_trace length seq fmap list_fmap concat]. destruct (IH (S c)) as (I1 & I2 & I3).
  unfold mem_verbs, freed_ctrls in *. rewrite !omap_app, I1, I2.
  rewrite !dis_trace_none by (intros; unfold dis_acts; by destruct (data_q sv i)). split_and!; [done|done|].
  rewrite !fmap_app, !concat_app, I3, app_nil_r. cbn [app]. unfold dis_trace. clear I1 I2 I3 IH.
  induction ds as [|d ds IHd]; [done|]. cbn [fmap list_fmap concat]. rewrite fmap_app, concat_app, IHd, app_nil_r.
  destruct (_ !! d) as [[x i]|]; [apply Hd|done].
Qed.

Lemma mems_register s k m : mems s (concat ((fun c => [AllocPd c; RegisterMR c]) <$> seq 0 k)) m = RdmaMem.register_all filter_addr (filter_longs s) k info_addr m.
Proof.
  revert m. induction k as [|k IH]; intros m; [done|]. rewrite seq_S, fmap_app, concat_app, mems_app, IH. cbn [RdmaMem.register_all].
  destruct (RdmaMem.register_all _ _ k info_addr m) as [m1|]; obind; [|done]. cbn. by destruct (RdmaMem.Register _ _ _ _ _ _).
Qed.

Lemma mems_destroy s k n m :
  mems s (concat ((fun c => [DeregisterMR c (c =? n - 1)%nat; DeallocPd c]) <$> seq 0 k)) m = RdmaMem.destroy_all k n m.
Proof.
  revert m. induction k as [|k IH]; intros m; [done|]. rewrite seq_S, fmap_app, concat_app, mems_app, IH. cbn [RdmaMem.destroy_all].
  destruct (RdmaMem.destroy_all k n m) as [m1|]; obind; [|done]. unfold RdmaMem.destroy_device. cbn.
  assert ((k =? n - 1)%nat = bool_decide (k = n - 1)%nat) as ->; [|by destruct (RdmaMem.Deregister _ _ _)].
  case_bool_decide; [by apply Nat.eqb_eq|by apply Nat.eqb_neq].
Qed.

(** Every queue that was requested got the threads of its kind. *)
Lemma client_trace_threads sv f c i v evs : v ∈ handler_acts sv c i -> forall req,
  (length req <= i < length req + length (arrivals evs))%nat -> v ∈ client_trace rkey sv f c req evs.
Proof.
  intros Hv. induction evs as [|[id|id|id|id] evs IH]; intros req Hi; [cbn in Hi; lia|..];
    cbn [client_trace arrivals omap list_omap length] in *; fold (arrivals evs) in *.
  - apply elem_of_app. destruct (decide (i = length req)) as [->|Hne].
    + left. unfold req_acts. rewrite !elem_of_app. auto.
    + right. apply IH. rewrite length_app. cbn [length] in *. lia.
  - apply elem_of_app. right. by apply IH.
  - by apply IH.
  - by apply IH.
Qed.

Lemma run_trace_threads sv f c i v evss : v ∈ handler_acts sv c i -> forall c0,
  (c0 <= c < c0 + length evss)%nat -> (forall evs, evs ∈ evss -> (i < length (arrivals evs))%nat) -> v ∈ run_trace rkey sv f c0 evss.
Proof.
  intros Hv. induction evss as [|evs evss IH]; intros c0 Hc Ha; cbn [length run_trace] in *; [lia|].
  rewrite !elem_of_app. destruct (decide (c = c0)) as [<-|Hne].
  - left. apply (client_trace_threads _ _ _ i); [done|]. cbn. specialize (Ha evs ltac:(left)). lia.
  - right. right. apply IH; [lia|]. intros e He. apply Ha. by right.
Qed.

(** The calls of [run_rdma] on a process, when every client made its requests. *)
Lemma connects_performed s sv f evss p m : (forall evs, evs ∈ evss -> arrivals evs <> []) ->
  RdmaMem.register_all filter_addr (filter_longs s) (length evss) info_addr (p_mem p) = Ok m ->
  exists h, perform s (run_trace rkey sv f 0 evss) p =
    Ok (Process h m (p_kv p) (p_clients p) (p_threads p ++ concat (thread_verb <$> run_trace rkey sv f 0 evss))) /\ h ≡ₚ p_held p.
Proof.
  intros Ha Em. destruct (run_trace_mem sv f evss Ha 0) as [A1 A2].
  destruct (blocks_freed (run_trace rkey sv f 0 evss) (p_held p) (p_held p)) as (h & Eh & Ph); [by rewrite A2|].
  exists h. split; [|done]. apply perform_parts; [|done]. by rewrite mems_filter, A1, mems_register.
Qed.

(** The calls of [exit_rdma]. *)
Lemma closes_performed s sv idss dss p m rest : length idss = length dss ->
  RdmaMem.destroy_all (length dss) (length dss) (p_mem p) = Ok m ->
  p_held p ≡ₚ concat ((fun c => [Queues c; CtrlBlock c]) <$> seq 0 (length dss)) ++ rest ->
  exists h, perform s (exit_trace sv idss 0 dss) p = Ok (Process h m (p_kv p) (p_clients p) (p_threads p)) /\ h ≡ₚ rest.
Proof.
  intros Hl Em Hh. destruct (exit_trace_mem sv idss dss 0) as (X1 & X2 & X3).
  destruct (blocks_freed (exit_trace sv idss 0 dss) (p_held p) rest) as (h & Eh & Ph); [by rewrite X2|].
  exists h. split; [|done]. rewrite (perform_parts _ _ _ m h); [by rewrite X3, app_nil_r| |done].
  by rewrite mems_filter, X1, Hl, mems_destroy.
Qed.

Lemma client_blocks_perm (l : list nat) :
  concat (client_blocks <$> l) ≡ₚ concat ((fun c => [Queues c; CtrlBlock c]) <$> l) ++ (Client <$> l) ++ (RdmaMemObj <$> l).
Proof. induction l as [|c l IH]; [done|]. cbn [fmap list_fmap concat client_blocks]. unfold client_blocks in IH |- *. rewrite IH. perm. Qed.

(** The thread of queue [q] of client [c]. *)
Definition queue_thread (cfg : daemon_config_t) (c q : nat) : thread :=
  if decide (q = 8)%nat then QueueThread FilterHandler c q
  else if decide (wc_mode cfg = WC_BUSY_WAITING) then GlobalPoller q else QueueThread HybridPoller c q.

Lemma queue_threads cfg sv f evss c q : config (store sv) = cfg -> rdma_cfg (store sv) = dcc_rdma_set_default_config ->
  (poller_type cfg = GLOBAL_QP_POLLER <-> wc_mode cfg = WC_BUSY_WAITING) -> (forall evs, evs ∈ evss -> length (arrivals evs) = 9%nat) ->
  (c < length evss)%nat -> (q < 9)%nat ->
  queue_thread cfg c q ∈ global_pollers cfg dcc_rdma_set_default_config ++ concat (thread_verb <$> run_trace rkey sv f 0 evss).
Proof.
  intros Ec Er Hp Ha Hc Hq.
  assert (forall t, Spawn t c q ∈ handler_acts sv c q -> QueueThread t c q ∈ concat (thread_verb <$> run_trace rkey sv f 0 evss)) as Hin.
  { intros t Ht. apply (run_trace_threads sv f c q _ evss) with (c0 := 0%nat) in Ht; [|lia|intros evs He; rewrite (Ha evs He); lia].
    apply list_elem_of_In, in_concat. exists [QueueThread t c q]. split; [|by left]. apply list_elem_of_In, list_elem_of_fmap. by exists (Spawn t c q). }
  unfold queue_thread. destruct (decide (q = 8)%nat) as [->|Hne].
  { apply elem_of_app. right. apply Hin. unfold handler_acts, data_q. rewrite Er. cbn. left. }
  assert (data_q sv q = true) as Hd by (unfold data_q; rewrite Er; apply Z.ltb_lt; cbn; lia). case_decide as Hw.
  - apply elem_of_app. left. unfold global_pollers. rewrite !bool_decide_true by tauto. cbn [andb]. unfold create_global_data_cq_handler.
    apply list_elem_of_fmap. exists q. split; [done|]. apply elem_of_seq. cbn. lia.
  - apply elem_of_app. right. apply Hin. unfold handler_acts, busy. rewrite Hd, Ec, bool_decide_false by done.
    destruct (poller_type cfg); [|by destruct Hw; apply Hp]. rewrite decide_True by done. left.
Qed.

(** A poller of a connected client finds its queue. *)
Definition connecting (v : verb) : Prop := match v with DestroyQP _ _ => False | _ => True end.
Lemma client_trace_connecting sv f c evs req : Forall connecting (client_trace rkey sv f c req evs).
Proof.
  assert (forall r id, Forall connecting (est_acts rkey sv f c r id)) as He.
  { intros r id. unfold est_acts. case_decide; by repeat constructor. }
  assert (forall i id, Forall connecting (req_acts sv c i id)) as Hr.
  { intros i id. unfold req_acts, qp_acts, handler_acts, own_cqs. destruct (i =? 0)%nat, (data_q sv i), (busy sv); repeat case_decide; by repeat constructor. }
  revert req. induction evs as [|[id|id|id|id] evs IH]; intros req; cbn [client_trace]; [constructor| | |done|done]; apply Forall_app; by split.
Qed.
Lemma run_trace_connecting sv f evss : forall c, Forall connecting (run_trace rkey sv f c evss).
Proof.
  induction evss as [|evs evss IH]; intros c; cbn [run_trace]; [constructor|]. apply Forall_app. split; [apply client_trace_connecting|].
  apply Forall_app. split; [by repeat constructor|done].
Qed.

Lemma poller_finds_queue cfg sv f evss p c q qc : let a := run_trace rkey sv f 0 evss in
  p_held p ≡ₚ [Clients; MonitorObj; KvObj] ++ concat (client_blocks <$> seq 0 (length evss)) ->
  (forall evs, evs ∈ evss -> length (arrivals evs) = nq sv) -> (c < length evss)%nat -> (q < nq sv)%nat ->
  exists k, poll_access p (closing sv (arrivals <$> evss) 0 [] qc a) (queue_thread cfg c q) c q = Ok k.
Proof.
  intros a Hh Ha Hc Hq. unfold poll_access.
  assert (forall b, b ∈ [Clients; Client c; CtrlBlock c; Queues c] -> b ∈ p_held p) as Hb.
  { intros b Hb. rewrite Hh. apply elem_of_app. apply elem_of_cons in Hb as [->|Hb]; [left; left|]. right.
    apply list_elem_of_In, in_concat. exists (client_blocks c). split; apply list_elem_of_In.
    - apply list_elem_of_fmap. exists c. split; [done|]. apply elem_of_seq. lia.
    - unfold client_blocks. set_solver. }
  assert (forallb (fun b => bool_decide (b ∈ p_held p)) (reads (queue_thread cfg c q) c) = true) as ->.
  { apply forallb_forall. intros b Hin%list_elem_of_In. apply bool_decide_eq_true, Hb. unfold queue_thread in Hin.
    repeat case_decide; cbn [reads] in Hin; set_solver. }
  destruct (lookup_lt_is_Some_2 evss c Hc) as [evs He].
  destruct (lookup_lt_is_Some_2 (arrivals evs) q) as [id Hid]; [rewrite (Ha evs) by (by eapply list_elem_of_lookup_2); lia|].
  assert ((arrivals <$> evss) !! c = Some (arrivals evs)) as Hc' by (by rewrite list_lookup_fmap, He).
  destruct (connected_queue sv (arrivals <$> evss) qc a c (arrivals evs) q id Hc' Hid) as ([k1 k2] & ->);
    [apply Ha; by eapply list_elem_of_lookup_2|].
  obind. cbn [q_qp closing acts]. rewrite decide_False; [by eexists|]. intros Hin.
  by apply (proj1 (Forall_forall _ _) (run_trace_connecting sv f evss 0)) in Hin.
Qed.

(** Nothing it reads on its way is left in the end. *)
Lemma poller_left_behind cfg p d n c q : p_held p ≡ₚ [MonitorObj; KvObj] ++ (RdmaMemObj <$> seq 0 n) ->
  poll_access p d (queue_thread cfg c q) c q = Throw "use after free: clients".
Proof.
  intros Hh. unfold poll_access. assert (Queues c ∉ p_held p) as Hq.
  { rewrite Hh, elem_of_app, list_elem_of_fmap. intros [H|(i & H & _)]; [|done]. by repeat (apply elem_of_cons in H as [H|H]; [done|]); apply elem_of_nil in H. }
  assert (forallb (fun b => bool_decide (b ∈ p_held p)) (reads (queue_thread cfg c q) c) = false) as ->; [|done].
  apply not_true_iff_false. rewrite forallb_forall. intros H. apply Hq, (bool_decide_eq_true_1 _), H, list_elem_of_In.
  unfold queue_thread. repeat case_decide; cbn [reads]; set_solver.
Qed.

(** The configuration [main] makes is the one the other components' theorems ask for. *)
Lemma config_facts f cfg : set_default_config f = Ok cfg ->
  ht_type cfg = HT_LP_APPROX /\ num_ht_shards cfg = 1%nat /\ cbf_on cfg = true /\
  (poller_type cfg = GLOBAL_QP_POLLER <-> wc_mode cfg = WC_BUSY_WAITING).
Proof. unfold set_default_config. intros (mode & _ & [= <-])%outcome_bind_Ok. cbn. split_and!; try done. by case_decide. Qed.

(** What is there when [run_rdma] is called. *)
Lemma daemon_starts cfg rcfg : (forall b, null b = false) -> 0 < a_data -> (forall i, a_meta i <> 0) -> (0 < num_clients cfg)%nat ->
  pool_config_ok cfg rcfg a_data -> ht_type cfg = HT_LP_APPROX -> (0 < num_ht_shards cfg)%nat -> 0 < num_bits < 2 ^ 32 ->
  ih_wf (new_table (table_capacity (mem_pool_size cfg))) -> ih_map (new_table (table_capacity (mem_pool_size cfg))) = ∅ ->
  exists s p, init_clients cfg rcfg (num_clients cfg) (hold (Process [] RdmaMem.empty_state None [] []) Clients) = Ok (p, true) /\
    initialised cfg rcfg s (num_clients cfg) p /\
    daemon_start new_table cfg rcfg a_data num_hash num_bits uninitialised (meta_ptr p) (srv_start s (meta_ptr p)) /\
    (forall c, (c < num_clients cfg)%nat -> meta_ptr p c = a_meta c).
Proof.
  intros Hnull Hdata Hmeta Hn Hpool Hty Hsh Hbits Hwf Hempty.
  destruct (mkKV_inv (exact := false) new_table cfg rcfg a_data num_hash num_bits uninitialised Hpool Hty Hsh Hbits Hwf Hempty) as (s & Es & _).
  destruct (init_clients_ok cfg rcfg Hnull ltac:(lia) Hmeta s (pred (num_clients cfg)) Es) as (p & Ep & Hi). rewrite Nat.succ_pred in * by lia.
  exists s, p. split; [done|]. split; [done|]. split.
  - split; try done. by exists s.
  - intros c Hc.
    destruct (RdmaMem.init_all_ok (mem_pool_size cfg) (metadata_mr_size rcfg) a_data a_meta ltac:(lia) Hmeta _ Hn) as (st & Ei & _ & _ & _ & _ & Hm).
    rewrite (in_mem _ _ _ _ _ Hi) in Ei. injection Ei as <-. unfold meta_ptr. by rewrite Hm.
Qed.

(** The recorded calls on the process that is there, up to the last block released. *)
Lemma daemon_acts cfg rcfg s sv f evss dss p : let n := num_clients cfg in let a := run_trace rkey sv f 0 evss in
  a_data <> 0 -> (forall i, a_meta i <> 0) -> (forall i j, a_meta i = a_meta j -> i = j) -> (forall i, a_meta i <> a_data) ->
  (0 < n)%nat -> initialised cfg rcfg s n p -> (forall evs, evs ∈ evss -> arrivals evs <> []) -> length evss = n -> length dss = n ->
  exists p1 p2 h, perform s a p = Ok p1 /\ p_held p1 ≡ₚ p_held p /\ p_threads p1 = global_pollers cfg rcfg ++ concat (thread_verb <$> a) /\
    perform s (exit_trace sv (arrivals <$> evss) 0 dss) (start_threads p1 [Indicator]) = Ok p2 /\
    p_threads p2 = p_threads p1 ++ [Indicator] /\ heap (RdmaMem.st_card (p_mem p2)) = ∅ /\ pds (RdmaMem.st_card (p_mem p2)) = list_to_set (seq 0 n) /\
    release_all ((Client <$> seq 0 n) ++ [Clients]) (p_held p2) = Ok h /\ h ≡ₚ [MonitorObj; KvObj] ++ (RdmaMemObj <$> seq 0 n).
Proof.
  intros n a Hdata Hmeta Hinj Hdisj Hn [P1 P2 P3 P4 P5] Ha Hl Hld.
  destruct (RdmaMem.life_ok (mem_pool_size cfg) (metadata_mr_size rcfg) filter_addr (filter_longs s) a_data a_meta info_addr n
    Hdata Hmeta Hinj Hdisj Hn) as (mem & Elife & D). unfold RdmaMem.life in Elife. rewrite P2 in Elife. cbn [mbind outcome_bind] in Elife.
  apply outcome_bind_Ok in Elife as (mem1 & Ereg & Edes). rewrite <- Hl in Ereg.
  destruct (connects_performed s sv f evss p mem1 Ha Ereg) as (h1 & E1 & Ph1). fold a in E1.
  destruct (closes_performed s sv (arrivals <$> evss) dss
    (start_threads (Process h1 mem1 (p_kv p) (p_clients p) (p_threads p ++ concat (thread_verb <$> a))) [Indicator]) mem
    ([Clients; MonitorObj; KvObj] ++ (Client <$> seq 0 n) ++ (RdmaMemObj <$> seq 0 n))) as (h2 & E2 & Ph2).
  { by rewrite length_fmap, Hl, Hld. }
  { by rewrite Hld. }
  { cbn [start_threads p_held]. rewrite Ph1, P1, client_blocks_perm, Hld. perm. }
  destruct (release_all_ok ((Client <$> seq 0 n) ++ [Clients]) h2 ([MonitorObj; KvObj] ++ (RdmaMemObj <$> seq 0 n))) as (h3 & E3 & Ph3).
  { rewrite Ph2. perm. }
  eexists _, _, h3. split; [exact E1|]. split; [exact Ph1|]. split; [cbn [p_threads]; by rewrite P5|]. split; [exact E2|]. cbn [p_threads p_mem p_held start_threads].
  split_and!; try done; [|apply (RdmaMem.ds_pds _ _ _ _ _ _ _ _ _ _ D)]. by rewrite (RdmaMem.ds_heap _ _ _ _ _ _ _ _ _ _ D), Nat.eqb_refl.
Qed.

(** ** Property *)

(** C13: The daemon from start to exit, for the flags it accepts (with one of the modes other than busy waiting, if the
    variable [rc] that [create_data_cq_handler] tests without having set it is 0; otherwise the process is terminated), when no allocation
    and no verb fails, and clients connect one after the other (each in any interleaving of its requests and completions) and
    disconnect in that order. While it runs, its store and connections are those of
    a started daemon (what the theorems on its handlers assume), and every queue has its threads: a pinned poller per data queue, or one per
    data queue and client, and a filter thread per client, each of which finds its queue. When the clients have left, [main] returns 0, provided no poller has run
    since they began to: every block [malloc]ed and every queue has been released once, the objects
    made with [new] (a monitor, the store, each client's memory object) and the clients' protection domains have not, and the pollers, which nobody stops,
    would all read freed memory. *)
Theorem daemon_runs f cfg evss dss rest :
  let rcfg := dcc_rdma_set_default_config in let n := num_clients cfg in
  set_default_config f = Ok cfg -> (0 < n)%nat ->
  (forall b, null b = false) -> (forall v, fails v = false) -> (poller_type cfg = PER_QP_POLLER -> rc = 0) ->
  0 < a_data -> (forall i, a_meta i <> 0) -> (forall i j, a_meta i = a_meta j -> i = j) -> (forall i, a_meta i <> a_data) ->
  pool_config_ok cfg rcfg a_data -> 0 < num_bits < 2 ^ 32 ->
  ih_wf (new_table (table_capacity (mem_pool_size cfg))) -> ih_map (new_table (table_capacity (mem_pool_size cfg))) = ∅ ->
  length evss = n -> Forall (fun evs => handshakes (Z.to_nat (num_qps rcfg)) evs = true) evss -> NoDup (concat (arrivals <$> evss)) ->
  Forall2 (≡ₚ) dss (arrivals <$> evss) ->
  exists p1 p d1 d2 base st0,
    main f (concat evss ++ (Disconnected <$> concat dss) ++ rest) = Some (Ok (0, p, Some (p1, d1, d2), rest)) /\
    daemon_start new_table cfg rcfg a_data num_hash num_bits uninitialised base st0 /\ (forall c, (c < n)%nat -> base c = a_meta c) /\
    srv_reachable st0 (Sys (d_sv d1) [] [] (last st0)) /\ (forall c, (c < n)%nat -> d_clients d2 !! c = Some None) /\
    p_held p ≡ₚ [MonitorObj; KvObj] ++ (RdmaMemObj <$> seq 0 n) /\
    heap (RdmaMem.st_card (p_mem p)) = ∅ /\ pds (RdmaMem.st_card (p_mem p)) = list_to_set (seq 0 n) /\
    (forall c q, (c < n)%nat -> (q < 9)%nat ->
       queue_thread cfg c q ∈ p_threads p /\
       (exists k, poll_access p1 d1 (queue_thread cfg c q) c q = Ok k) /\
       poll_access p d2 (queue_thread cfg c q) c q = Throw "use after free: clients").
Proof.
  intros rcfg n Hf Hn Hnull Hfails Hrc Hdata Hmeta Hinj Hdisj Hpool Hbits Hwf Hempty Hl Hh Hnd Hds.
  destruct (config_facts f cfg Hf) as (Hty & Hsh & Hcbf & Hpoll).
  destruct (daemon_starts cfg rcfg Hnull Hdata Hmeta Hn Hpool Hty ltac:(lia) Hbits Hwf Hempty) as (s & p & Ep & Hi & Hs & Hbase).
  destruct (run_rdma_state fails rkey rc Hfails new_table cfg rcfg a_data num_hash num_bits uninitialised (meta_ptr p) _ rs evss
    ((Disconnected <$> concat dss) ++ rest) Hs Hcbf Hn Hrc Hl Hh) as (sv & E & Hr & [S1 S2 _ _ _] & _).
  destruct (start_facts _ _ _ _ _ _ _ _ _ Hs) as (_ & Ec & Er & _). rewrite Ec in S1. rewrite Er in S2.
  assert (length dss = n) as Hld by (by rewrite (Forall2_length _ _ _ Hds), length_fmap).
  assert (forall evs, evs ∈ evss -> length (arrivals evs) = 9%nat) as Harr.
  { intros evs He. apply (handshakes_ids fails rkey Hfails 9 evs), (proj1 (Forall_forall _ _) Hh evs He). }
  destruct (daemon_acts cfg rcfg s sv (CountingBloomFilter num_hash num_bits) evss dss p) as (p1 & p2 & h & E1 & H1 & T1 & E2 & T2 & M1 & M2 & E3 & Ph);
    [lia|done|done|done|done|done|intros evs He E0; specialize (Harr evs He); by rewrite E0 in Harr|done|done|].
  pose proof (exit_rdma_eq fails rkey rc Hfails sv evss dss (nq sv) (run_trace rkey sv (CountingBloomFilter num_hash num_bits) 0 evss) rest Hnd
    ltac:(unfold nq; by rewrite S2) Hds) as Ex. rewrite Hl in Ex.
  eexists (start_threads p1 [Indicator]), (Process h (p_mem p2) (p_kv p2) (p_clients p2) (p_threads p2)), (closing sv (arrivals <$> evss) 0 [] (nq sv) (run_trace rkey sv (CountingBloomFilter num_hash num_bits) 0 evss)), _,
    (meta_ptr p), (srv_start s (meta_ptr p)). split; [|split_and!; [exact Hs|exact Hbase|exact Hr| |exact Ph|exact M1|exact M2|]].
  - unfold main. rewrite Hf. fold rcfg n in E, Ep |- *. rewrite Hnull. cbn [andb]. rewrite Ep, (in_kv _ _ _ _ _ Hi), (in_clients _ _ _ _ _ Hi).
    unfold init_daemon in E. rewrite Er in E. fold n. rewrite E. cbn [bind_run acts closing]. rewrite E1. rewrite Ex. cbn [bind_run acts closing].
    rewrite drop_app_length, E2. obind. fold n in E3. rewrite E3. obind. reflexivity.
  - intros c Hc. fold n in Hl. rewrite <- Hl in Hc |- *. by apply closed_clients.
  - cbn [p_threads]. intros c q Hc Hq. rewrite T2, T1. split; [|split].
    + apply elem_of_app. left. apply queue_threads; try done. by rewrite Hl.
    + apply poller_finds_queue; try done.
      * cbn [start_threads p_held]. rewrite H1, Hl. apply (in_held _ _ _ _ _ Hi).
      * intros evs He. unfold nq. rewrite S2. by rewrite (Harr evs He).
      * by rewrite Hl.
      * unfold nq. by rewrite S2.
    + by apply (poller_left_behind cfg _ _ n).
Qed.
End daemon_main.

(** ** Witness: a pool of one megabyte, and the two clients of [c_evss] *)

Definition m_flags : flags := Flags 7777 2 true 1 "busy_waiting".
Definition m_config : daemon_config_t := DaemonConfig 7777 2 true (2 ^ 20) HT_LP_APPROX 1 true WC_BUSY_WAITING GLOBAL_QP_POLLER.
Definition m_meta (i : nat) : Z := 2 ^ 32 + Z.of_nat i * 65536.

Lemma daemon_runs_witness :
  exists p1 p (d1 d2 : daemon lpa) base st0,
    main (fun _ => false) 4096 m_meta m_meta m_meta demo_table 4 97 (fun _ => replicate 16 0) c_none Z.of_nat 0 (fun _ _ _ => 0)
      m_flags (concat c_evss ++ (Disconnected <$> concat c_dss) ++ []) = Some (Ok (0, p, Some (p1, d1, d2), [])) /\
    daemon_start demo_table m_config demo_rdma 4096 4 97 (fun _ => replicate 16 0) base st0 /\ (forall c, (c < 2)%nat -> base c = m_meta c) /\
    srv_reachable st0 (Sys (d_sv d1) [] [] (last st0)) /\ (forall c, (c < 2)%nat -> d_clients d2 !! c = Some None) /\
    p_held p ≡ₚ [MonitorObj; KvObj] ++ (RdmaMemObj <$> seq 0 2) /\
    heap (RdmaMem.st_card (p_mem p)) = ∅ /\ pds (RdmaMem.st_card (p_mem p)) = list_to_set (seq 0 2) /\
    (forall c q, (c < 2)%nat -> (q < 9)%nat ->
       queue_thread m_config c q ∈ p_threads p /\
       (exists k, poll_access p1 d1 (queue_thread m_config c q) c q = Ok k) /\
       poll_access p d2 (queue_thread m_config c q) c q = Throw "use after free: clients").
Proof.
  apply (daemon_runs (fun _ => false) 4096 m_meta m_meta m_meta demo_table 4 97 (fun _ => replicate 16 0) c_none Z.of_nat 0 (fun _ _ _ => 0)
    m_flags m_config c_evss c_dss []).
  - reflexivity.
  - vm_compute. lia.
  - reflexivity.
  - reflexivity.
  - reflexivity.
  - lia.
  - unfold m_meta. lia.
  - unfold m_meta. lia.
  - unfold m_meta. lia.
  - split; vm_compute; (done || lia).
  - lia.
  - apply new_wf. vm_compute. lia.
  - apply new_contents.
  - reflexivity.
  - apply c_handshakes.
  - apply c_nodup.
  - constructor; [symmetry; apply Permutation_rev|by constructor].
Defined.
