(* ===== verification/ClientSetup.v ===== *)
(** * ClientSetup: how the driver connects to its servers

    [driver/rdma.c] from [dcc_rdma_recv_remotemr] to [dcc_rdma_init] with
    [rdma_mem.c] and [dcc_backend_init] of [backend.c]: the connection manager's
    handler, the queues initialised one after the other, the exchange of memory
    regions and the error paths. [fails] says which kernel calls fail. *)
From S2P Require Import Prelude Wire Ihash CountingBloom ClientFilter Connect.

Definition ENOMEM : Z := 12.
Definition ENODEV : Z := 19.
Definition ECONNRESET : Z := 104.
Definition ETIMEDOUT : Z := 110.

(** ** Queues *)

(** What [q->cm_id] is: NULL as [kzalloc] leaves it, an [ERR_PTR], an id, or an id
    already destroyed. *)
Inductive cm_ptr := CmNull | CmErr | CmLive | CmDestroyed.
#[export] Instance cm_ptr_eq : EqDecision cm_ptr.
Proof. solve_decision. Defined.

Record setup_queue := SetupQueue { sq_cm : cm_ptr; sq_qp : bool; sq_cm_error : Z; sq_cm_done : bool }.
Record setup_ctrl := SetupCtrl { sc_queues : list setup_queue; sc_rdev : bool }.

(** [RDMA_CM_EVENT_*]: [CmFailed] is ADDR_ERROR, ROUTE_ERROR, CONNECT_ERROR or
    UNREACHABLE; [CmClosed] is DISCONNECTED, ADDR_CHANGE or TIMEWAIT_EXIT. *)
Inductive client_event :=
| AddrResolved | RouteResolved | CmEstablished | CmRejected | CmFailed | CmClosed | CmRemoval | CmOther.

(** Kernel calls that can fail; [q] is the number of a queue, [n] that of an allocation of the metadata. *)
Inductive kcall :=
| KzallocRdev | AllocPdK | CreateQpK (q : nat) | ResolveRoute (q : nat) | ConnectK (q : nat)
| CreateIdK (q : nat) | ResolveAddr (q : nat)
| KzallocCtrl | KzallocQueues | KzallocMm | HashtableInit | ParseIp
| GetDmaMr | KmemReq | MapReq | PostRecvMr | DmaMask | SendMr | StartWorker
| MetaAlloc (n : nat) | AfAlloc.

Section setup.
Context (fails : kcall -> bool).

Definition upd_queue (st : setup_ctrl) (q : nat) (x : setup_queue) : setup_ctrl := SetupCtrl (<[q := x]> (sc_queues st)) (sc_rdev st).
Definition queue_at (st : setup_ctrl) (q : nat) : outcome setup_queue :=
  match sc_queues st !! q with Some x => Ok x | None => Throw "queues[]: out of bounds" end.

(** Returns whether there is a device. *)
Definition dcc_rdma_get_device (st : setup_ctrl) : setup_ctrl * bool :=
  if sc_rdev st then (st, true)
  else if fails KzallocRdev then (st, false)
  else if fails AllocPdK then (st, false)
  else (SetupCtrl (sc_queues st) true, true).

Definition dcc_rdma_create_queue_ib (st : setup_ctrl) (q : nat) : outcome (Z * setup_ctrl) :=
  x ← queue_at st q;
  if fails (CreateQpK q) then Ok (-1, upd_queue st q (SetupQueue (sq_cm x) false (sq_cm_error x) (sq_cm_done x)))
  else Ok (0, upd_queue st q (SetupQueue (sq_cm x) true (sq_cm_error x) (sq_cm_done x))).

(** A failing [rdma_resolve_route] is reported, and 0 returned. *)
Definition dcc_rdma_addr_resolved (st : setup_ctrl) (q : nat) : outcome (Z * setup_ctrl) :=
  let '(st, dev) := dcc_rdma_get_device st in
  if dev then dcc_rdma_create_queue_ib st q else Ok (- ENODEV, st).

(** [param.qp_num = q->qp->qp_num]; a failing [rdma_connect] is reported, and 0 returned. *)
Definition dcc_rdma_route_resolved (st : setup_ctrl) (q : nat) : outcome Z :=
  x ← queue_at st q;
  if sq_qp x then Ok 0 else Throw "null dereference: q->qp".

Definition complete (st : setup_ctrl) (q : nat) (err : Z) : outcome setup_ctrl :=
  x ← queue_at st q;
  Ok (upd_queue st q (SetupQueue (sq_cm x) (sq_qp x) err true)).

Definition dcc_rdma_cm_handler (st : setup_ctrl) (q : nat) (ev : client_event) : outcome setup_ctrl :=
  match ev with
  | CmEstablished => complete st q 0
  | _ =>
      '(cm_error, st) ← match ev with
                        | AddrResolved => dcc_rdma_addr_resolved st q
                        | RouteResolved => r ← dcc_rdma_route_resolved st q; Ok (r, st)
                        | CmFailed => Ok (- ECONNRESET, st)
                        | _ => Ok (0, st)
                        end;
      if cm_error =? 0 then Ok st else complete st q cm_error
  end.

(** Handles the queue's events until its completion; when they end without one,
    the wait times out (or is interrupted). Returns [queue->cm_error]. *)
Fixpoint dcc_rdma_wait_for_cm (evs : list client_event) (st : setup_ctrl) (q : nat) : outcome (Z * setup_ctrl) :=
  x ← queue_at st q;
  if sq_cm_done x then Ok (sq_cm_error x, st)
  else match evs with
       | [] => Ok (sq_cm_error x, st)
       | ev :: evs => st ← dcc_rdma_cm_handler st q ev; dcc_rdma_wait_for_cm evs st q
       end.

(** [rdma_destroy_id(queue->cm_id)]. *)
Definition destroy_id (st : setup_ctrl) (q : nat) : outcome setup_ctrl :=
  x ← queue_at st q;
  Ok (upd_queue st q (SetupQueue CmDestroyed (sq_qp x) (sq_cm_error x) (sq_cm_done x))).

Definition init_queue1 (evs : list client_event) (st : setup_ctrl) (idx : nat) : outcome (Z * setup_ctrl) :=
  x ← queue_at st idx;
  if fails (CreateIdK idx) then Ok (- ENODEV, upd_queue st idx (SetupQueue CmErr (sq_qp x) (- ETIMEDOUT) false))
  else
    let st := upd_queue st idx (SetupQueue CmLive (sq_qp x) (- ETIMEDOUT) false) in
    if fails (ResolveAddr idx) then st ← destroy_id st idx; Ok (-1, st)
    else
      '(ret, st) ← dcc_rdma_wait_for_cm evs st idx;
      if ret =? 0 then Ok (0, st) else st ← destroy_id st idx; Ok (ret, st).

(** [dcc_rdma_stop_queue] and [dcc_rdma_free_queue]: both follow [q->cm_id]. *)
Definition stop_free_queue (x : setup_queue) : outcome setup_queue :=
  match sq_cm x with
  | CmNull => Throw "null dereference: q->cm_id"
  | CmErr => Throw "invalid pointer: q->cm_id"
  | CmDestroyed => Throw "use after free: q->cm_id"
  | CmLive => if sq_qp x then Ok (SetupQueue CmDestroyed false (sq_cm_error x) (sq_cm_done x))
              else Throw "null dereference: cm_id->qp"
  end.
Fixpoint stopandfree (l : list setup_queue) : outcome (list setup_queue) :=
  match l with
  | [] => Ok []
  | x :: l => x ← stop_free_queue x; l ← stopandfree l; Ok (x :: l)
  end.
Definition dcc_rdma_stopandfree_queues (st : setup_ctrl) : outcome setup_ctrl :=
  l ← stopandfree (sc_queues st); Ok (SetupCtrl l (sc_rdev st)).

(** The loop from queue [idx], [n] queues left; [evs idx] are the events of queue [idx]. *)
Fixpoint init_queues (evs : nat -> list client_event) (n idx : nat) (st : setup_ctrl) : outcome (Z * setup_ctrl) :=
  match n with
  | O => Ok (0, st)
  | S n =>
      '(ret, st) ← init_queue1 (evs idx) st idx;
      if ret =? 0 then init_queues evs n (S idx) st
      else st ← dcc_rdma_stopandfree_queues st; Ok (ret, st)
  end.
Definition dcc_rdma_init_queue (evs : nat -> list client_event) (st : setup_ctrl) : outcome (Z * setup_ctrl) :=
  init_queues evs (length (sc_queues st)) 0 st.

(** ** Control blocks *)

(** What [dcc_rdma_alloc_control] returns: on every failure after the first the
    pointer it has just freed. *)
Inductive ctrl_ptr := CtrlNull | CtrlFreed | CtrlAt (st : setup_ctrl).

Definition alloc_setup : setup_ctrl :=
  SetupCtrl (replicate (Z.to_nat (num_qps (Driver.d_rdma Driver.dcc_rdma_set_default_config))) (SetupQueue CmNull false 0 false)) false.
Definition dcc_rdma_alloc_control : ctrl_ptr :=
  if fails KzallocCtrl then CtrlNull
  else if fails KzallocQueues || fails KzallocMm || fails HashtableInit || fails ParseIp then CtrlFreed
  else CtrlAt alloc_setup.

(** ** Memory regions *)

Record region := Region { rg_addr : Z; rg_size : Z }.
Record client_mem := ClientMem {
  filter_pool : option region; filter_info : mm_info;
  key_pool : region; pagebuf_pool : region; keypage_pool : region;
}.

Definition cfg_msgs : Z := num_msgs (Driver.d_rdma Driver.dcc_rdma_set_default_config).

(** The size of the bitmap for [num_bits] bits, in bytes. *)
Definition bitmap_size (num_bits : Z) : Z := BITS_TO_LONGS num_bits * sizeof_u64.

(** [alloc n size]: the [n]-th coherent allocation, 0 when it fails; [rkey] is the
    key of the registered region. *)
Definition rdma_mem_alloc_region (dma_mem_for_filter : bool) (alloc : nat -> Z -> Z) (rkey : Z) (server_info : mm_info) : Z + client_mem :=
  if fails DmaMask then inl (- 22)
  else
    let size := bitmap_size (info1 server_info) in
    let filter := alloc 0%nat size in
    if dma_mem_for_filter && (filter =? 0) then inl (- ENOMEM)
    else
      let info := MmInfo (if dma_mem_for_filter then filter else 0) rkey 0 0 0 0 0 in
      let ks := sizeof_u64 * cfg_msgs in
      let keys := alloc 1%nat ks in
      if keys =? 0 then inl (- ENOMEM)
      else
        let pagebuf := alloc 2%nat PAGE_SIZE in
        if pagebuf =? 0 then inl (- ENOMEM)
        else
          let ps := (sizeof_u64 + PAGE_SIZE) * cfg_msgs in
          let keypage := alloc 3%nat ps in
          if keypage =? 0 then inl (- ENOMEM)
          else inr (ClientMem (if dma_mem_for_filter then Some (Region filter size) else None) info
                      (Region keys ks) (Region pagebuf PAGE_SIZE) (Region keypage ps)).

(** ** backend.c: dcc_backend_init *)

(** [num_hash] is a [u8]; a worker that cannot start is stopped through its error
    pointer. Whether the metadata and the access filter exist is not tested. *)
Definition dcc_backend_init (type : metadata_type_t) (server_info : mm_info) (mem : client_mem) : outcome (metadata * bool) :=
  let num_hash := wrap 8 (info0 server_info) in
  let meta := metadata_init (fun n => negb (fails (MetaAlloc n))) (Z.to_nat num_hash) (info1 server_info) (bool_decide (is_Some (filter_pool mem))) (info2 server_info) type in
  if bool_decide (type = COOP_BF) && fails StartWorker then Throw "invalid pointer: worker->task" else Ok (meta, negb (fails AfAlloc)).

(** ** dcc_rdma_init, for one server *)

(** [get_req_for_buf] tests the address of the pointer instead of the pointer, and
    frees the address of the pointer when the mapping fails. *)
Definition dcc_rdma_recv_remotemr : outcome Z :=
  if fails KmemReq then Throw "null dereference: *req"
  else if fails MapReq then Throw "kmem_cache_free of an address on the stack"
  else Ok (if fails PostRecvMr then - ENOMEM else 0).

(** After a send that was not posted [poll_send_cq] waits for ever. *)
Definition dcc_rdma_send_localmr : outcome Z :=
  if fails SendMr then Throw "poll_send_cq never returns" else Ok 0.

(** A server ready for requests, with its backend's metadata and whether it has an access filter, if that is enabled. *)
Record ready := Ready { rd_ctrl : setup_ctrl; rd_mem : client_mem; rd_meta : metadata; rd_af : bool }.

(** [inl ret] when the function gives up on the server with [ret]. *)
Definition connect_server (type : metadata_type_t) (evs : nat -> list client_event) (alloc : nat -> Z -> Z) (rkey : Z)
    (server_info : mm_info) : outcome (Z + ready) :=
  match dcc_rdma_alloc_control with
  | CtrlNull => Throw "null dereference: ctrl"
  | CtrlFreed => Throw "use after free: ctrl"
  | CtrlAt st =>
      '(ret, st) ← dcc_rdma_init_queue evs st;
      if negb (ret =? 0) || fails GetDmaMr then st ← dcc_rdma_stopandfree_queues st; Ok (inl (- 1))
      else
        ret ← dcc_rdma_recv_remotemr;
        if negb (ret =? 0) then Ok (inl (- ENOMEM))
        else
          match rdma_mem_alloc_region (bool_decide (type = COOP_BF)) alloc rkey server_info with
          | inl _ => Ok (inl (- ENOMEM))
          | inr mem =>
              ret ← dcc_rdma_send_localmr;
              if negb (ret =? 0) then Ok (inl (- ENODEV))
              else '(meta, af) ← dcc_backend_init type server_info mem; Ok (inr (Ready st mem meta af))
          end
  end.
End setup.
