(* ===== verification/ClientSetupSpec.v ===== *)
(** * ClientSetupSpec: connecting a client

    The driver's queues come up one after the other or the driver crashes, and a
    client that is set up has a filter and buffers that agree with the daemon's. *)
From S2P Require Import Prelude Wire Config HashFuncs Ihash LinearProbing LinearProbingProps CountingBloom PercpuPool Kv KvProps KvSpec Server ServerProps ServerSpec ClientFilter Connect ConnectSpec ClientSetup.

(** ** Lemmas: ids of queues *)

Section queues.
Context (fails : kcall -> bool).
Implicit Types (st : setup_ctrl).

Definition cms st : list cm_ptr := sq_cm <$> sc_queues st.

Lemma queue_at_Ok st q x : queue_at st q = Ok x <-> sc_queues st !! q = Some x.
Proof. unfold queue_at. destruct (sc_queues st !! q); split; congruence. Qed.

Lemma upd_queue_cms st q x y : sc_queues st !! q = Some x -> sq_cm y = sq_cm x -> cms (upd_queue st q y) = cms st.
Proof.
  intros Hx Hy. unfold cms, upd_queue. cbn [sc_queues]. rewrite list_fmap_insert, Hy. apply list_insert_id.
  by rewrite list_lookup_fmap, Hx.
Qed.

Lemma complete_cms st q err st' : complete st q err = Ok st' -> cms st' = cms st.
Proof.
  unfold complete. intros (x & Hx%queue_at_Ok & [= <-])%outcome_bind_Ok. by eapply upd_queue_cms.
Qed.

Lemma addr_resolved_cms st q r st' : dcc_rdma_addr_resolved fails st q = Ok (r, st') -> cms st' = cms st.
Proof.
  unfold dcc_rdma_addr_resolved. destruct (dcc_rdma_get_device fails st) as [st1 dev] eqn:E.
  assert (sc_queues st1 = sc_queues st) as Eq.
  { unfold dcc_rdma_get_device in E. by repeat case_match; injection E as <- _. }
  assert (cms st1 = cms st) as Ec by (unfold cms; by rewrite Eq).
  destruct dev; [|by intros [= _ <-]]. unfold dcc_rdma_create_queue_ib.
  intros (x & Hx%queue_at_Ok & H)%outcome_bind_Ok. rewrite <- Ec. case_match; injection H as _ <-; by eapply upd_queue_cms.
Qed.

Lemma cm_handler_cms st q ev st' : dcc_rdma_cm_handler fails st q ev = Ok st' -> cms st' = cms st.
Proof.
  assert (forall o, (forall r st1, o = Ok (r, st1) -> cms st1 = cms st) ->
    ('(cm_error, st1) ← o; if cm_error =? 0 then Ok st1 else complete st1 q cm_error) = Ok st' -> cms st' = cms st) as H.
  { intros o Ho ([r st1] & E & H)%outcome_bind_Ok. rewrite <- (Ho _ _ E).
    destruct (r =? 0); [by injection H as <-|by eapply complete_cms]. }
  destruct ev; cbn [dcc_rdma_cm_handler]; try (apply H; intros r st1 [= _ <-]; done).
  - apply H. apply addr_resolved_cms.
  - apply H. intros r st1 (? & _ & [= _ <-])%outcome_bind_Ok. done.
  - apply complete_cms.
Qed.

Lemma wait_for_cm_cms evs st q r st' : dcc_rdma_wait_for_cm fails evs st q = Ok (r, st') -> cms st' = cms st.
Proof.
  revert st. induction evs as [|ev evs IH]; intros st; cbn [dcc_rdma_wait_for_cm];
    intros (x & _ & H)%outcome_bind_Ok; destruct (sq_cm_done x); try by injection H as _ <-.
  apply outcome_bind_Ok in H as (st1 & E & H). rewrite (IH _ H). by eapply cm_handler_cms.
Qed.

Lemma cms_upd st q y : cms (upd_queue st q y) = <[q := sq_cm y]> (cms st).
Proof. unfold cms, upd_queue. cbn [sc_queues]. apply list_fmap_insert. Qed.

(** A queue that is initialised has a live id, one that failed has none. *)
Lemma init_queue1_cms evs st q r st' : init_queue1 fails evs st q = Ok (r, st') ->
  exists p, cms st' = <[q := p]> (cms st) /\ (q < length (cms st))%nat /\ (if r =? 0 then p = CmLive else p <> CmLive).
Proof.
  unfold init_queue1. intros (x & Hx%queue_at_Ok & H)%outcome_bind_Ok.
  assert (q < length (cms st))%nat as Hl by (unfold cms; rewrite length_fmap; by eapply lookup_lt_Some).
  assert (forall st1 st2, destroy_id st1 q = Ok st2 -> cms st2 = <[q := CmDestroyed]> (cms st1)) as Hd.
  { intros st1 st2. unfold destroy_id. intros (y & _ & [= <-])%outcome_bind_Ok. apply cms_upd. }
  destruct (fails (CreateIdK q)).
  { injection H as <- <-. exists CmErr. by rewrite cms_upd. }
  destruct (fails (ResolveAddr q)).
  { apply outcome_bind_Ok in H as (st2 & E & [= <- <-]). exists CmDestroyed.
    by rewrite (Hd _ _ E), cms_upd, list_insert_insert_eq. }
  apply outcome_bind_Ok in H as ([r1 st1] & E & H). apply wait_for_cm_cms in E. rewrite cms_upd in E. cbn [sq_cm] in E.
  destruct (Z.eqb_spec r1 0) as [->|Hne].
  - injection H as <- <-. exists CmLive. by rewrite E.
  - apply outcome_bind_Ok in H as (st2 & E2 & [= <- <-]). exists CmDestroyed.
    rewrite (Hd _ _ E2), E, list_insert_insert_eq. by rewrite (proj2 (Z.eqb_neq _ _) Hne).
Qed.

Lemma stopandfree_live l l' : stopandfree l = Ok l' -> Forall (fun x => sq_cm x = CmLive) l.
Proof.
  revert l'. induction l as [|x l IH]; intros l'; cbn [stopandfree]; [by constructor|].
  intros (y & Ey & (k & Ek & _)%outcome_bind_Ok)%outcome_bind_Ok. constructor; [|by eapply IH].
  unfold stop_free_queue in Ey. by destruct (sq_cm x).
Qed.

Lemma init_queues_inv evs n idx st r st' :
  (idx + n = length (cms st))%nat -> Forall (eq CmLive) (take idx (cms st)) ->
  init_queues fails evs n idx st = Ok (r, st') ->
  r = 0 /\ Forall (eq CmLive) (cms st') /\ forall q, (idx <= q < idx + n)%nat -> fails (CreateIdK q) = false.
Proof.
  revert idx st. induction n as [|n IH]; intros idx st Hl Hlive; cbn [init_queues].
  { intros [= <- <-]. rewrite take_ge in Hlive by lia. split_and!; [done|done|lia]. }
  intros ([r1 st1] & E & H)%outcome_bind_Ok. destruct (init_queue1_cms _ _ _ _ _ E) as (p & Ec & Hi & Hp).
  destruct (Z.eqb_spec r1 0) as [->|Hne].
  - assert (fails (CreateIdK idx) = false) as Hid.
    { destruct (fails (CreateIdK idx)) eqn:F; [|done]. unfold init_queue1 in E. rewrite F in E.
      apply outcome_bind_Ok in E as (? & _ & [=]). }
    apply (IH (S idx) st1) in H as (-> & Hall & Hf); [|rewrite Ec, length_insert; lia|].
    + split_and!; [done|done|]. intros q Hq. destruct (decide (q = idx)) as [->|]; [done|apply Hf; lia].
    + subst p. rewrite Ec, (take_S_r _ _ CmLive) by (by apply list_lookup_insert_eq).
      rewrite take_insert_ge by lia. apply Forall_app. by repeat constructor.
  - exfalso. apply outcome_bind_Ok in H as (st2 & E2 & _). unfold dcc_rdma_stopandfree_queues in E2.
    apply outcome_bind_Ok in E2 as (l & El & _). apply stopandfree_live in El.
    assert (cms st1 !! idx = Some p) as Hq by (rewrite Ec; by apply list_lookup_insert_eq).
    unfold cms in Hq. rewrite list_lookup_fmap in Hq. destruct (sc_queues st1 !! idx) as [x|] eqn:Ex; [|done].
    injection Hq as <-. rewrite Forall_lookup in El. apply Hp. by eapply El.
Qed.

(** ** Lemmas: queues that come up *)

Definition fresh : setup_queue := SetupQueue CmNull false 0 false.
Definition up : setup_queue := SetupQueue CmLive true 0 true.

(** The kernel calls of a queue succeed, and its events are those of a connection
    the server accepts. *)
Definition comes_up (evs : nat -> list client_event) : Prop :=
  forall q, (exists l, evs q = AddrResolved :: RouteResolved :: CmEstablished :: l) /\
    fails (CreateIdK q) = false /\ fails (ResolveAddr q) = false /\ fails (CreateQpK q) = false.

Lemma init_queue1_up evs l1 l2 rdev :
  comes_up evs -> fails KzallocRdev = false -> fails AllocPdK = false ->
  init_queue1 fails (evs (length l1)) (SetupCtrl (l1 ++ fresh :: l2) rdev) (length l1) = Ok (0, SetupCtrl (l1 ++ up :: l2) true).
Proof.
  intros Hu F1 F2. destruct (Hu (length l1)) as ((l & ->) & F3 & F4 & F5).
  assert (forall x b, queue_at (SetupCtrl (l1 ++ x :: l2) b) (length l1) = Ok x) as Hq.
  { intros x b. unfold queue_at. cbn [sc_queues]. by rewrite list_lookup_middle. }
  assert (forall x y b, upd_queue (SetupCtrl (l1 ++ x :: l2) b) (length l1) y = SetupCtrl (l1 ++ y :: l2) b) as Hs.
  { intros x y b. unfold upd_queue. cbn [sc_queues sc_rdev]. f_equal.
    rewrite <- (Nat.add_0_r (length l1)). by rewrite insert_app_r. }
  unfold init_queue1. rewrite Hq. obind. rewrite F3, Hs, F4. cbn [sq_qp fresh dcc_rdma_wait_for_cm]. rewrite Hq. obind. cbn [sq_cm_done].
  cbn [dcc_rdma_cm_handler]. unfold dcc_rdma_addr_resolved, dcc_rdma_get_device. cbn [sc_rdev sc_queues]. rewrite F1, F2.
  assert ((if rdev then (SetupCtrl (l1 ++ SetupQueue CmLive false (- ETIMEDOUT) false :: l2) rdev, true)
           else (SetupCtrl (l1 ++ SetupQueue CmLive false (- ETIMEDOUT) false :: l2) true, true)) =
          (SetupCtrl (l1 ++ SetupQueue CmLive false (- ETIMEDOUT) false :: l2) true, true)) as -> by (by destruct rdev).
  unfold dcc_rdma_create_queue_ib. rewrite Hq. obind. rewrite F5, Hs. obind. cbn [Z.eqb sq_cm sq_cm_error sq_cm_done]. obind.
  rewrite Hq. obind. cbn [sq_cm_done]. unfold dcc_rdma_route_resolved. rewrite Hq. obind. cbn [sq_qp]. obind. cbn [Z.eqb]. obind.
  rewrite Hq. obind. cbn [sq_cm_done]. unfold complete. rewrite Hq. obind. rewrite Hs. cbn [sq_cm sq_qp].
  destruct l; cbn [dcc_rdma_wait_for_cm]; rewrite Hq; obind; cbn [sq_cm_done sq_cm_error]; obind; done.
Qed.

Lemma init_queues_up evs n l1 rdev :
  comes_up evs -> fails KzallocRdev = false -> fails AllocPdK = false ->
  init_queues fails evs n (length l1) (SetupCtrl (l1 ++ replicate n fresh) rdev) =
  Ok (0, SetupCtrl (l1 ++ replicate n up) (rdev || (0 <? n)%nat)).
Proof.
  intros Hu F1 F2. revert l1 rdev. induction n as [|n IH]; intros l1 rdev; cbn [init_queues replicate]; [by rewrite orb_false_r|].
  rewrite init_queue1_up by done. obind. cbn [Z.eqb].
  specialize (IH (l1 ++ [up]) true). rewrite length_app, Nat.add_1_r, <- !app_assoc in IH. cbn [app orb] in IH. rewrite IH.
  do 3 f_equal. by rewrite orb_true_r.
Qed.
End queues.

(** ** The filter and the buffers of a client that is set up *)

(** [f] is a filter with the parameters of the daemon's. *)
Definition daemon_filter (nh : nat) (nb : Z) (f : cbf) : Prop :=
  num_hash_ f = nh /\ num_bits_ f = nb /\ Z.of_nat (length (bf_long_bitarr_ f)) = BITS_TO_LONGS nb.

(** What a client agrees on with the daemon: the parameters and the hash functions of the filter; the daemon's update
    fills the registered bitmap exactly; and each of the put slots lies in the registered send buffer. *)
Definition agrees (nh : nat) (nb : Z) (rd : ready) : Prop :=
  exists b rg, rd_meta rd = MetaBf true b /\ filter_pool (rd_mem rd) = Some rg /\
    bf_num_hash b = nh /\ bf_num_bits b = nb /\ Z.of_nat (length (bitmap b)) * sizeof_u64 = rg_size rg /\
    (forall f, daemon_filter nh nb f ->
       (forall i k, compute_hash b i k = computeHash f k i) /\
       exists words, r_data (send_bf (baseaddr (filter_info (rd_mem rd))) f) = FilterPayload words /\
         r_raddr (send_bf (baseaddr (filter_info (rd_mem rd))) f) = rg_addr rg /\
         Z.of_nat (length words) * sizeof_u64 = rg_size rg) /\
    (forall i, 0 <= i < cfg_msgs -> (i + 1) * (sizeof_u64 + PAGE_SIZE) <= rg_size (keypage_pool (rd_mem rd))).

Lemma BITS_TO_LONGS_nonneg nb : 0 < nb -> 0 <= BITS_TO_LONGS nb.
Proof. intros H. unfold BITS_TO_LONGS, DIV_ROUND_UP, BITS_PER_BYTE. apply Z.div_pos; lia. Qed.

(** The metadata of a client with the cooperative filter. *)
Lemma coop_metadata ok num_hash num_bits ptr num_rmem_pages : (forall n, ok n = true) -> 0 < num_bits ->
  metadata_init ok num_hash num_bits ptr num_rmem_pages COOP_BF = MetaBf true (bf_new num_hash num_bits ptr).
Proof.
  intros Hok Hn. unfold metadata_init, bf_init, vzalloc. rewrite !Hok. cbn [andb].
  pose proof (longs_enough num_bits 0 ltac:(lia)). by rewrite (proj2 (Z.ltb_lt 0 _)) by (rewrite Z.div_0_l in * by done; lia).
Qed.

Lemma connect_server_agrees fails evs alloc rkey nh nb m :
  (forall c, fails c = false) -> comes_up fails evs -> (forall n size, alloc n size <> 0) ->
  (nh < 256)%nat -> 0 < nb -> info0 m = Z.of_nat nh -> info1 m = nb ->
  exists rd, connect_server fails COOP_BF evs alloc rkey m = Ok (inr rd) /\ agrees nh nb rd.
Proof.
  intros Hf Hu Ha Hh Hb E0 E1. unfold connect_server, dcc_rdma_alloc_control. rewrite !Hf. cbn [orb].
  unfold dcc_rdma_init_queue, alloc_setup. cbn [sc_queues]. rewrite length_replicate.
  pose proof (init_queues_up fails evs (Z.to_nat (num_qps (Driver.d_rdma Driver.dcc_rdma_set_default_config))) [] false Hu (Hf _) (Hf _)) as Hq.
  cbn [length app] in Hq. unfold fresh in Hq. rewrite Hq. obind. cbn [Z.eqb negb orb]. unfold dcc_rdma_recv_remotemr. rewrite !Hf. obind.
  cbn [Z.eqb negb]. rewrite bool_decide_true by done. unfold rdma_mem_alloc_region. rewrite Hf. cbn [andb].
  rewrite !(proj2 (Z.eqb_neq _ 0)) by apply Ha. unfold dcc_rdma_send_localmr. rewrite Hf. obind. cbn [Z.eqb negb].
  unfold dcc_backend_init. rewrite !Hf, andb_false_r. obind. eexists. split; [done|]. unfold agrees.
  cbn [rd_mem rd_meta filter_pool filter_info baseaddr keypage_pool rg_size rg_addr].
  rewrite (coop_metadata (fun n => negb (fails (MetaAlloc n)))) by (intros; rewrite ?Hf, ?E1; done).
  rewrite E0, E1. assert (Z.to_nat (wrap 8 (Z.of_nat nh)) = nh) as -> by (unfold wrap; rewrite Z.mod_small by lia; lia).
  pose proof (BITS_TO_LONGS_nonneg nb Hb). eexists _, _. split; [done|]. split; [done|].
  cbn [rg_size rg_addr bf_num_hash bf_num_bits bitmap bf_new]. unfold bitmap_size.
  split; [done|]. split; [done|]. split; [by rewrite length_replicate, Z2Nat.id|]. split.
  - intros f (F1 & F2 & F3). split; [intros i k; unfold compute_hash, computeHash; cbn [bf_num_bits bf_new]; by rewrite F2|].
    eexists. split; [done|]. split; [done|]. by rewrite F3.
  - intros i Hi. unfold sizeof_u64, PAGE_SIZE. lia.
Qed.

(** ** Clients that connect one queue at a time *)

Definition serial (ids : list Z) : list cm_event := concat ((fun id => [ConnectRequest id; Connect.Established id]) <$> ids).

Lemma serial_arrivals ids : arrivals (serial ids) = ids.
Proof. unfold serial. induction ids as [|id ids IH]; [done|]. cbn. f_equal. exact IH. Qed.
Lemma serial_established ids : established (serial ids) = ids.
Proof. unfold serial. induction ids as [|id ids IH]; [done|]. cbn. f_equal. exact IH. Qed.

Lemma serial_handshakes ids : NoDup ids -> handshakes (length ids) (serial ids) = true.
Proof.
  intros Hn. unfold handshakes. rewrite serial_established, Nat.eqb_refl, andb_true_r.
  assert (forall l pre n, NoDup (pre ++ l) -> (length (pre ++ l) <= n)%nat -> handshaking n pre pre (serial l) = true) as H.
  { induction l as [|id l IH]; intros pre n Hp Hl; [done|]. unfold serial. cbn [fmap list_fmap concat app handshaking].
    fold (serial l). rewrite length_app in Hl. cbn [length] in Hl. apply NoDup_app in Hp as Hp'. destruct Hp' as (_ & Hd & _).
    assert (~ id ∈ pre) by (intros Hi; apply (Hd id Hi); left).
    rewrite !bool_decide_true by set_solver. rewrite (proj2 (Nat.ltb_lt (length pre) n)) by lia. cbn [andb].
    apply (IH (pre ++ [id])); rewrite <- app_assoc; [done|]. rewrite length_app. cbn. lia. }
  by apply (H ids []).
Qed.

(** ** Properties *)

(** [dcc_rdma_init_queue] never returns an error: when a queue fails to come up, the cleanup follows its destroyed or
    invalid id and the driver crashes; and when all come up it returns 0 with every queue connected. *)
Theorem init_queue_total fails evs n :
  (forall r st, dcc_rdma_init_queue fails evs (SetupCtrl (replicate n fresh) false) = Ok (r, st) ->
     r = 0 /\ Forall (fun x => sq_cm x = CmLive) (sc_queues st)) /\
  ((forall c, fails c = false) -> comes_up fails evs ->
     exists st, dcc_rdma_init_queue fails evs (SetupCtrl (replicate n fresh) false) = Ok (0, st) /\ sc_queues st = replicate n up) /\
  (forall q, (q < n)%nat -> fails (CreateIdK q) = true ->
     exists msg, dcc_rdma_init_queue fails evs (SetupCtrl (replicate n fresh) false) = Throw msg).
Proof.
  assert (forall r st, dcc_rdma_init_queue fails evs (SetupCtrl (replicate n fresh) false) = Ok (r, st) ->
    r = 0 /\ Forall (eq CmLive) (cms st) /\ forall q, (0 <= q < 0 + n)%nat -> fails (CreateIdK q) = false) as H.
  { intros r st E. unfold dcc_rdma_init_queue in E. cbn [sc_queues] in E. rewrite length_replicate in E.
    apply init_queues_inv in E; [done| |by constructor]. unfold cms. cbn [sc_queues]. by rewrite length_fmap, length_replicate. }
  split; [|split].
  - intros r st E. destruct (H r st E) as (-> & Hc & _). split; [done|]. unfold cms in Hc. rewrite Forall_fmap in Hc.
    eapply Forall_impl; [exact Hc|]. by intros x <-.
  - intros Hf Hu. eexists. unfold dcc_rdma_init_queue. cbn [sc_queues]. rewrite length_replicate.
    pose proof (init_queues_up fails evs n [] false Hu (Hf _) (Hf _)) as E. cbn [length app] in E. by rewrite E.
  - intros q Hq Hc. destruct (dcc_rdma_init_queue _ _ _) as [[r st]|msg] eqn:E; [|by exists msg].
    destruct (H r st eq_refl) as (_ & _ & Hf). rewrite Hf in Hc by lia. done.
Qed.

Section end_to_end.
Context {T : Type} `{IT : IHash T}.

(** C14: Clients that connect to the daemon one queue at a time, as the driver does, one client after the other: the daemon
    returns from [run_rdma] with queue [i] of client [c] being the client's queue [i], and every client, given the
    region the daemon sends it, is set up in agreement with the daemon's filter. *)
Theorem setup_end_to_end (new_table : Z -> T) cfg rcfg ptr nh nb u base (st0 : sys) rkey rs idss :
  daemon_start new_table cfg rcfg ptr nh nb u base st0 -> cbf_on cfg = true -> (0 < num_clients cfg)%nat ->
  (nh < 256)%nat -> poller_type cfg = GLOBAL_QP_POLLER -> 0 < num_qps rcfg ->
  length idss = num_clients cfg -> Forall (fun ids => length ids = Z.to_nat (num_qps rcfg)) idss -> NoDup (concat idss) ->
  exists st, run_rdma (fun _ => false) rkey 0 rs (num_clients cfg) (concat (serial <$> idss)) (init_daemon (sys_sv st0) (num_clients cfg)) =
      Some (Ok (st, [])) /\
    (forall c ids i id, idss !! c = Some ids -> ids !! i = Some id ->
       exists cqs, get_queue st c i = Ok (RdmaQueue i (Some id) (Some cqs) CONNECTED)) /\
    forall c m, sent_infos (acts st) !! c = Some m ->
      forall fails evs alloc key, (forall k, fails k = false) -> comes_up fails evs -> (forall n size, alloc n size <> 0) ->
      exists rd, connect_server fails COOP_BF evs alloc key m = Ok (inr rd) /\ agrees nh nb rd.
Proof.
  intros Hs Hcbf Hn Hh Hg Hq Hl Hlen Hnd. destruct (start_facts _ _ _ _ _ _ _ _ _ Hs) as (_ & _ & Er & _).
  assert (Forall (fun evs => handshakes (Z.to_nat (num_qps rcfg)) evs = true) (serial <$> idss)) as Hhs.
  { rewrite Forall_fmap. apply Forall_lookup. intros c ids Hc. cbn. rewrite <- (proj1 (Forall_lookup _ _) Hlen c ids Hc).
    apply serial_handshakes. by eapply NoDup_concat_lookup. }
  assert (arrivals <$> (serial <$> idss) = idss) as Ea.
  { rewrite <- list_fmap_compose. rewrite <- (list_fmap_id idss) at 2. apply list_fmap_ext. intros _ ids _. apply serial_arrivals. }
  assert (length (serial <$> idss) = num_clients cfg) as Hl' by (by rewrite length_fmap).
  destruct (run_rdma_state (fun _ => false) rkey 0 (fun _ => eq_refl) _ _ _ _ _ _ _ _ _ rs (serial <$> idss) [] Hs Hcbf Hn
    ltac:(by rewrite Hg) Hl' Hhs) as (sv' & E & _ & Hsame & _).
  rewrite app_nil_r in E. eexists. split; [exact E|]. rewrite Ea. split.
  - intros c ids i id Hc Hi. eapply connected_queue; [done|done|]. unfold nq. rewrite (sm_rdma _ _ Hsame), Er.
    by apply (proj1 (Forall_lookup _ _) Hlen c).
  - intros c m Hm fails evs alloc key Hf Hu Ha. unfold closing in Hm. cbn [acts] in Hm.
    pose proof (connected_infos (fun _ => false) rkey (fun _ => eq_refl) new_table cfg rcfg ptr nh nb u base st0 sv' (serial <$> idss) Hs Hsame Hq Hhs) as Hinfo. rewrite Hinfo, list_lookup_fmap in Hm.
    destruct (seq 0 _ !! c) as [c'|]; [|done]. injection Hm as <-.
    apply connect_server_agrees; try done. by destruct (ds_bits _ _ _ _ _ _ _ _ _ Hs).
Qed.
End end_to_end.

(** ** Witnesses *)

Definition s_ok (_ : kcall) : bool := false.
Definition s_fail (k : kcall) : bool := match k with CreateIdK 3 => true | _ => false end.
Definition s_evs (_ : nat) : list client_event := [AddrResolved; RouteResolved; CmEstablished].

Lemma s_comes_up : comes_up s_ok s_evs.
Proof. intros q. split; [by exists []|done]. Qed.

(** Without failures the driver's nine queues come up; when the id of queue 3 cannot be created the driver crashes. *)
Lemma init_queue_total_witness :
  (exists st, dcc_rdma_init_queue s_ok s_evs (SetupCtrl (replicate 9 fresh) false) = Ok (0, st) /\ sc_queues st = replicate 9 up) /\
  exists msg, dcc_rdma_init_queue s_fail s_evs (SetupCtrl (replicate 9 fresh) false) = Throw msg.
Proof.
  split.
  - apply (init_queue_total s_ok s_evs 9); [reflexivity|apply s_comes_up].
  - apply (init_queue_total s_fail s_evs 9) with (q := 3%nat); [lia|reflexivity].
Defined.

Lemma setup_end_to_end_witness :
  exists st, run_rdma (fun _ => false) Z.of_nat 0 (fun _ _ _ => 0) 2 (concat (serial <$> c_ids)) (init_daemon (sys_sv w_st0) 2) =
      Some (Ok (st, [])) /\
    (forall c ids i id, c_ids !! c = Some ids -> ids !! i = Some id ->
       exists cqs, get_queue st c i = Ok (RdmaQueue i (Some id) (Some cqs) CONNECTED)) /\
    forall c m, sent_infos (acts st) !! c = Some m ->
      forall fails evs alloc key, (forall k, fails k = false) -> comes_up fails evs -> (forall n size, alloc n size <> 0) ->
      exists rd, connect_server fails COOP_BF evs alloc key m = Ok (inr rd) /\ agrees 4 97 rd.
Proof.
  apply (setup_end_to_end demo_table demo_config demo_rdma 4096 4 97 (fun _ => replicate 16 0) w_base w_st0 Z.of_nat (fun _ _ _ => 0) c_ids).
  - apply w_start.
  - reflexivity.
  - vm_compute. lia.
  - lia.
  - reflexivity.
  - reflexivity.
  - reflexivity.
  - repeat constructor.
  - apply (bool_decide_unpack _). vm_compute. done.
Defined.
