(* ===== verification/ClientModule.v ===== *)
(** * ClientModule: loading and unloading the driver

    [dcc_backend_init_module] and [dcc_backend_exit] of [driver/backend.c] with
    [dcc_rdma_init], [dcc_rdma_exit] of [rdma.c], [rdma_mem.c], [worker.c] and the
    destructors of the client's metadata: what the module acquires for its servers, what a
    failure releases, what unloading releases. Each server is connected as in ClientSetup. *)
From S2P Require Import Prelude Wire Ihash CountingBloom ClientFilter Connect ClientSetup.

(** ** Resources *)

(** Blocks of memory and kernel objects, by server [i]; [q]: a queue, [k]: which one. *)
Inductive resource :=
| Backends | BackendOf (i : nat) | IbClient | ReqCache | Ctrls
| CtrlBlock (i : nat) | Queues (i : nat) | RdmaMm (i : nat) | Rdev (i : nat) | Pd (i : nat)
| CmId (i q : nat) | Qp (i q : nat) | Mr (i : nat) | DmaPool (i k : nat)
| HtBlock (i k : nat) | HtHeads (i k : nat) | HtLocks (i k : nat)
| MetaBlock (i : nat) | BfBlock (i : nat) | BfBitmap (i : nat) | BfTmp (i : nat) | CbfBlock (i : nat) | CbfBytes (i : nat)
| WorkerBlock (i : nat) | WorkerThread (i : nat) | AfBlock (i : nat) | AfBuckets (i : nat) | AfLocks (i : nat).
#[export] Instance resource_eq : EqDecision resource.
Proof. solve_decision. Defined.

(** ** The client's metadata *)

Definition ht_blocks (i k : nat) : list resource := [HtBlock i k; HtHeads i k; HtLocks i k].
Definition hashtable_exit (i k : nat) (held : list resource) : outcome (list resource) :=
  release_all [HtHeads i k; HtLocks i k; HtBlock i k] held.

Definition bf_blocks (ordinary : bool) (i : nat) : list resource :=
  [BfBlock i] ++ (if ordinary then [BfBitmap i] else []) ++ [BfTmp i].
(** The temporary bitmap is released only for a filter that is not ordinary. *)
Definition bf_exit (ordinary : bool) (i : nat) (held : list resource) : outcome (list resource) :=
  release_all ((if ordinary then [BfBitmap i] else []) ++ (if negb ordinary then [BfTmp i] else []) ++ [BfBlock i]) held.

Definition cbf_exit (i : nat) (held : list resource) : outcome (list resource) := release_all [CbfBytes i; CbfBlock i] held.

(** What the metadata holds, part by part; a failed allocation leaves the rest out. *)
Definition metadata_blocks (m : metadata) (i : nat) : list resource :=
  match m with
  | MetaNull => []
  | MetaBf _ f => MetaBlock i :: bf_blocks (is_ordinary_bf f) i
  | MetaCbf _ => [MetaBlock i; CbfBlock i; CbfBytes i]
  | MetaHt _ => MetaBlock i :: ht_blocks i 1
  | MetaNone | MetaEmpty _ => [MetaBlock i]
  end.
(** Neither the metadata nor its part is tested before it is followed. *)
Definition metadata_exit (m : metadata) (i : nat) (held : list resource) : outcome (list resource) :=
  held ← match m with
         | MetaNull => Throw "null dereference: meta"
         | MetaEmpty _ => Throw "null dereference: filter"
         | MetaBf _ f => bf_exit (is_ordinary_bf f) i held
         | MetaCbf _ => cbf_exit i held
         | MetaHt _ => hashtable_exit i 1 held
         | MetaNone => Ok held
         end;
  release (MetaBlock i) held.

Definition af_blocks (i : nat) : list resource := [AfBlock i; AfBuckets i; AfLocks i].
Definition af_exit (i : nat) (held : list resource) : outcome (list resource) := release_all [AfBuckets i; AfLocks i; AfBlock i] held.

(** ** State of the module *)

(** A server that was not reached, is ready, was left half set up, or whose control block was freed. *)
Inductive server_state := NotReached | IsReady (rd : ready) | HalfSetUp | CtrlGone.
(** [backends[i]]: its control block, once [dcc_backend_init] ran, and its worker. *)
Record dcc_backend := DccBackend { be_ctrl : bool; be_worker : bool }.
Record driver := Driver_ { held : list resource; servers : list server_state; backends : list dcc_backend }.

Definition MAX_NUM_SVRS : nat := 8.

(** [dcc_set_default_config]: the addresses up to the first that was not given. *)
Fixpoint count_svrs (n : nat) (svr_ips : list (option string)) : nat :=
  match n, svr_ips with S n, Some _ :: svr_ips => S (count_svrs n svr_ips) | _, _ => 0 end.
Definition dcc_set_default_config (svr_ips : list (option string)) : nat := count_svrs MAX_NUM_SVRS svr_ips.

Section module.
(** The module's parameters and, per server, which calls fail, its events, the allocator, the key of the
    region and the server's answer. *)
Context (metadata_type : metadata_type_t) (af_enable : bool).
Context (fails : nat -> kcall -> bool) (evs : nat -> nat -> list client_event) (alloc : nat -> nat -> Z -> Z)
  (rkey : nat -> Z) (server_info : nat -> mm_info).
(** Which allocations of the module itself fail. *)
Context (no_backend : nat -> bool) (no_req_cache no_ctrls : bool).

Definition is_off (t : metadata_type_t) : bool := match t with FILTER_OFF => true | _ => false end.
Definition dma_mem_for_filter : bool := bool_decide (metadata_type = COOP_BF).
Definition num_queues : nat := length (sc_queues alloc_setup).

(** What a server that is ready holds: the control block, its queues and device, the regions, the backend's
    metadata, worker and access filter. *)
Definition ctrl_resources (i : nat) : list resource :=
  [CtrlBlock i; Queues i; RdmaMm i] ++ ht_blocks i 0 ++ [Rdev i; Pd i] ++
  concat ((fun q => [CmId i q; Qp i q]) <$> seq 0 num_queues) ++ [Mr i] ++
  (if dma_mem_for_filter then [DmaPool i 0] else []) ++ [DmaPool i 1; DmaPool i 2; DmaPool i 3].
Definition backend_resources (meta : metadata) (af : bool) (i : nat) : list resource :=
  (if is_off metadata_type then [] else metadata_blocks meta i) ++
  (if bool_decide (metadata_type = COOP_BF) then [WorkerBlock i; WorkerThread i] else []) ++
  (if af_enable && af then af_blocks i else []).

(** ** Loading *)

Definition set_server (st : driver) (i : nat) (x : server_state) : driver :=
  Driver_ (held st) (<[i := x]> (servers st)) (backends st).
Definition set_held (st : driver) (h : list resource) : driver := Driver_ h (servers st) (backends st).

(** [dcc_rdma_stopandfree_queues] of server [i]: ids and queue pairs. *)
Definition stop_queues (i : nat) (rd : ready) (h : list resource) : outcome (list resource) :=
  _ ← dcc_rdma_stopandfree_queues (rd_ctrl rd);
  release_all (concat ((fun q => [Qp i q; CmId i q]) <$> seq 0 num_queues)) h.

(** [out_free_queues]: every control block that exists, [i] of them from [j] on. *)
Fixpoint stop_all_queues (l : list server_state) (j : nat) (h : list resource) : outcome (list resource) :=
  match l with
  | [] => Ok h
  | IsReady rd :: l => h ← stop_queues j rd h; stop_all_queues l (S j) h
  | _ :: l => stop_all_queues l (S j) h
  end.

(** The loop of [dcc_rdma_init] from server [i], [n] servers left. A server whose memory region is refused
    has had its queues stopped with those of the others ([connect_server]); all control blocks are
    then freed. Later failures return at once. *)
Fixpoint init_servers (n i : nat) (st : driver) : outcome (Z * driver) :=
  match n with
  | O => Ok (0, st)
  | S n =>
      r ← connect_server (fails i) metadata_type (evs i) (alloc i) (rkey i) (server_info i);
      match r with
      | inr rd =>
          init_servers n (S i)
            (Driver_ (held st ++ ctrl_resources i ++ backend_resources (rd_meta rd) (rd_af rd) i) (<[i := IsReady rd]> (servers st))
               (<[i := DccBackend true (bool_decide (metadata_type = COOP_BF))]> (backends st)))
      | inl ret =>
          if ret =? -1 then
            h ← stop_all_queues (take i (servers st)) 0 (held st);
            h ← release_all (CtrlBlock <$> seq 0 i) h;
            h ← release_all [Ctrls; ReqCache; IbClient] h;
            Ok (-1, Driver_ (h ++ [Queues i; RdmaMm i] ++ ht_blocks i 0 ++ [Rdev i; Pd i])
                      (replicate (S i) CtrlGone ++ drop (S i) (servers st)) (backends st))
          else Ok (ret, set_server st i HalfSetUp)
      end
  end.

Definition dcc_rdma_init (num_svrs : nat) (st : driver) : outcome (Z * driver) :=
  let st := set_held st (held st ++ [IbClient]) in
  if no_req_cache then h ← release IbClient (held st); Ok (-1, set_held st h)
  else
    let st := set_held st (held st ++ [ReqCache]) in
    if no_ctrls then h ← release_all [ReqCache; IbClient] (held st); Ok (-1, set_held st h)
    else init_servers num_svrs 0 (Driver_ (held st ++ [Ctrls]) (replicate num_svrs NotReached) (backends st)).

(** How many of the [n] entries from [i] on are allocated before the first failure. *)
Fixpoint alloc_backends (n i : nat) : nat :=
  match n with O => 0 | S n => if no_backend i then 0 else S (alloc_backends n (S i)) end.

(** The result of [dcc_rdma_init] is ignored. *)
Definition dcc_backend_init_module (svr_ips : list (option string)) : outcome (Z * driver) :=
  let num_svrs := dcc_set_default_config svr_ips in
  let m := alloc_backends MAX_NUM_SVRS 0 in
  let h := Backends :: (BackendOf <$> seq 0 m) in
  if (m =? MAX_NUM_SVRS)%nat then
    '(_, st) ← dcc_rdma_init num_svrs (Driver_ h [] (replicate MAX_NUM_SVRS (DccBackend false false)));
    Ok (0, st)
  else
    h ← release_all ((BackendOf <$> seq 0 m) ++ [Backends]) h;
    Ok (-1, Driver_ h [] []).

(** ** Unloading *)

(** [dcc_backend_stop_worker]: the block of the worker is not freed. *)
Definition dcc_backend_stop_worker (st : driver) (i : nat) : outcome driver :=
  match backends st !! i with
  | Some b =>
      if be_worker b then
        h ← release (WorkerThread i) (held st);
        Ok (Driver_ h (servers st) (<[i := DccBackend (be_ctrl b) false]> (backends st)))
      else Throw "null dereference: worker"
  | None => Throw "backends[]"
  end.
Fixpoint stop_workers (n i : nat) (st : driver) : outcome driver :=
  match n with O => Ok st | S n => st ← dcc_backend_stop_worker st i; stop_workers n (S i) st end.

Definition rdma_mem_free_region (i : nat) (h : list resource) : outcome (list resource) :=
  release_all ((if dma_mem_for_filter then [DmaPool i 0] else []) ++ [DmaPool i 1; DmaPool i 2; DmaPool i 3]) h.
(** [kfree(mm->mr); kfree(mm)]. *)
Definition rdma_mem_exit (i : nat) (h : list resource) : outcome (list resource) := release_all [Mr i; RdmaMm i] h.
Definition dcc_rdma_free_control (i : nat) (h : list resource) : outcome (list resource) :=
  h ← rdma_mem_exit i h; release_all [Pd i; Queues i; Rdev i; CtrlBlock i] h.

Definition dcc_rdma_exit (st : driver) (i : nat) (last_flag : bool) : outcome driver :=
  match backends st !! i, servers st !! i with
  | Some (DccBackend true _), Some (IsReady rd) =>
      h ← stop_queues i rd (held st);
      h ← hashtable_exit i 0 h;
      h ← rdma_mem_free_region i h;
      h ← dcc_rdma_free_control i h;
      h ← (if last_flag then release_all [Ctrls; ReqCache; IbClient] h else Ok h);
      Ok (set_server (set_held st h) i CtrlGone)
  | Some (DccBackend true _), _ => Throw "use after free: backend->ctrl"
  | _, _ => Throw "null dereference: backend->ctrl"
  end.

(** [backends[i]->meta] and [backends[i]->af], as [dcc_backend_init] left them. *)
Definition backend_parts (st : driver) (i : nat) : metadata * bool :=
  match servers st !! i with Some (IsReady rd) => (rd_meta rd, rd_af rd) | _ => (MetaNull, false) end.

Fixpoint exit_servers (num_svrs n i : nat) (st : driver) : outcome driver :=
  match n with
  | O => Ok st
  | S n =>
      let '(meta, af) := backend_parts st i in
      st ← dcc_rdma_exit st i (bool_decide (i = num_svrs - 1)%nat);
      h ← (if is_off metadata_type then Ok (held st) else metadata_exit meta i (held st));
      h ← (if af_enable then if af then af_exit i h else Throw "null dereference: af" else Ok h);
      exit_servers num_svrs n (S i) (set_held st h)
  end.

Definition dcc_backend_exit (num_svrs : nat) (st : driver) : outcome driver :=
  st ← (if bool_decide (metadata_type = COOP_BF) then stop_workers num_svrs 0 st else Ok st);
  st ← exit_servers num_svrs num_svrs 0 st;
  h ← release_all ((BackendOf <$> seq 0 MAX_NUM_SVRS) ++ [Backends]) (held st);
  Ok (set_held st h).
End module.
