(* ===== verification/ClientModuleSpec.v ===== *)
(** * ClientModuleSpec: what loading and unloading the driver leave behind

    Unloading releases what loading acquired, once each, but for three kinds of blocks; a server
    that cannot be set up leaves the module loaded with control blocks that were freed, and one whose answer
    gives the metadata no size leaves it without a filter ([unsized_metadata_crashes]). *)
From S2P Require Import Prelude Wire Ihash CountingBloom ClientFilter ClientFilterSpec Connect ConnectSpec ClientSetup ClientSetupSpec ClientModule.

(** ** Lemmas *)

Lemma elem_of_concat_fmap {A B} (f : A -> list B) l x : x ∈ concat (f <$> l) <-> exists a, a ∈ l /\ x ∈ f a.
Proof.
  induction l as [|a l IH]; cbn; [split; [by intros ?%not_elem_of_nil|by intros (? & ?%not_elem_of_nil & _)]|].
  rewrite elem_of_app, IH. split.
  - intros [H|(b & H1 & H2)]; [exists a|exists b]; by rewrite elem_of_cons; auto.
  - intros (b & [->|H1]%elem_of_cons & H2); [by left|right; by exists b].
Qed.

Section spec.
Context (metadata_type : metadata_type_t) (af_enable : bool).
Context (fails : nat -> kcall -> bool) (evs : nat -> nat -> list client_event) (alloc : nat -> nat -> Z -> Z)
  (rkey : nat -> Z) (server_info : nat -> mm_info).

(** A server whose connection succeeds. *)
Definition server_ok (i : nat) : Prop :=
  (forall c, fails i c = false) /\ comes_up (fails i) (evs i) /\ forall k size, alloc i k size <> 0.

Abbreviation connect i := (connect_server (fails i) metadata_type (evs i) (alloc i) (rkey i) (server_info i)).
Abbreviation dma := (dma_mem_for_filter metadata_type).
Abbreviation ctrl_res := (ctrl_resources metadata_type).
(** The metadata of server [i]'s backend. *)
Definition meta_of (i : nat) : metadata :=
  metadata_init (fun n => negb (fails i (MetaAlloc n))) (Z.to_nat (wrap 8 (info0 (server_info i)))) (info1 (server_info i))
    (bool_decide (metadata_type = COOP_BF)) (info2 (server_info i)) metadata_type.
Abbreviation backend_res i := (backend_resources metadata_type af_enable (meta_of i) true i).

Definition queues_up (rd : ready) : Prop := sc_queues (rd_ctrl rd) = replicate num_queues up.
Definition is_up (i : nat) (rd : ready) : Prop := queues_up rd /\ rd_meta rd = meta_of i /\ rd_af rd = true.

(** Every call but the registration of the region succeeds. *)
Definition reaches_region (i : nat) : Prop := (forall c, c <> GetDmaMr -> fails i c = false) /\ comes_up (fails i) (evs i).

Lemma queues_ok i : reaches_region i -> exists st, dcc_rdma_init_queue (fails i) (evs i) alloc_setup = Ok (0, st) /\ sc_queues st = replicate num_queues up.
Proof.
  intros (Hf & Hu). unfold dcc_rdma_init_queue, alloc_setup. cbn [sc_queues]. rewrite length_replicate.
  pose proof (init_queues_up (fails i) (evs i) (Z.to_nat (num_qps (Driver.d_rdma Driver.dcc_rdma_set_default_config))) [] false Hu) as Hq.
  rewrite !Hf in Hq by done. specialize (Hq eq_refl eq_refl). cbn [length app] in Hq. unfold fresh in Hq. rewrite Hq. by eexists.
Qed.

Lemma alloc_control_ok i : reaches_region i -> dcc_rdma_alloc_control (fails i) = CtrlAt alloc_setup.
Proof. intros (Hf & _). unfold dcc_rdma_alloc_control. by rewrite !Hf by done. Qed.

Lemma connect_ok i : server_ok i -> exists rd, connect i = Ok (inr rd) /\ is_up i rd.
Proof.
  intros (Hf & Hu & Ha). assert (reaches_region i) as Hr by (split; [intros; apply Hf|done]).
  unfold connect_server. rewrite alloc_control_ok by done. destruct (queues_ok i Hr) as (st & -> & Hst). obind. rewrite !Hf.
  cbn [Z.eqb negb orb]. unfold dcc_rdma_recv_remotemr. rewrite !Hf. obind.
  cbn [Z.eqb negb]. unfold rdma_mem_alloc_region. rewrite Hf, !(proj2 (Z.eqb_neq _ 0)) by apply Ha. rewrite andb_false_r.
  unfold dcc_rdma_send_localmr. rewrite Hf. obind. cbn [Z.eqb negb]. unfold dcc_backend_init. rewrite !Hf, andb_false_r. obind.
  eexists. split; [reflexivity|]. split; [done|]. split; [|done]. cbn [rd_meta filter_pool]. unfold meta_of. f_equal. by destruct (bool_decide (metadata_type = COOP_BF)).
Qed.

Lemma stopandfree_up n : stopandfree (replicate n up) = Ok (replicate n (SetupQueue CmDestroyed false 0 true)).
Proof. induction n as [|n IH]; [done|]. cbn [replicate stopandfree stop_free_queue up sq_cm sq_qp]. obind. by rewrite IH. Qed.

Lemma connect_refused i : reaches_region i -> fails i GetDmaMr = true -> connect i = Ok (inl (-1)).
Proof.
  intros Hr Hg. unfold connect_server. rewrite alloc_control_ok by done. destruct (queues_ok i Hr) as (st & -> & Hst). obind.
  rewrite Hg. cbn [Z.eqb negb orb]. unfold dcc_rdma_stopandfree_queues. rewrite Hst, stopandfree_up. done.
Qed.

Lemma swap_pairs i l : concat ((fun q => [Qp i q; CmId i q]) <$> l) ≡ₚ concat ((fun q => [CmId i q; Qp i q]) <$> l).
Proof. induction l as [|q l IH]; [done|]. cbn. rewrite IH. perm. Qed.

Lemma stop_queues_ok i rd h rest : queues_up rd ->
  h ≡ₚ concat ((fun q => [CmId i q; Qp i q]) <$> seq 0 num_queues) ++ rest ->
  exists h', stop_queues i rd h = Ok h' /\ h' ≡ₚ rest.
Proof.
  intros Hu P. unfold stop_queues, dcc_rdma_stopandfree_queues. rewrite Hu, stopandfree_up. obind.
  apply release_all_ok. by rewrite swap_pairs.
Qed.

(** ** Lemmas: loading *)

Definition all_resources (l : list nat) : list resource := concat ((fun i => ctrl_res i ++ backend_res i) <$> l).

Record loaded (n i : nat) (h0 : list resource) (st : driver) : Prop := {
  ld_held : held st ≡ₚ h0 ++ all_resources (seq 0 i);
  ld_servers : length (servers st) = n;
  ld_ready j : (j < i)%nat -> exists rd, servers st !! j = Some (IsReady rd) /\ is_up j rd;
  ld_backends : length (backends st) = MAX_NUM_SVRS;
  ld_be j : (j < i)%nat -> backends st !! j = Some (DccBackend true (bool_decide (metadata_type = COOP_BF)));
  ld_later j : (i <= j < MAX_NUM_SVRS)%nat -> backends st !! j = Some (DccBackend false false);
}.

Lemma all_resources_S i : all_resources (seq 0 (S i)) = all_resources (seq 0 i) ++ ctrl_res i ++ backend_res i.
Proof. unfold all_resources. rewrite seq_S, fmap_app, concat_app. cbn. by rewrite app_nil_r. Qed.

Lemma loaded_step n i h0 st rd : (i < n)%nat -> (n <= MAX_NUM_SVRS)%nat -> loaded n i h0 st -> is_up i rd ->
  loaded n (S i) h0 (Driver_ (held st ++ ctrl_res i ++ backend_resources metadata_type af_enable (rd_meta rd) (rd_af rd) i) (<[i := IsReady rd]> (servers st))
                       (<[i := DccBackend true (bool_decide (metadata_type = COOP_BF))]> (backends st))).
Proof.
  intros Hi Hn [H1 H2 H3 H4 H5 H6] Hu. split; cbn [held servers backends].
  - destruct Hu as (_ & -> & ->). rewrite H1, all_resources_S. perm.
  - by rewrite length_insert.
  - intros j Hj. destruct (decide (i = j)) as [<-|Hne].
    + exists rd. split; [apply list_lookup_insert_eq; lia|done].
    + rewrite list_lookup_insert_ne by done. apply H3. lia.
  - by rewrite length_insert.
  - intros j Hj. destruct (decide (i = j)) as [<-|Hne]; [apply list_lookup_insert_eq; unfold MAX_NUM_SVRS in *; lia|].
    rewrite list_lookup_insert_ne by done. apply H5. lia.
  - intros j Hj. rewrite list_lookup_insert_ne by lia. apply H6. lia.
Qed.

Lemma init_servers_ok n m i h0 st : (i + m = n)%nat -> (n <= MAX_NUM_SVRS)%nat -> (forall j, (i <= j < n)%nat -> server_ok j) ->
  loaded n i h0 st -> exists st', init_servers metadata_type af_enable fails evs alloc rkey server_info m i st = Ok (0, st') /\ loaded n n h0 st'.
Proof.
  revert i st. induction m as [|m IH]; intros i st Hm Hn Hok Hl; cbn [init_servers].
  - exists st. split; [done|]. assert (i = n) as -> by lia. done.
  - destruct (connect_ok i) as (rd & -> & Hu); [apply Hok; lia|]. obind. apply IH; [lia|done| |].
    + intros j Hj. apply Hok. lia.
    + apply loaded_step; [lia|done..].
Qed.

(** ** Lemmas: unloading *)

(** What unloading forgets of a server. *)
Definition leaks (i : nat) : list resource :=
  (if bool_decide (metadata_type = ORDINARY_BF) then [BfTmp i] else []) ++
  (if bool_decide (metadata_type = COOP_BF) then [WorkerBlock i] else []).
Definition all_leaks (l : list nat) : list resource := concat (leaks <$> l).

(** A backend without its worker's thread. *)
Definition backend_idle (i : nat) : list resource :=
  (if is_off metadata_type then [] else metadata_blocks (meta_of i) i) ++
  (if bool_decide (metadata_type = COOP_BF) then [WorkerBlock i] else []) ++
  (if af_enable then af_blocks i else []).

(** The server's answer gives the metadata a size; [hashtable_init] makes three buckets of four pages. *)
Definition meta_sized (m : mm_info) : Prop :=
  match metadata_type with
  | FILTER_OFF => True
  | HASH_TABLE => 2 <= info2 m < 2 ^ 32
  | _ => 0 < info1 m < 2 ^ 32
  end.

Lemma meta_shape i : (forall c, fails i c = false) -> meta_sized (server_info i) ->
  match metadata_type with
  | FILTER_OFF => meta_of i = MetaNone
  | COOP_BF => exists f, meta_of i = MetaBf true f /\ is_ordinary_bf f = false
  | ORDINARY_BF => exists f, meta_of i = MetaBf false f /\ is_ordinary_bf f = true
  | COUNTING_BF => exists c, meta_of i = MetaCbf c
  | HASH_TABLE => exists ht, meta_of i = MetaHt ht
  end.
Proof.
  intros Hf. unfold meta_sized, meta_of, metadata_init, bf_init, cbf_init, vzalloc.
  destruct metadata_type; rewrite ?Hf; cbn [negb andb]; [done|intros Hs..].
  - pose proof (longs_enough (info1 (server_info i)) 0 ltac:(lia)) as Hl. rewrite Z.div_0_l in Hl by done.
    rewrite (proj2 (Z.ltb_lt 0 (_ * 8))) by lia. cbn [from_option]. rewrite bool_decide_true by done. by eexists.
  - pose proof (longs_enough (info1 (server_info i)) 0 ltac:(lia)) as Hl. rewrite Z.div_0_l in Hl by done.
    rewrite (proj2 (Z.ltb_lt 0 (_ * 8))) by lia. cbn [from_option]. rewrite bool_decide_false by done. by eexists.
  - rewrite (proj2 (Z.ltb_lt 0 (_ * 8))) by lia. by eexists.
  - rewrite hashtable_init_spec, !Hf by lia. rewrite (proj2 (Z.leb_le 2 _)) by lia. by eexists.
Qed.

(** Without a size there is no filter and no table. *)
Lemma meta_unsized i : metadata_type <> FILTER_OFF -> 0 <= info1 (server_info i) -> 0 <= info2 (server_info i) ->
  ~ (if bool_decide (metadata_type = HASH_TABLE) then 2 <= info2 (server_info i) else 0 < info1 (server_info i)) ->
  meta_of i = MetaNull \/ meta_of i = MetaEmpty metadata_type.
Proof.
  intros Hoff H1 H2 Hn. unfold meta_of, metadata_init. destruct (negb (fails i (MetaAlloc 0))); [|by left]. right.
  destruct metadata_type; try done; [rewrite bool_decide_eq_false_2 in Hn by done..|rewrite bool_decide_eq_true_2 in Hn by done].
  - replace (info1 (server_info i)) with 0 by lia. unfold bf_init, vzalloc. cbn. by rewrite !andb_false_r.
  - replace (info1 (server_info i)) with 0 by lia. unfold bf_init, vzalloc. cbn. by rewrite !andb_false_r.
  - replace (info1 (server_info i)) with 0 by lia. unfold cbf_init, vzalloc. cbn. by rewrite !andb_false_r.
  - rewrite hashtable_init_spec by lia. rewrite (proj2 (Z.leb_gt 2 _)) by lia. by rewrite !andb_false_r.
Qed.

Lemma metadata_exit_ok i h rest : (forall c, fails i c = false) -> meta_sized (server_info i) -> metadata_type <> FILTER_OFF ->
  h ≡ₚ metadata_blocks (meta_of i) i ++ rest ->
  exists h', metadata_exit (meta_of i) i h = Ok h' /\
    h' ≡ₚ (if bool_decide (metadata_type = ORDINARY_BF) then [BfTmp i] else []) ++ rest.
Proof.
  intros Hf Hs Hoff. pose proof (meta_shape i Hf Hs) as Hm. unfold metadata_exit, metadata_blocks. clear Hs.
  destruct metadata_type; try done; intros P.
  - destruct Hm as (f & Em & Ef). rewrite Em, ?Ef in *. destruct (release_all_ok [BfTmp i; BfBlock i] h (MetaBlock i :: rest)) as (h1 & E1 & P1); [rewrite P; perm|].
    unfold bf_exit. cbn [negb app]. rewrite E1. obind.
    rewrite bool_decide_false by done. by apply release_ok.
  - destruct Hm as (f & Em & Ef). rewrite Em, ?Ef in *. destruct (release_all_ok [BfBitmap i; BfBlock i] h (MetaBlock i :: BfTmp i :: rest)) as (h1 & E1 & P1); [rewrite P; perm|].
    unfold bf_exit. cbn [negb app]. rewrite E1. obind.
    rewrite bool_decide_true by done. by apply release_ok.
  - destruct Hm as (c & Em). rewrite Em in *. destruct (release_all_ok [CbfBytes i; CbfBlock i] h (MetaBlock i :: rest)) as (h1 & E1 & P1); [rewrite P; perm|].
    unfold cbf_exit. rewrite E1. obind. rewrite bool_decide_false by done. by apply release_ok.
  - destruct Hm as (ht & Em). rewrite Em in *. destruct (release_all_ok [HtHeads i 1; HtLocks i 1; HtBlock i 1] h (MetaBlock i :: rest)) as (h1 & E1 & P1); [rewrite P; perm|].
    unfold hashtable_exit. rewrite E1. obind. rewrite bool_decide_false by done. by apply release_ok.
Qed.

Definition final (last : bool) : list resource := if last then [Ctrls; ReqCache; IbClient] else [].

(** Server [i] is ready and its backend knows. *)
Definition serves (st : driver) (i : nat) : Prop :=
  exists rd w, servers st !! i = Some (IsReady rd) /\ is_up i rd /\ backends st !! i = Some (DccBackend true w).

Lemma dcc_rdma_exit_ok st i last rest : serves st i ->
  held st ≡ₚ ctrl_res i ++ final last ++ rest ->
  exists h', dcc_rdma_exit metadata_type st i last = Ok (set_server (set_held st h') i CtrlGone) /\ h' ≡ₚ rest.
Proof.
  intros (rd & w & Hs & (Hu & _) & Hb) P. unfold dcc_rdma_exit. rewrite Hb, Hs. unfold ctrl_resources in P.
  set (qs := concat ((fun q => [CmId i q; Qp i q]) <$> seq 0 num_queues)) in *. set (d0 := if dma then [DmaPool i 0] else []) in *.
  destruct (stop_queues_ok i rd (held st) ([CtrlBlock i; Queues i; RdmaMm i] ++ ht_blocks i 0 ++ [Rdev i; Pd i; Mr i] ++
    (d0 ++ [DmaPool i 1; DmaPool i 2; DmaPool i 3]) ++ final last ++ rest) Hu) as (h1 & -> & P1); [rewrite P; perm|]. obind.
  destruct (release_all_ok [HtHeads i 0; HtLocks i 0; HtBlock i 0] h1 ([CtrlBlock i; Queues i; RdmaMm i; Rdev i; Pd i; Mr i] ++
    (d0 ++ [DmaPool i 1; DmaPool i 2; DmaPool i 3]) ++ final last ++ rest)) as (h2 & E2 & P2); [rewrite P1; unfold ht_blocks; perm|].
  unfold hashtable_exit. rewrite E2. obind. unfold rdma_mem_free_region. fold d0.
  destruct (release_all_ok (d0 ++ [DmaPool i 1; DmaPool i 2; DmaPool i 3]) h2 ([CtrlBlock i; Queues i; RdmaMm i; Rdev i; Pd i; Mr i] ++
    final last ++ rest)) as (h3 & -> & P3); [rewrite P2; perm|]. obind. unfold dcc_rdma_free_control, rdma_mem_exit.
  destruct (release_all_ok [Mr i; RdmaMm i] h3 ([CtrlBlock i; Queues i; Rdev i; Pd i] ++ final last ++ rest)) as (h4 & -> & P4); [rewrite P3; perm|].
  obind. destruct (release_all_ok [Pd i; Queues i; Rdev i; CtrlBlock i] h4 (final last ++ rest)) as (h5 & -> & P5); [rewrite P4; perm|]. obind.
  destruct last; cbn [final] in P5.
  - destruct (release_all_ok [Ctrls; ReqCache; IbClient] h5 rest P5) as (h6 & -> & P6). obind. by exists h6.
  - obind. by exists h5.
Qed.

Definition idle_resources (l : list nat) : list resource := concat ((fun i => ctrl_res i ++ backend_idle i) <$> l).
Definition threads (l : list nat) : list resource := if bool_decide (metadata_type = COOP_BF) then WorkerThread <$> l else [].

Lemma split_threads l : all_resources l ≡ₚ threads l ++ idle_resources l.
Proof.
  unfold all_resources, idle_resources, threads, backend_resources, backend_idle. induction l as [|i l IH]; [by case_bool_decide|].
  rewrite !fmap_cons. cbn [concat]. rewrite IH, andb_true_r. case_bool_decide; perm.
Qed.

(** The metadata and the access filter of a backend whose worker is stopped. *)
Definition exit_backend (i : nat) (h : list resource) : outcome (list resource) :=
  h ← (if is_off metadata_type then Ok h else metadata_exit (meta_of i) i h); if af_enable then af_exit i h else Ok h.

Lemma exit_backend_ok i h rest : (forall c, fails i c = false) -> meta_sized (server_info i) -> h ≡ₚ backend_idle i ++ rest -> exists h', exit_backend i h = Ok h' /\ h' ≡ₚ leaks i ++ rest.
Proof.
  intros Hf Hs P. unfold backend_idle in P. unfold exit_backend, leaks.
  set (w := if bool_decide (metadata_type = COOP_BF) then [WorkerBlock i] else []) in *.
  set (t := if bool_decide (metadata_type = ORDINARY_BF) then [BfTmp i] else []).
  assert (exists h1, (if is_off metadata_type then Ok h else metadata_exit (meta_of i) i h) = Ok h1 /\
            h1 ≡ₚ (if af_enable then af_blocks i else []) ++ t ++ w ++ rest) as (h1 & -> & P1).
  { destruct (decide (metadata_type = FILTER_OFF)) as [Eo|Hne].
    - exists h. subst t. rewrite Eo in P |- *. cbn in P |- *. split; [done|]. rewrite P. perm.
    - destruct (metadata_exit_ok i h ((if af_enable then af_blocks i else []) ++ w ++ rest) Hf Hs Hne) as (h1 & E1 & P1).
      + rewrite P. destruct metadata_type; try done; cbn [is_off]; perm.
      + exists h1. split; [by destruct metadata_type|]. rewrite P1. fold t. perm. }
  obind. destruct af_enable.
  - destruct (release_all_ok [AfBuckets i; AfLocks i; AfBlock i] h1 (t ++ w ++ rest)) as (h2 & E2 & P2); [rewrite P1; unfold af_blocks; perm|].
    unfold af_exit. rewrite E2. exists h2. split; [done|]. rewrite P2. perm.
  - exists h1. split; [done|]. rewrite P1. perm.
Qed.

Lemma exit_servers_ok n m i st rest : (0 < m)%nat -> (i + m = n)%nat ->
  (forall j, (i <= j < n)%nat -> serves st j /\ (forall c, fails j c = false) /\ meta_sized (server_info j)) ->
  held st ≡ₚ idle_resources (seq i m) ++ final true ++ rest ->
  exists st', exit_servers metadata_type af_enable n m i st = Ok st' /\ held st' ≡ₚ all_leaks (seq i m) ++ rest.
Proof.
  revert i st rest. induction m as [|m IH]; [lia|]. intros i st rest _ Hm Hr P.
  set (last := bool_decide (i = n - 1)%nat).
  unfold idle_resources in P. rewrite <- cons_seq, fmap_cons in P. cbn [concat] in P. fold (idle_resources (seq (S i) m)) in P.
  assert (exists more, idle_resources (seq (S i) m) ++ final true ≡ₚ final last ++ more /\
            more = (if last then [] else idle_resources (seq (S i) m) ++ final true)) as (more & Pm & Em).
  { eexists. split; [|reflexivity]. subst last. case_bool_decide as E; [|done]. replace m with 0%nat by lia. done. }
  destruct (dcc_rdma_exit_ok st i last (backend_idle i ++ more ++ rest)) as (h1 & E1 & P1).
  { apply Hr. lia. }
  { rewrite P. transitivity (ctrl_res i ++ backend_idle i ++ (idle_resources (seq (S i) m) ++ final true) ++ rest); [perm|].
    rewrite Pm. perm. }
  destruct (Hr i ltac:(lia)) as ((rd & w & Hsi & (_ & Hmi & Hai) & _) & Hfi & Hzi).
  destruct (exit_backend_ok i h1 (more ++ rest) Hfi Hzi P1) as (h2 & E2 & P2).
  assert (exit_servers metadata_type af_enable n (S m) i st =
          exit_servers metadata_type af_enable n m (S i) (set_held (set_server (set_held st h1) i CtrlGone) h2)) as ->.
  { cbn [exit_servers]. fold last. unfold backend_parts. rewrite Hsi, Hmi, Hai, E1. obind. unfold exit_backend in E2. cbn [held set_server set_held].
    destruct (if is_off metadata_type then _ else _) as [h'|]; [|done]. cbn [mbind outcome_bind] in E2 |- *. by rewrite E2. }
  destruct m as [|m].
  - assert (last = true) as El by (subst last; apply bool_decide_true; lia). rewrite El in Em. subst more.
    eexists. split; [done|]. cbn [held set_held]. rewrite P2. unfold all_leaks. cbn. by rewrite app_nil_r.
  - assert (last = false) as El by (subst last; apply bool_decide_false; lia). rewrite El in Em. subst more.
    destruct (IH (S i) (set_held (set_server (set_held st h1) i CtrlGone) h2) (leaks i ++ rest)) as (st' & E' & P'); [lia|lia|..].
    + intros j Hj. unfold serves. cbn [servers backends set_held set_server]. rewrite list_lookup_insert_ne by lia. apply Hr. lia.
    + cbn [held set_held]. rewrite P2. perm.
    + exists st'. split; [done|]. rewrite P'. unfold all_leaks. rewrite <- (cons_seq (S m) i), fmap_cons. cbn [concat]. perm.
Qed.

Lemma stop_workers_ok m i st rest :
  (forall j, (i <= j < i + m)%nat -> serves st j /\ exists c, backends st !! j = Some (DccBackend c true)) ->
  held st ≡ₚ (WorkerThread <$> seq i m) ++ rest ->
  exists st', stop_workers m i st = Ok st' /\ held st' ≡ₚ rest /\ forall j, serves st j -> serves st' j.
Proof.
  revert i st. induction m as [|m IH]; intros i st Hb P; cbn [stop_workers]; [by exists st|].
  destruct (Hb i) as (_ & c & Hi); [lia|]. unfold dcc_backend_stop_worker. rewrite Hi. cbn [be_worker be_ctrl].
  rewrite <- cons_seq in P. destruct (release_ok _ _ _ P) as (h & -> & P1). obind.
  set (st1 := Driver_ h (servers st) (<[i := DccBackend c false]> (backends st))).
  assert (forall j, serves st j -> serves st1 j) as Hs.
  { intros j (rd & w & Hs & Hu & Hj). exists rd. unfold st1. cbn [servers backends]. destruct (decide (i = j)) as [<-|Hne].
    - exists false. rewrite list_lookup_insert_eq by (by eapply lookup_lt_Some). rewrite Hi in Hj. by injection Hj as -> _.
    - exists w. by rewrite list_lookup_insert_ne. }
  destruct (IH (S i) st1) as (st' & -> & P2 & Hs').
  - intros j Hj. destruct (Hb j) as (Hj1 & Hj2); [lia|]. split; [by apply Hs|]. unfold st1. cbn [backends]. by rewrite list_lookup_insert_ne by lia.
  - done.
  - exists st'. split_and!; [done..|]. auto.
Qed.

Lemma stop_workers_Ok m i st st' j : stop_workers m i st = Ok st' -> (i <= j < i + m)%nat ->
  exists c, backends st !! j = Some (DccBackend c true).
Proof.
  revert i st. induction m as [|m IH]; intros i st; cbn [stop_workers]; [lia|]. unfold dcc_backend_stop_worker.
  destruct (backends st !! i) as [[c []]|] eqn:Hi; try done. cbn [be_worker].
  intros (st1 & (h & _ & [= <-])%outcome_bind_Ok & H)%outcome_bind_Ok Hj. destruct (decide (i = j)) as [<-|Hne]; [by exists c|].
  destruct (IH _ _ H) as (c' & Hc); [lia|]. cbn [backends] in Hc. rewrite list_lookup_insert_ne in Hc by done. by exists c'.
Qed.

(** ** Loading and unloading *)

Abbreviation init_module := (dcc_backend_init_module metadata_type af_enable fails evs alloc rkey server_info (fun _ => false) false false).

Lemma count_svrs_le n l : (count_svrs n l <= n)%nat.
Proof. revert l. induction n as [|n IH]; intros [|[] l]; cbn [count_svrs]; try lia. specialize (IH l). lia. Qed.

Definition module_base : list resource := Backends :: (BackendOf <$> seq 0 MAX_NUM_SVRS).
Definition rdma_base : list resource := module_base ++ [IbClient; ReqCache; Ctrls].
Definition before_servers (n : nat) : driver := Driver_ rdma_base (replicate n NotReached) (replicate MAX_NUM_SVRS (DccBackend false false)).

Lemma init_module_eq svr_ips : init_module svr_ips =
  ('(_, st) ← init_servers metadata_type af_enable fails evs alloc rkey server_info (dcc_set_default_config svr_ips) 0
                (before_servers (dcc_set_default_config svr_ips)); Ok (0, st)).
Proof. unfold dcc_backend_init_module. generalize (dcc_set_default_config svr_ips). done. Qed.

Lemma before_servers_loaded n : loaded n 0 rdma_base (before_servers n).
Proof.
  split; cbn [held servers backends before_servers]; [done|apply length_replicate|lia|apply length_replicate|lia|].
  intros j Hj. apply lookup_replicate_2. lia.
Qed.

(** The loaded state, and that unloading reaches its servers. *)
Lemma load_ok svr_ips n : dcc_set_default_config svr_ips = n -> (forall i, (i < n)%nat -> server_ok i) ->
  exists st st1, init_module svr_ips = Ok (0, st) /\
    (if bool_decide (metadata_type = COOP_BF) then stop_workers n 0 st else Ok st) = Ok st1 /\
    held st1 ≡ₚ rdma_base ++ idle_resources (seq 0 n) /\ forall j, (j < n)%nat -> serves st1 j.
Proof.
  intros Hn Hok. assert (n <= MAX_NUM_SVRS)%nat as Hle by (rewrite <- Hn; apply count_svrs_le).
  destruct (init_servers_ok n n 0 rdma_base (before_servers n)) as (st & E & [P _ Hr _ Hb _]); [lia|done|intros; apply Hok; lia|apply before_servers_loaded|].
  exists st. rewrite init_module_eq, Hn, E. obind.
  assert (forall j, (j < n)%nat -> serves st j) as Hs.
  { intros j Hj. destruct (Hr j Hj) as (rd & H1 & H2). exists rd. eexists. split_and!; [done..|]. by apply Hb. }
  rewrite split_threads in P. unfold threads in P. case_bool_decide as Ec.
  - destruct (stop_workers_ok n 0 st (rdma_base ++ idle_resources (seq 0 n))) as (st1 & E1 & P1 & H1).
    + intros j Hj. split; [apply Hs; lia|]. rewrite Hb by lia. by eexists.
    + rewrite P. perm.
    + exists st1. split_and!; auto.
  - exists st. split_and!; [done|done|by rewrite P|done].
Qed.

(** C31: Loading the driver for servers that answer, with a size for the metadata (a filter has at least one bit,
    the hash table is for two pages or more), when no allocation fails, succeeds, and unloading it
    releases every block once, but for a bitmap per ordinary filter, a block per worker and, when there is
    no server, what [dcc_rdma_init] had allocated. *)
Theorem load_then_unload svr_ips n (Hn : dcc_set_default_config svr_ips = n) (Hok : forall i, (i < n)%nat -> server_ok i)
    (Hsized : forall i, (i < n)%nat -> meta_sized (server_info i)) :
  exists st st', init_module svr_ips = Ok (0, st) /\ dcc_backend_exit metadata_type af_enable n st = Ok st' /\
    held st' ≡ₚ concat ((fun i => (if bool_decide (metadata_type = ORDINARY_BF) then [BfTmp i] else []) ++
                                 (if bool_decide (metadata_type = COOP_BF) then [WorkerBlock i] else [])) <$> seq 0 n) ++
                (if decide (n = 0%nat) then [IbClient; ReqCache; Ctrls] else []).
Proof.
  destruct (load_ok svr_ips n Hn Hok) as (st & st1 & E & E1 & P1 & Hs1). exists st. rewrite E.
  unfold dcc_backend_exit. rewrite E1. obind.
  assert (exists st2, exit_servers metadata_type af_enable n n 0 st1 = Ok st2 /\
    held st2 ≡ₚ module_base ++ all_leaks (seq 0 n) ++ (if decide (n = 0%nat) then [IbClient; ReqCache; Ctrls] else [])) as (st2 & E2 & P2).
  { destruct (decide (n = 0%nat)) as [->|Hne].
    - exists st1. split; [done|]. rewrite P1. unfold rdma_base, all_leaks, idle_resources. cbn [seq fmap list_fmap concat]. perm.
    - destruct (exit_servers_ok n n 0 st1 module_base) as (st2 & E2 & P2); [lia|lia| |..].
      + intros j Hj. split; [apply Hs1; lia|]. split; [apply Hok; lia|apply Hsized; lia].
      + rewrite P1. unfold rdma_base. cbn [final]. perm.
      + exists st2. split; [done|]. rewrite P2, app_nil_r. perm. }
  rewrite E2. obind.
  destruct (release_all_ok ((BackendOf <$> seq 0 MAX_NUM_SVRS) ++ [Backends]) (held st2)
    (all_leaks (seq 0 n) ++ (if decide (n = 0%nat) then [IbClient; ReqCache; Ctrls] else []))) as (h & Eh & Ph).
  { rewrite P2. unfold module_base. perm. }
  rewrite Eh. obind. by eexists.
Qed.

(** The servers' answers are not tested: when the first gives the metadata no size (a filter of no bits, a table for fewer than two
    pages), loading succeeds without a filter, and unloading follows a null pointer. *)
Theorem unsized_metadata_crashes svr_ips n (Hn : dcc_set_default_config svr_ips = n) (Hpos : (0 < n)%nat) (Hok : forall i, (i < n)%nat -> server_ok i)
    (Hoff : metadata_type <> FILTER_OFF) (H1 : 0 <= info1 (server_info 0)) (H2 : 0 <= info2 (server_info 0))
    (Hz : ~ (if bool_decide (metadata_type = HASH_TABLE) then 2 <= info2 (server_info 0) else 0 < info1 (server_info 0))) :
  exists st msg, init_module svr_ips = Ok (0, st) /\ dcc_backend_exit metadata_type af_enable n st = Throw msg.
Proof.
  destruct (load_ok svr_ips n Hn Hok) as (st & st1 & E & E1 & P1 & Hs1). exists st. rewrite E.
  unfold dcc_backend_exit. rewrite E1. obind. destruct n as [|n']; [lia|]. cbn [exit_servers]. unfold backend_parts.
  destruct (Hs1 0%nat ltac:(lia)) as (rd & w & Hs & (_ & Em & _) & _). rewrite Hs, Em.
  destruct (dcc_rdma_exit metadata_type st1 0 _) as [st2|msg]; [|by exists msg]. obind.
  replace (is_off metadata_type) with false by by destruct metadata_type.
  unfold metadata_exit. destruct (meta_unsized 0 Hoff H1 H2) as [->| ->]; [done|by eexists..].
Qed.

Lemma load_prefix n i : (i <= n)%nat -> (n <= MAX_NUM_SVRS)%nat -> (forall j, (j < i)%nat -> server_ok j) -> forall m,
  exists st, loaded n i rdma_base st /\
    init_servers metadata_type af_enable fails evs alloc rkey server_info (i + m) 0 (before_servers n) =
    init_servers metadata_type af_enable fails evs alloc rkey server_info m i st.
Proof.
  induction i as [|i IH]; intros Hi Hn Hok m.
  - exists (before_servers n). split; [apply before_servers_loaded|done].
  - destruct (IH ltac:(lia) Hn ltac:(intros; apply Hok; lia) (S m)) as (st & Hl & E).
    destruct (connect_ok i) as (rd & Ec & Hu); [apply Hok; lia|].
    eexists. split; [apply loaded_step; [lia|done..]|]. replace (S i + m)%nat with (i + S m)%nat by lia. rewrite E.
    cbn [init_servers]. rewrite Ec. obind. done.
Qed.

(** What the failure path does not release of server [j]. *)
Definition queue_resources (i : nat) : list resource := concat ((fun q => [CmId i q; Qp i q]) <$> seq 0 num_queues).
Definition abandoned (i : nat) : list resource :=
  [Queues i; RdmaMm i] ++ ht_blocks i 0 ++ [Rdev i; Pd i; Mr i] ++ (if dma then [DmaPool i 0] else []) ++ [DmaPool i 1; DmaPool i 2; DmaPool i 3] ++ backend_res i.

Lemma split_abandoned l : all_resources l ≡ₚ concat (queue_resources <$> l) ++ (CtrlBlock <$> l) ++ concat (abandoned <$> l).
Proof.
  unfold all_resources. induction l as [|i l IH]; [done|]. rewrite !fmap_cons. cbn [concat]. rewrite IH.
  unfold abandoned, ctrl_resources. fold (queue_resources i). perm.
Qed.

Lemma stop_all_ok l j h rest : (forall k x, l !! k = Some x -> exists rd, x = IsReady rd /\ queues_up rd) ->
  h ≡ₚ concat (queue_resources <$> seq j (length l)) ++ rest -> exists h', stop_all_queues l j h = Ok h' /\ h' ≡ₚ rest.
Proof.
  revert j h. induction l as [|x l IH]; intros j h Hl P; cbn [stop_all_queues]; [by exists h|].
  destruct (Hl 0%nat x eq_refl) as (rd & -> & Hu). cbn [length] in P. rewrite <- cons_seq, fmap_cons in P. cbn [concat] in P.
  destruct (stop_queues_ok j rd h (concat (queue_resources <$> seq (S j) (length l)) ++ rest) Hu) as (h1 & -> & P1); [rewrite P; unfold queue_resources; perm|].
  obind. apply IH; [|done]. intros k x Hx. by apply (Hl (S k)).
Qed.

Lemma abandoned_ctrl i j : CtrlBlock j ∉ abandoned i.
Proof.
  assert (Forall (fun r => match r with CtrlBlock _ => False | _ => True end) (abandoned i)) as H.
  { unfold abandoned, backend_resources, ht_blocks, metadata_blocks, bf_blocks, ht_blocks, af_blocks, dma_mem_for_filter.
    by destruct (meta_of i) as [? f|?|?| |?|], metadata_type, af_enable; try destruct (is_ordinary_bf f); repeat constructor. }
  intros Hj. by apply (proj1 (Forall_forall _ _) H) in Hj.
Qed.

Lemma abandoned_worker i : metadata_type = COOP_BF -> WorkerThread i ∈ abandoned i.
Proof.
  intros E. unfold abandoned, backend_resources. rewrite (bool_decide_true (metadata_type = COOP_BF)) by done.
  rewrite !elem_of_app. do 6 right. left. apply list_elem_of_In. cbn. auto.
Qed.

(** The state once [dcc_rdma_init] gave up on server [i]. *)
Definition gave_up (n i : nat) (st : driver) : Prop :=
  held st ≡ₚ module_base ++ concat (abandoned <$> seq 0 i) ++ ([Queues i; RdmaMm i] ++ ht_blocks i 0 ++ [Rdev i; Pd i]) /\
  (forall j, (j <= i)%nat -> servers st !! j = Some CtrlGone) /\
  (forall j, (j < i)%nat -> backends st !! j = Some (DccBackend true (bool_decide (metadata_type = COOP_BF)))) /\
  backends st !! i = Some (DccBackend false false).

Lemma init_gives_up n i : (i < n)%nat -> (n <= MAX_NUM_SVRS)%nat -> (forall j, (j < i)%nat -> server_ok j) ->
  reaches_region i -> fails i GetDmaMr = true ->
  exists st, init_servers metadata_type af_enable fails evs alloc rkey server_info n 0 (before_servers n) = Ok (-1, st) /\ gave_up n i st.
Proof.
  intros Hi Hle Hok Hr Hf. destruct (load_prefix n i ltac:(lia) Hle Hok (n - i)) as (st & [P Hlen Hrd Hbl Hb Hlast] & E).
  replace (i + (n - i))%nat with n in E by lia. rewrite E. replace (n - i)%nat with (S (n - S i)) by lia. cbn [init_servers].
  rewrite connect_refused by done. obind. change (-1 =? -1) with true. cbv iota. rewrite split_abandoned in P.
  assert (length (take i (servers st)) = i) as Ht by (rewrite length_take, Hlen; lia).
  destruct (stop_all_ok (take i (servers st)) 0 (held st) ((CtrlBlock <$> seq 0 i) ++ [Ctrls; ReqCache; IbClient] ++ module_base ++ concat (abandoned <$> seq 0 i)))
    as (h1 & -> & P1).
  { intros k x (Hk & Hk')%lookup_take_Some. destruct (Hrd k Hk') as (rd & H1 & H2 & _). exists rd. split; [congruence|done]. }
  { rewrite P, Ht. unfold rdma_base. perm. }
  obind. destruct (release_all_ok _ _ _ P1) as (h2 & -> & P2). obind. destruct (release_all_ok _ _ _ P2) as (h3 & -> & P3). obind.
  eexists. split; [reflexivity|]. split_and!; cbn [held servers backends].
  - rewrite P3. perm.
  - intros j Hj. rewrite lookup_app_l by (rewrite length_replicate; lia). apply lookup_replicate_2. lia.
  - exact Hb.
  - apply Hlast. lia.
Qed.

Lemma exit_throws n i st : (i < n)%nat -> gave_up n i st -> exists msg, dcc_backend_exit metadata_type af_enable n st = Throw msg.
Proof.
  intros Hi (_ & Hs & Hb & Hl). unfold dcc_backend_exit. destruct (decide (metadata_type = COOP_BF)) as [Hc|Hc].
  - rewrite bool_decide_true by done. destruct (stop_workers n 0 st) as [st'|msg] eqn:E; [|by exists msg].
    destruct (stop_workers_Ok _ _ _ _ i E) as (c & Hc'); [lia|]. congruence.
  - rewrite bool_decide_false by done. obind. destruct n as [|n]; [lia|]. cbn [exit_servers]. destruct (backend_parts st 0) as [meta af]. unfold dcc_rdma_exit.
    rewrite (Hs 0%nat) by lia. destruct i as [|i].
    + rewrite Hl. by eexists.
    + rewrite (Hb 0%nat) by lia. by eexists.
Qed.

(** C32: When the region of a server cannot be registered, loading still reports success: the servers before
    it keep backends whose control blocks were freed, and workers that run on them; unloading the driver
    then follows a null or freed pointer. *)
Theorem refused_region_dangles svr_ips n i (Hn : dcc_set_default_config svr_ips = n) (Hi : (i < n)%nat)
    (Hok : forall j, (j < i)%nat -> server_ok j) (Hr : reaches_region i) (Hf : fails i GetDmaMr = true) :
  exists st msg, init_module svr_ips = Ok (0, st) /\
    (forall j, (j < i)%nat -> servers st !! j = Some CtrlGone /\ (CtrlBlock j ∉ held st) /\
       backends st !! j = Some (DccBackend true (bool_decide (metadata_type = COOP_BF))) /\
       (metadata_type = COOP_BF -> WorkerThread j ∈ held st)) /\
    dcc_backend_exit metadata_type af_enable n st = Throw msg.
Proof.
  assert (n <= MAX_NUM_SVRS)%nat as Hle by (rewrite <- Hn; apply count_svrs_le).
  destruct (init_gives_up n i Hi Hle Hok Hr Hf) as (st & E & Hst). destruct (exit_throws n i st Hi Hst) as (msg & Ex).
  exists st, msg. rewrite init_module_eq, Hn, E. split; [done|]. split; [|done]. destruct Hst as (P & Hs & Hb & _).
  intros j Hj. split_and!; [apply Hs; lia| |by apply Hb|].
  - rewrite P, !elem_of_app. intros [Hm|[(k & _ & Hj')%elem_of_concat_fmap|Hq]].
    + revert Hm. apply (bool_decide_unpack _). by vm_compute.
    + by apply (abandoned_ctrl k j).
    + rewrite !list_elem_of_In in Hq. cbn in Hq. intuition discriminate.
  - intros Hc. rewrite P, !elem_of_app. right. left. apply elem_of_concat_fmap. exists j. split; [apply elem_of_seq; lia|by apply abandoned_worker].
Qed.
End spec.

(** ** Witnesses *)

(** Two servers; the region of the second is refused in [u_fail]. *)
Definition u_ips : list (option string) := [Some "10.0.0.1"; Some "10.0.0.2"; None].
Definition u_ok (_ : nat) (_ : kcall) : bool := false.
Definition u_fail (i : nat) (k : kcall) : bool := match i, k with 1%nat, GetDmaMr => true | _, _ => false end.
Definition u_evs (_ _ : nat) : list client_event := [AddrResolved; RouteResolved; CmEstablished].
Definition u_alloc (_ _ : nat) (_ : Z) : Z := 4096.
Definition u_info (_ : nat) : mm_info := MmInfo 0 0 0 0 4 97 16.

Lemma u_comes_up (fails : kcall -> bool) i : (forall k, k <> GetDmaMr -> fails k = false) -> comes_up fails (u_evs i).
Proof. intros H q. split; [by exists []|]. by rewrite !H. Qed.

Lemma load_then_unload_witness :
  exists st st', dcc_backend_init_module ORDINARY_BF true u_ok u_evs u_alloc (fun _ => 7) u_info (fun _ => false) false false u_ips = Ok (0, st) /\
    dcc_backend_exit ORDINARY_BF true 2 st = Ok st' /\
    held st' ≡ₚ concat ((fun i => (if bool_decide (ORDINARY_BF = ORDINARY_BF) then [BfTmp i] else []) ++
                                 (if bool_decide (ORDINARY_BF = COOP_BF) then [WorkerBlock i] else [])) <$> seq 0 2) ++
                (if decide (2 = 0)%nat then [IbClient; ReqCache; Ctrls] else []).
Proof.
  apply (load_then_unload ORDINARY_BF true u_ok u_evs u_alloc (fun _ => 7) u_info u_ips 2); [reflexivity|..].
  - intros i _. split; [done|]. split; [by apply u_comes_up|done].
  - intros i _. done.
Defined.

(** The hash table and a daemon of one page: no bucket. *)
Lemma unsized_metadata_crashes_witness :
  exists st msg, dcc_backend_init_module HASH_TABLE true u_ok u_evs u_alloc (fun _ => 7) (fun _ => MmInfo 0 0 0 0 4 97 1) (fun _ => false) false false u_ips = Ok (0, st) /\
    dcc_backend_exit HASH_TABLE true 2 st = Throw msg.
Proof.
  apply (unsized_metadata_crashes HASH_TABLE true u_ok u_evs u_alloc (fun _ => 7) (fun _ => MmInfo 0 0 0 0 4 97 1) u_ips 2); [reflexivity|lia| |done|done|done|].
  - intros i _. split; [done|]. split; [by apply u_comes_up|done].
  - vm_compute. intros H. by apply H.
Defined.

Lemma refused_region_dangles_witness :
  exists st msg, dcc_backend_init_module COOP_BF false u_fail u_evs u_alloc (fun _ => 7) u_info (fun _ => false) false false u_ips = Ok (0, st) /\
    (forall j, (j < 1)%nat -> servers st !! j = Some CtrlGone /\ (CtrlBlock j ∉ held st) /\
       backends st !! j = Some (DccBackend true (bool_decide (COOP_BF = COOP_BF))) /\
       (COOP_BF = COOP_BF -> WorkerThread j ∈ held st)) /\
    dcc_backend_exit COOP_BF false 2 st = Throw msg.
Proof.
  apply (refused_region_dangles COOP_BF false u_fail u_evs u_alloc (fun _ => 7) u_info u_ips 2 1); [reflexivity|lia|..].
  - intros j Hj. assert (j = 0%nat) as -> by lia. split; [done|]. split; [by apply u_comes_up|done].
  - split; [by intros [] ?|]. apply u_comes_up. by intros [] ?.
  - reflexivity.
Defined.
