(* ===== verification/Pollers.v ===== *)
(** * Pollers: two small components beside the data path

    The adaptive polling interval of [hybrid_data_cq_poller] in
    [daemon/rdma.cpp], and the bounded stack of [driver/util/fixed_stack.h]
    (which no file of the driver includes). *)
From S2P Require Import Prelude Config.

(** ** The adaptive interval, in milliseconds *)

Definition min_duration : Z := Z.shiftl 1 0.
Definition max_duration : Z := Z.shiftl 1 10.
Definition first_duration (mode : wc_mode_t) : Z :=
  if decide (mode = WC_ADAPTIVE_BO) then Z.shiftl 1 5 else min_duration.

(** What the poller does after a polling period: wait for an event, poll for
    another period, or (after a period that never polled) poll once more. *)
Inductive next_mode := EventMode | PollMode | Retry.

(** [succ_rate] is an [int]; the counters are [uint64_t]. *)
Definition succ_rate (succ_cnt failed_cnt : Z) : Z := to_int ((100 *₆₄ succ_cnt) / (succ_cnt +₆₄ failed_cnt)).
Definition adapt (mode : wc_mode_t) (succ_cnt failed_cnt duration : Z) : next_mode * Z :=
  let bo := bool_decide (mode = WC_ADAPTIVE_BO) in
  if succ_cnt +₆₄ failed_cnt =? 0 then (Retry, duration)
  else if succ_rate succ_cnt failed_cnt =? 0 then
    (EventMode, if bo && (min_duration <? duration) then duration / 2 else duration)
  else
    (PollMode, if bo && (80 <? succ_rate succ_cnt failed_cnt) && (duration <? max_duration) then duration * 2 else duration).

(** Whatever the polls find, the interval stays a power of two between 1 ms and 1024 ms, and 1 ms without backoff. *)
Theorem poll_duration_bounds mode (periods : list (Z * Z)) :
  let d := foldl (fun d '(s, f) => (adapt mode s f d).2) (first_duration mode) periods in
  (exists k, 0 <= k <= 10 /\ d = 2 ^ k) /\ (mode <> WC_ADAPTIVE_BO -> d = 1).
Proof.
  cbn zeta. split.
  - assert (forall d, (exists k, 0 <= k <= 10 /\ d = 2 ^ k) ->
      exists k, 0 <= k <= 10 /\ foldl (fun d '(s, f) => (adapt mode s f d).2) d periods = 2 ^ k) as H.
    { induction periods as [|[s f] periods IH]; intros d Hd; [done|]. cbn [foldl]. apply IH. destruct Hd as (k & Hk & ->).
      unfold adapt. destruct (_ =? 0); [by exists k|]. destruct (_ =? 0); cbn [snd].
      - destruct (bool_decide _); cbn [andb]; [|by exists k]. destruct (Z.ltb_spec min_duration (2 ^ k)) as [Hm|Hm]; [|by exists k].
        assert (k <> 0) by (intros ->; by vm_compute in Hm). exists (k - 1). split; [lia|].
        by rewrite (Z.pow_sub_r 2 k 1) by lia.
      - destruct (bool_decide _ && (80 <? _)); cbn [andb]; [|by exists k]. destruct (Z.ltb_spec (2 ^ k) max_duration) as [Hm|Hm]; [|by exists k].
        assert (k < 10) by (apply (Z.pow_lt_mono_r_iff 2); [lia|lia|exact Hm]). exists (k + 1). split; [lia|].
        rewrite Z.pow_add_r by lia. lia. }
    apply H. unfold first_duration. case_decide; [by exists 5|by exists 0].
  - intros Hm. assert (first_duration mode = 1) as -> by (unfold first_duration; by rewrite decide_False).
    induction periods as [|[s f] periods IH]; [done|]. cbn [foldl].
    assert ((adapt mode s f 1).2 = 1) as ->; [|done]. unfold adapt. rewrite bool_decide_false by done. by repeat case_match.
Qed.

(** ** fixed_stack.h *)

(** [nodes] has [num_elems] elements; [top] is an [int64_t], -1 when empty. *)
Record fstack := Fstack { fs_nodes : list Z; fs_top : Z }.
Definition fs_num_elems (f : fstack) : Z := Z.of_nat (length (fs_nodes f)).

Definition is_full (f : fstack) : bool := fs_num_elems f <=? fs_top f.
Definition is_empty (f : fstack) : bool := fs_top f =? -1.

Definition stack_push (f : fstack) (item : Z) : outcome (Z * fstack) :=
  if is_full f then Ok (-1, f)
  else if fs_top f + 1 <? fs_num_elems f
       then Ok (0, Fstack (<[Z.to_nat (fs_top f + 1) := item]> (fs_nodes f)) (fs_top f + 1))
       else Throw "nodes[]: out of bounds".
Definition stack_pop (f : fstack) : Z * fstack :=
  if is_empty f then (wrap 64 (-1), f)
  else (default 0 (fs_nodes f !! Z.to_nat (fs_top f)), Fstack (fs_nodes f) (fs_top f - 1)).
Definition stack_init (num_elems : nat) : fstack := Fstack (replicate num_elems 0) (-1).

(** The contents, the top first. *)
Definition contents (f : fstack) : list Z := rev (take (Z.to_nat (fs_top f + 1)) (fs_nodes f)).
Definition fs_wf (f : fstack) : Prop := -1 <= fs_top f < fs_num_elems f.

(** A stack with room pushes and pops as a list; a stack of [num_elems] elements is not yet full for [is_full], and its
    next push writes behind the array. *)
Theorem fixed_stack_spec f x : fs_wf f ->
  (fs_top f + 1 < fs_num_elems f ->
     exists f', stack_push f x = Ok (0, f') /\ fs_wf f' /\ contents f' = x :: contents f) /\
  (fs_top f + 1 = fs_num_elems f -> stack_push f x = Throw "nodes[]: out of bounds") /\
  match contents f with
  | [] => stack_pop f = (2 ^ 64 - 1, f)
  | y :: l => exists f', stack_pop f = (y, f') /\ fs_wf f' /\ contents f' = l
  end.
Proof.
  intros Hw. unfold fs_wf, fs_num_elems in *. destruct f as [nodes top]. cbn [fs_nodes fs_top] in *. split; [|split].
  - intros Hr. unfold stack_push, is_full, fs_num_elems. cbn [fs_nodes fs_top]. rewrite (proj2 (Z.leb_gt _ _)) by lia.
    rewrite (proj2 (Z.ltb_lt _ _)) by lia. eexists. split; [done|]. cbn [fs_nodes fs_top]. rewrite length_insert. split; [lia|].
    unfold contents. cbn [fs_nodes fs_top]. replace (Z.to_nat (top + 1 + 1)) with (S (Z.to_nat (top + 1))) by lia.
    rewrite (take_S_r _ _ x) by (apply list_lookup_insert_eq; lia). rewrite take_insert_ge by lia. by rewrite rev_unit.
  - intros Hr. unfold stack_push, is_full, fs_num_elems. cbn [fs_nodes fs_top]. rewrite (proj2 (Z.leb_gt _ _)) by lia.
    by rewrite (proj2 (Z.ltb_ge _ _)) by lia.
  - unfold contents, stack_pop, is_empty. cbn [fs_nodes fs_top]. destruct (Z.eqb_spec top (-1)) as [->|Hne].
    + cbn. done.
    + replace (Z.to_nat (top + 1)) with (S (Z.to_nat top)) by lia. destruct (lookup_lt_is_Some_2 nodes (Z.to_nat top)) as [y Hy]; [lia|].
      rewrite (take_S_r _ _ y Hy), rev_unit, Hy. eexists. split; [done|]. cbn [fs_nodes fs_top]. split; [lia|].
      by replace (Z.to_nat (top - 1 + 1)) with (Z.to_nat top) by lia.
Qed.
