(* ===== verification/CqPollers.v ===== *)
(** * CqPollers: the loops that take completions off a queue

    [data_cq_poller], [hybrid_data_cq_poller] and [event_filter_cq_handler] of
    [daemon/rdma.cpp] and [filter_event_handler] of [driver/rdma.c], against an interface
    of completion queues: which completions reach which handler (of Server and FilterWorker),
    in which order, and whether a loop goes to sleep over one. *)
From S2P Require Import Prelude Config Pollers.

(** ** Completion queues *)

Inductive wc_opcode := IBV_WC_SEND | IBV_WC_RDMA_WRITE | IBV_WC_RDMA_READ | IBV_WC_RECV | IBV_WC_RECV_RDMA_WITH_IMM | IBV_WC_OTHER.
(** [wc_ok]: the status is IBV_WC_SUCCESS. *)
Record wc := Wc { opcode : wc_opcode; wc_ok : bool; wr_id : Z; imm_data : Z }.

(** What the verbs document of a queue: completions not yet polled, whether the next one raises
    an event, and events not yet fetched. A call for notification tells whether completions may have come before
    it (IB_CQ_REPORT_MISSED_EVENTS). *)
Class CompletionQueue (Q : Type) := {
  cq_arrive : Q -> wc -> Q;
  poll_cq : Q -> option wc * Q;
  req_notify_cq : Q -> bool * Q;
  get_cq_event : Q -> option Q;
  ack_cq_events : Q -> Q;

  cq_pending : Q -> list wc;
  cq_armed : Q -> bool;
  cq_events : Q -> nat;

  cq_arrive_ok q w :
    cq_pending (cq_arrive q w) = cq_pending q ++ [w] /\ cq_armed (cq_arrive q w) = false /\
    cq_events (cq_arrive q w) = (cq_events q + if cq_armed q then 1 else 0)%nat;
  poll_cq_ok q :
    match cq_pending q with
    | [] => poll_cq q = (None, q)
    | w :: l => exists q', poll_cq q = (Some w, q') /\ cq_pending q' = l /\ cq_armed q' = cq_armed q /\ cq_events q' = cq_events q
    end;
  req_notify_cq_ok q :
    cq_pending (req_notify_cq q).2 = cq_pending q /\ cq_armed (req_notify_cq q).2 = true /\
    cq_events (req_notify_cq q).2 = cq_events q /\ ((req_notify_cq q).1 = false -> cq_pending q = []);
  get_cq_event_ok q :
    match cq_events q with
    | O => get_cq_event q = None
    | S n => exists q', get_cq_event q = Some q' /\ cq_pending q' = cq_pending q /\ cq_armed q' = cq_armed q /\ cq_events q' = n
    end;
  ack_cq_events_ok q :
    cq_pending (ack_cq_events q) = cq_pending q /\ cq_armed (ack_cq_events q) = cq_armed q /\
    cq_events (ack_cq_events q) = cq_events q;
}.

(** A queue that behaves so. *)
Record simple_cq := SimpleCq { scq_pending : list wc; scq_armed : bool; scq_events : nat }.
#[export, refine] Instance simple_queue : CompletionQueue simple_cq := {
  cq_arrive q w := SimpleCq (scq_pending q ++ [w]) false (scq_events q + if scq_armed q then 1 else 0);
  poll_cq q := match scq_pending q with [] => (None, q) | w :: l => (Some w, SimpleCq l (scq_armed q) (scq_events q)) end;
  req_notify_cq q := (match scq_pending q with [] => false | _ => true end, SimpleCq (scq_pending q) true (scq_events q));
  get_cq_event q := match scq_events q with O => None | S n => Some (SimpleCq (scq_pending q) (scq_armed q) n) end;
  ack_cq_events q := q;
  cq_pending := scq_pending;
  cq_armed := scq_armed;
  cq_events := scq_events;
}.
Proof.
  - done.
  - intros [[|w l] a e]; [done|]. by eexists.
  - by intros [[|w l] a e].
  - intros [l a [|e]]; [done|]. by eexists.
  - done.
Defined.

(** ** Loops *)

(** The handlers a loop calls: [process_send], [process_imm], [process_recv], nothing, a message for a strange opcode; in
    the driver [process_imm] followed by [post_recv], and the return that leaves the queue unarmed. *)
Inductive handler := CallSend | CallImm | CallRecv | CallNone | CallWeird | CallImmRepost | CallShutdown.

Section pollers.
Context {Q : Type} `{CQ : CompletionQueue Q}.

(** Where the loop is, its queue, and the calls made so far. *)
Record poller (PC : Type) := Poller { pc : PC; cq : Q; calls : list (handler * wc) }.
Arguments Poller {PC}.
Arguments pc {PC}.
Arguments cq {PC}.
Arguments calls {PC}.

(** *** data_cq_poller *)

(** Before the first client; polling; a completion of a client in hand; the failed assertion. *)
Inductive data_pc := DWaitClient | DPoll | DProcess (c : nat) (w : wc) | DDied (c : nat) (w : wc).

(** The poller of one queue index: where it is, [idx], the receive queues with that index of all clients, and the
    calls made so far, each with its client. *)
Record data_poller := DataPoller { d_pc : data_pc; d_idx : nat; d_cqs : list Q; d_calls : list (handler * nat * wc) }.

Definition data_dispatch (op : wc_opcode) : handler :=
  match op with
  | IBV_WC_RECV_RDMA_WITH_IMM => CallImm
  | IBV_WC_RECV => CallRecv
  | IBV_WC_RDMA_WRITE | IBV_WC_RDMA_READ => CallNone
  | _ => CallWeird
  end.

(** [queue] is the client of the queue given to the thread, used with [PER_QP_POLLER] only. With [PER_QP_POLLER] [__poll_cq]
    polls its queue until there is a completion; with [GLOBAL_QP_POLLER] it polls the queue of client [idx] once, and the next
    client is the next one's turn. It asserts that the status is a success. *)
Definition data_cq_poller (type : poller_t) (queue client_ctr : nat) (p : data_poller) : option data_poller :=
  match d_pc p with
  | DWaitClient => if (client_ctr =? 0)%nat then None else Some (DataPoller DPoll (d_idx p) (d_cqs p) (d_calls p))
  | DPoll =>
      let c := match type with PER_QP_POLLER => queue | GLOBAL_QP_POLLER => d_idx p end in
      let idx := match type with PER_QP_POLLER => d_idx p | GLOBAL_QP_POLLER => (S (d_idx p) mod client_ctr)%nat end in
      q ← d_cqs p !! c;
      match poll_cq q with
      | (None, q) => Some (DataPoller DPoll idx (<[c := q]> (d_cqs p)) (d_calls p))
      | (Some w, q) => Some (DataPoller (if wc_ok w then DProcess c w else DDied c w) idx (<[c := q]> (d_cqs p)) (d_calls p))
      end
  | DProcess c w => Some (DataPoller DPoll (d_idx p) (d_cqs p) (d_calls p ++ [(data_dispatch (opcode w), c, w)]))
  | DDied _ _ => None
  end.

(** *** event_filter_cq_handler *)

Inductive event_pc := EStart | EWait | EAck | EArm | EPoll | EProcess (w : wc) | EDied (w : wc).

Definition event_dispatch (op : wc_opcode) : handler :=
  match op with
  | IBV_WC_SEND => CallSend
  | IBV_WC_RECV_RDMA_WITH_IMM => CallImm
  | IBV_WC_RECV => CallRecv
  | IBV_WC_RDMA_WRITE | IBV_WC_RDMA_READ => CallNone
  | IBV_WC_OTHER => CallWeird
  end.

(** One completion is polled per event; [None] while the thread is blocked. *)
Definition event_filter_cq_handler (_ : bool) (p : poller event_pc) : option (poller event_pc) :=
  match pc p with
  | EStart => Some (Poller EWait (req_notify_cq (cq p)).2 (calls p))
  | EWait => q ← get_cq_event (cq p); Some (Poller EAck q (calls p))
  | EAck => Some (Poller EArm (ack_cq_events (cq p)) (calls p))
  | EArm => Some (Poller EPoll (req_notify_cq (cq p)).2 (calls p))
  | EPoll =>
      match poll_cq (cq p) with
      | (None, q) => Some (Poller EPoll q (calls p))
      | (Some w, q) => Some (Poller (if wc_ok w then EProcess w else EDied w) q (calls p))
      end
  | EProcess w => Some (Poller EWait (cq p) (calls p ++ [(event_dispatch (opcode w), w)]))
  | EDied _ => None
  end.

(** *** hybrid_data_cq_poller *)

(** [HFresh]: the label [poll_mode]; [HPoll batch]: the label [retry], [batch] in [wc_arr] so far. *)
Inductive hybrid_at := HStart | HWait | HFresh | HCheck | HPoll (batch : list wc) | HProcess (batch : list wc) | HRate | HArm | HAck.
Record hybrid_pc := Hybrid { h_at : hybrid_at; duration : Z; succ_cnt : Z; failed_cnt : Z }.

Definition MAX_POLL_WC : Z := 4096 / 2.
Definition goto (pc : hybrid_pc) (x : hybrid_at) : hybrid_pc := Hybrid x (duration pc) (succ_cnt pc) (failed_cnt pc).
(** The end of a batch: the counters. *)
Definition count (pc : hybrid_pc) (batch : list wc) : hybrid_pc :=
  match batch with
  | [] => Hybrid (HProcess []) (duration pc) (succ_cnt pc) (failed_cnt pc +₆₄ 1)
  | _ => Hybrid (HProcess batch) (duration pc) (succ_cnt pc +₆₄ 1) (failed_cnt pc)
  end.

(** [within]: whether the polling period is not over. The status of a completion is not read. *)
Definition hybrid_data_cq_poller (mode : wc_mode_t) (within : bool) (p : poller hybrid_pc) : option (poller hybrid_pc) :=
  let at_ x := Poller (goto (pc p) x) in
  match h_at (pc p) with
  | HStart => Some (at_ HWait (req_notify_cq (cq p)).2 (calls p))
  | HWait => q ← get_cq_event (cq p); Some (at_ HFresh q (calls p))
  | HFresh => Some (Poller (Hybrid HCheck (duration (pc p)) 0 0) (cq p) (calls p))
  | HCheck => Some (at_ (if within then HPoll [] else HRate) (cq p) (calls p))
  | HPoll batch =>
      if Z.of_nat (length batch) <? MAX_POLL_WC then
        match poll_cq (cq p) with
        | (Some w, q) => Some (at_ (HPoll (batch ++ [w])) q (calls p))
        | (None, q) => Some (Poller (count (pc p) batch) q (calls p))
        end
      else Some (Poller (count (pc p) batch) (cq p) (calls p))
  | HProcess [] => Some (at_ HCheck (cq p) (calls p))
  | HProcess (w :: l) => Some (at_ (HProcess l) (cq p) (calls p ++ [(event_dispatch (opcode w), w)]))
  | HRate =>
      let '(next, d) := adapt mode (succ_cnt (pc p)) (failed_cnt (pc p)) (duration (pc p)) in
      let x := match next with Retry => HPoll [] | EventMode => HArm | PollMode => HFresh end in
      Some (Poller (Hybrid x d (succ_cnt (pc p)) (failed_cnt (pc p))) (cq p) (calls p))
  | HArm => Some (at_ HAck (req_notify_cq (cq p)).2 (calls p))
  | HAck => Some (at_ HWait (ack_cq_events (cq p)) (calls p))
  end.

(** *** filter_event_handler, in the driver *)

(** [FIdle]: between upcalls; an event of the queue starts the handler. *)
Inductive filter_pc := FIdle | FPoll | FProcess (w : wc) | FNotify.

Definition filter_dispatch (w : wc) : handler :=
  if wc_ok w then
    match opcode w with
    | IBV_WC_RDMA_WRITE | IBV_WC_SEND => CallSend
    | IBV_WC_RECV | IBV_WC_RECV_RDMA_WITH_IMM => CallImmRepost
    | _ => CallShutdown
    end
  else CallShutdown.

Definition filter_event_handler (_ : bool) (p : poller filter_pc) : option (poller filter_pc) :=
  match pc p with
  | FIdle => q ← get_cq_event (cq p); Some (Poller FPoll q (calls p))
  | FPoll =>
      match poll_cq (cq p) with
      | (Some w, q) => Some (Poller (FProcess w) q (calls p))
      | (None, q) => Some (Poller FNotify q (calls p))
      end
  | FProcess w =>
      let h := filter_dispatch w in
      Some (Poller (match h with CallShutdown => FIdle | _ => FPoll end) (cq p) (calls p ++ [(h, w)]))
  | FNotify => let '(missed, q) := req_notify_cq (cq p) in Some (Poller (if missed then FPoll else FIdle) q (calls p))
  end.

(** ** Runs *)

(** A loop and the completions that arrived: a step of the loop, or another arrival. *)
Inductive poll_step {PC} (step : bool -> poller PC -> option (poller PC)) : relation (poller PC * list wc) :=
| own_step b p p' arrived : step b p = Some p' -> poll_step step (p, arrived) (p', arrived)
| arrive_step w p arrived : poll_step step (p, arrived) (Poller (pc p) (cq_arrive (cq p) w) (calls p), arrived ++ [w]).

(** Started on an empty queue. *)
Definition starts {PC} (x : PC) (p : poller PC) : Prop := pc p = x /\ cq_pending (cq p) = [] /\ calls p = [].
Definition reaches {PC} step (x : PC) (p : poller PC) (arrived : list wc) : Prop :=
  exists p0, starts x p0 /\ rtc (poll_step step) (p0, []) (p, arrived).

(** The data poller, the clients connected so far and the completions that arrived: it steps, a client connects, a
    completion arrives in the queue of a client. *)
Inductive data_step (type : poller_t) (queue : nat) : relation (data_poller * nat * list (nat * wc)) :=
| data_own p p' n arrived : data_cq_poller type queue n p = Some p' -> data_step type queue (p, n, arrived) (p', n, arrived)
| data_connect p n arrived : (n < length (d_cqs p))%nat -> data_step type queue (p, n, arrived) (p, S n, arrived)
| data_arrive p n arrived c q w : d_cqs p !! c = Some q ->
    data_step type queue (p, n, arrived) (DataPoller (d_pc p) (d_idx p) (<[c := cq_arrive q w]> (d_cqs p)) (d_calls p), n, arrived ++ [(c, w)]).
Definition data_start (k : nat) (p : data_poller) : Prop :=
  d_pc p = DWaitClient /\ d_idx p = 0%nat /\ length (d_cqs p) = k /\ Forall (fun q => cq_pending q = []) (d_cqs p) /\ d_calls p = [].
(** With room for [k] clients. *)
Definition data_reaches type queue k p (n : nat) arrived : Prop :=
  exists p0, data_start k p0 /\ rtc (data_step type queue) (p0, 0%nat, []) (p, n, arrived).
End pollers.
Arguments data_poller Q : clear implicits.
Arguments DataPoller {Q}.
Arguments d_pc {Q}.
Arguments d_idx {Q}.
Arguments d_cqs {Q}.
Arguments d_calls {Q}.
Arguments poller Q PC : clear implicits.
Arguments Poller {Q PC}.
Arguments pc {Q PC}.
Arguments cq {Q PC}.
Arguments calls {Q PC}.

(** ** Lemmas: queues *)

Section spec.
Context {Q : Type} `{CQ : CompletionQueue Q}.
Implicit Types (q : Q).

Lemma poll_cq_cons q w q' : poll_cq q = (Some w, q') ->
  cq_pending q = w :: cq_pending q' /\ cq_armed q' = cq_armed q /\ cq_events q' = cq_events q.
Proof.
  intros E. pose proof (poll_cq_ok q) as H. destruct (cq_pending q) as [|w0 l]; [congruence|].
  destruct H as (q1 & E1 & <- & H). rewrite E in E1. injection E1 as <- <-. done.
Qed.

Lemma poll_cq_nil q q' : poll_cq q = (None, q') -> q' = q /\ cq_pending q = [].
Proof.
  intros E. pose proof (poll_cq_ok q) as H. destruct (cq_pending q) as [|w0 l]; [split; congruence|].
  destruct H as (q1 & E1 & _). congruence.
Qed.

Lemma get_cq_event_Some q q' : get_cq_event q = Some q' ->
  cq_pending q' = cq_pending q /\ cq_armed q' = cq_armed q /\ cq_events q = S (cq_events q').
Proof.
  intros E. pose proof (get_cq_event_ok q) as H. destruct (cq_events q); [congruence|].
  destruct H as (q1 & E1 & H1 & H2 & <-). rewrite E in E1. injection E1 as <-. done.
Qed.

Lemma notify_pending q : cq_pending (req_notify_cq q).2 = cq_pending q.
Proof. by destruct (req_notify_cq_ok q). Qed.
Lemma arrive_pending q w : cq_pending (cq_arrive q w) = cq_pending q ++ [w].
Proof. by destruct (cq_arrive_ok q w). Qed.
Lemma ack_pending q : cq_pending (ack_cq_events q) = cq_pending q.
Proof. by destruct (ack_cq_events_ok q). Qed.

(** ** Lemmas: runs *)

(** Every arrival was handled by the handler of its kind, is in the loop's hands or is in the queue, in order. *)
Definition in_order {PC} (dispatch : wc -> handler) (in_hand : PC -> list wc) (s : poller Q PC * list wc) : Prop :=
  exists handled, calls s.1 = (fun w => (dispatch w, w)) <$> handled /\ s.2 = handled ++ in_hand (pc s.1) ++ cq_pending (cq s.1).

Lemma in_order_start {PC} dispatch (in_hand : PC -> list wc) x p : in_hand x = [] -> starts x p -> in_order dispatch in_hand (p, []).
Proof. intros E (E1 & E2 & E3). exists []. cbn [fst snd]. by rewrite E1, E2, E3, E. Qed.

(** An arrival keeps the order; so the steps of the loop remain. *)
Lemma in_order_step {PC} step dispatch (in_hand : PC -> list wc) :
  (forall b p p' arrived, step b p = Some p' -> in_order dispatch in_hand (p, arrived) -> in_order dispatch in_hand (p', arrived)) ->
  forall s s', in_order dispatch in_hand s -> poll_step step s s' -> in_order dispatch in_hand s'.
Proof.
  intros Hs s s' Hi Hp. destruct Hp as [b p p' arr E|w p arr]; [by eapply Hs|]. destruct Hi as (handled & H1 & H2).
  exists handled. cbn [fst snd pc cq calls] in *. split; [done|]. rewrite arrive_pending, H2. by rewrite <- !app_assoc.
Qed.

Lemma in_order_reaches {PC} step dispatch (in_hand : PC -> list wc) x p arrived : in_hand x = [] ->
  (forall b p p' arrived, step b p = Some p' -> in_order dispatch in_hand (p, arrived) -> in_order dispatch in_hand (p', arrived)) ->
  reaches step x p arrived -> in_order dispatch in_hand (p, arrived).
Proof.
  intros E Hs (p0 & H0 & Hr). revert Hr. apply rtc_invariant.
  - by apply in_order_step.
  - by eapply in_order_start.
Qed.

(** A step that moves a completion from the queue to the loop, from the loop to its handler, or nothing. *)
Lemma in_order_move {PC} dispatch (in_hand : PC -> list wc) p p' arrived :
  (exists more, calls p' = calls p ++ ((fun w => (dispatch w, w)) <$> more) /\
     in_hand (pc p) ++ cq_pending (cq p) = more ++ in_hand (pc p') ++ cq_pending (cq p')) ->
  in_order dispatch in_hand (p, arrived) -> in_order dispatch in_hand (p', arrived).
Proof.
  intros (more & E1 & E2) (handled & H1 & H2). exists (handled ++ more). cbn [fst snd] in *. split.
  - by rewrite E1, H1, fmap_app.
  - by rewrite H2, E2, <- app_assoc.
Qed.

Ltac handover more := apply in_order_move; exists more; cbn [pc cq calls fmap list_fmap app]; rewrite ?app_nil_r; split; [done|].

(** The same for the queue of each client of a data poller. *)
Definition of_client {A} (c : nat) (l : list (nat * A)) : list A := (filter (fun x : nat * A => x.1 = c) l).*2.
Definition calls_of c (l : list (handler * nat * wc)) : list (handler * wc) :=
  of_client c ((fun x : handler * nat * wc => (x.1.2, (x.1.1, x.2))) <$> l).
Definition data_hand (c : nat) (x : data_pc) : list wc :=
  match x with DProcess c' w | DDied c' w => if decide (c' = c) then [w] else [] | _ => [] end.

Lemma of_client_app {A} c (l k : list (nat * A)) : of_client c (l ++ k) = of_client c l ++ of_client c k.
Proof. unfold of_client. by rewrite filter_app, fmap_app. Qed.
Lemma of_client_one {A} c c' (x : A) : of_client c [(c', x)] = if decide (c' = c) then [x] else [].
Proof. unfold of_client. rewrite filter_cons. cbn [fst]. by case_decide. Qed.

Record data_inv (type : poller_t) (queue k : nat) (s : data_poller Q * nat * list (nat * wc)) : Prop := {
  di_order c (q : Q) : d_cqs s.1.1 !! c = Some q -> exists handled,
    calls_of c (d_calls s.1.1) = (fun w => (data_dispatch (opcode w), w)) <$> handled /\
    of_client c s.2 = handled ++ data_hand c (d_pc s.1.1) ++ cq_pending q;
  di_len : length (d_cqs s.1.1) = k /\ (s.1.2 <= k)%nat;
  di_idx : d_pc s.1.1 = DWaitClient \/ (d_idx s.1.1 < s.1.2)%nat;
  di_start : d_idx s.1.1 = 0%nat \/ (d_idx s.1.1 < s.1.2)%nat;
  di_died c w : d_pc s.1.1 = DDied c w -> wc_ok w = false;
  di_hand c w : d_pc s.1.1 = DProcess c w \/ d_pc s.1.1 = DDied c w -> (c < k)%nat;
}.

(** The queue that was polled is consumed at its front. *)
Lemma polled_order (cqs : list Q) cs arrived c q o q' (x : data_pc) :
  (forall c q, cqs !! c = Some q -> exists handled,
     calls_of c cs = (fun w => (data_dispatch (opcode w), w)) <$> handled /\ of_client c arrived = handled ++ cq_pending q) ->
  cqs !! c = Some q -> poll_cq q = (o, q') -> (forall c', data_hand c' x = match o with Some w => if decide (c = c') then [w] else [] | None => [] end) ->
  forall c' r, <[c := q']> cqs !! c' = Some r -> exists handled,
     calls_of c' cs = (fun w => (data_dispatch (opcode w), w)) <$> handled /\ of_client c' arrived = handled ++ data_hand c' x ++ cq_pending r.
Proof.
  intros Ho Hc Hp Hx c' r Hr. rewrite Hx. apply list_lookup_insert_Some in Hr as [(<- & <- & _)|[Hne Hr]].
  - destruct (Ho c q Hc) as (handled & H1 & H2). exists handled. split; [done|]. rewrite H2. f_equal. destruct o as [w|].
    + rewrite decide_True by done. by apply poll_cq_cons in Hp as (-> & _).
    + by apply poll_cq_nil in Hp as (-> & _).
  - destruct (Ho c' r Hr) as (handled & H1 & H2). exists handled. split; [done|]. rewrite H2. destruct o; [by rewrite decide_False|done].
Qed.

Lemma data_own_inv type queue k p p' n arrived : data_cq_poller type queue n p = Some p' ->
  data_inv type queue k (p, n, arrived) -> data_inv type queue k (p', n, arrived).
Proof.
  intros E [Ho [Hl Hn] Hi Hs Hd Hh]. destruct p as [x i cqs cs]. unfold data_cq_poller in E. cbn [fst snd d_pc d_idx d_cqs d_calls] in *.
  destruct x as [| |c w|c w].
  - destruct (Nat.eqb_spec n 0); [done|]. injection E as <-.
    split; cbn [fst snd d_pc d_idx d_cqs d_calls]; try done; [right; lia|by intros c w [?|?]].
  - destruct Hi as [?|Hi]; [done|]. set (c := match type with PER_QP_POLLER => queue | _ => i end) in E.
    destruct (cqs !! c) as [q|] eqn:Eq; [|done]. pose proof (lookup_lt_Some _ _ _ Eq) as Hlt. cbn [mbind option_bind] in E.
    assert ((match type with PER_QP_POLLER => i | GLOBAL_QP_POLLER => (S i mod n)%nat end) < n)%nat as Hni.
    { destruct type; [done|]. apply Nat.mod_upper_bound. lia. }
    destruct (poll_cq q) as [[w|] q'] eqn:Ep; injection E as <-; split; cbn [fst snd d_pc d_idx d_cqs d_calls];
      try (by right); try (split; [by rewrite length_insert|done]).
    + apply (polled_order cqs cs arrived c q (Some w)); [done..|]. intros c'. by destruct (wc_ok w).
    + intros c0 w0. destruct (wc_ok w) eqn:Ew; [done|]. by intros [= <- <-].
    + intros c0 w0. destruct (wc_ok w); intros [H|H]; try done; injection H as <- _; lia.
    + by apply (polled_order cqs cs arrived c q None).
    + done.
    + by intros c0 w0 [?|?].
  - injection E as <-. split; cbn [fst snd d_pc d_idx d_cqs d_calls]; try done; [|by destruct Hi as [|Hi]; [done|right]|by intros c0 w0 [?|?]].
    intros c0 q Hq. destruct (Ho c0 q Hq) as (handled & H1 & H2). cbn [data_hand] in H2. unfold calls_of in *.
    exists (handled ++ if decide (c = c0) then [w] else []).
    rewrite !fmap_app, of_client_app, H1. cbn [fmap list_fmap fst snd]. rewrite of_client_one. split; [by case_decide|]. by rewrite H2, <- app_assoc.
  - done.
Qed.

Lemma data_inv_step type queue k s s' : data_inv type queue k s -> data_step type queue s s' -> data_inv type queue k s'.
Proof.
  intros Hi Hst. revert Hi. destruct Hst as [p p' n arr E|p n arr Hlt|p n arr c q w Hq]; [by apply data_own_inv|..]; intros [Ho [Hl Hn] Hi Hs Hd Hh];
    cbn [fst snd] in *; split; cbn [fst snd d_pc d_idx d_cqs d_calls]; try done.
  - split; [done|lia].
  - destruct Hi; [by left|right; lia].
  - destruct Hs; [by left|right; lia].
  - intros c' r Hr. rewrite of_client_app, of_client_one. apply list_lookup_insert_Some in Hr as [(<- & <- & _)|[Hne Hr]].
    + destruct (Ho c q Hq) as (handled & H1 & H2). exists handled. split; [done|].
      rewrite decide_True, H2, arrive_pending by done. by rewrite <- !app_assoc.
    + destruct (Ho c' r Hr) as (handled & H1 & H2). exists handled. split; [done|]. by rewrite decide_False, app_nil_r.
  - split; [by rewrite length_insert|done].
Qed.

Lemma data_reaches_inv type queue k p n arrived : data_reaches type queue k p n arrived -> data_inv type queue k (p, n, arrived).
Proof.
  intros (p0 & (E1 & E2 & E3 & E4 & E5) & Hr). revert Hr.
  apply (rtc_invariant _ (data_inv type queue k) (p0, 0%nat, []) (p, n, arrived)); [intros s s'; apply data_inv_step|].
  split; cbn [fst snd]; rewrite ?E1, ?E2, ?E5; try done; [|split; [done|lia]|by left|by left|by intros c w [?|?]].
  intros c q Hq. exists []. split; [done|]. by rewrite (proj1 (Forall_lookup _ _) E4 c q Hq).
Qed.

Definition event_hand (x : event_pc) : list wc := match x with EProcess w | EDied w => [w] | _ => [] end.
Lemma event_in_order b p p' arrived : event_filter_cq_handler b p = Some p' ->
  in_order (event_dispatch ∘ opcode) event_hand (p, arrived) -> in_order (event_dispatch ∘ opcode) event_hand (p', arrived).
Proof.
  destruct p as [x q cs]. unfold event_filter_cq_handler. cbn [pc cq calls]. destruct x as [| | | | |w|w]; try intros [= <-].
  - handover (@nil wc). by rewrite notify_pending.
  - destruct (get_cq_event q) as [q'|] eqn:E; [|done]. intros [= <-]. apply get_cq_event_Some in E as (E & _). handover (@nil wc). by rewrite E.
  - handover (@nil wc). by rewrite ack_pending.
  - handover (@nil wc). by rewrite notify_pending.
  - destruct (poll_cq q) as [[w|] q'] eqn:E; intros [= <-].
    + apply poll_cq_cons in E as (E & _). handover (@nil wc). rewrite E. by destruct (wc_ok w).
    + apply poll_cq_nil in E as (-> & _). by handover (@nil wc).
  - by handover [w].
Qed.

Definition hybrid_hand (x : hybrid_pc) : list wc := match h_at x with HPoll l | HProcess l => l | _ => [] end.
Lemma count_hand x l : hybrid_hand (count x l) = l.
Proof. by destruct l. Qed.

Lemma hybrid_in_order mode b p p' arrived : hybrid_data_cq_poller mode b p = Some p' ->
  in_order (event_dispatch ∘ opcode) hybrid_hand (p, arrived) -> in_order (event_dispatch ∘ opcode) hybrid_hand (p', arrived).
Proof.
  destruct p as [[x d s f] q cs]. unfold hybrid_data_cq_poller, goto. cbn [pc cq calls h_at duration succ_cnt failed_cnt].
  destruct x as [| | | |l|[|w l]| | |]; try intros [= <-].
  - handover (@nil wc). by rewrite notify_pending.
  - destruct (get_cq_event q) as [q'|] eqn:E; [|done]. intros [= <-]. apply get_cq_event_Some in E as (E & _). handover (@nil wc). by rewrite E.
  - by handover (@nil wc).
  - handover (@nil wc). by destruct b.
  - destruct (_ <? _); [destruct (poll_cq q) as [[w|] q'] eqn:E|]; intros [= <-].
    + apply poll_cq_cons in E as (E & _). handover (@nil wc). cbn [hybrid_hand h_at]. rewrite E. by rewrite <- app_assoc.
    + apply poll_cq_nil in E as (-> & _). handover (@nil wc). by rewrite count_hand.
    + handover (@nil wc). by rewrite count_hand.
  - by handover (@nil wc).
  - by handover [w].
  - destruct (adapt mode s f d) as [next d']. intros [= <-]. handover (@nil wc). by destruct next.
  - handover (@nil wc). by rewrite notify_pending.
  - handover (@nil wc). by rewrite ack_pending.
Qed.

Definition filter_hand (x : filter_pc) : list wc := match x with FProcess w => [w] | _ => [] end.
Lemma filter_in_order b p p' arrived : filter_event_handler b p = Some p' ->
  in_order filter_dispatch filter_hand (p, arrived) -> in_order filter_dispatch filter_hand (p', arrived).
Proof.
  destruct p as [x q cs]. unfold filter_event_handler. cbn [pc cq calls]. destruct x as [| |w|]; try intros [= <-].
  - destruct (get_cq_event q) as [q'|] eqn:E; [|done]. intros [= <-]. apply get_cq_event_Some in E as (E & _). handover (@nil wc). by rewrite E.
  - destruct (poll_cq q) as [[w|] q'] eqn:E; intros [= <-].
    + apply poll_cq_cons in E as (E & _). handover (@nil wc). by rewrite E.
    + apply poll_cq_nil in E as (-> & _). by handover (@nil wc).
  - handover [w]. by destruct (filter_dispatch w).
  - pose proof (notify_pending q) as E. destruct (req_notify_cq q) as [m q']. cbn [snd] in E. intros [= <-]. handover (@nil wc). rewrite E. by destruct m.
Qed.

(** The batch fits [wc_arr]. *)
Lemma batch_bound mode p arrived d : reaches (hybrid_data_cq_poller mode) (Hybrid HStart d 0 0) p arrived ->
  Z.of_nat (length (hybrid_hand (pc p))) <= MAX_POLL_WC.
Proof.
  intros (p0 & (E & _) & Hr). revert Hr.
  apply (rtc_invariant _ (fun s => Z.of_nat (length (hybrid_hand (pc s.1))) <= MAX_POLL_WC) (p0, []) (p, arrived)); [|cbn [fst]; by rewrite E].
  intros s s' Hi Hp. destruct Hp as [b p1 p2 arr Es|w p1 arr]; [|exact Hi]. cbn [fst] in *. revert Es Hi.
  destruct p1 as [[x d1 s1 f1] q cs]. unfold hybrid_data_cq_poller, goto. cbn [pc cq calls h_at duration succ_cnt failed_cnt].
  destruct x as [| | | |l|[|w l]| | |]; try (intros [= <-]; done).
  - destruct (get_cq_event q); [|done]. by intros [= <-].
  - intros [= <-]. by destruct b.
  - unfold hybrid_hand. cbn [h_at]. destruct (Z.ltb_spec (Z.of_nat (length l)) MAX_POLL_WC); [destruct (poll_cq q) as [[w|] q']|]; intros [= <-] Hi; cbn [pc].
    + cbn [h_at]. rewrite length_app. cbn [length]. lia.
    + fold (hybrid_hand (count (Hybrid (HPoll l) d1 s1 f1) l)). by rewrite count_hand.
    + fold (hybrid_hand (count (Hybrid (HPoll l) d1 s1 f1) l)). by rewrite count_hand.
  - intros [= <-]. unfold hybrid_hand. cbn [pc h_at length]. lia.
  - destruct (adapt mode s1 f1 d1) as [next d']. intros [= <-]. by destruct next.
Qed.

(** ** Order *)

(** C28: Every loop hands the completions of a queue to the handlers of their kinds one after the other in the order of
    their arrival, losing and repeating none: the busy poller with one queue as the global one, which goes round the clients
    that have connected, for the queue of each client; the event handlers; and the hybrid poller, whose batches do not exceed
    their array. *)
Theorem pollers_in_order type queue k n arrivals mode arrived (pd : data_poller Q) (pe : poller Q event_pc) (ph : poller Q hybrid_pc) (pf : poller Q filter_pc) :
  (data_reaches type queue k pd n arrivals -> forall c q, d_cqs pd !! c = Some q ->
     exists handled, calls_of c (d_calls pd) = (fun w => (data_dispatch (opcode w), w)) <$> handled /\
       of_client c arrivals = handled ++ data_hand c (d_pc pd) ++ cq_pending q) /\
  (reaches event_filter_cq_handler EStart pe arrived ->
     exists handled, calls pe = (fun w => (event_dispatch (opcode w), w)) <$> handled /\
       arrived = handled ++ event_hand (pc pe) ++ cq_pending (cq pe)) /\
  (reaches (hybrid_data_cq_poller mode) (Hybrid HStart (first_duration mode) 0 0) ph arrived ->
     Z.of_nat (length (hybrid_hand (pc ph))) <= 2048 /\
     exists handled, calls ph = (fun w => (event_dispatch (opcode w), w)) <$> handled /\
       arrived = handled ++ hybrid_hand (pc ph) ++ cq_pending (cq ph)) /\
  (reaches filter_event_handler FIdle pf arrived ->
     exists handled, calls pf = (fun w => (filter_dispatch w, w)) <$> handled /\
       arrived = handled ++ filter_hand (pc pf) ++ cq_pending (cq pf)).
Proof.
  split_and!; intros Hr.
  - intros c q. apply (di_order _ _ _ _ (data_reaches_inv _ _ _ _ _ _ Hr)).
  - exact (in_order_reaches _ (event_dispatch ∘ opcode) event_hand EStart _ _ eq_refl event_in_order Hr).
  - split; [by eapply batch_bound|]. exact (in_order_reaches _ (event_dispatch ∘ opcode) hybrid_hand (Hybrid HStart _ 0 0) _ _ eq_refl (hybrid_in_order mode) Hr).
  - exact (in_order_reaches _ filter_dispatch filter_hand FIdle _ _ eq_refl filter_in_order Hr).
Qed.

(** ** The global poller *)

Definition global_own (n : nat) : relation (data_poller Q) := fun a b => data_cq_poller GLOBAL_QP_POLLER 0 n a = Some b.
Definition all_ok (cqs : list Q) : Prop := Forall (fun q => Forall (fun w => wc_ok w = true) (cq_pending q)) cqs.

Lemma all_ok_insert cqs i q : all_ok cqs -> Forall (fun w => wc_ok w = true) (cq_pending q) -> all_ok (<[i := q]> cqs).
Proof. intros H Hq. by apply Forall_insert. Qed.

(** One turn: the queue of client [i] is polled, its completion handled if there is one. *)
Lemma global_turn n i cqs cs q : (i < n)%nat -> cqs !! i = Some q -> all_ok cqs ->
  exists cqs' more, rtc (global_own n) (DataPoller DPoll i cqs cs) (DataPoller DPoll (S i mod n) cqs' (cs ++ more)) /\
    all_ok cqs' /\ length cqs' = length cqs /\ (forall j, j <> i -> cqs' !! j = cqs !! j) /\
    more = match cq_pending q with [] => [] | w :: _ => [(data_dispatch (opcode w), i, w)] end.
Proof.
  intros Hi Hq Hok. pose proof (proj1 (Forall_lookup _ _) Hok i q Hq) as Hqok. cbv beta in Hqok. pose proof (poll_cq_ok q) as Hp.
  destruct (cq_pending q) as [|w l].
  - exists (<[i := q]> cqs), []. rewrite app_nil_r. split; [|split; [by rewrite list_insert_id|split; [apply length_insert|split; [|done]]]].
    + apply rtc_once. unfold global_own, data_cq_poller. cbn [d_pc d_idx d_cqs d_calls]. rewrite Hq. cbn [mbind option_bind]. by rewrite Hp.
    + intros j Hj. by rewrite list_lookup_insert_ne.
  - destruct Hp as (q' & E & El & _). apply Forall_cons in Hqok as [Hw Hl]. exists (<[i := q']> cqs), [(data_dispatch (opcode w), i, w)].
    split; [|split; [apply all_ok_insert; [done|by rewrite El]|split; [apply length_insert|split; [|done]]]].
    + eapply rtc_l; [unfold global_own, data_cq_poller; cbn [d_pc d_idx d_cqs d_calls]; rewrite Hq; cbn [mbind option_bind]; by rewrite E, Hw|].
      by apply rtc_once.
    + intros j Hj. by rewrite list_lookup_insert_ne.
Qed.

Lemma global_round n c q w l d : (0 < n)%nat -> cq_pending q = w :: l -> forall i cqs cs,
  (i < n)%nat -> (n <= length cqs)%nat -> (d < n)%nat -> ((i + d) mod n = c)%nat -> cqs !! c = Some q -> all_ok cqs ->
  exists p' more, rtc (global_own n) (DataPoller DPoll i cqs cs) p' /\ d_calls p' = cs ++ more ++ [(data_dispatch (opcode w), c, w)].
Proof.
  intros Hn Hw. induction d as [|d IH]; intros i cqs cs Hi Hl Hd Hc Hq Hok.
  - rewrite Nat.add_0_r, Nat.mod_small in Hc by done. subst c.
    destruct (global_turn n i cqs cs q Hi Hq Hok) as (cqs' & more & Hr & _ & _ & _ & ->). rewrite Hw in Hr.
    by exists (DataPoller DPoll (S i mod n) cqs' (cs ++ [(data_dispatch (opcode w), i, w)])), [].
  - destruct (lookup_lt_is_Some_2 cqs i) as [qi Hqi]; [lia|].
    destruct (global_turn n i cqs cs qi Hi Hqi Hok) as (cqs' & more & Hr & Hok' & Hlen & Hsame & _).
    assert (c <> i) as Hne.
    { intros ->. destruct (decide (i + S d < n)%nat) as [Hlt|Hge]; [rewrite !Nat.mod_small in Hc by lia; lia|].
      replace (i + S d)%nat with ((i + S d - n) + 1 * n)%nat in Hc by lia. rewrite Nat.Div0.mod_add, !Nat.mod_small in Hc by lia. lia. }
    destruct (IH (S i mod n)%nat cqs' (cs ++ more)) as (p' & more' & Hr' & E).
    + apply Nat.mod_upper_bound. lia.
    + by rewrite Hlen.
    + lia.
    + rewrite Nat.Div0.add_mod_idemp_l, <- Hc. f_equal. lia.
    + by rewrite Hsame.
    + done.
    + exists p', (more ++ more'). split; [by etrans|]. by rewrite E, <- !app_assoc.
Qed.

(** No client is starved: the global poller reaches the oldest completion of any connected client by itself, however
    many completions the others have. *)
Theorem global_poller_serves k n arrived p c q w l :
  data_reaches GLOBAL_QP_POLLER 0 k p n arrived -> Forall (fun x : nat * wc => wc_ok x.2 = true) arrived ->
  (c < n)%nat -> d_cqs p !! c = Some q -> cq_pending q = w :: l ->
  exists p' more, rtc (global_own n) p p' /\ d_calls p' = d_calls p ++ more ++ [(data_dispatch (opcode w), c, w)].
Proof.
  intros Hr Hok Hc Hq Hw. destruct (data_reaches_inv _ _ _ _ _ _ Hr) as [Ho [Hl Hn] Hi Hs Hd Hh].
  destruct p as [x i cqs cs]. cbn [fst snd d_pc d_idx d_cqs d_calls] in *.
  assert (forall j r, cqs !! j = Some r -> Forall (fun w => wc_ok w = true) (data_hand j x ++ cq_pending r)) as Hall.
  { intros j r Hj. destruct (Ho j r Hj) as (handled & _ & E). apply Forall_forall. intros v Hv.
    assert (v ∈ of_client j arrived) as Hin by (rewrite E; apply elem_of_app; by right).
    unfold of_client in Hin. apply list_elem_of_fmap in Hin as ([j' v'] & -> & [_ Hin]%list_elem_of_filter).
    exact (proj1 (Forall_forall _ _) Hok _ Hin). }
  assert (all_ok cqs) as Hcqs by (apply Forall_lookup; intros j r Hj; by apply (Forall_app _ (data_hand j x)), Hall).
  assert (forall cs0, (i < n)%nat -> exists p' more, rtc (global_own n) (DataPoller DPoll i cqs cs0) p' /\
    d_calls p' = cs0 ++ more ++ [(data_dispatch (opcode w), c, w)]) as Hgo.
  { intros cs0 Hin. apply (global_round n c q w l ((c + n - i) mod n)%nat); try done; try lia.
    - apply Nat.mod_upper_bound. lia.
    - rewrite Nat.Div0.add_mod_idemp_r. replace (i + (c + n - i))%nat with (c + 1 * n)%nat by lia.
      rewrite Nat.Div0.mod_add. by apply Nat.mod_small. }
  destruct x as [| |c' w'|c' w'].
  - destruct (Hgo cs ltac:(lia)) as (p' & more & Hr' & E). exists p', more. split; [|done]. eapply rtc_l; [|exact Hr'].
    unfold global_own, data_cq_poller. cbn [d_pc d_idx d_cqs d_calls]. destruct (Nat.eqb_spec n 0); [lia|done].
  - destruct Hi as [?|Hi]; [done|]. by apply Hgo.
  - destruct Hi as [?|Hi]; [done|]. destruct (Hgo (cs ++ [(data_dispatch (opcode w'), c', w')]) Hi) as (p' & more & Hr' & E).
    exists p', ([(data_dispatch (opcode w'), c', w')] ++ more). split; [by eapply rtc_l|]. by rewrite E, <- !app_assoc.
  - exfalso. destruct (lookup_lt_is_Some_2 cqs c') as [r Hr']; [rewrite Hl; apply (Hh c' w'); by right|].
    pose proof (Hall c' r Hr') as Hf. cbn [data_hand] in Hf. rewrite decide_True in Hf by done.
    apply Forall_cons in Hf as [Hf _]. by rewrite (Hd c' w' eq_refl) in Hf.
Qed.

(** ** The driver's handler *)

(** A completion the handler does not give up on. *)
Definition accepted (w : wc) : bool := match filter_dispatch w with CallShutdown => false | _ => true end.

(** While the handler rests, a completion that is pending has an event on its way. *)
Definition rearmed (p : poller Q filter_pc) : Prop :=
  match pc p with
  | FIdle => Forall (fun '(h, _) => h <> CallShutdown) (calls p) -> cq_pending (cq p) <> [] -> cq_events (cq p) <> 0%nat
  | _ => True
  end /\
  match pc p with
  | FIdle => Forall (fun '(h, _) => h <> CallShutdown) (calls p) -> cq_armed (cq p) = true \/ cq_events (cq p) <> 0%nat
  | _ => True
  end.

Lemma filter_rearmed b p p' : filter_event_handler b p = Some p' -> rearmed p -> rearmed p'.
Proof.
  destruct p as [x q cs]. unfold filter_event_handler, rearmed. cbn [pc cq calls]. destruct x as [| |w|]; try intros [= <-].
  - destruct (get_cq_event q); [|done]. by intros [= <-].
  - destruct (poll_cq q) as [[w|] q']; by intros [= <-].
  - intros _. cbn [pc cq calls]. destruct (filter_dispatch w) eqn:E; try done.
    split; intros (_ & (H & _)%Forall_cons)%Forall_app; by destruct H.
  - pose proof (req_notify_cq_ok q) as (E1 & E2 & _ & E3). destruct (req_notify_cq q) as [m q']. cbn [fst snd] in *.
    intros [= <-] _. cbn [pc cq calls]. destruct m; [done|]. rewrite E1, E2, E3 by done. split; [done|by left].
Qed.

Lemma arrive_rearmed w p : rearmed p -> rearmed (Poller (pc p) (cq_arrive (cq p) w) (calls p)).
Proof.
  unfold rearmed. cbn [pc cq calls]. destruct (pc p); try done. intros (_ & H2).
  destruct (cq_arrive_ok (cq p) w) as (E1 & E2 & E3).
  assert (Forall (fun '(h, _) => h <> CallShutdown) (calls p) -> cq_events (cq_arrive (cq p) w) <> 0%nat) as H.
  { intros Hf. rewrite E3. destruct (H2 Hf) as [->|?]; lia. }
  split; [auto|]. right. auto.
Qed.

Lemma accepted_calls l : Forall (fun w => accepted w = true) l -> Forall (fun '(h, _) => h <> CallShutdown) ((fun w => (filter_dispatch w, w)) <$> l).
Proof. intros H. rewrite Forall_fmap. eapply Forall_impl; [done|]. intros w. cbn. unfold accepted. by destruct (filter_dispatch w). Qed.

Definition own : relation (poller Q filter_pc) := fun p p' => exists b, filter_event_handler b p = Some p'.

Lemma own_process p w : pc p = FProcess w -> accepted w = true -> exists p', own p p' /\ pc p' = FPoll /\ cq p' = cq p.
Proof.
  destruct p as [x q cs]. cbn [pc]. intros -> Hw. unfold accepted in Hw. eexists. split; [by exists true|]. by destruct (filter_dispatch w).
Qed.

Lemma own_poll p w l : pc p = FPoll -> cq_pending (cq p) = w :: l -> exists p', own p p' /\ pc p' = FProcess w /\ cq_pending (cq p') = l.
Proof.
  destruct p as [x q cs]. cbn [pc cq]. intros -> El. pose proof (poll_cq_ok q) as H. rewrite El in H. destruct H as (q' & E & El' & _).
  exists (Poller (FProcess w) q' cs). split; [|done]. exists true. unfold filter_event_handler. cbn [pc cq calls]. by rewrite E.
Qed.

(** With something pending, the handler is started or goes round again. *)
Lemma own_wake p : pc p = FIdle \/ pc p = FNotify -> rearmed p -> Forall (fun '(h, _) => h <> CallShutdown) (calls p) ->
  cq_pending (cq p) <> [] -> exists p', own p p' /\ pc p' = FPoll /\ cq_pending (cq p') = cq_pending (cq p).
Proof.
  destruct p as [x q cs]. unfold rearmed. cbn [pc cq calls]. intros [->| ->] (Hr & _) Hc Hp.
  - specialize (Hr Hc Hp). pose proof (get_cq_event_ok q) as H. destruct (cq_events q); [done|]. destruct H as (q' & E & Ep & _).
    exists (Poller FPoll q' cs). split; [|done]. exists true. unfold filter_event_handler. cbn [pc cq calls]. by rewrite E.
  - destruct (req_notify_cq_ok q) as (E1 & _ & _ & E2). exists (Poller FPoll (req_notify_cq q).2 cs). split; [|done]. exists true.
    unfold filter_event_handler. cbn [pc cq calls]. destruct (req_notify_cq q) as [[] q']; [done|]. by destruct Hp; apply E2.
Qed.

Lemma own_drain l : forall p, pc p = FPoll -> cq_pending (cq p) = l -> Forall (fun w => accepted w = true) l ->
  exists p', rtc own p p' /\ pc p' = FPoll /\ cq_pending (cq p') = [].
Proof.
  induction l as [|w l IH]; intros p E1 E2 Ha; [by exists p|]. apply Forall_cons in Ha as (Hw & Ha).
  destruct (own_poll p w l E1 E2) as (p1 & S1 & E3 & E4). destruct (own_process p1 w E3 Hw) as (p2 & S2 & E5 & E6).
  destruct (IH p2 E5 ltac:(by rewrite E6) Ha) as (p' & R & H). exists p'. split; [|done]. eapply rtc_l; [done|]. by eapply rtc_l.
Qed.

Lemma filter_goes_on p arrived : rearmed p -> in_order filter_dispatch filter_hand (p, arrived) ->
  Forall (fun w => accepted w = true) arrived ->
  exists p', rtc own p p' /\ filter_hand (pc p') = [] /\ cq_pending (cq p') = [].
Proof.
  intros Hr (handled & H1 & H2) Ha. cbn [fst snd] in H1, H2. rewrite H2, !Forall_app in Ha. destruct Ha as (Ha1 & Ha2 & Ha3).
  assert (pc p = FIdle \/ pc p = FNotify -> exists p', rtc own p p' /\ filter_hand (pc p') = [] /\ cq_pending (cq p') = []) as Hrest.
  { intros Hp. destruct (decide (cq_pending (cq p) = [])) as [E0|Hne]; [exists p; by destruct Hp as [->| ->]|].
    destruct (own_wake p Hp Hr) as (p1 & S1 & E1 & E2); [rewrite H1; by apply accepted_calls|done|].
    destruct (own_drain (cq_pending (cq p)) p1 E1 E2 Ha3) as (p' & R & E3 & E4). exists p'. rewrite E3. split; [by eapply rtc_l|done]. }
  destruct (pc p) as [| |w|] eqn:Ep; [auto| | |auto].
  - destruct (own_drain _ p Ep eq_refl Ha3) as (p' & R & E1 & E2). exists p'. by rewrite E1.
  - apply Forall_cons in Ha2 as (Hw & _). destruct (own_process p w Ep Hw) as (p1 & S1 & E1 & E2).
    destruct (own_drain _ p1 E1 eq_refl) as (p' & R & E3 & E4); [by rewrite E2|]. exists p'. rewrite E3. split; [by eapply rtc_l|done].
Qed.

(** C29: However the completions arrive, the driver's handler does not sleep over one: from every reachable state it runs on by
    itself until each completion has been handled (none having failed or being of a strange kind). *)
Theorem filter_handler_catches_up p0 p arrived : starts FIdle p0 -> cq_armed (cq p0) = true ->
  rtc (poll_step filter_event_handler) (p0, []) (p, arrived) ->
  Forall (fun w => wc_ok w = true /\ opcode w <> IBV_WC_OTHER /\ opcode w <> IBV_WC_RDMA_READ) arrived ->
  exists p', rtc (fun a b => exists c, filter_event_handler c a = Some b) p p' /\
    calls p' = (fun w => (filter_dispatch w, w)) <$> arrived.
Proof.
  intros Hs Ha Hr Hok. assert (Forall (fun w => accepted w = true) arrived) as Hacc.
  { eapply Forall_impl; [done|]. intros w (E1 & E2 & E3). unfold accepted, filter_dispatch. rewrite E1. by destruct (opcode w). }
  assert (rearmed p /\ in_order filter_dispatch filter_hand (p, arrived)) as (Hre & Hin).
  { revert Hr. apply (rtc_invariant _ (fun s => rearmed s.1 /\ in_order filter_dispatch filter_hand s) (p0, []) (p, arrived)).
    - intros s s' (H1 & H2) Hp. split; [|by eapply in_order_step; [apply filter_in_order|..]].
      destruct Hp; [by eapply filter_rearmed|by apply arrive_rearmed].
    - split; [|by apply (in_order_start _ _ FIdle)]. destruct Hs as (E1 & E2 & E3). unfold rearmed. cbn [fst]. rewrite E1, E2, Ha. auto. }
  destruct (filter_goes_on p arrived Hre Hin Hacc) as (p' & R & E1 & E2). exists p'. split; [done|].
  assert (in_order filter_dispatch filter_hand (p', arrived)) as (handled & H1 & H2).
  { revert R. apply (rtc_invariant _ (fun p => in_order filter_dispatch filter_hand (p, arrived))); [|done].
    intros a b Hab (c & Hc). by eapply filter_in_order. }
  cbn [fst snd] in H1, H2. rewrite E1, E2, app_nil_r in H2. by rewrite H2.
Qed.
End spec.

(** ** The daemon's event loops *)

Definition q0 : simple_cq := SimpleCq [] false 0.
Definition recv_wc (imm : Z) : wc := Wc IBV_WC_RECV true 0 imm.
Definition write_wc : wc := Wc IBV_WC_RDMA_WRITE true 0 0.

(** A run given by its steps: [inl b] a step of the loop, [inr w] an arrival. *)
Fixpoint run_poller {PC} (step : bool -> poller simple_cq PC -> option (poller simple_cq PC)) (acts : list (bool + wc))
    (s : poller simple_cq PC * list wc) : option (poller simple_cq PC * list wc) :=
  match acts with
  | [] => Some s
  | inl b :: acts => p ← step b s.1; run_poller step acts (p, s.2)
  | inr w :: acts => run_poller step acts (Poller (pc s.1) (cq_arrive (cq s.1) w) (calls s.1), s.2 ++ [w])
  end.
Lemma run_poller_rtc {PC} (step : bool -> poller simple_cq PC -> option (poller simple_cq PC)) acts s s' :
  run_poller step acts s = Some s' -> rtc (poll_step step) s s'.
Proof.
  revert s. induction acts as [|[b|w] acts IH]; intros [p1 arr]; cbn [run_poller fst snd].
  - by intros [= ->].
  - destruct (step b p1) as [p2|] eqn:E; [|done]. intros H. eapply rtc_l; [by eapply own_step|]. by apply IH.
  - intros H. eapply rtc_l; [by apply arrive_step|]. by apply IH.
Qed.
Lemma run_poller_reaches {PC} step (x : PC) acts p arrived :
  run_poller step acts (Poller x q0 [], []) = Some (p, arrived) -> reaches step x p arrived.
Proof. intros E. exists (Poller x q0 []). split; [done|]. by eapply run_poller_rtc. Qed.

(** Two completions behind one event; a completion between the last poll and the call for notification. *)
Definition e_acts (imm : Z) : list (bool + wc) :=
  [inl true; inr write_wc; inr (recv_wc imm)] ++ replicate 5 (inl true).
Definition h_acts (imm : Z) : list (bool + wc) :=
  [inl true; inr write_wc] ++ replicate 7 (inl true) ++ [inl false] ++ replicate 5 (inl true) ++ [inl false; inl true; inr (recv_wc imm)] ++ replicate 2 (inl true).

(** C30: The daemon's event loops can sleep over a completion: the filter handler polls one completion per
    event, so a request that comes with the completion of the previous answer waits; the hybrid poller asks for notification after its
    last poll and does not look again. Nothing but another completion wakes them. *)
Theorem event_loops_sleep (imm : Z) (mode : wc_mode_t) :
  (exists p : poller simple_cq event_pc, reaches event_filter_cq_handler EStart p [write_wc; recv_wc imm] /\
     (forall b, event_filter_cq_handler b p = None) /\ cq_pending (cq p) = [recv_wc imm] /\ calls p = [(CallNone, write_wc)]) /\
  (exists p : poller simple_cq hybrid_pc, reaches (hybrid_data_cq_poller mode) (Hybrid HStart (first_duration mode) 0 0) p [write_wc; recv_wc imm] /\
     (forall b, hybrid_data_cq_poller mode b p = None) /\ cq_pending (cq p) = [recv_wc imm] /\ calls p = [(CallNone, write_wc)]).
Proof.
  split.
  - eexists. split; [apply (run_poller_reaches _ _ (e_acts imm)); vm_compute; reflexivity|done].
  - destruct mode; (eexists; split; [apply (run_poller_reaches _ _ (h_acts imm)); vm_compute; reflexivity|done]).
Qed.

(** ** Witnesses *)

(** A state of each loop after the two completions of [event_loops_sleep]. *)
Definition w_data : data_poller simple_cq :=
  DataPoller (DProcess 1 (recv_wc 5)) 0 [SimpleCq [] false 0; SimpleCq [write_wc] false 0] [(CallNone, 0%nat, write_wc)].
Definition w_data0 : data_poller simple_cq := DataPoller DWaitClient 0 [q0; q0] [].
Definition w_event : poller simple_cq event_pc := Poller EWait (SimpleCq [recv_wc 5] true 0) [(CallNone, write_wc)].
Definition w_hybrid : poller simple_cq hybrid_pc := Poller (Hybrid HWait 32 0 1) (SimpleCq [recv_wc 5] true 0) [(CallNone, write_wc)].
Definition w_filter : poller simple_cq filter_pc := Poller FIdle (SimpleCq [write_wc; recv_wc 5] false 0) [].

Lemma pollers_in_order_witness :
  (forall c q, d_cqs w_data !! c = Some q ->
     exists handled, calls_of c (d_calls w_data) = (fun w => (data_dispatch (opcode w), w)) <$> handled /\
       of_client c [(0%nat, write_wc); (1%nat, recv_wc 5); (1%nat, write_wc)] = handled ++ data_hand c (d_pc w_data) ++ cq_pending q) /\
  (exists handled, calls w_event = (fun w => (event_dispatch (opcode w), w)) <$> handled /\
     [write_wc; recv_wc 5] = handled ++ event_hand (pc w_event) ++ cq_pending (cq w_event)) /\
  (exists handled, calls w_hybrid = (fun w => (event_dispatch (opcode w), w)) <$> handled /\
     [write_wc; recv_wc 5] = handled ++ hybrid_hand (pc w_hybrid) ++ cq_pending (cq w_hybrid)) /\
  (exists handled, calls w_filter = (fun w => (filter_dispatch w, w)) <$> handled /\
     [write_wc; recv_wc 5] = handled ++ filter_hand (pc w_filter) ++ cq_pending (cq w_filter)).
Proof.
  destruct (pollers_in_order GLOBAL_QP_POLLER 0 2 2 [(0%nat, write_wc); (1%nat, recv_wc 5); (1%nat, write_wc)] WC_ADAPTIVE_BO [write_wc; recv_wc 5] w_data w_event w_hybrid w_filter) as (H1 & H2 & H3 & H4).
  split_and!.
  - apply H1. exists w_data0. split; [by repeat constructor|]. do 2 (eapply rtc_l; [apply data_connect; cbn; lia|]).
    eapply rtc_l; [by apply (data_arrive _ _ w_data0 2 [] 0 q0 write_wc)|].
    eapply rtc_l; [by eapply (data_arrive _ _ _ 2 _ 1 q0 (recv_wc 5))|]. eapply rtc_l; [by eapply (data_arrive _ _ _ 2 _ 1 _ write_wc)|].
    do 4 (eapply rtc_l; [apply data_own; vm_compute; reflexivity|]). vm_compute. apply rtc_refl.
  - apply H2, (run_poller_reaches _ _ (e_acts 5)). vm_compute. reflexivity.
  - apply H3, (run_poller_reaches _ _ (h_acts 5)). vm_compute. reflexivity.
  - apply H4, (run_poller_reaches _ _ [inr write_wc; inr (recv_wc 5)]). vm_compute. reflexivity.
Defined.

(** A FILTER_UPDATE_END that comes while the handler polls for what woke it. *)
Definition w_end : wc := Wc IBV_WC_RECV_RDMA_WITH_IMM true 0 7.
Lemma filter_handler_catches_up_witness :
  exists p', rtc (fun a b => exists c, filter_event_handler c a = Some b) (Poller FNotify (SimpleCq [w_end] false 0) [(CallSend, write_wc)]) p' /\
    calls p' = (fun w => (filter_dispatch w, w)) <$> [write_wc; w_end].
Proof.
  apply (filter_handler_catches_up (Poller FIdle (SimpleCq [] true 0) [])).
  - done.
  - reflexivity.
  - apply (run_poller_rtc filter_event_handler [inr write_wc; inl true; inl true; inl true; inl true; inr w_end]). vm_compute. reflexivity.
  - by repeat constructor.
Defined.
